(* ===== verification/_CoqProject ===== *)
-Q . S2P
Prelude.v
Err.v
Kernel.v
CtruUtils.v
Executor.v
ExecutorSys.v
Join.v
Sync.v
Oneshot.v
Lock.v
Notify.v
Reactor.v
CtruThread.v
FsTypes.v
FsSync.v
FsAsync.v
FsPool.v
NetSync.v
NetProps.v
Net.v
NetWorker.v
Runtime.v
