(* ===== verification/Prelude.v ===== *)
(** * A verification of bunnyds

    bunnyds is an asynchronous runtime for the Nintendo 3DS: an executor thread
    that polls tasks, a reactor thread that waits for OS handles, a pool of I/O
    worker threads, worker threads for sockets, and the synchronisation
    primitives they share.  This library models its Rust sources (src/src) and
    proves what makes the parts correct, alone and against each other.

    ** How the code is modelled

    Code is a [prog] (this file): a tree of atomic actions on an explicit state.
    [run] executes a program alone; [duo_step] interleaves two programs action by
    action; larger systems are step relations whose steps are runs of the code
    between two synchronisation points.  An action ends in [Done], in
    [Panicked] (a Rust panic: [unwrap], [todo!], an overflow with checks compiled
    in), in [Blocked] (a system call that has to wait) or in [Undefined] (an
    access outside an allocation), after which nothing more is claimed, not even
    that drops run.  The overflow profile is the parameter
    [Profile]; machine integers are [Z] with the casts written out.

    Everything that is not in the repository is a type class with the documented
    behaviour as its laws: the kernel's semaphores and libctru's events
    ([Kernel]), error reporting of [ctru] and [ds_ipc] ([Err.CtruSys]), the address
    arbiter ([Sync.Arbiter]), timers and the clock ([Reactor.SleepEnv]), threads
    ([CtruThread.Threads]), the file and socket services ([FsSync.FsService],
    [NetSync.SocService]), [socket2] and [libc] ([NetSync.NetLib], [Err.Libc]).  User
    futures are any type with a [Executor.Future] instance.  Each class has a
    concrete instance, used in the modules named [...Demo] to run the code and to
    apply the theorems.  [Executor.WakeSink] is the one interface between
    components: what a primitive may assume of the executor's wake queue; the
    executor's world implements it.

    ** The files

    - [Prelude]: programs, outcomes, integers, [Result], [Poll], interleaving.
    - [Err] (err.rs): [BunnyError], the errno table, [net_try].
    - [Kernel]: the operating system's semaphores and events, and a small kernel.
    - [CtruUtils] (ctru_utils.rs): [Semaphore], [WaitSignal], [SyncQueue]; the
      conservation law between a queue and its semaphore under any number of
      producers and consumers; what a burst of more than 255 elements leaves.
    - [Executor] (executor.rs): tokens, wakers, the global queues, the executor's
      loop ([exec_iter] is one iteration of the innermost loop), join handles,
      [spawn], [spawn_and_block].
    - [ExecutorSys]: the executor among other threads: it sleeps only when both
      queues are empty, tokens are not reused, a drain ends and polls the task of
      every queued token once; and that a task that wakes itself starves the
      others.
    - [Join]: [block_on] returns the value of its future in every interleaving,
      without a deadlock; join handles deliver once; and that completing a task
      wakes nobody who awaits it, so that an awaiting task sleeps for good.
    - [Sync] (sync.rs): oneshot channels, the mutex, notifications, with every
      load and store an action of its own.
    - [Oneshot]: no lost value and no lost wake-up in any interleaving.
    - [Lock]: mutual exclusion, the meaning of the lock word and hand-over in the
      order of arrival for any number of users; what barging and overlapping calls
      do.
    - [Notify]: notifications after, and before, the first poll.
    - [Reactor] (reactor.rs): the handler refines a reference on all traces; the
      [Sleep] future and its timer; its race with the reactor's start.
    - [CtruThread] (ctru_thread.rs, [spawn_blocking]): joining returns the value
      or the panic; blocking functions deliver through their channel.
    - [FsTypes] (fs/types.rs): paths and flags; paths survive serialisation.
    - [FsSync] (fs/sync_impl.rs): the calls of the file service; [Ok] means
      success; what is written is read back.
    - [FsAsync] (fs/async_pool.rs): the pool, the worker's loop, the futures
      with their atomics and buffers in an explicit memory, [AsyncFile].
    - [FsPool]: a completed read, write, flush or close is published, in any
      interleaving of a worker with a poll; reads through the cursor are
      contiguous.
    - [NetSync] (net_sync/mod.rs): address encoding, the calls of the socket
      service, TCP sockets and the drops of their handles.
    - [NetProps]: addresses survive encoding; [connect] closes on failure; what
      [write] reports; what a refused [accept] does.
    - [Net] (net.rs): the worker of a socket, [Recv], [SendFuture], the futures of
      [connect] and [accept].
    - [NetWorker]: a round of the worker loses no interest; it sleeps only when
      nobody waits; a receive that would block is woken.
    - [Runtime] (lib.rs, fs/mod.rs, [init_pool]): start-up over all statics.

    ** Bounds and fuel

    Loops of threads that run forever are modelled by one iteration and a step
    relation, without fuel.  Fuel appears in [Executor.exec_iters] (iterations of the
    executor's loop; the theorems give the number needed, or hold for every
    number), in [Join.drive] and [Join.poll_until] (polls of a future; the theorem is
    about a future that is ready within them) and in [Sync.lock_sync] (rounds of its
    loop; the invariant of [Lock] is stated per round).  [Lock.mutex_excludes] needs
    fewer than 2^31 - 1 users, the range of the lock word.
    [FsPool.pool_completion_is_published] excludes a count of 2^32 - 1 bytes, which
    the code uses for "not done".

    ** What is not modelled

    Logging and [Debug] output; IPC marshalling, which the macros of [ds_ipc]
    generate; memory orderings, since every atomic access is sequentially
    consistent here (the code pairs [Acquire] with [Release], and plain data is
    written before a release and read after an acquire); arm_intrinsics.rs, which
    is not compiled in; the handling of a [Sleep]'s timer handle by the kernel
    when it is moved to the reactor. *)

From Stdlib Require Import ZArith Lia.
From stdpp Require Import base tactics list gmap numbers.

Declare Scope bunny_scope.
Delimit Scope bunny_scope with bunny.
Open Scope bunny_scope.
Open Scope Z_scope.

Create HintDb bunny.
Create Rewrite HintDb run.

(** ** Machine integers

    A Rust integer of a fixed width is a [Z]; [as_u32] and friends are the
    [as] casts (truncation to the width, two's complement for signed types). *)

Definition as_u8 (z : Z) : Z := z mod 2 ^ 8.

Definition as_u16 (z : Z) : Z := z mod 2 ^ 16.

Definition as_u32 (z : Z) : Z := z mod 2 ^ 32.

Definition as_i32 (z : Z) : Z := (z + 2 ^ 31) mod 2 ^ 32 - 2 ^ 31.

Definition as_i64 (z : Z) : Z := (z + 2 ^ 63) mod 2 ^ 64 - 2 ^ 63.

Definition u32_MAX : Z := 2 ^ 32 - 1.

Definition i64_MAX : Z := 2 ^ 63 - 1.

Definition i32_MIN : Z := - 2 ^ 31.

Definition is_u8 (z : Z) : Prop := 0 <= z < 2 ^ 8.

Definition is_u32 (z : Z) : Prop := 0 <= z < 2 ^ 32.

Definition is_i32 (z : Z) : Prop := - 2 ^ 31 <= z < 2 ^ 31.

(** ** Outcomes and programs

    [outcome] is what one run of a piece of code ends in: a value and the new
    state, an unwound panic, a system call that has to wait, or undefined
    behaviour, of which nothing is said: it has no state, and neither
    [catch_unwind] nor a drop sees anything of it.  [prog] is a piece of code as a
    tree of atomic actions on a shared state; it is run without interference by
    [run], and interleaved with other threads by [duo_step]. *)

Inductive outcome (S A : Type) : Type :=
| Done (a : A) (s : S)
| Panicked (s : S)
| Blocked
| Undefined.

Inductive prog (S A : Type) : Type :=
| Ret (a : A)
| Act (f : S -> outcome S (prog S A)).

Arguments Done {S A} a s.
Arguments Panicked {S A} s.
Arguments Blocked {S A}.
Arguments Undefined {S A}.
Arguments Ret {S A} a.
Arguments Act {S A} f.

(** Sequencing of outcomes: a panic or a block ends the composite. *)
Definition obind {S A T B} (o : outcome S A) (panicked : S -> T)
    (k : A -> S -> outcome T B) : outcome T B :=
  match o with
  | Done a s => k a s
  | Panicked s => Panicked (panicked s)
  | Blocked => Blocked
  | Undefined => Undefined
  end.

#[global] Instance prog_ret {S} : MRet (prog S) := fun A a => Ret a.

Fixpoint prog_bind_def {S A B} (k : A -> prog S B) (p : prog S A) : prog S B :=
  match p with
  | Ret a => k a
  | Act f => Act (fun s =>
      match f s with
      | Done p' s' => Done (prog_bind_def k p') s'
      | Panicked s' => Panicked s'
      | Blocked => Blocked
      | Undefined => Undefined
      end)
  end.

#[global] Instance prog_bind {S} : MBind (prog S) :=
  fun A B k p => prog_bind_def k p.

(** Run a program to the end with no other thread in between. *)
Fixpoint run {S A} (p : prog S A) (s : S) : outcome S A :=
  match p with
  | Ret a => Done a s
  | Act f =>
      match f s with
      | Done p' s' => run p' s'
      | Panicked s' => Panicked s'
      | Blocked => Blocked
      | Undefined => Undefined
      end
  end.

(** One atomic action of a thread; [None] when it has finished, panics, has to
    wait or is undefined. *)
Definition step_prog {S A} (p : prog S A) (s : S) : option (prog S A * S) :=
  match p with
  | Ret _ => None
  | Act f =>
      match f s with
      | Done p' s' => Some (p', s')
      | _ => None
      end
  end.

(** Primitive actions. *)
Definition act {S A} (f : S -> outcome S A) : prog S A :=
  Act (fun s =>
    match f s with
    | Done a s' => Done (Ret a) s'
    | Panicked s' => Panicked s'
    | Blocked => Blocked
    | Undefined => Undefined
    end).

Definition panic {S A} : prog S A := Act (fun s => Panicked s).

Definition undefined {S A} : prog S A := Act (fun _ => Undefined).

Definition gets {S A} (f : S -> A) : prog S A := act (fun s => Done (f s) s).

Definition modify {S} (f : S -> S) : prog S unit := act (fun s => Done tt (f s)).

(** [Option::unwrap] / [expect]. *)
Definition unwrap {S A} (o : option A) : prog S A :=
  match o with
  | Some a => mret a
  | None => panic
  end.

(** Code that works on one component of a larger state. *)
Fixpoint zoom {S T A} (get : T -> S) (put : S -> T -> T) (p : prog S A) : prog T A :=
  match p with
  | Ret a => Ret a
  | Act f => Act (fun t =>
      match f (get t) with
      | Done p' s' => Done (zoom get put p') (put s' t)
      | Panicked s' => Panicked (put s' t)
      | Blocked => Blocked
      | Undefined => Undefined
      end)
  end.

Definition on_fst {S T A} (p : prog S A) : prog (S * T) A :=
  zoom fst (fun s t => (s, snd t)) p.

Definition on_snd {S T A} (p : prog T A) : prog (S * T) A :=
  zoom snd (fun s t => (fst t, s)) p.

(** ** Arithmetic at a fixed width

    Rust arithmetic that overflows panics when overflow checks are compiled in
    and wraps otherwise: the profile of the build is a parameter. *)

Class Profile := overflow_checks : bool.

Definition arith {S} `{Profile} (cast : Z -> Z) (z : Z) : prog S Z :=
  if cast z =? z then mret z
  else if overflow_checks then panic else mret (cast z).

(** ** Rust's [Result] and the [?] operator *)

Inductive Result (A E : Type) : Type :=
| Ok (a : A)
| Err (e : E).

Arguments Ok {A E} a.
Arguments Err {A E} e.

Definition try_bind {S A B E} (m : prog S (Result A E))
    (k : A -> prog S (Result B E)) : prog S (Result B E) :=
  r ← m;
  match r with
  | Ok a => k a
  | Err e => mret (Err e)
  end.

Notation "x '←?' m ; k" := (try_bind m (fun x => k))
  (at level 20, m at level 100, k at level 200, right associativity,
   only parsing) : bunny_scope.

(** [std::panic::catch_unwind]: the state changes made before the panic stay. *)
Fixpoint catch_unwind {S A} (p : prog S A) : prog S (Result A unit) :=
  match p with
  | Ret a => Ret (Ok a)
  | Act f => Act (fun s =>
      match f s with
      | Done p' s' => Done (catch_unwind p') s'
      | Panicked s' => Done (Ret (Err tt)) s'
      | Blocked => Blocked
      | Undefined => Undefined
      end)
  end.

(** ** Rust's [Poll] *)

Inductive Poll (A : Type) : Type :=
| Ready (a : A)
| Pending.

Arguments Ready {A} a.
Arguments Pending {A}.

(** ** Interleaving of two threads on a shared state *)

Inductive duo_step {S A B : Type} :
    prog S A * prog S B * S -> prog S A * prog S B * S -> Prop :=
| duo_left p p' q s s' :
    step_prog p s = Some (p', s') -> duo_step (p, q, s) (p', q, s')
| duo_right p q q' s s' :
    step_prog q s = Some (q', s') -> duo_step (p, q, s) (p, q', s').

(** Follow a schedule ([true]: the left thread moves). *)
Fixpoint run_duo {S A B} (sched : list bool) (c : prog S A * prog S B * S) :
    option (prog S A * prog S B * S) :=
  match sched with
  | [] => Some c
  | b :: sched' =>
      let '(p, q, s) := c in
      if b then
        match step_prog p s with
        | Some (p', s') => run_duo sched' (p', q, s')
        | None => None
        end
      else
        match step_prog q s with
        | Some (q', s') => run_duo sched' (p, q', s')
        | None => None
        end
  end.

(** ** Lemmas on programs *)

(** Induction on the actions of a program: the induction hypothesis covers
    every program an action can continue with. *)
Fixpoint prog_all_ind {S A} (P : prog S A -> Prop)
    (HRet : forall a, P (Ret a))
    (HAct : forall f, (forall s p' s', f s = Done p' s' -> P p') -> P (Act f))
    (p : prog S A) : P p :=
  match p with
  | Ret a => HRet a
  | Act f => HAct f (fun s p' s' =>
      match f s as o return o = Done p' s' -> P p' with
      | Done q t => fun e =>
          eq_ind q P (prog_all_ind P HRet HAct q) p'
            (f_equal (fun o => match o with Done x _ => x | _ => q end) e)
      | Panicked t => fun e => False_ind _ (eq_ind (Panicked t)
            (fun o => match o with Panicked _ => True | _ => False end) I _ e)
      | Blocked => fun e => False_ind _ (eq_ind Blocked
            (fun o => match o with Blocked => True | _ => False end) I _ e)
      | Undefined => fun e => False_ind _ (eq_ind Undefined
            (fun o => match o with Undefined => True | _ => False end) I _ e)
      end)
  end.

Lemma run_ret {S A} (a : A) (s : S) : run (mret a) s = Done a s.
Proof. reflexivity. Qed.

Lemma run_bind {S A B} (p : prog S A) (k : A -> prog S B) (s : S) :
  run (p ≫= k) s = obind (run p s) id (fun a s' => run (k a) s').
Proof.
  revert s. induction p as [a|f IH] using prog_all_ind; intros s; [done|].
  cbn. destruct (f s) as [p' s'| | |] eqn:E; [|done..]. exact (IH _ _ _ E s').
Qed.

Lemma run_act {S A} (f : S -> outcome S A) (s : S) : run (act f) s = f s.
Proof. cbn. by destruct (f s). Qed.

Lemma run_gets {S A} (f : S -> A) (s : S) : run (gets f) s = Done (f s) s.
Proof. reflexivity. Qed.

Lemma run_modify {S} (f : S -> S) (s : S) : run (modify f) s = Done tt (f s).
Proof. reflexivity. Qed.

Lemma run_panic {S A} (s : S) : run (panic : prog S A) s = Panicked s.
Proof. reflexivity. Qed.

Lemma run_undefined {S A} (s : S) : run (undefined : prog S A) s = Undefined.
Proof. reflexivity. Qed.

Lemma run_unwrap {S A} (o : option A) (s : S) :
  run (unwrap o) s = match o with Some a => Done a s | None => Panicked s end.
Proof. by destruct o. Qed.

Lemma run_try_bind {S A B E} (m : prog S (Result A E)) (k : A -> prog S (Result B E)) s :
  run (try_bind m k) s =
  obind (run m s) id (fun r s' =>
    match r with Ok a => run (k a) s' | Err e => Done (Err e) s' end).
Proof.
  unfold try_bind. rewrite run_bind. destruct (run m s) as [[]| | |]; reflexivity.
Qed.

(** [zoom] through a lens that is lawful at the current state runs the inner
    code on the component and puts the result back. *)
Lemma run_zoom {S T A} (get : T -> S) (put : S -> T -> T) (p : prog S A) t :
  (forall s t, get (put s t) = s) ->
  (forall s s' t, put s' (put s t) = put s' t) ->
  put (get t) t = t ->
  run (zoom get put p) t =
  obind (run p (get t)) (fun s => put s t) (fun a s => Done a (put s t)).
Proof.
  intros Hgp Hpp Hpg. enough (forall s, run (zoom get put p) (put s t) =
    obind (run p s) (fun s => put s t) (fun a s => Done a (put s t))) as H.
  { by rewrite <- (H (get t)), Hpg. }
  induction p as [a|f IH] using prog_all_ind; intros s; [done|].
  cbn. rewrite Hgp. destruct (f s) as [p' s'|s'| |] eqn:E; [|cbn; by rewrite ?Hpp..].
  rewrite Hpp. exact (IH _ _ _ E s').
Qed.

Lemma run_on_fst {S T A} (p : prog S A) (s : S) (t : T) :
  run (on_fst p) (s, t) = obind (run p s) (fun s' => (s', t)) (fun a s' => Done a (s', t)).
Proof. unfold on_fst. by rewrite run_zoom. Qed.

Lemma run_on_snd {S T A} (p : prog T A) (s : S) (t : T) :
  run (on_snd p) (s, t) = obind (run p t) (fun t' => (s, t')) (fun a t' => Done a (s, t')).
Proof. unfold on_snd. by rewrite run_zoom. Qed.

Lemma run_arith {S} `{Profile} cast z (s : S) :
  run (arith cast z) s =
  if cast z =? z then Done z s
  else if overflow_checks then Panicked s else Done (cast z) s.
Proof. unfold arith. by destruct (cast z =? z); [|destruct overflow_checks]. Qed.

Lemma run_catch_unwind {S A} (p : prog S A) (s : S) :
  run (catch_unwind p) s =
  match run p s with
  | Done a s' => Done (Ok a) s'
  | Panicked s' => Done (Err tt) s'
  | Blocked => Blocked
  | Undefined => Undefined
  end.
Proof.
  revert s. induction p as [a|f IH] using prog_all_ind; intros s; [done|].
  cbn [run catch_unwind]. change (run (Act f) s) with
    (match f s with Done p' s' => run p' s' | Panicked s' => Panicked s' | Blocked => Blocked
     | Undefined => Undefined end).
  unfold run at 1. fold (@run S (Result A unit)).
  destruct (f s) as [p' s'| | |] eqn:E; [|done..]. by apply (IH _ _ _ E).
Qed.

Lemma obind_Done {S A T B} (a : A) (s : S) (g : S -> T) (k : A -> S -> outcome T B) :
  obind (Done a s) g k = k a s.
Proof. reflexivity. Qed.

#[export] Hint Rewrite @run_bind @run_ret @run_act @run_gets @run_modify @run_panic @run_undefined
  @run_unwrap @run_try_bind @run_on_fst @run_on_snd @run_arith @obind_Done : run.

(** Symbolic execution: reduce [run] of composite code to its branches. *)
Ltac run_simpl := repeat (progress (autorewrite with run; cbn [obind id fst snd])).

Tactic Notation "run_simpl" "in" hyp(H) :=
  repeat (progress (autorewrite with run in H; cbn [obind id fst snd] in H)).

(** Case analysis on the first [if] or [match] scrutinee of the goal, keeping
    the equation. *)
Ltac split_case :=
  match goal with
  | |- context [match ?x with _ => _ end] => destruct x eqn:?
  end; simplify_eq/=.

Lemma run_duo_rtc {S A B} sched (c c' : prog S A * prog S B * S) :
  run_duo sched c = Some c' -> rtc duo_step c c'.
Proof.
  revert c. induction sched as [|b sched IH]; intros [[p q] s] H; cbn in H; simplify_eq.
  - reflexivity.
  - destruct b;
      destruct (step_prog _ s) as [[? ?]|] eqn:E; try discriminate;
      (eapply rtc_l; [constructor; exact E | by apply IH]).
Qed.

(** Stepping a thread alone to its end is running it. *)
Lemma run_steps {S A B} (p : prog S A) (q : prog S B) s a s' :
  run p s = Done a s' -> rtc duo_step (p, q, s) (Ret a, q, s').
Proof.
  revert s. induction p as [x|f IH] using prog_all_ind; intros s; cbn.
  - intros; simplify_eq; reflexivity.
  - destruct (f s) as [p' t| | |] eqn:E; [|done..]. intros Hr.
    eapply rtc_l; [apply duo_left; cbn; by rewrite E | by eapply IH].
Qed.

Lemma run_steps_right {S A B} (p : prog S A) (q : prog S B) s b s' :
  run q s = Done b s' -> rtc duo_step (p, q, s) (p, Ret b, s').
Proof.
  revert s. induction q as [x|f IH] using prog_all_ind; intros s; cbn.
  - intros; simplify_eq; reflexivity.
  - destruct (f s) as [q' t| | |] eqn:E; [|done..]. intros Hr.
    eapply rtc_l; [apply duo_right; cbn; by rewrite E | by eapply IH].
Qed.

(** ** Lemmas on machine integers *)

Lemma as_u32_range z : is_u32 (as_u32 z).
Proof. unfold is_u32, as_u32. apply Z.mod_pos_bound. lia. Qed.

Lemma as_u32_id z : is_u32 z -> as_u32 z = z.
Proof. apply Z.mod_small. Qed.

Lemma as_u8_id z : is_u8 z -> as_u8 z = z.
Proof. apply Z.mod_small. Qed.

Lemma as_i32_id z : is_i32 z -> as_i32 z = z.
Proof. unfold is_i32, as_i32. intros. rewrite Z.mod_small; lia. Qed.

Lemma as_i32_range z : is_i32 (as_i32 z).
Proof.
  unfold is_i32, as_i32.
  assert (0 <= (z + 2 ^ 31) mod 2 ^ 32 < 2 ^ 32) by (apply Z.mod_pos_bound; lia). lia.
Qed.

(** Arithmetic whose exact result fits does not depend on the profile. *)
Lemma run_arith_exact {S} `{Profile} cast z (s : S) :
  cast z = z -> run (arith cast z) s = Done z s.
Proof. intros E. rewrite run_arith, E, Z.eqb_refl. reflexivity. Qed.

#[export] Hint Resolve as_u32_range as_u32_id as_u8_id as_i32_id as_i32_range : bunny.

(** From here on [run] is reduced by the lemmas above only. *)
Arguments run {S A} p s : simpl never.
