(* ===== verification/Err.v ===== *)
(** * Errors (src/err.rs)

    [BunnyError], the errno table of the socket service and [net_try].  The
    numeric values of the errno macros belong to the [libc] crate and the
    rendering of foreign errors to [ctru] and [libc::strerror]: they are
    parameters. *)

From Stdlib Require Import ZArith Lia.
From stdpp Require Import base tactics list numbers strings.
From S2P Require Import Prelude.

(** The errno macros of [libc] the table names, in its order. *)
Inductive errno : Type :=
| E2BIG | EACCES | EADDRINUSE | EADDRNOTAVAIL | EAFNOSUPPORT | EAGAIN
| EALREADY | EBADF | EBADMSG | EBUSY | ECANCELED | ECHILD
| ECONNABORTED | ECONNREFUSED | ECONNRESET | EDEADLK | EDESTADDRREQ | EDOM
| EDQUOT | EEXIST | EFAULT | EFBIG | EHOSTUNREACH | EIDRM
| EILSEQ | EINPROGRESS | EINTR | EINVAL | EIO | EISCONN
| EISDIR | ELOOP | EMFILE | EMLINK | EMSGSIZE | EMULTIHOP
| ENAMETOOLONG | ENETDOWN | ENETRESET | ENETUNREACH | ENFILE | ENOBUFS
| ENODATA | ENODEV | ENOENT | ENOEXEC | ENOLCK | ENOLINK
| ENOMEM | ENOMSG | ENOPROTOOPT | ENOSPC | ENOSR | ENOSTR
| ENOSYS | ENOTCONN | ENOTDIR | ENOTEMPTY | ENOTSOCK | ENOTSUP
| ENOTTY | ENXIO | EOPNOTSUPP | EOVERFLOW | EPERM | EPIPE
| EPROTO | EPROTONOSUPPORT | EPROTOTYPE | ERANGE | EROFS | ESPIPE
| ESRCH | ESTALE | ETIME | ETIMEDOUT.

(** Their values on the target, and the message of [libc::strerror]. *)
Class Libc := {
  errno_val : errno -> Z;
  strerror : Z -> string;
}.

(** [ctru::error::Error]: the variants bunnyds builds or matches on, and one
    for all the others. *)
Inductive CtruError : Type :=
| CtruOs (code : Z)
| CtruLibc (msg : string)
| CtruOther (msg : string)
| CtruUnlisted (tag : Z).

(** What bunnyds uses of [ctru] and of the [ds_ipc] crate to report errors:
    [ds_try!(code)] continues on [None] and returns the error otherwise. *)
Class CtruSys := {
  ctru_display : CtruError -> string;
  ds_try : Z -> option CtruError;
  R_FAILED : Z -> bool;
  R_SUMMARY : Z -> Z;
  RS_SUCCESS : Z;
}.

(** Result codes of Horizon: a code is a failure when it is negative, and 0 is
    success; [ds_try!] reports a failing code as [ctru::Error::Os]. *)
Class CtruSysLaws `{CtruSys} : Prop := {
  R_FAILED_neg : forall c, R_FAILED c = (c <? 0);
  R_SUMMARY_0 : R_SUMMARY 0 = RS_SUCCESS;
  ds_try_0 : ds_try 0 = None;
  ds_try_os : forall c e, ds_try c = Some e -> e = CtruOs c;
  ds_try_failed : forall c, c < 0 -> is_Some (ds_try c);
}.

Inductive BunnyError : Type :=
| Ctru (error : CtruError)
| LibcErr (no : Z)
| Other (msg : string).

Abbreviation BunnyResult A := (Result A BunnyError).

(** [ds_try!(code)] inside a function that returns a [BunnyResult]. *)
Definition ds_try_bunny {S A} `{CtruSys} (code : Z)
    (k : prog S (BunnyResult A)) : prog S (BunnyResult A) :=
  match ds_try code with
  | None => k
  | Some e => mret (Err (Ctru e))
  end.

(** The entries of the table after the leading 0, by name. *)
Definition ERROR_NAMES : list errno :=
  [E2BIG; EACCES; EADDRINUSE; EADDRNOTAVAIL; EAFNOSUPPORT;
   EAGAIN; EALREADY; EBADF; EBADMSG; EBUSY;
   ECANCELED; ECHILD; ECONNABORTED; ECONNREFUSED; ECONNRESET;
   EDEADLK; EDESTADDRREQ; EDOM; EDQUOT; EEXIST;
   EFAULT; EFBIG; EHOSTUNREACH; EIDRM; EILSEQ;
   EINPROGRESS; EINTR; EINVAL; EIO; EISCONN;
   EISDIR; ELOOP; EMFILE; EMLINK; EMSGSIZE;
   EMULTIHOP; ENAMETOOLONG; ENETDOWN; ENETRESET; ENETUNREACH;
   ENFILE; ENOBUFS; ENODATA; ENODEV; ENOENT;
   ENOEXEC; ENOLCK; ENOLINK; ENOMEM; ENOMSG;
   ENOPROTOOPT; ENOSPC; ENOSR; ENOSTR; ENOSYS;
   ENOTCONN; ENOTDIR; ENOTEMPTY; ENOTSOCK; ENOTSUP;
   ENOTTY; ENXIO; EOPNOTSUPP; EOVERFLOW; EPERM;
   EPIPE; EPROTO; EPROTONOSUPPORT; EPROTOTYPE; ERANGE;
   EROFS; ESPIPE; ESRCH; ESTALE; ETIME;
   ETIMEDOUT].

Definition ERROR_MAP `{Libc} : list Z := 0 :: (errno_val <$> ERROR_NAMES).

Definition net_try {S} `{Profile, Libc} (ret_val : Z) : prog S (BunnyResult unit) :=
  if ret_val >=? 0 then mret (Ok tt)
  else
    neg ← arith as_i32 (- ret_val);
    let ret_val := as_u32 neg in
    match ERROR_MAP !! Z.to_nat ret_val with
    | None => panic
    | Some ret => mret (Err (LibcErr ret))
    end.

Definition from_ctru (value : CtruError) : BunnyError := Ctru value.

Definition into_ctru `{Libc} (value : BunnyError) : CtruError :=
  match value with
  | Ctru error => error
  | LibcErr libc_no => CtruLibc (strerror libc_no)
  | Other v => CtruOther v
  end.

Definition fmt `{Libc, CtruSys} (e : BunnyError) : string :=
  match e with
  | Ctru error => ctru_display error
  | LibcErr libc_no => String.append "libc: " (strerror libc_no)
  | Other v => v
  end.

(** ** Properties *)

Section net_try.
Context {S : Type} `{Profile, Libc}.

Lemma length_ERROR_MAP : length ERROR_MAP = 77%nat.
Proof. reflexivity. Qed.

(** The errno a negative return value selects. *)
Lemma ERROR_MAP_hit r :
  -76 <= r < 0 -> exists e, ERROR_MAP !! Z.to_nat (- r) = Some (errno_val e).
Proof.
  intros Hr. destruct (Z.to_nat (- r)) as [|n] eqn:E; [lia|].
  destruct (lookup_lt_is_Some_2 ERROR_NAMES n) as [e He]; [cbn [length ERROR_NAMES]; lia|].
  exists e. change ((errno_val <$> ERROR_NAMES) !! n = Some (errno_val e)).
  by rewrite list_lookup_fmap, He.
Qed.

Lemma run_net_try_neg r (s : S) :
  is_i32 r -> r < 0 ->
  run (net_try r) s =
    match ERROR_MAP !! Z.to_nat (- r) with
    | Some e => Done (Err (LibcErr e)) s
    | None => Panicked s
    end.
Proof.
  intros Hi Hr. unfold net_try. destruct (Z.geb_spec r 0); [lia|].
  destruct (decide (r = i32_MIN)) as [->|Hmin].
  - run_simpl.
    rewrite (lookup_ge_None_2 ERROR_MAP (Z.to_nat (- i32_MIN)))
      by (rewrite length_ERROR_MAP; unfold i32_MIN; lia).
    destruct overflow_checks; [reflexivity|].
    change (as_i32 (- i32_MIN) =? - i32_MIN) with false; cbn [obind].
    change (as_u32 (as_i32 (- i32_MIN))) with (- i32_MIN).
    by rewrite (lookup_ge_None_2 ERROR_MAP (Z.to_nat (- i32_MIN)))
      by (rewrite length_ERROR_MAP; unfold i32_MIN; lia).
  - unfold i32_MIN, is_i32 in *. run_simpl.
    rewrite as_i32_id, Z.eqb_refl by (unfold is_i32; lia). cbn [obind].
    rewrite as_u32_id by (unfold is_u32; lia).
    by destruct (ERROR_MAP !! _).
Qed.

(** C23: [net_try] is decided by three ranges of the return value, whatever the
    overflow profile: non-negative values succeed, the 76 codes the table knows
    become the errno listed at that position, and every lower value panics
    (also [i32::MIN], whose negation overflows). *)
Theorem net_try_spec (r : Z) (s : S) :
  is_i32 r ->
  (0 <= r -> run (net_try r) s = Done (Ok tt) s) /\
  (-76 <= r < 0 -> exists e,
     ERROR_MAP !! Z.to_nat (- r) = Some (errno_val e) /\
     run (net_try r) s = Done (Err (LibcErr (errno_val e))) s) /\
  (r < -76 -> run (net_try r) s = Panicked s).
Proof.
  intros Hi. split_and!; intros Hr.
  - unfold net_try. destruct (Z.geb_spec r 0); [reflexivity|lia].
  - destruct (ERROR_MAP_hit r Hr) as [e He]. exists e. split; [done|].
    rewrite run_net_try_neg by (done || lia). by rewrite He.
  - rewrite run_net_try_neg by (done || lia).
    by rewrite lookup_ge_None_2 by (rewrite length_ERROR_MAP; lia).
Qed.

End net_try.

(** ** Concrete parameters

    The errno values of newlib, and an error runtime in which exactly the
    negative codes fail; they instantiate the parameters in the witnesses. *)

#[export] Instance ref_libc : Libc := {|
  errno_val e :=
    match e with
    | E2BIG => 7 | EACCES => 13 | EADDRINUSE => 112 | EADDRNOTAVAIL => 125
    | EAFNOSUPPORT => 106 | EAGAIN => 11 | EALREADY => 120 | EBADF => 9
    | EBADMSG => 77 | EBUSY => 16 | ECANCELED => 140 | ECHILD => 10
    | ECONNABORTED => 113 | ECONNREFUSED => 111 | ECONNRESET => 104 | EDEADLK => 45
    | EDESTADDRREQ => 121 | EDOM => 33 | EDQUOT => 132 | EEXIST => 17
    | EFAULT => 14 | EFBIG => 27 | EHOSTUNREACH => 118 | EIDRM => 36
    | EILSEQ => 138 | EINPROGRESS => 119 | EINTR => 4 | EINVAL => 22
    | EIO => 5 | EISCONN => 127 | EISDIR => 21 | ELOOP => 92
    | EMFILE => 24 | EMLINK => 31 | EMSGSIZE => 122 | EMULTIHOP => 74
    | ENAMETOOLONG => 91 | ENETDOWN => 115 | ENETRESET => 126 | ENETUNREACH => 114
    | ENFILE => 23 | ENOBUFS => 105 | ENODATA => 61 | ENODEV => 19
    | ENOENT => 2 | ENOEXEC => 8 | ENOLCK => 46 | ENOLINK => 67
    | ENOMEM => 12 | ENOMSG => 35 | ENOPROTOOPT => 109 | ENOSPC => 28
    | ENOSR => 63 | ENOSTR => 60 | ENOSYS => 88 | ENOTCONN => 128
    | ENOTDIR => 20 | ENOTEMPTY => 90 | ENOTSOCK => 108 | ENOTSUP => 134
    | ENOTTY => 25 | ENXIO => 6 | EOPNOTSUPP => 95 | EOVERFLOW => 139
    | EPERM => 1 | EPIPE => 32 | EPROTO => 71 | EPROTONOSUPPORT => 123
    | EPROTOTYPE => 107 | ERANGE => 34 | EROFS => 30 | ESPIPE => 29
    | ESRCH => 3 | ESTALE => 133 | ETIME => 62 | ETIMEDOUT => 116
    end;
  strerror _ := EmptyString;
|}.

#[export] Instance ref_ctru : CtruSys := {|
  ctru_display _ := EmptyString;
  ds_try c := if c <? 0 then Some (CtruOs c) else None;
  R_FAILED c := c <? 0;
  R_SUMMARY _ := 0;
  RS_SUCCESS := 0;
|}.

#[export] Instance ref_ctru_laws : CtruSysLaws.
Proof.
  split; cbn; try done.
  - intros c e. destruct (c <? 0); naive_solver.
  - intros c Hc. destruct (Z.ltb_spec c 0); [by eexists|lia].
Qed.

Lemma net_try_spec_witness :
  run (@net_try unit true _ (-6)) tt = Done (Err (LibcErr 11)) tt.
Proof.
  destruct (@net_try_spec unit true _ (-6) tt ltac:(unfold is_i32; lia)) as (_ & H & _).
  destruct (H ltac:(lia)) as (e & He & ->).
  change (Some 11 = Some (errno_val e)) in He.
  by assert (11 = errno_val e) as <- by congruence.
Defined.
