(* ===== verification/Kernel.v ===== *)
(** * The operating system interface

    bunnyds calls the Horizon kernel and libctru through [ctru_sys].  None of
    that code is in the repository: this file states, as type classes, the calls
    bunnyds makes and what their documentation promises, and gives one small
    kernel that fulfils the promises, so that statements about all kernels can
    be applied to a concrete one. *)

From Stdlib Require Import ZArith Lia.
From stdpp Require Import base tactics list gmap numbers.
From S2P Require Import Prelude.

(** ** Counting semaphores and waiting

    Result codes come first in every result; [sem_count k h] observes the count
    and the maximum of the semaphore behind handle [h]. *)

Class Semaphores (K : Type) := {
  svcCreateSemaphore : Z -> Z -> K -> outcome K (Z * Z);
  svcReleaseSemaphore : Z -> Z -> K -> outcome K (Z * Z);
  svcWaitSynchronization : Z -> Z -> K -> outcome K Z;
  svcWaitSynchronizationN : list Z -> bool -> Z -> K -> outcome K (Z * Z);
  sem_count : K -> Z -> option (Z * Z);
}.

(** [k'] is [k] with the count behind [h] set to [c]. *)
Definition sem_set {K} `{Semaphores K} (k : K) (h c : Z) (k' : K) : Prop :=
  (exists c0 m, sem_count k h = Some (c0, m) /\ sem_count k' h = Some (c, m)) /\
  (forall h', h' <> h -> sem_count k' h' = sem_count k h').

(** Creation that reports success yields a fresh handle with the given count;
    a release that would pass the maximum is refused and changes nothing; a wait
    without timeout takes one unit and blocks while there is none; a wait on
    several handles takes a unit of one that has some, and reports its index. *)
Class SemaphoreLaws (K : Type) `{Semaphores K} : Prop := {
  create_ok : forall i m k h k',
    svcCreateSemaphore i m k = Done (0, h) k' ->
    sem_count k h = None /\ sem_count k' h = Some (i, m) /\
    (forall h', h' <> h -> sem_count k' h' = sem_count k h');
  release_ok : forall h n k c m,
    sem_count k h = Some (c, m) -> 0 <= n -> c + n <= m ->
    exists k', svcReleaseSemaphore h n k = Done (0, c) k' /\ sem_set k h (c + n) k';
  release_full : forall h n k c m,
    sem_count k h = Some (c, m) -> m < c + n ->
    exists rc out, rc <> 0 /\ svcReleaseSemaphore h n k = Done (rc, out) k;
  wait_ok : forall h k c m,
    sem_count k h = Some (c, m) -> 0 < c ->
    exists k', svcWaitSynchronization h i64_MAX k = Done 0 k' /\ sem_set k h (c - 1) k';
  wait_blocks : forall h k m,
    sem_count k h = Some (0, m) -> svcWaitSynchronization h i64_MAX k = Blocked;
  wait_any_ok : forall hs k,
    (forall h, h ∈ hs -> exists c m, sem_count k h = Some (c, m) /\ 0 <= c) ->
    (exists h c m, h ∈ hs /\ sem_count k h = Some (c, m) /\ 0 < c) ->
    exists idx h c m k',
      svcWaitSynchronizationN hs false i64_MAX k = Done (0, Z.of_nat idx) k' /\
      hs !! idx = Some h /\ sem_count k h = Some (c, m) /\ 0 < c /\ sem_set k h (c - 1) k';
  wait_any_blocks : forall hs k,
    (forall h, h ∈ hs -> exists m, sem_count k h = Some (0, m)) ->
    svcWaitSynchronizationN hs false i64_MAX k = Blocked;
}.

(** ** libctru's user-space primitives

    [LightSemaphore] and [LightEvent] are C structs that libctru changes in
    place; the events bunnyds creates are one-shot. *)

Record LightSemaphore := mkLightSemaphore {
  current_count : Z;
  num_threads_acq : Z;
  max_count : Z;
}.

Record LightEvent := mkLightEvent {
  le_state : Z;
  le_lock : Z;
}.

Class LightSync := {
  RESET_ONESHOT : Z;
  LightSemaphore_Init : Z -> Z -> LightSemaphore -> LightSemaphore;
  LightSemaphore_Acquire : Z -> LightSemaphore -> outcome LightSemaphore unit;
  LightSemaphore_Release : Z -> LightSemaphore -> outcome LightSemaphore unit;
  LightEvent_Init : Z -> LightEvent -> LightEvent;
  LightEvent_Wait : LightEvent -> outcome LightEvent unit;
  LightEvent_Signal : LightEvent -> outcome LightEvent unit;
  le_signalled : LightEvent -> bool;
}.

(** An acquire blocks until the count covers it; a release adds to the count
    within the maximum.  A one-shot event starts cleared, is set by a signal, and
    a wait blocks until it is set and clears it. *)
Class LightSyncLaws `{LightSync} : Prop := {
  lsem_init : forall i m s,
    current_count (LightSemaphore_Init i m s) = i /\
    max_count (LightSemaphore_Init i m s) = m;
  lsem_acquire_ok : forall n s, n <= current_count s -> exists s',
    LightSemaphore_Acquire n s = Done tt s' /\
    current_count s' = current_count s - n /\ max_count s' = max_count s;
  lsem_acquire_blocks : forall n s,
    current_count s < n -> LightSemaphore_Acquire n s = Blocked;
  lsem_release_ok : forall n s, 0 <= n -> current_count s + n <= max_count s ->
    exists s', LightSemaphore_Release n s = Done tt s' /\
    current_count s' = current_count s + n /\ max_count s' = max_count s;
  levent_init : forall e, le_signalled (LightEvent_Init RESET_ONESHOT e) = false;
  levent_wait_ok : forall e, le_signalled e = true ->
    exists e', LightEvent_Wait e = Done tt e' /\ le_signalled e' = false;
  levent_wait_blocks : forall e, le_signalled e = false -> LightEvent_Wait e = Blocked;
  levent_signal : forall e,
    exists e', LightEvent_Signal e = Done tt e' /\ le_signalled e' = true;
}.

(** ** A concrete kernel *)

Record RefKernel := mkRefKernel {
  rk_sems : gmap Z (Z * Z);
  rk_next : Z;
}.

(** The lowest index whose semaphore has a unit. *)
Fixpoint rk_first (hs : list Z) (i : nat) (k : RefKernel) : option (nat * Z * (Z * Z)) :=
  match hs with
  | [] => None
  | h :: hs' =>
      match rk_sems k !! h with
      | Some (c, m) => if 0 <? c then Some (i, h, (c, m)) else rk_first hs' (S i) k
      | None => rk_first hs' (S i) k
      end
  end.

Definition rk_put (h : Z) (cm : Z * Z) (k : RefKernel) : RefKernel :=
  mkRefKernel (<[h := cm]> (rk_sems k)) (rk_next k).

#[export] Instance RefKernel_sems : Semaphores RefKernel := {|
  svcCreateSemaphore i m k :=
    match rk_sems k !! rk_next k with
    | Some _ => Done (-1, 0) k
    | None => Done (0, rk_next k)
        (mkRefKernel (<[rk_next k := (i, m)]> (rk_sems k)) (rk_next k + 1))
    end;
  svcReleaseSemaphore h n k :=
    match rk_sems k !! h with
    | Some (c, m) => if c + n <=? m then Done (0, c) (rk_put h (c + n, m) k)
                     else Done (-1, 0) k
    | None => Done (-1, 0) k
    end;
  svcWaitSynchronization h _ k :=
    match rk_sems k !! h with
    | Some (c, m) => if 0 <? c then Done 0 (rk_put h (c - 1, m) k) else Blocked
    | None => Done (-1) k
    end;
  svcWaitSynchronizationN hs _ _ k :=
    match rk_first hs 0 k with
    | Some (i, h, (c, m)) => Done (0, Z.of_nat i) (rk_put h (c - 1, m) k)
    | None => Blocked
    end;
  sem_count k h := rk_sems k !! h;
|}.

Lemma rk_put_set k h c0 m c :
  rk_sems k !! h = Some (c0, m) -> sem_set k h c (rk_put h (c, m) k).
Proof.
  intros E. split.
  - exists c0, m. cbn. by rewrite lookup_insert_eq.
  - intros h' Hne. cbn. by rewrite lookup_insert_ne.
Qed.

Lemma rk_first_Some hs i k j h cm :
  rk_first hs i k = Some (j, h, cm) ->
  exists n, j = (i + n)%nat /\ hs !! n = Some h /\
    rk_sems k !! h = Some cm /\ 0 < fst cm.
Proof.
  revert i. induction hs as [|h0 hs IH]; intros i; cbn; [done|].
  assert (rk_first hs (S i) k = Some (j, h, cm) ->
          exists n, j = (i + n)%nat /\ (h0 :: hs) !! n = Some h /\
            rk_sems k !! h = Some cm /\ 0 < fst cm) as Hrec.
  { intros Hr. destruct (IH (S i) Hr) as (n & -> & Hn & ? & ?).
    exists (S n). split_and!; try done; lia. }
  destruct (rk_sems k !! h0) as [[c m]|] eqn:E; [|exact Hrec].
  destruct (Z.ltb_spec 0 c); [|exact Hrec]. intros; simplify_eq.
  exists 0%nat. split_and!; try done; cbn; lia.
Qed.

Lemma rk_first_None hs i k :
  rk_first hs i k = None ->
  forall h c m, h ∈ hs -> rk_sems k !! h = Some (c, m) -> c <= 0.
Proof.
  revert i. induction hs as [|h0 hs IH]; intros i Hn h c m; cbn in *.
  - by intros ?%not_elem_of_nil.
  - intros [->|Hin]%elem_of_cons E.
    + rewrite E in Hn. destruct (Z.ltb_spec 0 c); [done|lia].
    + destruct (rk_sems k !! h0) as [[c0 m0]|]; [|by eapply IH].
      destruct (0 <? c0); [done|by eapply IH].
Qed.

#[export] Instance RefKernel_laws : SemaphoreLaws RefKernel.
Proof.
  split; cbn.
  - intros i m k h k'. destruct (rk_sems k !! rk_next k) eqn:E; intros; simplify_eq/=.
    split_and!; [done|by rewrite lookup_insert_eq|intros; by rewrite lookup_insert_ne].
  - intros h n k c m E ? ?. rewrite E. destruct (Z.leb_spec (c + n) m); [|lia].
    eexists; split; [done|by eapply rk_put_set].
  - intros h n k c m E ?. rewrite E. destruct (Z.leb_spec (c + n) m); [lia|]. by eexists (-1), _.
  - intros h k c m E ?. rewrite E. destruct (Z.ltb_spec 0 c); [|lia].
    eexists; split; [done|by eapply rk_put_set].
  - intros h k m E. by rewrite E.
  - intros hs k Hall (h & c & m & Hin & E & Hc).
    destruct (rk_first hs 0 k) as [[[j h'] [c' m']]|] eqn:F.
    + destruct (rk_first_Some _ _ _ _ _ _ F) as (n & -> & ? & ? & ?); cbn in *.
      exists n, h', c', m'. eexists. split_and!; [done..|by eapply rk_put_set].
    + pose proof (rk_first_None _ _ _ F _ _ _ Hin E). lia.
  - intros hs k Hall. destruct (rk_first hs 0 k) as [[[j h'] [c' m']]|] eqn:F; [|done].
    destruct (rk_first_Some _ _ _ _ _ _ F) as (n & -> & Hn & E & Hc); cbn in *.
    destruct (Hall h') as [m E']; [by eapply list_elem_of_lookup_2|].
    rewrite E in E'; simplify_eq. lia.
Qed.

#[export] Instance ref_light : LightSync := {|
  RESET_ONESHOT := 0;
  LightSemaphore_Init i m s := mkLightSemaphore i 0 m;
  LightSemaphore_Acquire n s :=
    if n <=? current_count s
    then Done tt (mkLightSemaphore (current_count s - n) (num_threads_acq s) (max_count s))
    else Blocked;
  LightSemaphore_Release n s :=
    Done tt (mkLightSemaphore (Z.min (current_count s + n) (max_count s))
               (num_threads_acq s) (max_count s));
  LightEvent_Init _ _ := mkLightEvent 0 1;
  LightEvent_Wait e :=
    if le_state e =? 1 then Done tt (mkLightEvent 0 (le_lock e)) else Blocked;
  LightEvent_Signal e := Done tt (mkLightEvent 1 (le_lock e));
  le_signalled e := le_state e =? 1;
|}.

#[export] Instance ref_light_laws : LightSyncLaws.
Proof.
  split; cbn.
  - done.
  - intros n s ?. destruct (Z.leb_spec n (current_count s)); [by eexists|lia].
  - intros n s ?. destruct (Z.leb_spec n (current_count s)); [lia|done].
  - intros n s ? ?. eexists; split_and!; [done|cbn; lia|done].
  - done.
  - intros e ->. by eexists.
  - by intros e ->.
  - intros e. by eexists.
Qed.
