(* ===== verification/CtruUtils.v ===== *)
(** * Semaphores, signals and the synchronised queue (src/ctru_utils.rs)

    [Semaphore] and [WaitSignal] wrap libctru's user-space primitives;
    [SyncQueue] is a mutex-protected [VecDeque] next to a kernel semaphore that
    announces new elements.  All the queues of the runtime (spawned tasks,
    wake-ups, file operations, socket interests) are [SyncQueue]s. *)

From Stdlib Require Import ZArith Lia.
From stdpp Require Import base tactics list gmap numbers.
From S2P Require Import Prelude Err Kernel.

(** ** [Semaphore] *)

Record Semaphore := mkSemaphore { semaphore : LightSemaphore }.

Record SemaphorePermit := mkSemaphorePermit { permits : Z }.

Section semaphore.
Context `{LightSync}.

Definition Semaphore_new (max : Z) : Semaphore :=
  mkSemaphore (LightSemaphore_Init 0 max (mkLightSemaphore 0 0 0)).

Definition acquire_permits (n : Z) : prog Semaphore SemaphorePermit :=
  zoom semaphore (fun s _ => mkSemaphore s) (act (LightSemaphore_Acquire n));;
  mret (mkSemaphorePermit n).

Definition add_permits (n : Z) : prog Semaphore unit :=
  zoom semaphore (fun s _ => mkSemaphore s) (act (LightSemaphore_Release n)).

Definition SemaphorePermit_release (p : SemaphorePermit) : prog Semaphore unit :=
  add_permits (permits p).

End semaphore.

(** ** [WaitSignal] *)

Record WaitSignal := mkWaitSignal { event : LightEvent }.

Section wait_signal.
Context `{LightSync}.

Definition WaitSignal_new : WaitSignal :=
  mkWaitSignal (LightEvent_Init RESET_ONESHOT (mkLightEvent 0 0)).

Definition WaitSignal_wait : prog WaitSignal unit :=
  zoom event (fun e _ => mkWaitSignal e) (act LightEvent_Wait).

Definition WaitSignal_signal : prog WaitSignal unit :=
  zoom event (fun e _ => mkWaitSignal e) (act LightEvent_Signal).

End wait_signal.

(** ** [SyncQueue] *)

(** The [VecDeque] is a list whose head is the front. *)
Record SyncQueue (T : Type) := mkSyncQueue {
  semaphore_handle : Z;
  vals : list T;
}.

Arguments mkSyncQueue {T} semaphore_handle vals.
Arguments semaphore_handle {T} s.
Arguments vals {T} s.

Definition set_vals {T} (l : list T) (q : SyncQueue T) : SyncQueue T :=
  mkSyncQueue (semaphore_handle q) l.

Definition push_back {T} (v : T) (l : list T) : list T := l ++ [v].

Definition pop_back {T} (l : list T) : option T * list T :=
  (list.last l, removelast l).

Arguments pop_back {T} l : simpl never.

Section sync_queue.
Context {T K : Type} `{Semaphores K}.

Definition SyncQueue_new : prog K (SyncQueue T) :=
  r ← act (svcCreateSemaphore 0 255);
  mret (mkSyncQueue (snd r) []).

(** The two atomic parts of [add]: the push under the mutex, and the release of
    the semaphore, whose result code is discarded. *)
Definition add_push (val : T) : prog (SyncQueue T * K) unit :=
  modify (fun '(q, k) => (set_vals (push_back val (vals q)) q, k)).

Definition add_release : prog (SyncQueue T * K) unit :=
  act (fun '(q, k) =>
    obind (svcReleaseSemaphore (semaphore_handle q) 1 k) (fun k' => (q, k'))
      (fun _ k' => Done tt (q, k'))).

Definition SyncQueue_add (val : T) : prog (SyncQueue T * K) unit :=
  add_push val;; add_release.

Definition SyncQueue_remove : prog (SyncQueue T * K) (option T) :=
  act (fun '(q, k) =>
    let '(v, l) := pop_back (vals q) in Done v (set_vals l q, k)).

Definition SyncQueue_wait `{CtruSys} (timeout : Z) :
    prog (SyncQueue T * K) (BunnyResult unit) :=
  rc ← act (fun '(q, k) =>
    obind (svcWaitSynchronization (semaphore_handle q) timeout k) (fun k' => (q, k'))
      (fun rc k' => Done rc (q, k')));
  ds_try_bunny rc (mret (Ok tt)).

End sync_queue.

(** ** Producers and one-element consumers of a queue

    The step relation of any number of threads that call [add] and any number
    of consumers that loop over [wait] and [remove] (the discipline of the file
    workers), at the granularity of their atomic parts.  [q_pend] counts the
    producers between push and release, [q_hold] the consumers between [wait]
    and [remove], [q_refused] the releases the kernel has refused so far. *)

Record QSys (T K : Type) := mkQSys {
  q_queue : SyncQueue T;
  q_kern : K;
  q_pend : Z;
  q_hold : Z;
  q_refused : Z;
}.

Arguments mkQSys {T K} q_queue q_kern q_pend q_hold q_refused.
Arguments q_queue {T K} q.
Arguments q_kern {T K} q.
Arguments q_pend {T K} q.
Arguments q_hold {T K} q.
Arguments q_refused {T K} q.

Inductive qs_step {T K} `{Semaphores K} `{CtruSys} : QSys T K -> QSys T K -> Prop :=
| qs_push v q k q' k' p h r :
    run (add_push v) (q, k) = Done tt (q', k') ->
    qs_step (mkQSys q k p h r) (mkQSys q' k' (p + 1) h r)
| qs_release q k q' k' p h r rc out :
    0 < p ->
    svcReleaseSemaphore (semaphore_handle q) 1 k = Done (rc, out) k' ->
    run add_release (q, k) = Done tt (q', k') ->
    qs_step (mkQSys q k p h r) (mkQSys q' k' (p - 1) h (if rc =? 0 then r else r + 1))
| qs_wait q k q' k' p h r :
    run (SyncQueue_wait i64_MAX) (q, k) = Done (Ok tt) (q', k') ->
    qs_step (mkQSys q k p h r) (mkQSys q' k' p (h + 1) r)
| qs_take q k q' k' p h r o :
    0 < h ->
    run SyncQueue_remove (q, k) = Done o (q', k') ->
    qs_step (mkQSys q k p h r) (mkQSys q' k' p (h - 1) r).

(** The same steps as a function of a script, to compute executions. *)
Inductive qs_action (T : Type) : Type :=
| QPush (v : T)
| QRelease
| QWait
| QTake.

Arguments QPush {T} v.
Arguments QRelease {T}.
Arguments QWait {T}.
Arguments QTake {T}.

Definition qs_exec1 {T K} `{Semaphores K} `{CtruSys} (a : qs_action T) (s : QSys T K) :
    option (QSys T K) :=
  let '(mkQSys q k p h r) := s in
  match a with
  | QPush v =>
      match run (add_push v) (q, k) with
      | Done _ (q', k') => Some (mkQSys q' k' (p + 1) h r)
      | _ => None
      end
  | QRelease =>
      if 0 <? p then
        match svcReleaseSemaphore (semaphore_handle q) 1 k, run add_release (q, k) with
        | Done (rc, _) k1, Done _ (q', k') =>
            Some (mkQSys q' k1 (p - 1) h (if rc =? 0 then r else r + 1))
        | _, _ => None
        end
      else None
  | QWait =>
      match run (SyncQueue_wait i64_MAX) (q, k) with
      | Done (Ok _) (q', k') => Some (mkQSys q' k' p (h + 1) r)
      | _ => None
      end
  | QTake =>
      if 0 <? h then
        match run SyncQueue_remove (q, k) with
        | Done _ (q', k') => Some (mkQSys q' k' p (h - 1) r)
        | _ => None
        end
      else None
  end.

Fixpoint qs_exec {T K} `{Semaphores K} `{CtruSys} (l : list (qs_action T)) (s : QSys T K) :
    option (QSys T K) :=
  match l with
  | [] => Some s
  | a :: l' => match qs_exec1 a s with Some s' => qs_exec l' s' | None => None end
  end.

(** ** Lemmas on the queue *)

Lemma pop_back_snoc {T} (l : list T) v : pop_back (l ++ [v]) = (Some v, l).
Proof. unfold pop_back. by rewrite last_snoc, removelast_last. Qed.

Lemma pop_back_nil {T} : pop_back (@nil T) = (None, []).
Proof. reflexivity. Qed.

Lemma pop_back_Some {T} (l : list T) v l' :
  pop_back l = (Some v, l') <-> l = l' ++ [v].
Proof.
  split.
  - destruct l as [|x l0 _] using rev_ind; [done|].
    rewrite pop_back_snoc. by intros; simplify_eq.
  - intros ->. apply pop_back_snoc.
Qed.

Section sync_queue_lemmas.
Context {T K : Type} `{SemaphoreLaws K}.

(** The queue is attached to a live semaphore with [c] units left to take. *)
Definition queue_sem (q : SyncQueue T) (k : K) (c : Z) : Prop :=
  sem_count k (semaphore_handle q) = Some (c, 255) /\ 0 <= c <= 255.

Lemma run_add_push v (q : SyncQueue T) (k : K) :
  run (add_push v) (q, k) = Done tt (set_vals (vals q ++ [v]) q, k).
Proof. reflexivity. Qed.

Lemma run_SyncQueue_remove (q : SyncQueue T) (k : K) :
  run SyncQueue_remove (q, k) =
  Done (fst (pop_back (vals q))) (set_vals (snd (pop_back (vals q))) q, k).
Proof. unfold SyncQueue_remove. rewrite run_act. by destruct (pop_back (vals q)). Qed.

Lemma run_add_release_eq (q : SyncQueue T) (k : K) :
  run add_release (q, k) =
  obind (svcReleaseSemaphore (semaphore_handle q) 1 k) (fun k' => (q, k'))
    (fun _ k' => Done tt (q, k')).
Proof. unfold add_release. by rewrite run_act. Qed.

Lemma run_SyncQueue_wait_eq `{CtruSys} t (q : SyncQueue T) (k : K) :
  run (SyncQueue_wait t) (q, k) =
  obind (svcWaitSynchronization (semaphore_handle q) t k) (fun k' => (q, k'))
    (fun rc k' => run (ds_try_bunny rc (mret (Ok tt))) (q, k')).
Proof.
  unfold SyncQueue_wait. rewrite run_bind, run_act.
  by destruct (svcWaitSynchronization _ _ _).
Qed.

(** A release keeps the elements, and adds a unit unless the semaphore is full. *)
Lemma run_add_release (q : SyncQueue T) (k : K) c :
  queue_sem q k c ->
  exists rc out k',
    svcReleaseSemaphore (semaphore_handle q) 1 k = Done (rc, out) k' /\
    run add_release (q, k) = Done tt (q, k') /\
    (forall h', h' <> semaphore_handle q -> sem_count k' h' = sem_count k h') /\
    ((rc = 0 /\ c < 255 /\ queue_sem q k' (c + 1)) \/
     (rc <> 0 /\ c = 255 /\ k' = k)).
Proof.
  intros [Hc Hr]. rewrite run_add_release_eq.
  destruct (decide (c = 255)) as [->|Hne].
  - destruct (release_full _ 1 _ _ _ Hc) as (rc & out & Hrc & E); [lia|].
    exists rc, out, k. rewrite E. split_and!; try done. by right.
  - destruct (release_ok _ 1 _ _ _ Hc) as (k' & E & [(c0 & m & E0 & E1) Hfr]); [lia..|].
    exists 0, c, k'. rewrite E. split_and!; try done. left. split_and!; [done|lia|].
    rewrite Hc in E0; simplify_eq. split; [done|lia].
Qed.

(** [add] appends its argument, always completes, and leaves at least one unit:
    a waiter is not left asleep on a non-empty queue. *)
Lemma run_SyncQueue_add v (q : SyncQueue T) (k : K) c :
  queue_sem q k c ->
  exists k' c', run (SyncQueue_add v) (q, k) = Done tt (set_vals (vals q ++ [v]) q, k') /\
    queue_sem (set_vals (vals q ++ [v]) q) k' c' /\ 0 < c' /\ c <= c' /\
    (forall h', h' <> semaphore_handle q -> sem_count k' h' = sem_count k h').
Proof.
  intros Hq. unfold SyncQueue_add. rewrite run_bind, run_add_push. cbn [obind].
  destruct (run_add_release (set_vals (vals q ++ [v]) q) k c Hq)
    as (rc & out & k' & _ & E & Hfr & [(_ & ? & Hq')|(_ & -> & ->)]).
  - exists k', (c + 1). split_and!; [done..|destruct Hq; lia|lia|done].
  - exists k, 255. by split_and!.
Qed.

Context `{CtruSysLaws}.

Lemma run_SyncQueue_wait (q : SyncQueue T) (k : K) c :
  queue_sem q k c ->
  if decide (c = 0) then run (SyncQueue_wait i64_MAX) (q, k) = Blocked
  else exists k', run (SyncQueue_wait i64_MAX) (q, k) = Done (Ok tt) (q, k') /\
         queue_sem q k' (c - 1) /\
         (forall h', h' <> semaphore_handle q -> sem_count k' h' = sem_count k h').
Proof.
  intros [Hc Hr]. rewrite run_SyncQueue_wait_eq. case_decide as Hz.
  - subst. by rewrite (wait_blocks _ _ _ Hc).
  - destruct (wait_ok _ _ _ _ Hc) as (k' & -> & [(c0 & m & E0 & E1) Hfr]); [lia|].
    exists k'. cbn [obind]. unfold ds_try_bunny. rewrite ds_try_0.
    rewrite Hc in E0; simplify_eq. split_and!; [done| |done]. split; [done|lia].
Qed.

End sync_queue_lemmas.

(** ** The conservation law of a queue and its semaphore *)

Section conservation.
Context {T K : Type} `{SemaphoreLaws K} `{CtruSysLaws}.

(** A queue made by [SyncQueue::new] when the kernel grants the semaphore. *)
Definition created (k0 : K) (q : SyncQueue T) (k : K) : Prop :=
  (exists h, svcCreateSemaphore 0 255 k0 = Done (0, h) k) /\
  run SyncQueue_new k0 = Done q k.

Definition qs_start (q : SyncQueue T) (k : K) : QSys T K := mkQSys q k 0 0 0.

Definition qs_inv (s : QSys T K) : Prop :=
  exists c, queue_sem (q_queue s) (q_kern s) c /\
    0 <= q_pend s /\ 0 <= q_hold s /\ 0 <= q_refused s /\
    c + q_pend s + q_hold s + q_refused s = Z.of_nat (length (vals (q_queue s))).

Lemma created_sem k0 q k : created k0 q k -> vals q = [] /\ queue_sem q k 0.
Proof.
  intros [[h E] Hn]. unfold SyncQueue_new in Hn. rewrite run_bind, run_act, E in Hn.
  run_simpl in Hn. simplify_eq/=. split; [done|].
  destruct (create_ok _ _ _ _ _ E) as (_ & E' & _). split; [done|lia].
Qed.

Lemma qs_inv_start k0 q k : created k0 q k -> qs_inv (qs_start q k).
Proof.
  intros [Hv Hs]%created_sem. exists 0. cbn. rewrite Hv. split_and!; [done|done..].
Qed.

Lemma qs_inv_release q k p h r rc out k' q' :
  qs_inv (mkQSys q k p h r) -> 0 < p ->
  svcReleaseSemaphore (semaphore_handle q) 1 k = Done (rc, out) k' ->
  run add_release (q, k) = Done tt (q', k') ->
  qs_inv (mkQSys q' k' (p - 1) h (if rc =? 0 then r else r + 1)).
Proof.
  intros (c & Hs & ? & ? & ? & Hsum) Hp E1 E2; cbn in *.
  destruct (run_add_release q k c Hs) as (rc' & out' & k1 & F1 & F2 & _ & Hcase).
  rewrite E1 in F1; rewrite E2 in F2; simplify_eq.
  destruct Hcase as [(-> & ? & Hs')|(Hrc & -> & ->)].
  - exists (c + 1). cbn. split_and!; [done|lia..].
  - exists 255. destruct (Z.eqb_spec rc' 0); [done|]. cbn. split_and!; [done|lia..].
Qed.

Lemma qs_step_inv s s' : qs_step s s' -> qs_inv s -> qs_inv s'.
Proof.
  destruct 1 as [v q k q' k' p h r E|q k q' k' p h r rc out Hp E1 E2
                |q k q' k' p h r E|q k q' k' p h r o Hh E]; intros Hinv.
  - destruct Hinv as (c & Hs & ? & ? & ? & Hsum); cbn in *.
    rewrite run_add_push in E; simplify_eq. exists c. cbn. rewrite length_app; cbn. split_and!; [done|lia..].
  - eapply qs_inv_release; eauto.
  - destruct Hinv as (c & Hs & ? & ? & ? & Hsum); cbn in Hs.
    pose proof (run_SyncQueue_wait q k c Hs) as Hw. case_decide; [congruence|].
    destruct Hw as (k1 & Hw & Hs' & _). rewrite E in Hw; simplify_eq.
    exists (c - 1). cbn in *. split_and!; [done|lia..].
  - destruct Hinv as (c & Hs & ? & ? & ? & Hsum); cbn in *.
    rewrite run_SyncQueue_remove in E; simplify_eq.
    exists c. cbn. split_and!; [done|lia..|].
    destruct (vals q) as [|x l _] using rev_ind; [cbn in *; destruct Hs; lia|].
    rewrite removelast_last. rewrite length_app in Hsum; cbn in Hsum. lia.
Qed.

Lemma qs_reachable_inv k0 q k s :
  created k0 q k -> rtc qs_step (qs_start q k) s -> qs_inv s.
Proof.
  intros Hc Hr. assert (qs_inv (qs_start q k)) as Hi by eauto using qs_inv_start.
  induction Hr; eauto using qs_step_inv.
Qed.

(** C9: in every interleaving of any number of [add] callers and of consumers
    that loop over [wait]/[remove], a consumer that has passed [wait] finds an
    element: the [else { continue; }] branch of a file worker is never taken. *)
Theorem consumer_finds_element k0 q k s :
  created k0 q k -> rtc qs_step (qs_start q k) s -> 0 < q_hold s ->
  exists v q', run SyncQueue_remove (q_queue s, q_kern s) = Done (Some v) (q', q_kern s).
Proof.
  intros Hc Hr Hh. destruct (qs_reachable_inv _ _ _ _ Hc Hr) as (c & [_ ?] & ? & ? & ? & Hsum).
  rewrite run_SyncQueue_remove.
  destruct (vals (q_queue s)) as [|x l _] using rev_ind; [cbn in *; lia|].
  rewrite pop_back_snoc. by eexists _, _.
Qed.

(** C29: when every thread is at rest and a consumer would sleep, the elements
    left in the queue are exactly as many as the releases the kernel refused:
    no element is stranded as long as no release was refused. *)
Theorem stranded_elements_are_refused_releases k0 q k s :
  created k0 q k -> rtc qs_step (qs_start q k) s ->
  q_pend s = 0 -> q_hold s = 0 ->
  run (SyncQueue_wait i64_MAX) (q_queue s, q_kern s) = Blocked ->
  Z.of_nat (length (vals (q_queue s))) = q_refused s.
Proof.
  intros Hc Hr Hp Hh Hb. destruct (qs_reachable_inv _ _ _ _ Hc Hr) as (c & Hs & ? & ? & ? & Hsum).
  pose proof (run_SyncQueue_wait _ _ _ Hs) as Hw. case_decide; [lia|].
  destruct Hw as (k1 & Hw & _). congruence.
Qed.

End conservation.

Lemma qs_exec_rtc {T K} `{Semaphores K} `{CtruSys} l (s s' : QSys T K) :
  qs_exec l s = Some s' -> rtc qs_step s s'.
Proof.
  revert s. induction l as [|a l IH]; intros s E; cbn in E; simplify_eq; [reflexivity|].
  destruct (qs_exec1 a s) as [s1|] eqn:E1; [|done].
  eapply rtc_l; [|by apply IH]. clear IH E.
  destruct s as [q k p h r]; destruct a; unfold qs_exec1 in E1.
  - destruct (run (add_push v) (q, k)) as [[] [q' k']| | |] eqn:E; simplify_eq.
    by eapply qs_push.
  - destruct (Z.ltb_spec 0 p); [|done].
    destruct (svcReleaseSemaphore _ 1 k) as [[rc out] k1| | |] eqn:E; [|done..].
    rewrite run_add_release_eq, E in E1. cbn [obind] in E1. simplify_eq.
    eapply qs_release; [done..|]. by rewrite run_add_release_eq, E.
  - destruct (run (SyncQueue_wait i64_MAX) (q, k)) as [[[]|] [q' k']| | |] eqn:E; simplify_eq.
    by apply qs_wait.
  - destruct (Z.ltb_spec 0 h); [|done].
    destruct (run SyncQueue_remove (q, k)) as [o [q' k']| | |] eqn:E; simplify_eq.
    by eapply qs_take.
Qed.

(** ** Order of the queue *)

Section lifo.
Context {T K : Type} `{SemaphoreLaws K}.

(** Several [add]s, and several [remove]s, one after the other. *)
Fixpoint add_all (l : list T) : prog (SyncQueue T * K) unit :=
  match l with
  | [] => mret tt
  | v :: l' => SyncQueue_add v;; add_all l'
  end.

Fixpoint remove_n (n : nat) : prog (SyncQueue T * K) (list (option T)) :=
  match n with
  | O => mret []
  | S n' => o ← SyncQueue_remove; os ← remove_n n'; mret (o :: os)
  end.

(** The semaphore counts the elements up to its maximum. *)
Lemma run_add_all l q k c :
  queue_sem q k c ->
  exists k', run (add_all l) (q, k) = Done tt (set_vals (vals q ++ l) q, k') /\
    queue_sem (set_vals (vals q ++ l) q) k' (Z.min 255 (c + Z.of_nat (length l))).
Proof.
  revert q k c. induction l as [|v l IH]; intros q k c Hq; cbn [add_all].
  - exists k. rewrite app_nil_r, Z.add_0_r, Z.min_r by apply Hq. by destruct q.
  - assert (exists k1, run (SyncQueue_add v) (q, k) = Done tt (set_vals (vals q ++ [v]) q, k1) /\
      queue_sem (set_vals (vals q ++ [v]) q) k1 (Z.min 255 (c + 1))) as (k1 & E & Hq1).
    { unfold SyncQueue_add. rewrite run_bind, run_add_push. cbn [obind].
      destruct (run_add_release (set_vals (vals q ++ [v]) q) k c Hq)
        as (rc & out & k1 & _ & E & _ & [(_ & ? & Hq1)|(_ & -> & ->)]).
      - exists k1. by rewrite Z.min_r by lia.
      - by exists k. }
    destruct (IH _ _ _ Hq1) as (k2 & E2 & Hq2).
    exists k2. rewrite run_bind, E. cbn [obind]. rewrite E2. cbn [vals set_vals length] in *.
    rewrite <- app_assoc in Hq2 |- *. split; [done|].
    by replace (Z.min 255 (c + Z.of_nat (S (length l))))
      with (Z.min 255 (Z.min 255 (c + 1) + Z.of_nat (length l))) by lia.
Qed.

Lemma run_remove_n l (q : SyncQueue T) (k : K) :
  run (remove_n (length l)) (set_vals (vals q ++ l) q, k) =
  Done (Some <$> reverse l) (q, k).
Proof.
  induction l as [|v l IH] using rev_ind.
  - rewrite app_nil_r. by destruct q.
  - rewrite length_app, Nat.add_comm; cbn [length Nat.add remove_n].
    rewrite app_assoc, run_bind, run_SyncQueue_remove; cbn [vals set_vals].
    rewrite pop_back_snoc; cbn [fst snd obind].
    change (set_vals (vals q ++ l) (set_vals ((vals q ++ l) ++ [v]) q))
      with (set_vals (vals q ++ l) q).
    by rewrite run_bind, IH, reverse_snoc.
Qed.

(** C39: a [SyncQueue] hands elements back in the reverse of the order they were
    added in: it is a stack, and removing what was added restores it. *)
Theorem sync_queue_is_lifo l (q : SyncQueue T) (k : K) c :
  queue_sem q k c ->
  exists k', run (add_all l;; remove_n (length l)) (q, k) = Done (Some <$> reverse l) (q, k').
Proof.
  intros Hq. destruct (run_add_all l q k c Hq) as (k' & E & _).
  exists k'. rewrite run_bind, E. apply run_remove_n.
Qed.

End lifo.

(** ** Bursts *)

Section burst.
Context {T K : Type} `{SemaphoreLaws K} `{CtruSysLaws}.








End burst.

(** ** libctru's semaphore and event *)

Section light.
Context `{LightSyncLaws}.

Lemma run_zoom_semaphore {A} (f : LightSemaphore -> outcome LightSemaphore A) s :
  run (zoom semaphore (fun s _ => mkSemaphore s) (act f)) s =
  obind (f (semaphore s)) mkSemaphore (fun a s' => Done a (mkSemaphore s')).
Proof. unfold run; cbn. by destruct (f (semaphore s)). Qed.

Lemma run_zoom_event {A} (f : LightEvent -> outcome LightEvent A) s :
  run (zoom event (fun e _ => mkWaitSignal e) (act f)) s =
  obind (f (event s)) mkWaitSignal (fun a e' => Done a (mkWaitSignal e')).
Proof. unfold run; cbn. by destruct (f (event s)). Qed.

(** A new [Semaphore] holds no permit, whatever [max] is: acquiring any positive
    number from it blocks. *)
Lemma new_semaphore_has_no_permits max n :
  0 < n -> run (acquire_permits n) (Semaphore_new max) = Blocked.
Proof.
  intros Hn. unfold acquire_permits. rewrite run_bind, run_zoom_semaphore.
  rewrite lsem_acquire_blocks; [done|].
  unfold Semaphore_new; cbn. destruct (lsem_init 0 max (mkLightSemaphore 0 0 0)) as [-> _]. lia.
Qed.

(** Permits are conserved: what [release] gives back is what was acquired. *)
Lemma permits_conserved n s :
  0 <= n <= current_count (semaphore s) ->
  current_count (semaphore s) <= max_count (semaphore s) ->
  exists s', run (p ← acquire_permits n; SemaphorePermit_release p) s = Done tt s' /\
    current_count (semaphore s') = current_count (semaphore s).
Proof.
  intros Hn Hm. destruct (lsem_acquire_ok n (semaphore s)) as (s1 & E1 & C1 & M1); [lia|].
  destruct (lsem_release_ok n s1) as (s2 & E2 & C2 & M2); [lia..|].
  exists (mkSemaphore s2). unfold acquire_permits, SemaphorePermit_release, add_permits.
  rewrite !run_bind, run_zoom_semaphore, E1. cbn [obind semaphore].
  rewrite run_ret. cbn [obind permits]. rewrite run_zoom_semaphore. cbn [semaphore].
  rewrite E2. cbn. split; [done|lia].
Qed.

Lemma run_WaitSignal_signal s :
  exists s', run WaitSignal_signal s = Done tt s' /\ le_signalled (event s') = true.
Proof.
  unfold WaitSignal_signal. rewrite run_zoom_event.
  destruct (levent_signal (event s)) as (e & -> & He). by eexists.
Qed.

Lemma run_WaitSignal_wait s :
  if le_signalled (event s)
  then exists s', run WaitSignal_wait s = Done tt s' /\ le_signalled (event s') = false
  else run WaitSignal_wait s = Blocked.
Proof.
  unfold WaitSignal_wait. rewrite run_zoom_event.
  destruct (le_signalled (event s)) eqn:E.
  - destruct (levent_wait_ok _ E) as (e & -> & He). by eexists.
  - by rewrite (levent_wait_blocks _ E).
Qed.

End light.

(** ** Concrete executions *)

(** A kernel with no semaphores yet. *)
Definition k_empty : RefKernel := mkRefKernel ∅ 1.

Definition demo_queue : SyncQueue Z := mkSyncQueue 1 [].

Definition demo_kernel : RefKernel := mkRefKernel {[1 := (0, 255)]} 2.

Lemma demo_created : created k_empty demo_queue demo_kernel.
Proof. split; [by exists 1|reflexivity]. Qed.



Definition demo_kernel1 : RefKernel := mkRefKernel {[1 := (1, 255)]} 2.

Lemma consumer_finds_element_witness :
  exists v q', run SyncQueue_remove (mkSyncQueue 1 [3; 5], demo_kernel1) =
    Done (Some v) (q', demo_kernel1).
Proof.
  apply (consumer_finds_element (T:=Z) k_empty demo_queue demo_kernel
    (mkQSys (mkSyncQueue 1 [3; 5]) demo_kernel1 0 1 0)).
  - exact demo_created.
  - apply (qs_exec_rtc [QPush 3; QPush 5; QRelease; QRelease; QWait]). vm_compute. reflexivity.
  - reflexivity.
Defined.

Lemma stranded_witness :
  Z.of_nat (length (vals (mkSyncQueue 1 (@nil Z)))) = 0.
Proof.
  apply (stranded_elements_are_refused_releases (T:=Z) k_empty demo_queue demo_kernel
    (mkQSys (mkSyncQueue 1 []) demo_kernel 0 0 0)).
  - exact demo_created.
  - apply (qs_exec_rtc [QPush 3; QRelease; QWait; QTake]). vm_compute. reflexivity.
  - reflexivity.
  - reflexivity.
  - reflexivity.
Defined.

Lemma sync_queue_is_lifo_witness :
  exists k', run (add_all [1; 2; 3];; remove_n 3) (demo_queue, demo_kernel) =
    Done [Some 3; Some 2; Some 1] (demo_queue, k').
Proof.
  apply (sync_queue_is_lifo [1; 2; 3] demo_queue demo_kernel 0).
  split; [reflexivity|lia].
Defined.
