(* ===== verification/Executor.v ===== *)
(** * The executor (src/executor.rs)

    Tasks, wakers, the two global queues, the executor thread's loop, and the
    join handles of spawned tasks.  Futures are user code: they are a parameter,
    any type with a [Future] instance over the runtime's world. *)

From Stdlib Require Import ZArith Lia.
From stdpp Require Import base tactics list gmap numbers.
From S2P Require Import Prelude Err Kernel CtruUtils.

(** ** Tokens and wakers *)

Record TaskToken := mkToken { token : Z }.

#[export] Instance TaskToken_eq_dec : EqDecision TaskToken.
Proof. solve_decision. Defined.

#[export] Instance TaskToken_countable : Countable TaskToken.
Proof. apply (inj_countable' token mkToken). by intros []. Defined.

(** A waker is its data pointer: the vtable is the one static [VTABLE]. *)
Record Waker := mkWaker { data : Z }.

Definition from_waker (waker : Waker) : TaskToken := mkToken (as_u32 (data waker)).

Definition make_waker (task : TaskToken) : Waker := mkWaker (token task).

Definition clone_waker (d : Z) : Waker := mkWaker d.

(** ** The [Future] trait *)

Class Future (W F Out : Type) := poll : F -> Waker -> prog W (Poll Out * F).

Arguments poll {W F Out _} f waker : simpl never.

(** ** What the rest of the runtime sees of the wake queue

    [wake_add t] is [WAKE_QUEUE.get().unwrap().add(t)] as one action, [wakes]
    the queued tokens ([None] before the queue exists), [wake_ok] the condition
    under which [add] is promised to work. *)
Class WakeSink (W : Type) := {
  wake_add : TaskToken -> W -> outcome W unit;
  wakes : W -> option (list TaskToken);
  wake_ok : W -> Prop;
}.

Class WakeSinkLaws (W : Type) `{WakeSink W} : Prop := {
  wake_add_ok : forall t w l, wake_ok w -> wakes w = Some l ->
    exists w', wake_add t w = Done tt w' /\ wakes w' = Some (l ++ [t]) /\ wake_ok w';
  wake_add_unset : forall t w, wakes w = None -> wake_add t w = Panicked w;
}.

(** ** The world of the runtime

    The statics of the executor, the kernel and everything else futures work on. *)
Record World (K Fut E : Type) := mkWorld {
  TASK_QUEUE : option (SyncQueue Fut);
  WAKE_QUEUE : option (SyncQueue TaskToken);
  EXECUTOR_PORT : option Z;
  w_kern : K;
  w_env : E;
}.

Arguments mkWorld {K Fut E} TASK_QUEUE WAKE_QUEUE EXECUTOR_PORT w_kern w_env.
Arguments TASK_QUEUE {K Fut E} w.
Arguments WAKE_QUEUE {K Fut E} w.
Arguments EXECUTOR_PORT {K Fut E} w.
Arguments w_kern {K Fut E} w.
Arguments w_env {K Fut E} w.

Record ExecutorSt (Fut : Type) := mkExecutor {
  ex_tasks : gmap TaskToken Fut;
  ex_task_semaphore : Z;
  ex_wake_semaphore : Z;
}.

Record ExecutorHandler (Fut : Type) := mkHandler {
  task_counter : Z;
  tasks : gmap TaskToken Fut;
  task_semaphore : Z;
  wake_semaphore : Z;
}.

Arguments mkExecutor {Fut} ex_tasks ex_task_semaphore ex_wake_semaphore.
Arguments ex_tasks {Fut} e.
Arguments ex_task_semaphore {Fut} e.
Arguments ex_wake_semaphore {Fut} e.
Arguments mkHandler {Fut} task_counter tasks task_semaphore wake_semaphore.
Arguments task_counter {Fut} e.
Arguments tasks {Fut} e.
Arguments task_semaphore {Fut} e.
Arguments wake_semaphore {Fut} e.

Definition set_counter {Fut} (n : Z) (h : ExecutorHandler Fut) : ExecutorHandler Fut :=
  mkHandler n (tasks h) (task_semaphore h) (wake_semaphore h).

Definition set_tasks {Fut} (m : gmap TaskToken Fut) (h : ExecutorHandler Fut) :
    ExecutorHandler Fut :=
  mkHandler (task_counter h) m (task_semaphore h) (wake_semaphore h).

(** Where the executor thread is in its loop. *)
Inductive exec_pc : Type :=
| AtWait
| DrainWake
| DrainTask.

Section executor.
Context {K Fut E : Type} `{Semaphores K}.

Abbreviation W := (World K Fut E).

(** *** The global queues *)

Definition put_wake (qk : SyncQueue TaskToken * K) (w : W) : W :=
  mkWorld (TASK_QUEUE w) (Some (fst qk)) (EXECUTOR_PORT w) (snd qk) (w_env w).

Definition put_task (qk : SyncQueue Fut * K) (w : W) : W :=
  mkWorld (Some (fst qk)) (WAKE_QUEUE w) (EXECUTOR_PORT w) (snd qk) (w_env w).

Definition put_kern (k : K) (w : W) : W :=
  mkWorld (TASK_QUEUE w) (WAKE_QUEUE w) (EXECUTOR_PORT w) k (w_env w).

(** [WAKE_QUEUE.get().unwrap()] followed by a method call; a set [OnceLock]
    stays set. *)
Definition on_wake_queue {A} (p : prog (SyncQueue TaskToken * K) A) : prog W A :=
  o ← gets WAKE_QUEUE;
  q ← unwrap o;
  zoom (fun w => (default q (WAKE_QUEUE w), w_kern w)) put_wake p.

Definition on_task_queue {A} (p : prog (SyncQueue Fut * K) A) : prog W A :=
  o ← gets TASK_QUEUE;
  q ← unwrap o;
  zoom (fun w => (default q (TASK_QUEUE w), w_kern w)) put_task p.

Definition wake_queue_add (t : TaskToken) : prog W unit := on_wake_queue (SyncQueue_add t).

Definition task_queue_add (f : Fut) : prog W unit := on_task_queue (SyncQueue_add f).

(** The waker's vtable: waking queues the token, dropping does nothing. *)
Definition waker_wake (d : Z) : prog W unit := wake_queue_add (mkToken (as_u32 d)).

Definition waker_wake_by_ref (d : Z) : prog W unit := waker_wake d.

Definition waker_drop (d : Z) : prog W unit := mret tt.

(** [ExecutorSession::wake]: the session's IPC is bypassed. *)
Definition ExecutorSession_wake (task : TaskToken) : prog W (BunnyResult unit) :=
  wake_queue_add task;; mret (Ok tt).

(** *** Start-up *)

Definition get_or_init_task_queue : prog W (SyncQueue Fut) :=
  o ← gets TASK_QUEUE;
  match o with
  | Some q => mret q
  | None => q ← zoom w_kern put_kern SyncQueue_new;
            modify (fun w => put_task (q, w_kern w) w);; mret q
  end.

Definition get_or_init_wake_queue : prog W (SyncQueue TaskToken) :=
  o ← gets WAKE_QUEUE;
  match o with
  | Some q => mret q
  | None => q ← zoom w_kern put_kern SyncQueue_new;
            modify (fun w => put_wake (q, w_kern w) w);; mret q
  end.

(** [IPCServer::new] of the [ds_ipc] crate yields a client port or an error. *)
Variable IPCServer_new : K -> outcome K (Result Z CtruError).

Definition Executor_new : prog W (ExecutorSt Fut) :=
  r ← zoom w_kern put_kern (act IPCServer_new);
  port ← unwrap (match r with Ok p => Some p | Err _ => None end);
  modify (fun w => mkWorld (TASK_QUEUE w) (WAKE_QUEUE w)
    (match EXECUTOR_PORT w with Some p => Some p | None => Some port end)
    (w_kern w) (w_env w));;
  tq ← get_or_init_task_queue;
  wq ← get_or_init_wake_queue;
  mret (mkExecutor ∅ (semaphore_handle tq) (semaphore_handle wq)).

Definition Executor_run (e : ExecutorSt Fut) : exec_pc * ExecutorHandler Fut :=
  (AtWait, mkHandler 0 (ex_tasks e) (ex_task_semaphore e) (ex_wake_semaphore e)).

(** *** The handler *)

Context `{Profile} `{!Future W Fut unit}.

Definition ExecutorHandler_spawn (h : ExecutorHandler Fut) (fut : Fut) :
    prog W (ExecutorHandler Fut * option TaskToken) :=
  let task_key := mkToken (task_counter h) in
  n ← arith as_u32 (task_counter h + 1);
  let h := set_counter n h in
  let task_waker := make_waker task_key in
  r ← poll fut task_waker;
  match r with
  | (Ready _, _) => mret (h, None)
  | (Pending, fut') =>
      mret (set_tasks (<[task_key := fut']> (tasks h)) h, Some task_key)
  end.

Definition ExecutorHandler_wake (h : ExecutorHandler Fut) (task : TaskToken) :
    prog W (ExecutorHandler Fut) :=
  let task_waker := make_waker task in
  match tasks h !! task with
  | None => mret h
  | Some task_fut =>
      r ← poll task_fut task_waker;
      match r with
      | (Ready _, _) => mret (set_tasks (delete task (tasks h)) h)
      | (Pending, fut') => mret (set_tasks (<[task := fut']> (tasks h)) h)
      end
  end.

(** One iteration of the innermost loop the executor is in: of the outer
    [loop] at [AtWait], of one of the two [while let] loops otherwise. *)
Definition exec_iter (c : exec_pc * ExecutorHandler Fut) :
    prog W (exec_pc * ExecutorHandler Fut) :=
  let '(pc, h) := c in
  match pc with
  | AtWait =>
      r ← zoom w_kern put_kern (act
        (svcWaitSynchronizationN [task_semaphore h; wake_semaphore h] false i64_MAX));
      let idx := snd r in
      if idx =? 1 then mret (DrainWake, h)
      else if idx =? 0 then mret (DrainTask, h)
      else mret (AtWait, h)
  | DrainWake =>
      o ← on_wake_queue SyncQueue_remove;
      match o with
      | Some task => h' ← ExecutorHandler_wake h task; mret (DrainWake, h')
      | None => mret (AtWait, h)
      end
  | DrainTask =>
      o ← on_task_queue SyncQueue_remove;
      match o with
      | Some task => r ← ExecutorHandler_spawn h task; mret (DrainTask, fst r)
      | None => mret (AtWait, h)
      end
  end.

Fixpoint exec_iters (n : nat) (c : exec_pc * ExecutorHandler Fut) :
    prog W (exec_pc * ExecutorHandler Fut) :=
  match n with
  | O => mret c
  | S n' => c' ← exec_iter c; exec_iters n' c'
  end.

End executor.

(** ** Join handles

    The state shared by a [JoinHandle], the wrapper around the spawned future
    and, for [spawn_and_block], the blocked thread. *)

Inductive JoinState (T : Type) : Type :=
| Unawaited
| Awaited (waker : Waker)
| JoinReady (val : T)
| JoinDone.

Arguments Unawaited {T}.
Arguments Awaited {T} waker.
Arguments JoinReady {T} val.
Arguments JoinDone {T}.

Record JoinCell (T : Type) := mkJoinCell {
  join_state : JoinState T;
  join_signal : option WaitSignal;
}.

Arguments mkJoinCell {T} join_state join_signal.
Arguments join_state {T} j.
Arguments join_signal {T} j.

Definition set_join {T} (j : JoinState T) (c : JoinCell T) : JoinCell T :=
  mkJoinCell j (join_signal c).

Definition set_signal {T} (s : WaitSignal) (c : JoinCell T) : JoinCell T :=
  mkJoinCell (join_state c) (Some s).

(** The future [async fn wrap_with_join_state] compiles to: awaiting the inner
    future, or returned. *)
Inductive WrapFut (F : Type) : Type :=
| WrapAwait (future : F)
| WrapReturned.

Arguments WrapAwait {F} future.
Arguments WrapReturned {F}.

Section join.
Context {W F T : Type} `{Future W F T} `{WakeSink W} `{LightSync}.

Abbreviation JW := (JoinCell T * W)%type.

(** [JoinHandle::poll]: one critical section of the mutex. *)
Definition JoinHandle_poll (waker : Waker) : prog JW (Poll T) :=
  act (fun '(c, w) =>
    match join_state c with
    | JoinReady val => Done (Ready val) (set_join JoinDone c, w)
    | Unawaited | Awaited _ => Done Pending (set_join (Awaited waker) c, w)
    | JoinDone => Panicked (set_join JoinDone c, w)
    end).

(** Signalling and waiting on the optional [WaitSignal]. *)
Definition on_signal {A} (s0 : WaitSignal) (p : prog WaitSignal A) : prog JW A :=
  zoom (fun c => default s0 (join_signal (fst c)))
       (fun s c => (set_signal s (fst c), snd c)) p.

(** What [wrap_with_join_state] does once the future has a value. *)
Definition wrap_complete (value : T) : prog JW unit :=
  modify (fun '(c, w) => (set_join (JoinReady value) c, w));;
  guard ← gets (fun c => join_state (fst c));
  (match guard with
   | Awaited waker => on_snd (act (wake_add (from_waker waker)))
   | _ => mret tt
   end);;
  signal ← gets (fun c => join_signal (fst c));
  match signal with
  | Some s => on_signal s WaitSignal_signal
  | None => mret tt
  end.

Definition wrap_with_join_state_poll (f : WrapFut F) (waker : Waker) :
    prog JW (Poll unit * WrapFut F) :=
  match f with
  | WrapReturned => panic
  | WrapAwait future =>
      r ← on_snd (poll future waker);
      match r with
      | (Ready value, _) => wrap_complete value;; mret (Ready tt, WrapReturned)
      | (Pending, future') => mret (Pending, WrapAwait future')
      end
  end.

(** The blocked half of [spawn_and_block], from [signal.wait()] on. *)
Definition block_on_result (s0 : WaitSignal) : prog JW T :=
  on_signal s0 WaitSignal_wait;;
  act (fun '(c, w) =>
    match join_state c with
    | JoinReady val => Done val (set_join JoinDone c, w)
    | _ => Panicked (set_join JoinDone c, w)
    end).

End join.

(** The two public ways to start a task; [box] is [Box::pin] of the wrapper. *)
Section spawning.
Context {K Fut E F T : Type} `{Semaphores K} `{LightSync}.

Definition spawn (box : WrapFut F -> Fut) (future : F) :
    prog (World K Fut E) (JoinCell T) :=
  let join_state := mkJoinCell Unawaited None in
  task_queue_add (box (WrapAwait future));;
  mret join_state.

Definition spawn_and_block (box : WrapFut F -> Fut) (future : F) :
    prog (JoinCell T * World K Fut E) T :=
  let signal := WaitSignal_new in
  modify (fun '(_, w) => (mkJoinCell Unawaited (Some signal), w));;
  on_snd (task_queue_add (box (WrapAwait future)));;
  block_on_result signal.

End spawning.

(** ** Lemmas on the world *)

Section world_lemmas.
Context {K Fut E : Type} `{SemaphoreLaws K}.

Abbreviation W := (World K Fut E).

Lemma run_on_wake_queue {A} (p : prog (SyncQueue TaskToken * K) A) (w : W) :
  run (on_wake_queue p) w =
  match WAKE_QUEUE w with
  | None => Panicked w
  | Some q => obind (run p (q, w_kern w)) (fun s => put_wake s w)
                (fun a s => Done a (put_wake s w))
  end.
Proof.
  unfold on_wake_queue. rewrite run_bind, run_gets. cbn [obind]. rewrite run_bind, run_unwrap.
  destruct (WAKE_QUEUE w) as [q|] eqn:Eq; [|done]. cbn [obind]. rewrite run_zoom.
  - by rewrite Eq.
  - by intros [].
  - by intros [] [].
  - rewrite Eq. destruct w; cbn in *; by simplify_eq.
Qed.

Lemma run_on_task_queue {A} (p : prog (SyncQueue Fut * K) A) (w : W) :
  run (on_task_queue p) w =
  match TASK_QUEUE w with
  | None => Panicked w
  | Some q => obind (run p (q, w_kern w)) (fun s => put_task s w)
                (fun a s => Done a (put_task s w))
  end.
Proof.
  unfold on_task_queue. rewrite run_bind, run_gets. cbn [obind]. rewrite run_bind, run_unwrap.
  destruct (TASK_QUEUE w) as [q|] eqn:Eq; [|done]. cbn [obind]. rewrite run_zoom.
  - by rewrite Eq.
  - by intros [].
  - by intros [] [].
  - rewrite Eq. destruct w; cbn in *; by simplify_eq.
Qed.

Lemma run_on_kern {A} (p : prog K A) (w : W) :
  run (zoom w_kern put_kern p) w =
  obind (run p (w_kern w)) (fun k => put_kern k w) (fun a k => Done a (put_kern k w)).
Proof. rewrite run_zoom; [done..|]. by destruct w. Qed.

(** Both queues exist, on semaphores of their own with [ct] and [cw] units. *)
Record world_at (w : W) (tq : SyncQueue Fut) (wq : SyncQueue TaskToken) (ct cw : Z) : Prop := {
  at_task : TASK_QUEUE w = Some tq;
  at_wake : WAKE_QUEUE w = Some wq;
  at_task_sem : queue_sem tq (w_kern w) ct;
  at_wake_sem : queue_sem wq (w_kern w) cw;
  at_distinct : semaphore_handle tq <> semaphore_handle wq;
}.

(** The queues of [w'] are those of [w] with more elements, and every queue that
    gained an element has a unit to be taken. *)
Definition only_adds (w w' : W) : Prop :=
  forall tq wq ct cw, world_at w tq wq ct cw ->
  exists lt lw ct' cw',
    world_at w' (set_vals (vals tq ++ lt) tq) (set_vals (vals wq ++ lw) wq) ct' cw' /\
    ct <= ct' /\ cw <= cw' /\ (lt <> [] -> 0 < ct') /\ (lw <> [] -> 0 < cw').

Lemma set_vals_nil {T} (q : SyncQueue T) : set_vals (vals q ++ []) q = q.
Proof. rewrite app_nil_r. by destruct q. Qed.

#[export] Instance only_adds_preorder : PreOrder only_adds.
Proof.
  split.
  - intros w tq wq ct cw Hw. exists [], [], ct, cw. rewrite !set_vals_nil.
    split_and!; [done|lia..|done|done].
  - intros w1 w2 w3 H12 H23 tq wq ct cw Hw.
    destruct (H12 _ _ _ _ Hw) as (lt & lw & ct' & cw' & Hw' & ? & ? & Ht & Hwk).
    destruct (H23 _ _ _ _ Hw') as (lt' & lw' & ct'' & cw'' & Hw'' & ? & ? & Ht' & Hwk').
    exists (lt ++ lt'), (lw ++ lw'), ct'', cw''. rewrite !app_assoc.
    split_and!; [exact Hw''|lia..| |]; intros Hne.
    + destruct lt' as [|x l]; [|by apply Ht'].
      rewrite app_nil_r in Hne. specialize (Ht Hne). lia.
    + destruct lw' as [|x l]; [|by apply Hwk'].
      rewrite app_nil_r in Hne. specialize (Hwk Hne). lia.
Qed.

Lemma run_wake_queue_add t (w : W) tq wq ct cw :
  world_at w tq wq ct cw ->
  exists w' cw', run (wake_queue_add t) w = Done tt w' /\
    world_at w' tq (set_vals (vals wq ++ [t]) wq) ct cw' /\ cw <= cw' /\ 0 < cw'.
Proof.
  intros [Et Ew St Sw Hne]. unfold wake_queue_add. rewrite run_on_wake_queue, Ew.
  destruct (run_SyncQueue_add t wq _ cw Sw) as (k' & c' & -> & Sw' & ? & ? & Hfr).
  eexists _, c'. split_and!; [done| |done..]. split; cbn; try done.
  destruct St. split; [|done]. by rewrite Hfr.
Qed.

Lemma run_task_queue_add f (w : W) tq wq ct cw :
  world_at w tq wq ct cw ->
  exists w' ct', run (task_queue_add f) w = Done tt w' /\
    world_at w' (set_vals (vals tq ++ [f]) tq) wq ct' cw /\ ct <= ct' /\ 0 < ct'.
Proof.
  intros [Et Ew St Sw Hne]. unfold task_queue_add. rewrite run_on_task_queue, Et.
  destruct (run_SyncQueue_add f tq _ ct St) as (k' & c' & -> & St' & ? & ? & Hfr).
  eexists _, c'. split_and!; [done| |done..]. split; cbn; try done.
  destruct Sw. split; [|done]. by rewrite Hfr.
Qed.

(** The queue operations futures have at hand only add. *)
Lemma wake_queue_add_only_adds t (w w' : W) :
  run (wake_queue_add t) w = Done tt w' -> only_adds w w'.
Proof.
  intros Hr tq wq ct cw Hw.
  destruct (run_wake_queue_add t w _ _ _ _ Hw) as (w1 & cw' & Er & Hw' & ? & ?).
  rewrite Hr in Er; simplify_eq. exists [], [t], ct, cw'. rewrite set_vals_nil.
  split_and!; [done|lia..|done|done].
Qed.

Lemma task_queue_add_only_adds f (w w' : W) :
  run (task_queue_add f) w = Done tt w' -> only_adds w w'.
Proof.
  intros Hr tq wq ct cw Hw.
  destruct (run_task_queue_add f w _ _ _ _ Hw) as (w1 & ct' & Er & Hw' & ? & ?).
  rewrite Hr in Er; simplify_eq. exists [f], [], ct', cw. rewrite set_vals_nil.
  split_and!; [done|lia..|done|done].
Qed.

(** Removing from a queue of the world. *)
Lemma run_wake_remove (w : W) tq wq ct cw :
  world_at w tq wq ct cw ->
  exists w', run (on_wake_queue SyncQueue_remove) w = Done (fst (pop_back (vals wq))) w' /\
    world_at w' tq (set_vals (snd (pop_back (vals wq))) wq) ct cw.
Proof.
  intros [Et Ew St Sw Hne]. rewrite run_on_wake_queue, Ew, run_SyncQueue_remove.
  eexists. split; [done|]. by split.
Qed.

Lemma run_task_remove (w : W) tq wq ct cw :
  world_at w tq wq ct cw ->
  exists w', run (on_task_queue SyncQueue_remove) w = Done (fst (pop_back (vals tq))) w' /\
    world_at w' (set_vals (snd (pop_back (vals tq))) tq) wq ct cw.
Proof.
  intros [Et Ew St Sw Hne]. rewrite run_on_task_queue, Et, run_SyncQueue_remove.
  eexists. split; [done|]. by split.
Qed.

End world_lemmas.

(** The world fulfils what clients of the wake queue rely on. *)
#[export] Instance World_wake_sink {K Fut E} `{Semaphores K} : WakeSink (World K Fut E) := {|
  wake_add t w := run (wake_queue_add t) w;
  wakes w := vals <$> WAKE_QUEUE w;
  wake_ok w := exists q c, WAKE_QUEUE w = Some q /\ queue_sem q (w_kern w) c;
|}.

#[export] Instance World_wake_sink_laws {K Fut E} `{SemaphoreLaws K} :
  WakeSinkLaws (World K Fut E).
Proof.
  split; unfold wake_ok, wakes, wake_add, World_wake_sink.
  - intros t w l (q & c & Eq & Sq) El. rewrite Eq in El; cbn in El; simplify_eq.
    unfold wake_queue_add. rewrite run_on_wake_queue, Eq.
    destruct (run_SyncQueue_add t q _ c Sq) as (k' & c' & -> & Sq' & _).
    eexists. split_and!; [done|done|]. by exists (set_vals (vals q ++ [t]) q), c'.
  - intros t w Hn. assert (WAKE_QUEUE w = None) as Eq by (by destruct (WAKE_QUEUE w)).
    unfold wake_queue_add. by rewrite run_on_wake_queue, Eq.
Qed.
