(* ===== verification/ExecutorSys.v ===== *)
(** * The executor thread among other threads

    The system of the executor thread and any number of other threads that spawn
    tasks and wake them: a step relation with the executor's iterations and the
    two atomic parts of every foreign [add], its invariant, and what follows for
    the executor: when it sleeps, which task tokens are free, how the wake queue
    is drained. *)

From Stdlib Require Import ZArith Lia.
From stdpp Require Import base tactics list gmap numbers.
From S2P Require Import Prelude Err Kernel CtruUtils Executor.

(** ** States and steps *)

Record ESys (K Fut E : Type) := mkESys {
  es_world : World K Fut E;
  es_pc : exec_pc;
  es_handler : ExecutorHandler Fut;
  es_pend_task : Z;
  es_pend_wake : Z;
}.

Arguments mkESys {K Fut E} es_world es_pc es_handler es_pend_task es_pend_wake.
Arguments es_world {K Fut E} e.
Arguments es_pc {K Fut E} e.
Arguments es_handler {K Fut E} e.
Arguments es_pend_task {K Fut E} e.
Arguments es_pend_wake {K Fut E} e.

Section system.
Context {K Fut E : Type} `{Semaphores K} `{Profile} `{!Future (World K Fut E) Fut unit}.

(** [es_pend_task] and [es_pend_wake] count the foreign [add]s that have pushed
    their element and not yet released the semaphore. *)
Inductive es_step : ESys K Fut E -> ESys K Fut E -> Prop :=
| es_exec w pc h pt pw pc' h' w' :
    run (exec_iter (pc, h)) w = Done (pc', h') w' ->
    es_step (mkESys w pc h pt pw) (mkESys w' pc' h' pt pw)
| es_push_wake t w pc h pt pw w' :
    run (on_wake_queue (add_push t)) w = Done tt w' ->
    es_step (mkESys w pc h pt pw) (mkESys w' pc h pt (pw + 1))
| es_release_wake w pc h pt pw w' :
    0 < pw ->
    run (on_wake_queue add_release) w = Done tt w' ->
    es_step (mkESys w pc h pt pw) (mkESys w' pc h pt (pw - 1))
| es_push_task f w pc h pt pw w' :
    run (on_task_queue (add_push f)) w = Done tt w' ->
    es_step (mkESys w pc h pt pw) (mkESys w' pc h (pt + 1) pw)
| es_release_task w pc h pt pw w' :
    0 < pt ->
    run (on_task_queue add_release) w = Done tt w' ->
    es_step (mkESys w pc h pt pw) (mkESys w' pc h (pt - 1) pw).

(** The state in which [Executor::run] enters its loop, right after
    [Executor::new] on a kernel that grants the IPC port and both semaphores. *)
Definition es_start (ipc : K -> outcome K (Result Z CtruError)) (w0 : World K Fut E)
    (s : ESys K Fut E) : Prop :=
  TASK_QUEUE w0 = None /\ WAKE_QUEUE w0 = None /\
  exists port k1 (tq : SyncQueue Fut) k2 (wq : SyncQueue TaskToken) k3,
    ipc (w_kern w0) = Done (Ok port) k1 /\
    created k1 tq k2 /\ created k2 wq k3 /\
    exists e w, run (Executor_new ipc) w0 = Done e w /\
    s = mkESys w (fst (Executor_run e)) (snd (Executor_run e)) 0 0.

End system.

(** User code reaches the queues only through [spawn] and wakers, which add. *)
Class PollOnlyAdds {K Fut E} `{Semaphores K} `{!Future (World K Fut E) Fut unit} : Prop :=
  poll_only_adds : forall f wk w r w',
    run (poll f wk) w = Done r w' -> only_adds w w'.

(** ** The invariant *)

Section invariant.
Context {K Fut E : Type} `{SemaphoreLaws K} `{Profile}.
Context `{!Future (World K Fut E) Fut unit} `{!PollOnlyAdds (K:=K) (Fut:=Fut) (E:=E)}.

Abbreviation W := (World K Fut E).

(** Work is announced: a queue the executor is not draining at the moment and
    that is not empty has a unit on its semaphore, or a producer about to add
    one. *)
Definition announced {T} (draining : bool) (q : SyncQueue T) (c pend : Z) : Prop :=
  draining = false -> vals q <> [] -> 0 < c \/ 0 < pend.

Definition draining_task (pc : exec_pc) : bool :=
  match pc with DrainTask => true | _ => false end.

Definition draining_wake (pc : exec_pc) : bool :=
  match pc with DrainWake => true | _ => false end.

Definition es_inv (s : ESys K Fut E) : Prop :=
  exists tq wq ct cw,
    world_at (es_world s) tq wq ct cw /\
    task_semaphore (es_handler s) = semaphore_handle tq /\
    wake_semaphore (es_handler s) = semaphore_handle wq /\
    0 <= es_pend_task s /\ 0 <= es_pend_wake s /\
    announced (draining_task (es_pc s)) tq ct (es_pend_task s) /\
    announced (draining_wake (es_pc s)) wq cw (es_pend_wake s).

Lemma announced_grow {T} d (q : SyncQueue T) c p l c' :
  announced d q c p -> c <= c' -> (l <> [] -> 0 < c') ->
  announced d (set_vals (vals q ++ l) q) c' p.
Proof.
  intros Ha Hc Hl Hd Hne. cbn in Hne. destruct l as [|x l].
  - rewrite app_nil_r in Hne. destruct (Ha Hd Hne); [left; lia|by right].
  - left. by apply Hl.
Qed.

Lemma announced_empty {T} d (q : SyncQueue T) c p : vals q = [] -> announced d q c p.
Proof. by intros Hv _ Hne. Qed.

#[local] Hint Resolve announced_empty : bunny.

(** The handler's semaphores never change. *)
Definition same_sems (h h' : ExecutorHandler Fut) : Prop :=
  task_semaphore h' = task_semaphore h /\ wake_semaphore h' = wake_semaphore h.

(** What a completed [wake] did: nothing for an unknown token, one poll of the
    task otherwise. *)
Lemma run_wake_inv h t (w : W) h' w' :
  run (ExecutorHandler_wake h t) w = Done h' w' ->
  (tasks h !! t = None /\ h' = h /\ w' = w) \/
  (exists f p f', tasks h !! t = Some f /\ run (poll f (make_waker t)) w = Done (p, f') w' /\
     h' = set_tasks (match p with Ready _ => delete t (tasks h)
                                | Pending => <[t := f']> (tasks h) end) h).
Proof.
  unfold ExecutorHandler_wake. destruct (tasks h !! t) as [f|]; cbn zeta.
  - rewrite run_bind. destruct (run (poll f _) w) as [[p f'] w1| | |] eqn:Er; [|done..].
    cbn [obind]. intros Hp. right. exists f, p, f'.
    destruct p as [[]|]; rewrite run_ret in Hp; by simplify_eq.
  - rewrite run_ret. intros; simplify_eq. by left.
Qed.

(** What a completed [spawn] did: it took the counter as the token, advanced it,
    and polled the future once. *)
Lemma run_spawn_inv h f (w : W) r w' :
  run (ExecutorHandler_spawn h f) w = Done r w' ->
  exists n p f',
    run (arith as_u32 (task_counter h + 1)) w = Done n w /\
    run (poll f (make_waker (mkToken (task_counter h)))) w = Done (p, f') w' /\
    r = match p with
        | Ready _ => (set_counter n h, None)
        | Pending => (set_tasks (<[mkToken (task_counter h) := f']> (tasks h)) (set_counter n h),
                      Some (mkToken (task_counter h)))
        end.
Proof.
  unfold ExecutorHandler_spawn. cbn zeta. intros Hr. rewrite run_bind, run_arith in Hr.
  assert (exists n, run (arith as_u32 (task_counter h + 1)) w = Done n w /\
    run (r ← poll f (make_waker (mkToken (task_counter h)));
      match r with
      | (Ready _, _) => mret (set_counter n h, None)
      | (Pending, fut') => mret (set_tasks (<[mkToken (task_counter h) := fut']>
          (tasks (set_counter n h))) (set_counter n h), Some (mkToken (task_counter h)))
      end) w = Done r w') as (n & Hn & Hp).
  { rewrite run_arith. destruct (as_u32 _ =? _); [by eexists|].
    destruct overflow_checks; [done|by eexists]. }
  rewrite run_bind in Hp. destruct (run (poll f _) w) as [[p f'] w1| | |] eqn:Er; [|done..].
  exists n, p, f'. cbn [obind] in Hp. split; [done|].
  destruct p as [[]|]; rewrite run_ret in Hp; by simplify_eq.
Qed.

Lemma wake_effect h t (w : W) h' w' :
  run (ExecutorHandler_wake h t) w = Done h' w' -> only_adds w w' /\ same_sems h h'.
Proof.
  intros [(_ & -> & ->)|(f & p & f' & _ & Hp & ->)]%run_wake_inv.
  - by split.
  - split; [by eapply poll_only_adds|by destruct p].
Qed.

Lemma spawn_effect h f (w : W) r w' :
  run (ExecutorHandler_spawn h f) w = Done r w' -> only_adds w w' /\ same_sems h (fst r).
Proof.
  intros (n & p & f' & _ & Hp & ->)%run_spawn_inv.
  split; [by eapply poll_only_adds|by destruct p].
Qed.

Ltac es_simpl :=
  cbn [es_world es_pc es_handler es_pend_task es_pend_wake draining_task draining_wake
       exec_iter] in *.

(** Taking a unit of a semaphore leaves the other queue's alone. *)
Lemma world_at_take (w : W) tq wq ct cw h c m k' :
  world_at w tq wq ct cw ->
  h ∈ [semaphore_handle tq; semaphore_handle wq] ->
  sem_count (w_kern w) h = Some (c, m) -> 0 < c -> sem_set (w_kern w) h (c - 1) k' ->
  (h = semaphore_handle tq /\ world_at (put_kern k' w) tq wq (ct - 1) cw) \/
  (h = semaphore_handle wq /\ world_at (put_kern k' w) tq wq ct (cw - 1)).
Proof.
  intros [Et Ew [St Rt] [Sw Rw] Hne] Hin Ec Hc [(c0 & m0 & E0 & E1) Hfr].
  rewrite Ec in E0; simplify_eq.
  apply elem_of_cons in Hin as [->| ->%list_elem_of_singleton]; [left|right]; (split; [done|]).
  - rewrite St in Ec; simplify_eq. split; try done; cbn.
    + split; [done|lia].
    + split; [by rewrite Hfr|done].
  - rewrite Sw in Ec; simplify_eq. split; try done; cbn.
    + split; [by rewrite Hfr|done].
    + split; [done|lia].
Qed.

(** At [AtWait] the executor blocks exactly when both semaphores are empty, and
    otherwise goes on to drain a queue whose semaphore had a unit. *)
Lemma run_exec_wait h (w : W) tq wq ct cw :
  world_at w tq wq ct cw ->
  task_semaphore h = semaphore_handle tq -> wake_semaphore h = semaphore_handle wq ->
  (ct = 0 /\ cw = 0 /\ run (exec_iter (AtWait, h)) w = Blocked) \/
  (exists w', run (exec_iter (AtWait, h)) w = Done (DrainTask, h) w' /\
     world_at w' tq wq (ct - 1) cw) \/
  (exists w', run (exec_iter (AtWait, h)) w = Done (DrainWake, h) w' /\
     world_at w' tq wq ct (cw - 1)).
Proof.
  intros Hw Ht Hwk. cbn [exec_iter]. rewrite run_bind, run_on_kern, run_act, Ht, Hwk.
  pose proof (at_task_sem _ _ _ _ _ Hw) as [St Rt].
  pose proof (at_wake_sem _ _ _ _ _ Hw) as [Sw Rw].
  destruct (decide (ct = 0 /\ cw = 0)) as [[-> ->]|Hnz].
  - left. rewrite wait_any_blocks; [done|].
    intros x Hx. apply elem_of_cons in Hx as [->| ->%list_elem_of_singleton]; eauto.
  - right. destruct (wait_any_ok [semaphore_handle tq; semaphore_handle wq] (w_kern w))
      as (idx & x & c & m & k' & -> & Hx & Ec & Hc & Hset).
    + intros x Hx. apply elem_of_cons in Hx as [->| ->%list_elem_of_singleton]; eauto with lia.
    + destruct (decide (0 < ct)); [exists (semaphore_handle tq), ct, 255
        |exists (semaphore_handle wq), cw, 255]; (split_and!; [|done|lia]);
        rewrite !elem_of_cons; tauto.
    + assert (x ∈ [semaphore_handle tq; semaphore_handle wq])
        as Hin by (by eapply list_elem_of_lookup_2).
      destruct (world_at_take _ _ _ _ _ _ _ _ _ Hw Hin Ec Hc Hset) as [[-> Hw']|[-> Hw']].
      * assert (idx = 0%nat) as -> by (destruct idx as [|[|]]; cbn in Hx;
          [done|by apply at_distinct in Hw; simplify_eq|done]).
        left. eexists. by split.
      * assert (idx = 1%nat) as -> by (destruct idx as [|[|]]; cbn in Hx;
          [by apply at_distinct in Hw; simplify_eq|done|done]).
        right. eexists. by split.
Qed.

Lemma inv_exec_drain_wake h (w : W) pt pw pc' h' w' :
  es_inv (mkESys w DrainWake h pt pw) ->
  run (exec_iter (DrainWake, h)) w = Done (pc', h') w' ->
  es_inv (mkESys w' pc' h' pt pw).
Proof.
  intros (tq0 & wq0 & ct0 & cw0 & Hw & Ht & Hwk & ? & ? & At & _) Er; es_simpl.
  destruct (run_wake_remove w _ _ _ _ Hw) as (w1 & E1 & Hw1).
  rewrite run_bind, E1 in Er. cbn [obind] in Er.
  destruct (vals wq0) as [|t l _] using rev_ind.
  - rewrite pop_back_nil in *. cbn [fst snd] in *. rewrite run_ret in Er. simplify_eq. 
    exists tq0, (set_vals [] wq0), ct0, cw0. split_and!; eauto with bunny.
  - rewrite pop_back_snoc in *. cbn [fst snd] in *. rewrite run_bind in Er.
    destruct (run (ExecutorHandler_wake h t) w1) as [h1 w2| | |] eqn:E2; cbn [obind] in Er; [|done..].
    destruct (wake_effect _ _ _ _ _ E2) as [Hadd [S1 S2]].
    destruct (Hadd _ _ _ _ Hw1) as (lt & lw & ct' & cw' & Hw2 & ? & ? & Hlt & Hlw).
    rewrite run_ret in Er; simplify_eq.
    eexists _, _, ct', cw'. cbn in *.
    split_and!; [exact Hw2|cbn; congruence|cbn; congruence|done|done| |done].
    by eapply announced_grow.
Qed.

Lemma inv_exec_drain_task h (w : W) pt pw pc' h' w' :
  es_inv (mkESys w DrainTask h pt pw) ->
  run (exec_iter (DrainTask, h)) w = Done (pc', h') w' ->
  es_inv (mkESys w' pc' h' pt pw).
Proof.
  intros (tq0 & wq0 & ct0 & cw0 & Hw & Ht & Hwk & ? & ? & _ & Aw) Er; es_simpl.
  destruct (run_task_remove w _ _ _ _ Hw) as (w1 & E1 & Hw1).
  rewrite run_bind, E1 in Er. cbn [obind] in Er.
  destruct (vals tq0) as [|f l _] using rev_ind.
  - rewrite pop_back_nil in *. cbn [fst snd] in *. rewrite run_ret in Er. simplify_eq. 
    exists (set_vals [] tq0), wq0, ct0, cw0. split_and!; eauto with bunny.
  - rewrite pop_back_snoc in *. cbn [fst snd] in *. rewrite run_bind in Er.
    destruct (run (ExecutorHandler_spawn h f) w1) as [r w2| | |] eqn:E2; cbn [obind] in Er; [|done..].
    destruct (spawn_effect _ _ _ _ _ E2) as [Hadd [S1 S2]].
    destruct (Hadd _ _ _ _ Hw1) as (lt & lw & ct' & cw' & Hw2 & ? & ? & Hlt & Hlw).
    rewrite run_ret in Er; simplify_eq.
    eexists _, _, ct', cw'. cbn in *.
    split_and!; [exact Hw2|cbn; congruence|cbn; congruence|done|done|done|].
    by eapply announced_grow.
Qed.

Lemma inv_exec_wait h (w : W) pt pw pc' h' w' :
  es_inv (mkESys w AtWait h pt pw) ->
  run (exec_iter (AtWait, h)) w = Done (pc', h') w' ->
  es_inv (mkESys w' pc' h' pt pw).
Proof.
  intros (tq & wq & ct & cw & Hw & Ht & Hwk & ? & ? & At & Aw) Er.
  destruct (run_exec_wait h w tq wq ct cw Hw Ht Hwk)
    as [(_ & _ & Eb)|[(w1 & E1 & Hw1)|(w1 & E1 & Hw1)]];
    [congruence|rewrite E1 in Er; simplify_eq..].
  - by exists tq, wq, (ct - 1), cw.
  - by exists tq, wq, ct, (cw - 1).
Qed.

(** A foreign push is covered by the release that follows it, and a foreign
    release leaves a unit behind. *)
Lemma run_wake_push t (w : W) tq wq ct cw :
  world_at w tq wq ct cw ->
  exists w', run (on_wake_queue (add_push t)) w = Done tt w' /\
    world_at w' tq (set_vals (vals wq ++ [t]) wq) ct cw.
Proof.
  intros [Et Ew St Sw Hne]. rewrite run_on_wake_queue, Ew, run_add_push.
  eexists; split; [done|]. by split.
Qed.

Lemma run_task_push f (w : W) tq wq ct cw :
  world_at w tq wq ct cw ->
  exists w', run (on_task_queue (add_push f)) w = Done tt w' /\
    world_at w' (set_vals (vals tq ++ [f]) tq) wq ct cw.
Proof.
  intros [Et Ew St Sw Hne]. rewrite run_on_task_queue, Et, run_add_push.
  eexists; split; [done|]. by split.
Qed.

Lemma run_wake_release (w : W) tq wq ct cw :
  world_at w tq wq ct cw ->
  exists w' cw', run (on_wake_queue add_release) w = Done tt w' /\
    world_at w' tq wq ct cw' /\ 0 < cw'.
Proof.
  intros [Et Ew St Sw Hne]. rewrite run_on_wake_queue, Ew.
  destruct (run_add_release wq _ cw Sw) as (rc & out & k' & _ & -> & Hfr & Hc).
  assert (queue_sem tq k' ct) as St' by (destruct St; split; [by rewrite Hfr|done]).
  destruct Hc as [(_ & ? & Sw')|(_ & -> & ->)]; eexists _, _; (split_and!; [done|by split|]).
  - destruct Sw; lia.
  - done.
Qed.

Lemma run_task_release (w : W) tq wq ct cw :
  world_at w tq wq ct cw ->
  exists w' ct', run (on_task_queue add_release) w = Done tt w' /\
    world_at w' tq wq ct' cw /\ 0 < ct'.
Proof.
  intros [Et Ew St Sw Hne]. rewrite run_on_task_queue, Et.
  destruct (run_add_release tq _ ct St) as (rc & out & k' & _ & -> & Hfr & Hc).
  assert (queue_sem wq k' cw) as Sw' by (destruct Sw; split; [by rewrite Hfr|done]).
  destruct Hc as [(_ & ? & St')|(_ & -> & ->)]; eexists _, _; (split_and!; [done|by split|]).
  - destruct St; lia.
  - done.
Qed.

Lemma es_step_inv s s' : es_step s s' -> es_inv s -> es_inv s'.
Proof.
  destruct 1 as [w pc h pt pw pc' h' w' Er|t w pc h pt pw w' Er|w pc h pt pw w' Hp Er
                |f w pc h pt pw w' Er|w pc h pt pw w' Hp Er]; intros Hinv.
  - destruct pc; eauto using inv_exec_wait, inv_exec_drain_wake, inv_exec_drain_task.
  - destruct Hinv as (tq & wq & ct & cw & Hw & Ht & Hwk & ? & ? & At & Aw); es_simpl.
    destruct (run_wake_push t w _ _ _ _ Hw) as (w1 & E1 & Hw1); rewrite E1 in Er; simplify_eq.
    eexists _, _, ct, cw. split_and!; [exact Hw1|done|done|done|cbn; lia|done|].
    intros _ _. right. cbn. lia.
  - destruct Hinv as (tq & wq & ct & cw & Hw & Ht & Hwk & ? & ? & At & Aw); es_simpl.
    destruct (run_wake_release w _ _ _ _ Hw) as (w1 & c' & E1 & Hw1 & ?).
    rewrite E1 in Er; simplify_eq.
    eexists _, _, ct, c'. split_and!; [exact Hw1|done|done|done|cbn; lia|done|by left].
  - destruct Hinv as (tq & wq & ct & cw & Hw & Ht & Hwk & ? & ? & At & Aw); es_simpl.
    destruct (run_task_push f w _ _ _ _ Hw) as (w1 & E1 & Hw1); rewrite E1 in Er; simplify_eq.
    eexists _, _, ct, cw. split_and!; [exact Hw1|done|done|cbn; lia|done| |done].
    intros _ _. right. cbn. lia.
  - destruct Hinv as (tq & wq & ct & cw & Hw & Ht & Hwk & ? & ? & At & Aw); es_simpl.
    destruct (run_task_release w _ _ _ _ Hw) as (w1 & c' & E1 & Hw1 & ?).
    rewrite E1 in Er; simplify_eq.
    eexists _, _, c', cw. split_and!; [exact Hw1|done|done|cbn; lia|done|by left|done].
Qed.

End invariant.

(** ** Start-up *)

Section startup.
Context {K Fut E : Type} `{SemaphoreLaws K}.

Abbreviation W := (World K Fut E).

Lemma run_init_task (w : W) tq k2 :
  TASK_QUEUE w = None -> run SyncQueue_new (w_kern w) = Done tq k2 ->
  run get_or_init_task_queue w = Done tq (put_task (tq, k2) w).
Proof.
  intros Hn Hc. unfold get_or_init_task_queue. rewrite run_bind, run_gets. cbn [obind].
  rewrite Hn, run_bind, run_on_kern, Hc. cbn [obind]. by rewrite run_bind, run_modify.
Qed.

Lemma run_init_wake (w : W) wq k2 :
  WAKE_QUEUE w = None -> run SyncQueue_new (w_kern w) = Done wq k2 ->
  run get_or_init_wake_queue w = Done wq (put_wake (wq, k2) w).
Proof.
  intros Hn Hc. unfold get_or_init_wake_queue. rewrite run_bind, run_gets. cbn [obind].
  rewrite Hn, run_bind, run_on_kern, Hc. cbn [obind]. by rewrite run_bind, run_modify.
Qed.

Lemma run_Executor_new ipc (w0 : W) port k1 tq k2 wq k3 :
  TASK_QUEUE w0 = None -> WAKE_QUEUE w0 = None ->
  ipc (w_kern w0) = Done (Ok port) k1 -> created k1 tq k2 -> created k2 wq k3 ->
  exists w, run (Executor_new ipc) w0 =
    Done (mkExecutor ∅ (semaphore_handle tq) (semaphore_handle wq)) w /\
    world_at w tq wq 0 0 /\ vals tq = [] /\ vals wq = [] /\
    w_env w = w_env w0 /\ w_kern w = k3 /\
    (EXECUTOR_PORT w0 = None -> EXECUTOR_PORT w = Some port).
Proof.
  intros Ht Hw Hi Hct Hcw.
  destruct (created_sem _ _ _ Hct) as [Vt St]. destruct (created_sem _ _ _ Hcw) as [Vw Sw].
  destruct Hct as [_ Et]. destruct Hcw as [[h Eh] Ew].
  assert (semaphore_handle wq = h) as Hh.
  { unfold SyncQueue_new in Ew. rewrite run_bind, run_act, Eh in Ew.
    cbn [obind] in Ew. rewrite run_ret in Ew. by simplify_eq/=. }
  destruct (create_ok _ _ _ _ _ Eh) as (Hnone & _ & Hfr).
  assert (semaphore_handle tq <> semaphore_handle wq) as Hne.
  { rewrite Hh. intros Heq. destruct St as [St _]. rewrite Heq, Hnone in St. done. }
  eexists. unfold Executor_new. rewrite run_bind, run_on_kern, run_act, Hi. cbn [obind].
  rewrite run_bind, run_unwrap. cbn [obind]. rewrite run_bind, run_modify. cbn [obind].
  rewrite run_bind, (run_init_task _ tq k2) by done. cbn [obind].
  rewrite run_bind, (run_init_wake _ wq k3) by done. cbn [obind].
  rewrite run_ret. split_and!; [done| |done..|by intros Hp; cbn; rewrite Hp]. split; cbn; try done.
  destruct St as [St ?]. split; [|done]. rewrite Hfr; [done|by rewrite <- Hh].
Qed.

End startup.

(** ** The executor sleeps only when there is nothing to do *)

Section claims.
Context {K Fut E : Type} `{SemaphoreLaws K} `{Profile}.
Context `{!Future (World K Fut E) Fut unit} `{!PollOnlyAdds (K:=K) (Fut:=Fut) (E:=E)}.

Abbreviation W := (World K Fut E).

Lemma es_start_inv ipc (w0 : W) s :
  es_start ipc w0 s -> es_inv s /\ task_counter (es_handler s) = 0 /\ tasks (es_handler s) = ∅.
Proof.
  intros (Ht & Hw & port & k1 & tq & k2 & wq & k3 & Hi & Hct & Hcw & e & w & Er & ->).
  destruct (run_Executor_new ipc w0 port k1 tq k2 wq k3 Ht Hw Hi Hct Hcw)
    as (w' & Er' & Hat & Vt & Vw & _).
  rewrite Er in Er'; simplify_eq. split; [|done].
  exists tq, wq, 0, 0. split_and!; [done..| |]; by apply announced_empty.
Qed.

Lemma es_reachable_inv ipc (w0 : W) s0 s :
  es_start ipc w0 s0 -> rtc es_step s0 s -> es_inv s.
Proof.
  intros Hs Hr. destruct (es_start_inv _ _ _ Hs) as [Hi _]. clear Hs.
  induction Hr; eauto using es_step_inv.
Qed.

(** C1: no wake-up and no spawned task is lost to the executor.  Whatever the
    interleaving of other threads' pushes and releases, when the executor's
    [svcWaitSynchronizationN] would put it to sleep and no thread is between the
    push and the release of an [add], the task queue and the wake queue are both
    empty. *)
Theorem executor_sleeps_only_when_idle ipc (w0 : W) s0 s :
  es_start ipc w0 s0 -> rtc es_step s0 s ->
  es_pc s = AtWait -> es_pend_task s = 0 -> es_pend_wake s = 0 ->
  run (exec_iter (AtWait, es_handler s)) (es_world s) = Blocked ->
  (vals <$> TASK_QUEUE (es_world s) = Some []) /\
  (vals <$> WAKE_QUEUE (es_world s) = Some []).
Proof.
  intros Hs Hr Hpc Hpt Hpw Hb.
  destruct (es_reachable_inv _ _ _ _ Hs Hr)
    as (tq & wq & ct & cw & Hw & Ht & Hwk & _ & _ & At & Aw).
  rewrite Hpc, Hpt, Hpw in *. cbn in At, Aw.
  destruct (run_exec_wait _ _ _ _ _ _ Hw Ht Hwk)
    as [(-> & -> & _)|[(w1 & E1 & _)|(w1 & E1 & _)]]; [|congruence..].
  rewrite (at_task _ _ _ _ _ Hw), (at_wake _ _ _ _ _ Hw). cbn.
  unfold announced in *. destruct (vals tq), (vals wq); [done|exfalso..].
  - destruct (Aw eq_refl); [done|lia..].
  - destruct (At eq_refl); [done|lia..].
  - destruct (At eq_refl); [done|lia..].
Qed.

(** *** Tokens *)

Definition tokens_below (h : ExecutorHandler Fut) : Prop :=
  0 <= task_counter h <= u32_MAX /\
  forall t f, tasks h !! t = Some f -> 0 <= token t < task_counter h.

Lemma tokens_below_wake h t (w : W) h' w' :
  run (ExecutorHandler_wake h t) w = Done h' w' -> tokens_below h -> tokens_below h'.
Proof.
  intros [(_ & -> & ->)|(f & p & f' & Hf & Hp & ->)]%run_wake_inv [Hc Ht]; [done|].
  split; [done|]. cbn. intros t' g. destruct p.
  - rewrite lookup_delete_Some. intros [_ ?]. eauto.
  - rewrite lookup_insert_Some. intros [[<- _]|[_ ?]]; eauto.
Qed.

Lemma tokens_below_spawn h f (w : W) r w' :
  overflow_checks = true ->
  run (ExecutorHandler_spawn h f) w = Done r w' -> tokens_below h -> tokens_below (fst r).
Proof.
  intros Hchk (n & p & f' & Hn & Hp & ->)%run_spawn_inv [Hc Ht].
  rewrite run_arith, Hchk in Hn.
  destruct (Z.eqb_spec (as_u32 (task_counter h + 1)) (task_counter h + 1)) as [Eu|]; [|done].
  simplify_eq. pose proof (as_u32_range (task_counter h + 1)) as Hr. rewrite Eu in Hr.
  unfold tokens_below, is_u32, u32_MAX in *. destruct p; cbn; (split; [lia|]).
  - intros t g Hg. specialize (Ht t g Hg). lia.
  - intros t g. rewrite lookup_insert_Some. intros [[<- _]|[_ Hg]]; [cbn; lia|].
    specialize (Ht t g Hg). lia.
Qed.

Lemma tokens_below_iter pc h (w : W) pc' h' w' :
  overflow_checks = true ->
  run (exec_iter (pc, h)) w = Done (pc', h') w' -> tokens_below h -> tokens_below h'.
Proof.
  intros Hchk Er Hh. destruct pc; cbn [exec_iter] in Er; rewrite run_bind in Er.
  - destruct (run (zoom _ _ _) w) as [[rc idx] w1| | |]; [|done..]. cbn [obind snd] in Er.
    repeat (destruct (_ =? _) in Er); rewrite run_ret in Er; by simplify_eq.
  - destruct (run (on_wake_queue _) w) as [[t|] w1| | |]; cbn [obind] in Er; [|rewrite run_ret in Er; by simplify_eq|done..].
    rewrite run_bind in Er.
    destruct (run (ExecutorHandler_wake h t) w1) as [h1 w2| | |] eqn:E2; [|done..].
    cbn [obind] in Er. rewrite run_ret in Er. simplify_eq. by eapply tokens_below_wake.
  - destruct (run (on_task_queue _) w) as [[f|] w1| | |]; cbn [obind] in Er; [|rewrite run_ret in Er; by simplify_eq|done..].
    rewrite run_bind in Er.
    destruct (run (ExecutorHandler_spawn h f) w1) as [r w2| | |] eqn:E2; [|done..].
    cbn [obind] in Er. rewrite run_ret in Er. simplify_eq. by eapply tokens_below_spawn.
Qed.

(** C16: with overflow checks, the token [spawn] is about to hand out is never
    that of a live task, in every reachable state: a spawned task replaces no
    other task, and every live token is below the counter. *)
Theorem next_token_is_free ipc (w0 : W) s0 s :
  overflow_checks = true -> es_start ipc w0 s0 -> rtc es_step s0 s ->
  tasks (es_handler s) !! mkToken (task_counter (es_handler s)) = None /\
  forall t f, tasks (es_handler s) !! t = Some f -> token t < task_counter (es_handler s).
Proof.
  intros Hchk Hs Hr. assert (tokens_below (es_handler s)) as [_ Ht].
  - destruct (es_start_inv _ _ _ Hs) as (_ & Hc & He). clear Hs.
    assert (tokens_below (es_handler s0)) as Hb.
    { split; [unfold u32_MAX; lia|]. intros t f. by rewrite He, lookup_empty. }
    clear Hc He. induction Hr as [|s0 s1 s Hst Hr IH]; [done|]. apply IH.
    destruct Hst; [by eapply tokens_below_iter|done..].
  - split; [|intros t f Hf; by destruct (Ht t f Hf)].
    destruct (tasks _ !! _) as [f|] eqn:Ef; [|done]. destruct (Ht _ _ Ef); cbn in *. lia.
Qed.

End claims.

(** ** Draining the wake queue *)

Section draining.
Context {K Fut E : Type} `{SemaphoreLaws K} `{Profile} `{!Future (World K Fut E) Fut unit}.

Abbreviation W := (World K Fut E).

(** The world once the newest token has left the wake queue. *)
Definition pop_wake (w : W) : W :=
  match WAKE_QUEUE w with
  | Some q => put_wake (set_vals (removelast (vals q)) q, w_kern w) w
  | None => w
  end.

(** [polls m w ts m' w']: what draining the tokens [ts] in this order means for
    the live tasks [m].  Every token is taken off the queue; then its task, if it
    is live, is polled exactly once, with the waker of that token, and is dropped
    when it is ready and kept in its new state otherwise. *)
Inductive polls : gmap TaskToken Fut -> W -> list TaskToken -> gmap TaskToken Fut -> W -> Prop :=
| polls_end m w : polls m w [] m w
| polls_unknown m w t ts m' w' :
    m !! t = None -> polls m (pop_wake w) ts m' w' -> polls m w (t :: ts) m' w'
| polls_ready m w t ts f f' w1 m' w' :
    m !! t = Some f -> run (poll f (make_waker t)) (pop_wake w) = Done (Ready tt, f') w1 ->
    polls (delete t m) w1 ts m' w' -> polls m w (t :: ts) m' w'
| polls_pending m w t ts f f' w1 m' w' :
    m !! t = Some f -> run (poll f (make_waker t)) (pop_wake w) = Done (Pending, f') w1 ->
    polls (<[t := f']> m) w1 ts m' w' -> polls m w (t :: ts) m' w'.

(** A future that completes its polls without spawning or waking anything. *)
Definition quiet (f : Fut) : Prop :=
  forall wk w, exists p f' w', run (poll f wk) w = Done (p, f') w' /\
    WAKE_QUEUE w' = WAKE_QUEUE w /\ TASK_QUEUE w' = TASK_QUEUE w.

(** One iteration on a non-empty queue: its newest token is handled. *)
Lemma run_drain_some h (w : W) q l t :
  WAKE_QUEUE w = Some q -> vals q = l ++ [t] ->
  run (exec_iter (DrainWake, h)) w =
  obind (run (ExecutorHandler_wake h t) (put_wake (set_vals l q, w_kern w) w)) id
    (fun h' w' => Done (DrainWake, h') w').
Proof.
  intros Hq Hv. cbn [exec_iter].
  rewrite run_bind, run_on_wake_queue, Hq, run_SyncQueue_remove. cbn [obind].
  rewrite Hv, pop_back_snoc. cbn [fst snd]. rewrite run_bind.
  by destruct (run (ExecutorHandler_wake h t) _).
Qed.

Lemma run_drain_none h (w : W) q :
  WAKE_QUEUE w = Some q -> vals q = [] ->
  run (exec_iter (DrainWake, h)) w = Done (AtWait, h) w.
Proof.
  intros Hq Hv. cbn [exec_iter].
  rewrite run_bind, run_on_wake_queue, Hq, run_SyncQueue_remove. cbn [obind].
  rewrite Hv, pop_back_nil. cbn [fst snd]. rewrite run_ret.
  f_equal. destruct w, q; cbn in *; by simplify_eq.
Qed.

(** The same for the queue of spawned tasks. *)
Lemma run_start_some h (w : W) q l f :
  TASK_QUEUE w = Some q -> vals q = l ++ [f] ->
  run (exec_iter (DrainTask, h)) w =
  obind (run (ExecutorHandler_spawn h f) (put_task (set_vals l q, w_kern w) w)) id
    (fun r w' => Done (DrainTask, fst r) w').
Proof.
  intros Hq Hv. cbn [exec_iter].
  rewrite run_bind, run_on_task_queue, Hq, run_SyncQueue_remove. cbn [obind].
  rewrite Hv, pop_back_snoc. cbn [fst snd]. rewrite run_bind.
  by destruct (run (ExecutorHandler_spawn h f) _).
Qed.

Lemma run_start_none h (w : W) q :
  TASK_QUEUE w = Some q -> vals q = [] ->
  run (exec_iter (DrainTask, h)) w = Done (AtWait, h) w.
Proof.
  intros Hq Hv. cbn [exec_iter].
  rewrite run_bind, run_on_task_queue, Hq, run_SyncQueue_remove. cbn [obind].
  rewrite Hv, pop_back_nil. cbn [fst snd]. rewrite run_ret.
  f_equal. destruct w, q; cbn in *; by simplify_eq.
Qed.

Lemma run_spawn_poll h f (w : W) p f' w' :
  is_u32 (task_counter h + 1) ->
  run (poll f (make_waker (mkToken (task_counter h)))) w = Done (p, f') w' ->
  run (ExecutorHandler_spawn h f) w = Done
    (match p with
     | Ready _ => (set_counter (task_counter h + 1) h, None)
     | Pending => (set_tasks (<[mkToken (task_counter h) := f']> (tasks h))
                     (set_counter (task_counter h + 1) h), Some (mkToken (task_counter h)))
     end) w'.
Proof.
  intros Hn Hp. unfold ExecutorHandler_spawn. cbn zeta.
  rewrite run_bind, run_arith_exact by (by apply as_u32_id). cbn [obind].
  rewrite run_bind, Hp. cbn [obind]. by destruct p as [[]|].
Qed.

(** Waking a token when all live tasks are quiet leaves the wake queue, and
    polls as [polls] says. *)
Lemma run_wake_quiet h t (w : W) :
  (forall f, quiet f) ->
  exists h' w', run (ExecutorHandler_wake h t) (pop_wake w) = Done h' w' /\
    WAKE_QUEUE w' = WAKE_QUEUE (pop_wake w) /\
    forall ts m2 w2, polls (tasks h') w' ts m2 w2 -> polls (tasks h) w (t :: ts) m2 w2.
Proof.
  intros Hquiet. unfold ExecutorHandler_wake. destruct (tasks h !! t) as [f|] eqn:Ef.
  - destruct (Hquiet f (make_waker t) (pop_wake w)) as (p & f' & w' & Hp & Hw & _).
    cbn zeta. rewrite run_bind, Hp. cbn [obind].
    destruct p as [[]|]; rewrite run_ret; eexists _, w'; (split_and!; [done|done|]); intros ts m2 w2.
    + by apply (polls_ready _ _ _ _ f f' w').
    + by apply (polls_pending _ _ _ _ f f' w').
  - cbn zeta. rewrite run_ret. eexists _, _. split_and!; [done|done|].
    intros ts m2 w2. by apply polls_unknown.
Qed.

(** Waiting leaves what the futures work on alone. *)
Lemma exec_wait_env h (w w' : W) c : run (exec_iter (AtWait, h)) w = Done c w' -> w_env w' = w_env w.
Proof.
  cbn [exec_iter]. rewrite run_bind, run_on_kern.
  destruct (run _ _) as [[rc idx] k| | |]; cbn [obind snd]; [|done..].
  repeat (destruct (_ =? _)); rewrite run_ret; intros; by simplify_eq.
Qed.

(** Units left on the semaphores when both queues are empty only cost the
    executor a turn each; then it sleeps. *)
Lemma run_spare_units (n : nat) h (w : W) tq wq ct cw :
  ct + cw = Z.of_nat n -> world_at w tq wq ct cw -> vals tq = [] -> vals wq = [] ->
  task_semaphore h = semaphore_handle tq -> wake_semaphore h = semaphore_handle wq ->
  exists w', run (exec_iters (2 * n) (AtWait, h)) w = Done (AtWait, h) w' /\
    world_at w' tq wq 0 0 /\ w_env w' = w_env w /\ run (exec_iter (AtWait, h)) w' = Blocked.
Proof.
  intros Hn Hw Ht Hwk Hst Hsw. revert w ct cw Hn Hw.
  induction n as [|n IH]; intros w ct cw Hn Hw;
    pose proof (at_task_sem _ _ _ _ _ Hw) as [_ Rt]; pose proof (at_wake_sem _ _ _ _ _ Hw) as [_ Rw].
  - assert (ct = 0 /\ cw = 0) as [-> ->] by lia. exists w. split_and!; [done|done|done|].
    destruct (run_exec_wait h w _ _ _ _ Hw Hst Hsw) as [(_ & _ & Eb)|[(w1 & _ & Hw1)|(w1 & _ & Hw1)]];
      [done|exfalso..];
      [apply at_task_sem in Hw1 as [_ ?]|apply at_wake_sem in Hw1 as [_ ?]]; lia.
  - replace (2 * S n)%nat with (S (S (2 * n))) by lia. cbn [exec_iters].
    destruct (run_exec_wait h w _ _ _ _ Hw Hst Hsw) as [(? & ? & _)|[(w1 & E1 & Hw1)|(w1 & E1 & Hw1)]];
      [lia|..]; rewrite run_bind, E1; cbn [obind]; pose proof (exec_wait_env _ _ _ _ E1) as He;
      rewrite run_bind.
    + rewrite (run_start_none _ _ _ (at_task _ _ _ _ _ Hw1) Ht). cbn [obind].
      rewrite <- He. by apply (IH w1 (ct - 1) cw); [lia|].
    + rewrite (run_drain_none _ _ _ (at_wake _ _ _ _ _ Hw1) Hwk). cbn [obind].
      rewrite <- He. by apply (IH w1 ct (cw - 1)); [lia|].
Qed.

(** C17: when the polled tasks wake nobody, the drain of the wake queue
    terminates after one iteration per queued token and a last one that finds the
    queue empty.  It polls the task of each queued token exactly once, newest
    token first, drops the tasks that are ready, keeps the others in their new
    states, and returns to the wait with an empty queue. *)
Theorem quiet_drain_handles_every_token h (w : W) q :
  (forall f, quiet f) -> WAKE_QUEUE w = Some q ->
  exists h' w',
    run (exec_iters (S (length (vals q))) (DrainWake, h)) w = Done (AtWait, h') w' /\
    polls (tasks h) w (reverse (vals q)) (tasks h') w' /\
    vals <$> WAKE_QUEUE w' = Some [].
Proof.
  intros Hquiet. remember (vals q) as l eqn:Hl. revert q Hl h w.
  induction l as [|t l IH] using rev_ind; intros q Hl h w Hq.
  - exists h, w. cbn [length exec_iters].
    rewrite run_bind, (run_drain_none h w q Hq (eq_sym Hl)). cbn [obind].
    split_and!; [done|constructor|]. by rewrite Hq; cbn; rewrite <- Hl.
  - pose proof (run_drain_some h w q l t Hq (eq_sym Hl)) as Er.
    assert (pop_wake w = put_wake (set_vals l q, w_kern w) w) as Hpop
      by (unfold pop_wake; by rewrite Hq, <- Hl, removelast_last).
    destruct (run_wake_quiet h t w Hquiet) as (h1 & w1 & Ew & Hw1 & Hpolls).
    rewrite Hpop in Ew, Hw1.
    destruct (IH (set_vals l q) eq_refl h1 w1 Hw1) as (h' & w' & Hr & Hp & Hempty).
    exists h', w'. rewrite reverse_snoc. split_and!; [|by apply Hpolls|done].
    rewrite length_app, Nat.add_comm. cbn [length Nat.add].
    change (exec_iters (S (S (length l))) (DrainWake, h)) with
      (exec_iter (DrainWake, h) ≫= exec_iters (S (length l))).
    by rewrite run_bind, Er, Ew.
Qed.

(** A task that asks to be polled again every time it is polled. *)
Definition self_waking (f : Fut) (t : TaskToken) : Prop :=
  forall w, run (poll f (make_waker t)) w = run (wake_queue_add t;; mret (Pending, f)) w.

(** C35: the wake queue is drained newest first, so a task that wakes itself on
    every poll keeps the executor in the drain loop for good: however many
    iterations it makes, the tokens queued before it stay unhandled and no
    spawned task is started. *)
Theorem self_waking_task_starves_others h (w : W) f t l tq q ct cw n :
  world_at w tq q ct cw -> vals q = l ++ [t] ->
  tasks h !! t = Some f -> self_waking f t ->
  exists h' w' q' cw', run (exec_iters n (DrainWake, h)) w = Done (DrainWake, h') w' /\
    world_at w' tq q' ct cw' /\ vals q' = l ++ [t] /\ tasks h' = tasks h.
Proof.
  intros Hw Hv Hf Hself. revert h w q cw Hw Hv Hf.
  induction n as [|n IH]; intros h w q cw Hw Hv Hf; cbn [exec_iters].
  - by exists h, w, q, cw.
  - rewrite run_bind, (run_drain_some h w q l t (at_wake _ _ _ _ _ Hw) Hv).
    unfold ExecutorHandler_wake. rewrite Hf. cbn zeta. rewrite run_bind, Hself, run_bind.
    assert (world_at (put_wake (set_vals l q, w_kern w) w) tq (set_vals l q) ct cw) as Hw1
      by (destruct Hw; by split).
    destruct (run_wake_queue_add t _ _ _ _ _ Hw1) as (w2 & cw2 & -> & Hw2 & _).
    cbn [obind id]. rewrite run_ret. cbn [obind id]. rewrite run_ret. cbn [obind].
    rewrite (insert_id _ _ _ Hf).
    destruct (IH (set_tasks (tasks h) h) w2 _ cw2 Hw2 eq_refl Hf)
      as (h' & w' & q' & cw' & Er & Hw' & Hv' & Ht'). by exists h', w', q', cw'.
Qed.

End draining.

(** Iterations compose. *)
Lemma run_exec_iters_add {K Fut E} `{Semaphores K} `{Profile} `{!Future (World K Fut E) Fut unit}
    n m c (w : World K Fut E) :
  run (exec_iters (n + m) c) w =
  obind (run (exec_iters n c) w) id (fun c' w' => run (exec_iters m c') w').
Proof.
  revert c w. induction n as [|n IH]; intros c w; cbn [exec_iters Nat.add]; [done|].
  rewrite !run_bind. destruct (run (exec_iter c) w) as [c1 w1| | |]; [|done..]. cbn [obind].
  apply IH.
Qed.

(** Iterations of the executor alone are steps of the system. *)
Lemma exec_iters_steps {K Fut E} `{Semaphores K} `{Profile} `{!Future (World K Fut E) Fut unit}
    n pc h (w : World K Fut E) pt pw pc' h' w' :
  run (exec_iters n (pc, h)) w = Done (pc', h') w' ->
  rtc es_step (mkESys w pc h pt pw) (mkESys w' pc' h' pt pw).
Proof.
  revert pc h w. induction n as [|n IH]; intros pc h w; cbn [exec_iters].
  - rewrite run_ret. intros; by simplify_eq.
  - rewrite run_bind. destruct (run (exec_iter (pc, h)) w) as [[pc1 h1] w1| | |] eqn:Er; [|done..].
    cbn [obind]. intros Hr. eapply rtc_l; [by apply es_exec|by apply IH].
Qed.

(** ** Concrete systems *)

Module Demo.

(** A world without an environment, on the reference kernel. *)
Definition world (Fut : Type) : Type := World RefKernel Fut unit.

Definition w0 {Fut} : world Fut := mkWorld None None None k_empty tt.

Definition ipc (k : RefKernel) : outcome RefKernel (Result Z CtruError) := Done (Ok 77) k.

(** Futures that are never ready and do nothing. *)
Inductive Idle : Type := idle.

#[export] Instance idle_future : Future (world Idle) Idle unit :=
  fun f wk => mret (Pending, f).

#[export] Instance idle_adds : PollOnlyAdds (K:=RefKernel) (Fut:=Idle) (E:=unit).
Proof.
  intros f wk w r w' Hr. unfold poll, idle_future in Hr. rewrite run_ret in Hr.
  simplify_eq. reflexivity.
Qed.

(** Futures that wake themselves on every poll. *)
Inductive Yield : Type := yield.

#[export] Instance yield_future : Future (world Yield) Yield unit :=
  fun f wk => wake_queue_add (from_waker wk);; mret (Pending, f).

Lemma yield_self_waking n : is_u32 n -> self_waking (K:=RefKernel) (E:=unit) yield (mkToken n).
Proof.
  intros Hn w. unfold poll, yield_future, from_waker, make_waker. cbn.
  by rewrite as_u32_id.
Qed.

(** The handler and the world after start-up. *)
Definition h0 {Fut} : ExecutorHandler Fut := mkHandler 0 ∅ 1 2.

Definition ws {Fut} (tl : list Fut) (wl : list TaskToken) (ct cw : Z) : world Fut :=
  mkWorld (Some (mkSyncQueue 1 tl)) (Some (mkSyncQueue 2 wl)) (Some 77)
    (mkRefKernel (<[2 := (cw, 255)]> {[1 := (ct, 255)]}) 3) tt.

Lemma started {Fut} `{!Future (world Fut) Fut unit} :
  es_start (Fut:=Fut) ipc w0 (mkESys (ws [] [] 0 0) AtWait h0 0 0).
Proof.
  split; [done|]. split; [done|].
  eexists 77, k_empty, (mkSyncQueue 1 []), (mkRefKernel {[1 := (0, 255)]} 2),
    (mkSyncQueue 2 []), (mkRefKernel (<[2 := (0, 255)]> {[1 := (0, 255)]}) 3).
  split; [done|]. split; [by split; [exists 1|]|]. split; [by split; [exists 2|]|].
  by eexists (mkExecutor ∅ 1 2), _.
Qed.

(** Waking works there. *)
Lemma quiet_world_ok : wake_ok (ws [] [] 0 0 : world Idle).
Proof. exists (mkSyncQueue 2 []), 0. split; [done|]. by split. Qed.

#[local] Instance checked : Profile := true.

(** A task is spawned and woken by another thread, and handled. *)
Definition h1 : ExecutorHandler Idle := mkHandler 1 {[mkToken 0 := idle]} 1 2.

Lemma handled : rtc es_step (mkESys (ws [] [] 0 0) AtWait h0 0 0)
  (mkESys (ws [] [] 0 0) AtWait h1 0 0).
Proof.
  eapply rtc_l; [by eapply (es_push_task idle)|].
  eapply rtc_l; [by eapply (es_release_task _ _ _ 1)|].
  etrans; [apply (exec_iters_steps 3 AtWait h0 (ws [idle] [] 1 0) 0 0 AtWait h1
    (ws [] [] 0 0)); by vm_compute|].
  eapply rtc_l; [by eapply (es_push_wake (mkToken 0))|].
  eapply rtc_l; [by eapply (es_release_wake _ _ _ _ 1)|].
  apply (exec_iters_steps 3 AtWait h1 (ws [] [mkToken 0] 0 1) 0 0 AtWait h1 (ws [] [] 0 0)).
  by vm_compute.
Qed.

Lemma executor_sleeps_witness :
  (vals <$> TASK_QUEUE (ws (Fut:=Idle) [] [] 0 0) = Some []) /\
  (vals <$> WAKE_QUEUE (ws (Fut:=Idle) [] [] 0 0) = Some []).
Proof.
  apply (executor_sleeps_only_when_idle ipc w0 (mkESys (ws [] [] 0 0) AtWait h0 0 0)
    (mkESys (ws [] [] 0 0) AtWait h1 0 0)).
  - exact started.
  - exact handled.
  - reflexivity.
  - reflexivity.
  - reflexivity.
  - vm_compute. reflexivity.
Defined.

Lemma next_token_witness : tasks h1 !! mkToken 1 = None.
Proof.
  destruct (next_token_is_free ipc w0 (mkESys (ws [] [] 0 0) AtWait h0 0 0)
    (mkESys (ws [] [] 0 0) AtWait h1 0 0) eq_refl started handled) as [Hn _].
  exact Hn.
Defined.

(** Futures that are ready at the poll after [n] pending ones. *)
Inductive Countdown : Type := countdown (n : nat).

#[export] Instance countdown_future : Future (world Countdown) Countdown unit :=
  fun '(countdown n) wk =>
    mret (match n with O => (Ready tt, countdown O) | S n => (Pending, countdown n) end).

Lemma countdown_quiet (f : Countdown) : quiet (K:=RefKernel) (E:=unit) f.
Proof. destruct f as [[|n]]; intros wk w; by eexists _, _, w. Qed.

(** Token 0 is queued twice, token 4 is not live. *)
Definition hc : ExecutorHandler Countdown :=
  mkHandler 2 {[mkToken 0 := countdown 1; mkToken 1 := countdown 1]} 1 2.

Lemma quiet_drain_witness :
  exists h' w',
    run (exec_iters 5 (DrainWake, hc)) (ws [] [mkToken 0; mkToken 1; mkToken 4; mkToken 0] 0 1)
      = Done (AtWait, h') w' /\
    polls (tasks hc) (ws [] [mkToken 0; mkToken 1; mkToken 4; mkToken 0] 0 1)
      [mkToken 0; mkToken 4; mkToken 1; mkToken 0] (tasks h') w' /\
    vals <$> WAKE_QUEUE w' = Some [].
Proof.
  apply (quiet_drain_handles_every_token hc
    (ws [] [mkToken 0; mkToken 1; mkToken 4; mkToken 0] 0 1)
    (mkSyncQueue 2 [mkToken 0; mkToken 1; mkToken 4; mkToken 0])).
  - exact countdown_quiet.
  - reflexivity.
Defined.

(** Token 5 waits below a task that yields. *)
Definition hy : ExecutorHandler Yield := mkHandler 8 {[mkToken 7 := yield]} 1 2.

Lemma starvation_witness :
  exists h' w' q' cw', run (exec_iters 100 (DrainWake, hy)) (ws [] [mkToken 5; mkToken 7] 0 1)
    = Done (DrainWake, h') w' /\
    world_at w' (mkSyncQueue 1 []) q' 0 cw' /\ vals q' = [mkToken 5; mkToken 7] /\
    tasks h' = tasks hy.
Proof.
  apply (self_waking_task_starves_others hy (ws [] [mkToken 5; mkToken 7] 0 1) yield (mkToken 7)
    [mkToken 5] (mkSyncQueue 1 []) (mkSyncQueue 2 [mkToken 5; mkToken 7]) 0 1 100).
  - by split.
  - reflexivity.
  - reflexivity.
  - apply yield_self_waking. unfold is_u32. lia.
Defined.

End Demo.
