(* ===== verification/Join.v ===== *)
(** * Join handles and [block_on] (src/executor.rs)

    What the wrapper around a spawned future, the [JoinHandle] and the thread
    blocked in [spawn_and_block] promise to one another. *)

From Stdlib Require Import ZArith Lia.
From stdpp Require Import base tactics list gmap numbers.
From S2P Require Import Prelude Err Kernel CtruUtils Executor ExecutorSys.

(** The next action of a thread is a panic. *)
Definition panics {S A} (p : prog S A) (s : S) : Prop :=
  match p with
  | Ret _ => False
  | Act f => exists s', f s = Panicked s'
  end.

Section join_props.
Context {W F T : Type} `{Future W F T} `{WakeSink W} `{LightSyncLaws}.

Abbreviation JW := (JoinCell T * W)%type.

(** ** Signals of the cell *)

Lemma run_on_signal {A} (s0 s : WaitSignal) (p : prog WaitSignal A) (c : JoinCell T) (w : W) :
  join_signal c = Some s ->
  run (on_signal s0 p) (c, w) =
  obind (run p s) (fun s' => (set_signal s' c, w)) (fun a s' => Done a (set_signal s' c, w)).
Proof.
  intros Hs. unfold on_signal. rewrite run_zoom; cbn.
  - by rewrite Hs.
  - done.
  - done.
  - rewrite Hs. cbn. destruct c; cbn in *; by subst.
Qed.

(** ** Completion *)

Lemma run_wrap_complete v (c : JoinCell T) (w : W) :
  exists c', run (wrap_complete v) (c, w) = Done tt (c', w) /\ join_state c' = JoinReady v /\
    (join_signal c = None -> c' = set_join (JoinReady v) c) /\
    (forall s, join_signal c = Some s ->
       exists s', join_signal c' = Some s' /\ le_signalled (event s') = true).
Proof.
  unfold wrap_complete. rewrite run_bind, run_modify. cbn [obind].
  rewrite run_bind, run_gets. cbn [obind fst join_state set_join].
  rewrite run_bind, run_ret. cbn [obind]. rewrite run_bind, run_gets.
  cbn [obind fst join_signal set_join]. destruct (join_signal c) as [s|] eqn:Es.
  - rewrite (run_on_signal s s) by done.
    destruct (run_WaitSignal_signal s) as (s' & -> & Hs'). cbn [obind].
    eexists; split_and!; [done|done|done|]. intros _ _. by exists s'.
  - eexists. rewrite run_ret. split_and!; [done|done|done|]. done.
Qed.

(** C31: when a spawned future completes, the wrapper stores its value but
    wakes nobody: the world is left as the future's own poll left it, even when a
    task is registered as awaiting the handle. *)
Theorem join_completion_wakes_nobody (future future' : F) (wk : Waker) (c : JoinCell T) (w w' : W) v :
  run (poll future wk) w = Done (Ready v, future') w' ->
  exists c', run (wrap_with_join_state_poll (WrapAwait future) wk) (c, w) =
    Done (Ready tt, WrapReturned) (c', w') /\ join_state c' = JoinReady v.
Proof.
  intros Hp. cbn [wrap_with_join_state_poll]. rewrite run_bind, run_on_snd, Hp. cbn [obind].
  destruct (run_wrap_complete v c w') as (c' & Hc & Hj & _).
  exists c'. by rewrite run_bind, Hc.
Qed.

(** C18: a value that the spawned future produced reaches the handle: the next
    poll of the [JoinHandle] yields it, and polling the handle again panics. *)
Theorem join_handle_delivers_once (future future' : F) (wk wk1 wk2 : Waker)
    (c : JoinCell T) (w w' : W) v :
  run (poll future wk) w = Done (Ready v, future') w' ->
  exists c' c'',
    run (wrap_with_join_state_poll (WrapAwait future) wk;; JoinHandle_poll wk1) (c, w) =
      Done (Ready v) (c', w') /\
    run (JoinHandle_poll wk2) (c', w') = Panicked (c'', w').
Proof.
  intros Hp. cbn [wrap_with_join_state_poll].
  rewrite run_bind, run_bind, run_on_snd, Hp. cbn [obind].
  destruct (run_wrap_complete v c w') as (c1 & Hc & Hj & _).
  rewrite run_bind, Hc. cbn [obind]. rewrite run_ret. cbn [obind].
  unfold JoinHandle_poll. rewrite !run_act, Hj. eexists _, _. split; [done|].
  by rewrite run_act.
Qed.

(** ** [spawn_and_block]

    The executor polls the wrapper up to [n] times while the spawning thread is
    blocked. *)
Fixpoint drive (n : nat) (f : WrapFut F) (wk : Waker) : prog JW unit :=
  match n with
  | O => mret tt
  | S n' =>
      r ← wrap_with_join_state_poll f wk;
      match r with
      | (Ready _, _) => mret tt
      | (Pending, f') => drive n' f' wk
      end
  end.

(** The same polls of the future that was spawned, by themselves: the value it
    is ready with, if it is within [n] polls. *)
Fixpoint poll_until (n : nat) (f : F) (wk : Waker) : prog W (option T) :=
  match n with
  | O => mret None
  | S n' =>
      r ← poll f wk;
      match r with
      | (Ready value, _) => mret (Some value)
      | (Pending, f') => poll_until n' f' wk
      end
  end.

(** What follows one poll, in either. *)
Definition until_rest (n : nat) (wk : Waker) (r : Poll T * F) : prog W (option T) :=
  match r with
  | (Ready value, _) => mret (Some value)
  | (Pending, f') => poll_until n f' wk
  end.

Definition drive_rest (n : nat) (wk : Waker) (r : Poll unit * WrapFut F) : prog JW unit :=
  match r with
  | (Ready _, _) => mret tt
  | (Pending, f') => drive n f' wk
  end.

Definition poll_rest (r : Poll T * F) : prog JW (Poll unit * WrapFut F) :=
  match r with
  | (Ready value, _) => wrap_complete value;; mret (Ready tt, WrapReturned)
  | (Pending, future') => mret (Pending, WrapAwait future')
  end.

(** The code of [wrap_complete] from its second and third action on. *)
Definition complete2 : prog JW unit :=
  guard ← gets (fun c => join_state (fst c));
  (match guard with
   | Awaited waker => on_snd (act (wake_add (from_waker waker)))
   | _ => mret tt
   end);;
  signal ← gets (fun c => join_signal (fst c));
  match signal with Some s => on_signal s WaitSignal_signal | None => mret tt end.

Definition complete3 : prog JW unit :=
  signal ← gets (fun c => join_signal (fst c));
  match signal with Some s => on_signal s WaitSignal_signal | None => mret tt end.

Definition finish (n : nat) (wk : Waker) (p : prog JW unit) : prog JW unit :=
  (p;; mret (Ready tt, WrapReturned)) ≫= drive_rest n wk.

Definition take_result : prog JW T :=
  act (fun '(c, w) =>
    match join_state c with
    | JoinReady val => Done val (set_join JoinDone c, w)
    | _ => Panicked (set_join JoinDone c, w)
    end).

Definition polling (n : nat) (wk : Waker) (p : prog W (Poll T * F)) : prog JW unit :=
  (on_snd p ≫= poll_rest) ≫= drive_rest n wk.

Definition unset_cell (s : WaitSignal) : JoinCell T := mkJoinCell Unawaited (Some s).

Definition ready_cell (v : T) (s : WaitSignal) : JoinCell T := mkJoinCell (JoinReady v) (Some s).

(** The executor's side before the event is set, for a future that ends with
    the value [v] in the world [w']. *)
Inductive phase (wk : Waker) (v : T) (w' : W) : prog JW unit -> JW -> Prop :=
| ph_polling n p s w :
    le_signalled (event s) = false ->
    run (p ≫= until_rest n wk) w = Done (Some v) w' ->
    phase wk v w' (polling n wk p) (unset_cell s, w)
| ph_stored n s :
    le_signalled (event s) = false ->
    phase wk v w' (finish n wk complete2) (ready_cell v s, w')
| ph_checked n s :
    le_signalled (event s) = false ->
    phase wk v w' (finish n wk complete3) (ready_cell v s, w')
| ph_signalling n s s1 :
    le_signalled (event s) = false ->
    phase wk v w' (finish n wk (on_signal s1 WaitSignal_signal)) (ready_cell v s, w').

(** A step of the polls keeps polling, or stores the value. *)
Lemma step_polling n wk v w' p s w L' st' :
  le_signalled (event s) = false -> run (p ≫= until_rest n wk) w = Done (Some v) w' ->
  step_prog (polling n wk p) (unset_cell s, w) = Some (L', st') -> phase wk v w' L' st'.
Proof.
  intros Hu. revert p. induction n as [|n IH]; intros p Hr; (destruct p as [[[v1|] f']|f];
    [rewrite run_bind in Hr; cbn in Hr; injection Hr as <- <-; cbn; intros [= <- <-];
     by apply (ph_stored wk v1 w _ s)
    |
    |cbn; unfold run in Hr; cbn in Hr; destruct (f w) as [p1 w1| | |]; [|done..];
     intros Hs; simplify_eq; by apply (ph_polling wk v w' _ p1)]).
  - done.
  - intros Hs. by apply (IH (poll f' wk)).
Qed.

(** The executor's side goes from phase to phase until it sets the event. *)
Lemma phase_step wk v w' L st L' st' :
  phase wk v w' L st -> step_prog L st = Some (L', st') ->
  phase wk v w' L' st' \/
  exists s, L' = Ret tt /\ st' = (ready_cell v s, w') /\ le_signalled (event s) = true.
Proof.
  destruct 1 as [n p s w Hu Hr|n s Hu|n s Hu|n s s1 Hu]; intros Hs.
  - left. by eapply step_polling.
  - cbn in Hs. injection Hs as <- <-. left. by apply (ph_checked wk v w' n s).
  - cbn in Hs. injection Hs as <- <-. left. by apply (ph_signalling wk v w' n s s).
  - cbn in Hs. destruct (levent_signal (event s)) as (e' & Ee & He). rewrite Ee in Hs.
    injection Hs as <- <-. right. by exists (mkWaitSignal e').
Qed.

(** Left to itself, the executor's side stores the value and sets the event. *)
Lemma run_finish n wk p (st st' : JW) :
  run p st = Done tt st' -> run (finish n wk p) st = Done tt st'.
Proof. intros E. unfold finish. rewrite !run_bind, E. by run_simpl. Qed.

Lemma run_signalling s1 v s (w : W) :
  exists s', run (on_signal s1 WaitSignal_signal) (ready_cell v s, w) =
      Done tt (ready_cell v s', w) /\ le_signalled (event s') = true.
Proof.
  rewrite (run_on_signal s1 s) by done.
  destruct (run_WaitSignal_signal s) as (s' & -> & Hs'). by exists s'.
Qed.

Lemma run_polling n wk v w' p s w :
  run (p ≫= until_rest n wk) w = Done (Some v) w' ->
  exists s', run (polling n wk p) (unset_cell s, w) = Done tt (ready_cell v s', w') /\
    le_signalled (event s') = true.
Proof.
  revert p w. induction n as [|n IH]; intros p w Hr; rewrite run_bind in Hr;
    unfold polling; rewrite !run_bind, run_on_snd;
    destruct (run p w) as [[[v1|] f'] w1| | |]; try done; cbn [obind until_rest] in Hr |- *.
  all: try (rewrite run_ret in Hr; injection Hr as -> ->;
    destruct (run_wrap_complete v (unset_cell s) w') as (c & Hc & Hj & _ & Hs);
    destruct (Hs s eq_refl) as (s' & Hs' & He); exists s';
    cbn [poll_rest]; rewrite run_bind, Hc; destruct c; cbn in Hj, Hs'; by subst).
  destruct (IH (poll f' wk) w1 Hr) as (s' & Hp & He). exists s'. split; [|done].
  cbn [poll_rest]. rewrite run_ret. exact Hp.
Qed.

Lemma phase_completes wk v w' L st :
  phase wk v w' L st ->
  exists s, run L st = Done tt (ready_cell v s, w') /\ le_signalled (event s) = true.
Proof.
  destruct 1 as [n p s w Hu Hr|n s Hu|n s Hu|n s s1 Hu]; [by apply run_polling|..];
    [destruct (run_signalling s v s w') as (s' & Hr & He)
    |destruct (run_signalling s v s w') as (s' & Hr & He)
    |destruct (run_signalling s1 v s w') as (s' & Hr & He)]; exists s';
    (split; [|done]); apply run_finish; exact Hr.
Qed.

(** The blocked thread moves exactly when the event is set. *)
Lemma step_block s0 j s w R' st' :
  step_prog (block_on_result s0) (mkJoinCell j (Some s), w) = Some (R', st') ->
  le_signalled (event s) = true /\ R' = take_result /\
  exists s', st' = (mkJoinCell j (Some s'), w).
Proof.
  cbn. destruct (le_signalled (event s)) eqn:Es.
  - destruct (levent_wait_ok _ Es) as (e' & -> & _). intros; simplify_eq.
    split_and!; [done|done|]. by eexists.
  - by rewrite (levent_wait_blocks _ Es).
Qed.

Lemma phase_unset wk v w' L st :
  phase wk v w' L st ->
  exists j s w, st = (mkJoinCell j (Some s), w) /\ le_signalled (event s) = false.
Proof. destruct 1; by eexists _, _, _. Qed.

(** The reachable configurations of executor and blocked thread. *)
Inductive blocked_inv (wk : Waker) (s0 : WaitSignal) (v : T) (w' : W) :
    prog JW unit * prog JW T * JW -> Prop :=
| inv_running L st :
    phase wk v w' L st -> blocked_inv wk s0 v w' (L, block_on_result s0, st)
| inv_signalled s :
    le_signalled (event s) = true ->
    blocked_inv wk s0 v w' (Ret tt, block_on_result s0, (ready_cell v s, w'))
| inv_awake s : blocked_inv wk s0 v w' (Ret tt, take_result, (ready_cell v s, w'))
| inv_taken s : blocked_inv wk s0 v w' (Ret tt, Ret v, (mkJoinCell JoinDone (Some s), w')).

Lemma blocked_inv_step wk s0 v w' c c' :
  duo_step c c' -> blocked_inv wk s0 v w' c -> blocked_inv wk s0 v w' c'.
Proof.
  intros Hstep Hinv. destruct Hinv as [L st Hph|s Hs|s|s];
    inversion Hstep as [? ? ? ? ? Hst|? ? ? ? ? Hst]; subst; clear Hstep; try done.
  - destruct (phase_step _ _ _ _ _ _ _ Hph Hst) as [?|(s & -> & -> & ?)]; by constructor.
  - destruct (phase_unset _ _ _ _ _ Hph) as (j & s & w & -> & Hu).
    apply step_block in Hst as (? & _). congruence.
  - apply step_block in Hst as (_ & -> & sx & ->). constructor.
  - cbn in Hst. injection Hst as <- <-. constructor.
Qed.

Lemma run_block_signalled s0 v s (w : W) :
  le_signalled (event s) = true ->
  exists s', run (block_on_result s0) (ready_cell v s, w) =
    Done v (mkJoinCell JoinDone (Some s'), w).
Proof.
  intros He. pose proof (run_WaitSignal_wait s) as Hw. rewrite He in Hw.
  destruct Hw as (s' & Hw & _). unfold block_on_result.
  rewrite run_bind, (run_on_signal _ s), Hw by done. cbn [obind]. rewrite run_act. by exists s'.
Qed.

(** From each of them both threads can run to their ends. *)
Lemma blocked_inv_ends wk s0 v w' L R st :
  blocked_inv wk s0 v w' (L, R, st) ->
  exists s, rtc duo_step (L, R, st) (Ret tt, Ret v, (mkJoinCell JoinDone (Some s), w')).
Proof.
  inversion 1 as [? ? Hph|s He|s|s]; subst.
  - destruct (phase_completes _ _ _ _ _ Hph) as (s & Hr & He).
    destruct (run_block_signalled s0 v s w' He) as (s' & Hb).
    exists s'. etrans; [by apply run_steps|by apply run_steps_right].
  - destruct (run_block_signalled s0 v s w' He) as (s' & Hb).
    exists s'. by apply run_steps_right.
  - exists s. by apply run_steps_right.
  - by exists s.
Qed.

Lemma blocked_inv_no_panic wk s0 v w' L R st :
  blocked_inv wk s0 v w' (L, R, st) -> ~ panics R st.
Proof.
  inversion 1 as [? ? Hph|s He|s|s]; subst; [|cbn..]; try (by intros [? ?]); try (by intros []).
  - destruct (phase_unset _ _ _ _ _ Hph) as (j & s & w & -> & Hu). cbn.
    rewrite (levent_wait_blocks _ Hu). by intros [].
  - destruct (levent_wait_ok _ He) as (? & -> & _). by intros [].
Qed.

(** C5: [block_on] returns the value of its future.  Suppose the future, polled
    on its own, becomes ready with [v] within [n] polls.  However the executor's
    polls of the wrapped future interleave with the thread blocked in
    [spawn_and_block], that thread never reaches its panic ("got ready signal, but
    future wasn't actually ready"), no reachable configuration is a deadlock, and
    from each of them the two threads run to the end in which the thread returns
    [v] and the world is the one the future left. *)
Theorem block_on_returns_the_value future wk n v (w w' : W) L R st :
  let signal := WaitSignal_new in
  run (poll_until n future wk) w = Done (Some v) w' ->
  rtc duo_step
    (drive n (WrapAwait future) wk, block_on_result signal,
     (mkJoinCell Unawaited (Some signal), w)) (L, R, st) ->
  ~ panics R st /\
  exists s, rtc duo_step (L, R, st) (Ret tt, Ret v, (mkJoinCell JoinDone (Some s), w')).
Proof.
  intros signal Hp Hr. destruct n as [|n]; [done|].
  assert (blocked_inv wk signal v w' (L, R, st)) as Hinv.
  { assert (blocked_inv wk signal v w' (drive (S n) (WrapAwait future) wk, block_on_result signal,
      (mkJoinCell Unawaited (Some signal), w))) as Hi
      by (apply inv_running, (ph_polling wk v w' n (poll future wk) signal w), Hp; apply levent_init).
    revert Hi Hr. generalize (drive (S n) (WrapAwait future) wk,
      block_on_result (W:=W) (T:=T) signal, (mkJoinCell (T:=T) Unawaited (Some signal), w)).
    intros c Hi Hr. induction Hr; eauto using blocked_inv_step. }
  split; [by eapply blocked_inv_no_panic|by eapply blocked_inv_ends].
Qed.

End join_props.

(** ** A task that awaits a handle

    [let handle = spawn(ready(v)); spawn(handle);]: the child is the future
    [std::future::ready(v)], and the parent is the [JoinHandle] itself, which is a
    future and can be spawned like any other. *)

Inductive ReadyFut (T : Type) : Type := ready (v : T).

Arguments ready {T} v.

Inductive HandleFut : Type := handle.

Inductive Task (T : Type) : Type :=
| TChild (c : WrapFut (ReadyFut T))
| TParent (p : WrapFut HandleFut).

Arguments TChild {T} c.
Arguments TParent {T} p.

(** The join cells of the child and of the parent. *)
Record Cells (T : Type) := mkCells {
  child_cell : JoinCell T;
  parent_cell : JoinCell T;
}.

Arguments mkCells {T} child_cell parent_cell.
Arguments child_cell {T} c.
Arguments parent_cell {T} c.

Section awaiting.
Context {K T : Type} `{SemaphoreLaws K} `{LightSync} `{Profile}.

Abbreviation W := (World K (Task T) (Cells T)).

Definition set_env (e : Cells T) (w : W) : W :=
  mkWorld (TASK_QUEUE w) (WAKE_QUEUE w) (EXECUTOR_PORT w) (w_kern w) e.

Definition set_child (c : JoinCell T) (w : W) : W := set_env (mkCells c (parent_cell (w_env w))) w.

Definition set_parent (c : JoinCell T) (w : W) : W := set_env (mkCells (child_cell (w_env w)) c) w.

Definition with_child {A} (p : prog (JoinCell T * W) A) : prog W A :=
  zoom (fun w => (child_cell (w_env w), w)) (fun '(c, w') _ => set_child c w') p.

Definition with_parent {A} (p : prog (JoinCell T * W) A) : prog W A :=
  zoom (fun w => (parent_cell (w_env w), w)) (fun '(c, w') _ => set_parent c w') p.

#[export] Instance ready_future : Future W (ReadyFut T) T :=
  fun '(ready v) wk => mret (Ready v, ready v).

#[export] Instance handle_future : Future W HandleFut T :=
  fun f wk => r ← with_child (JoinHandle_poll wk); mret (r, f).

#[export] Instance task_future : Future W (Task T) unit :=
  fun f wk =>
    match f with
    | TChild c =>
        r ← with_child (wrap_with_join_state_poll c wk);
        mret (fst r, TChild (snd r))
    | TParent p =>
        r ← with_parent (wrap_with_join_state_poll p wk);
        mret (fst r, TParent (snd r))
    end.

(** The two calls of [spawn], which make the cells. *)
Definition spawn_both (v : T) : prog W unit :=
  c ← spawn TChild (ready v);
  modify (set_child c);;
  c ← spawn TParent handle;
  modify (set_parent c).

(** A pending handle registers the waker; the ready child stores its value. *)
Lemma run_poll_parent wk (w : W) s :
  child_cell (w_env w) = mkJoinCell Unawaited s ->
  run (poll (TParent (WrapAwait handle)) wk) w =
  Done (Pending, TParent (WrapAwait handle)) (set_child (mkJoinCell (Awaited wk) s) w).
Proof.
  intros Hc. destruct w as [tq wq port k [cc pc]]. cbn in Hc. subst. reflexivity.
Qed.

Lemma run_poll_child v wk (w : W) j :
  child_cell (w_env w) = mkJoinCell j None ->
  run (poll (TChild (WrapAwait (ready v))) wk) w =
  Done (Ready tt, TChild WrapReturned) (set_child (mkJoinCell (JoinReady v) None) w).
Proof.
  intros Hc. destruct w as [tq wq port k [cc pc]]. cbn in Hc. subst. reflexivity.
Qed.

Lemma world_at_env e (w : W) tq wq ct cw :
  world_at w tq wq ct cw -> world_at (set_env e w) tq wq ct cw.
Proof. by intros []. Qed.

(** The executor's own steps leave the cells alone. *)
Lemma task_add_env f (w w' : W) u : run (task_queue_add f) w = Done u w' -> w_env w' = w_env w.
Proof.
  unfold task_queue_add. rewrite run_on_task_queue. destruct (TASK_QUEUE w); [|done].
  destruct (run _ _) as [? []| | |]; cbn; intros; by simplify_eq.
Qed.

(** The calls of [spawn] queue both tasks, on cells nobody awaits. *)
Lemma run_spawn_both v (w : W) tq wq :
  world_at w tq wq 0 0 -> vals tq = [] ->
  exists w' ct, run (spawn_both v) w = Done tt w' /\ 0 < ct /\
    world_at w' (set_vals [TChild (WrapAwait (ready v)); TParent (WrapAwait handle)] tq) wq ct 0 /\
    w_env w' = mkCells (mkJoinCell Unawaited None) (mkJoinCell Unawaited None).
Proof.
  intros Hw Hv. unfold spawn_both, spawn.
  destruct (run_task_queue_add (TChild (WrapAwait (ready v))) w _ _ _ _ Hw)
    as (w1 & c1 & E1 & Hw1 & _ & _). rewrite !run_bind, E1. cbn [obind]. rewrite run_ret. cbn [obind].
  rewrite run_bind, run_modify. cbn [obind]. apply (world_at_env (mkCells (mkJoinCell Unawaited None)
    (parent_cell (w_env w1)))) in Hw1.
  destruct (run_task_queue_add (TParent (WrapAwait handle)) _ _ _ _ _ Hw1)
    as (w2 & c2 & E2 & Hw2 & _ & Hc2).
  rewrite !run_bind. unfold set_child. rewrite E2. cbn [obind]. rewrite run_ret. cbn [obind].
  rewrite run_modify. eexists _, c2. split_and!; [done|done| |].
  - cbn [vals set_vals] in Hw2. rewrite Hv in Hw2. by apply world_at_env.
  - cbn. by rewrite (task_add_env _ _ _ _ E2).
Qed.

(** What the executor makes of them: the parent is polled first and registers,
    then the child is ready. *)
Lemma run_start_both v h (w : W) tq wq ct :
  world_at w (set_vals [TChild (WrapAwait (ready v)); TParent (WrapAwait handle)] tq) wq ct 0 ->
  w_env w = mkCells (mkJoinCell Unawaited None) (mkJoinCell Unawaited None) ->
  0 <= task_counter h < 2 ^ 32 - 2 ->
  exists h' w', run (exec_iters 3 (DrainTask, h)) w = Done (AtWait, h') w' /\
    world_at w' (set_vals [] tq) wq ct 0 /\
    tasks h' = <[mkToken (task_counter h) := TParent (WrapAwait handle)]> (tasks h) /\
    same_sems h h' /\ join_state (child_cell (w_env w')) = JoinReady v.
Proof.
  intros Hw He Hn. cbn [exec_iters].
  rewrite run_bind, (run_start_some h w _ [TChild (WrapAwait (ready v))]
    (TParent (WrapAwait handle)) (at_task _ _ _ _ _ Hw)) by done.
  erewrite run_spawn_poll; [|unfold is_u32; lia|apply (run_poll_parent _ _ None); cbn; by rewrite He].
  cbn [obind fst].
  rewrite run_bind, (run_start_some _ _ (set_vals [TChild (WrapAwait (ready v))] tq) []
    (TChild (WrapAwait (ready v)))) by done.
  erewrite run_spawn_poll; [|unfold is_u32; cbn; lia|by eapply (run_poll_child v)].
  cbn [obind fst].
  rewrite run_bind, (run_start_none _ _ (set_vals [] tq)) by done. cbn [obind]. rewrite run_ret.
  eexists _, _. split_and!; [done| |done|by split|done].
  destruct Hw. by split.
Qed.

(** C30: a task that awaits a [JoinHandle] is not resumed.  After
    [let handle = spawn(ready(v))] and [spawn(handle)] on an idle runtime, the
    executor polls the parent, which registers with the handle, then the child,
    which completes; it goes back to sleep with both queues empty, although the
    child's value is stored and the parent, a live task, awaits it. *)
Theorem awaiting_parent_sleeps_forever v h (w : W) tq wq :
  world_at w tq wq 0 0 -> vals tq = [] -> vals wq = [] ->
  task_semaphore h = semaphore_handle tq -> wake_semaphore h = semaphore_handle wq ->
  0 <= task_counter h < 2 ^ 32 - 2 ->
  exists n h' w',
    run (spawn_both v;; exec_iters n (AtWait, h)) w = Done (AtWait, h') w' /\
    run (exec_iter (AtWait, h')) w' = Blocked /\
    tasks h' = <[mkToken (task_counter h) := TParent (WrapAwait handle)]> (tasks h) /\
    join_state (child_cell (w_env w')) = JoinReady v /\
    vals <$> TASK_QUEUE w' = Some [] /\ vals <$> WAKE_QUEUE w' = Some [].
Proof.
  intros Hw Ht Hwk Hst Hsw Hn.
  destruct (run_spawn_both v w _ _ Hw Ht) as (w1 & ct & E1 & Hct & Hw1 & He1).
  destruct (run_exec_wait h w1 _ _ _ _ Hw1 Hst Hsw) as [(? & _)|[(w2 & E2 & Hw2)|(w2 & _ & Hw2)]];
    [lia| |apply at_wake_sem in Hw2 as [_ ?]; lia].
  pose proof (exec_wait_env _ _ _ _ E2) as He2. rewrite He1 in He2.
  destruct (run_start_both v h w2 _ _ _ Hw2 He2 Hn) as (h3 & w3 & E3 & Hw3 & Ht3 & [S1 S2] & Hj3).
  destruct (run_spare_units (Z.to_nat (ct - 1)) h3 w3 (set_vals [] tq) wq (ct - 1) 0 ltac:(lia) Hw3 eq_refl Hwk
    ltac:(by rewrite S1) ltac:(by rewrite S2)) as (w4 & E4 & Hw4 & He4 & Hb).
  exists (1 + (3 + 2 * Z.to_nat (ct - 1)))%nat, h3, w4. split_and!; [|done|done|by rewrite He4|..].
  - rewrite run_bind, E1. cbn [obind].
    rewrite !run_exec_iters_add. cbn [exec_iters]. rewrite run_bind, E2. cbn [obind].
    rewrite run_ret. cbn [obind]. rewrite run_exec_iters_add, E3. cbn [obind]. exact E4.
  - by rewrite (at_task _ _ _ _ _ Hw4).
  - rewrite (at_wake _ _ _ _ _ Hw4). cbn. by rewrite Hwk.
Qed.

End awaiting.

(** ** Concrete programs *)

Module JoinDemo.

#[local] Instance checked : Profile := true.

Definition world : Type := World RefKernel (Task Z) (Cells Z).

(** An idle runtime. *)
Definition w_idle : world :=
  mkWorld (Some (mkSyncQueue 1 [])) (Some (mkSyncQueue 2 [])) (Some 77)
    (mkRefKernel (<[2 := (0, 255)]> {[1 := (0, 255)]}) 3)
    (mkCells (mkJoinCell Unawaited None) (mkJoinCell Unawaited None)).

Lemma idle_at : world_at w_idle (mkSyncQueue 1 []) (mkSyncQueue 2 []) 0 0.
Proof. by split. Qed.

Lemma awaiting_parent_witness :
  exists n h' w',
    run (spawn_both 42;; exec_iters n (AtWait, mkHandler 5 ∅ 1 2)) w_idle = Done (AtWait, h') w' /\
    run (exec_iter (AtWait, h')) w' = Blocked /\
    tasks h' = <[mkToken 5 := TParent (WrapAwait handle)]> ∅ /\
    join_state (child_cell (w_env w')) = JoinReady 42 /\
    vals <$> TASK_QUEUE w' = Some [] /\ vals <$> WAKE_QUEUE w' = Some [].
Proof.
  apply (awaiting_parent_sleeps_forever 42 (mkHandler 5 ∅ 1 2) w_idle
    (mkSyncQueue 1 []) (mkSyncQueue 2 []) idle_at); [reflexivity..|cbn; lia].
Defined.

Lemma join_completion_witness :
  exists c', run (wrap_with_join_state_poll (WrapAwait (ready 42)) (mkWaker 1))
      (mkJoinCell (Awaited (mkWaker 0)) None, w_idle) =
    Done (Ready tt, WrapReturned) (c', w_idle) /\ join_state c' = JoinReady 42.
Proof.
  apply (join_completion_wakes_nobody (ready 42) (ready 42) (mkWaker 1)
    (mkJoinCell (Awaited (mkWaker 0)) None) w_idle w_idle 42).
  reflexivity.
Defined.

Lemma join_handle_witness :
  exists c' c'', run (wrap_with_join_state_poll (WrapAwait (ready 42)) (mkWaker 1);;
      JoinHandle_poll (mkWaker 0)) (mkJoinCell Unawaited None, w_idle) =
    Done (Ready 42) (c', w_idle) /\
    run (JoinHandle_poll (mkWaker 0)) (c', w_idle) = Panicked (c'', w_idle).
Proof.
  apply (join_handle_delivers_once (ready 42) (ready 42) (mkWaker 1) (mkWaker 0) (mkWaker 0)
    (mkJoinCell Unawaited None) w_idle w_idle 42).
  reflexivity.
Defined.

(** The executor has polled the child to its end, the other thread not yet moved. *)
Definition st_ready : JoinCell Z * world :=
  (mkJoinCell (JoinReady 42) (Some (mkWaitSignal (mkLightEvent 1 1))), w_idle).

Lemma block_on_witness :
  exists s, rtc duo_step (Ret tt, block_on_result WaitSignal_new, st_ready)
    (Ret tt, Ret 42, (mkJoinCell JoinDone (Some s), w_idle)).
Proof.
  apply (block_on_returns_the_value (ready 42) (mkWaker 1) 1 42 w_idle w_idle
    (Ret tt) (block_on_result WaitSignal_new) st_ready).
  - reflexivity.
  - apply (run_duo_rtc [true; true; true; true]). reflexivity.
Defined.

End JoinDemo.
