(* ===== verification/Sync.v ===== *)
(** * Synchronisation primitives (src/sync.rs)

    Oneshot channels, the mutex shared by threads and tasks, and notifications.
    Every load and store of an atomic is one action, so that the same code can be
    run alone or interleaved.  Wake-ups go through [WakeSink]. *)

From Stdlib Require Import ZArith Lia.
From stdpp Require Import base tactics list gmap numbers.
From S2P Require Import Prelude Err Kernel CtruUtils Executor.

(** ** Oneshot channels *)

Record OneshotState (T : Type) := mkOneshot {
  os_value : option T;
  os_state : bool;
  rx_task : option TaskToken;
}.

Arguments mkOneshot {T} os_value os_state rx_task.
Arguments os_value {T} o.
Arguments os_state {T} o.
Arguments rx_task {T} o.

Section oneshot.
Context {T W : Type} `{WakeSink W}.

Abbreviation OW := (OneshotState T * W)%type.

(** The state [oneshot()] shares between sender and receiver. *)
Definition oneshot : OneshotState T := mkOneshot None false None.

Definition load_state : prog OW bool := gets (fun s => os_state (fst s)).

Definition store_value (v : option T) : prog OW unit :=
  modify (fun '(o, w) => (mkOneshot v (os_state o) (rx_task o), w)).

Definition store_state (b : bool) : prog OW unit :=
  modify (fun '(o, w) => (mkOneshot (os_value o) b (rx_task o), w)).

(** Wake the task registered in [rx_task], if there is one. *)
Definition wake_receiver : prog OW unit :=
  task ← gets (fun s => rx_task (fst s));
  match task with
  | Some task => on_snd (act (wake_add task))
  | None => mret tt
  end.

Definition OneshotState_send (value : T) : prog OW bool :=
  state ← load_state;
  if (state : bool) then mret false
  else
    store_value (Some value);;
    store_state true;;
    wake_receiver;;
    mret true.

Definition OneshotSender_drop : prog OW unit :=
  store_state true;;
  wake_receiver.

(** [send(self, value)]: the sender is dropped when it returns. *)
Definition OneshotSender_send (value : T) : prog OW bool :=
  b ← OneshotState_send value;
  OneshotSender_drop;;
  mret b.

Definition OneshotReceiver_poll (waker : Waker) : prog OW (Poll (option T)) :=
  modify (fun '(o, w) => (mkOneshot (os_value o) (os_state o)
    (match rx_task o with Some t => Some t | None => Some (from_waker waker) end), w));;
  state ← load_state;
  if (state : bool)
  then act (fun '(o, w) => Done (Ready (os_value o)) (mkOneshot None (os_state o) (rx_task o), w))
  else mret Pending.

End oneshot.

(** ** Address arbitration *)

Inductive Arbitration : Type :=
| ARBITRATION_SIGNAL
| ARBITRATION_WAIT_IF_LESS_THAN.

(** The kernel's address arbiter: [svcArbitrateAddressNoTimeout] gets the
    handle, the address, the operation, its argument, and the word the kernel
    reads at the address. *)
Class Arbiter (W : Type) := {
  ADDRESS_ARBITER : W -> Z;
  set_ADDRESS_ARBITER : Z -> W -> W;
  svcCreateAddressArbiter : W -> outcome W (Z * Z);
  svcArbitrateAddressNoTimeout : Z -> Z -> Arbitration -> Z -> Z -> W -> outcome W Z;
}.

(** A wait on a word that is not less than the argument returns at once, a wait
    on a smaller one blocks until a signal; a signal returns. *)
Class ArbiterLaws (W : Type) `{Arbiter W} `{WakeSink W} : Prop := {
  arb_wait_pass : forall h a v cur w, v <= cur ->
    svcArbitrateAddressNoTimeout h a ARBITRATION_WAIT_IF_LESS_THAN v cur w = Done 0 w;
  arb_wait_blocks : forall h a v cur w, cur < v ->
    svcArbitrateAddressNoTimeout h a ARBITRATION_WAIT_IF_LESS_THAN v cur w = Blocked;
  arb_signal : forall h a n cur w, exists rc w',
    svcArbitrateAddressNoTimeout h a ARBITRATION_SIGNAL n cur w = Done rc w' /\
    wakes w' = wakes w /\ (wake_ok w -> wake_ok w');
}.

Definition sync_init {W} `{Arbiter W} `{CtruSys} : prog W (BunnyResult unit) :=
  r ← act svcCreateAddressArbiter;
  modify (set_ADDRESS_ARBITER (snd r));;
  ds_try_bunny (fst r) (mret (Ok tt)).

Record ArbitratedValue := mkArb {
  arb_addr : Z;
  arb_val : Z;
}.

(** ** The lock *)

Record DsLock := mkDsLock {
  arb : ArbitratedValue;
  waiters : list TaskToken;
}.

Definition lock_word (l : DsLock) : Z := arb_val (arb l).

Definition set_word (z : Z) (l : DsLock) : DsLock :=
  mkDsLock (mkArb (arb_addr (arb l)) z) (waiters l).

Definition set_waiters (ts : list TaskToken) (l : DsLock) : DsLock := mkDsLock (arb l) ts.

(** The token that stands for a waiting thread. *)
Definition thread_token : TaskToken := mkToken u32_MAX.

Section lock.
Context {W : Type} `{WakeSink W} `{Arbiter W} `{CtruSys} `{Profile}.

Abbreviation LW := (DsLock * W)%type.

Definition wait_less_than (value : Z) : prog LW (BunnyResult unit) :=
  rc ← act (fun '(l, w) =>
    obind (svcArbitrateAddressNoTimeout (ADDRESS_ARBITER w) (arb_addr (arb l))
             ARBITRATION_WAIT_IF_LESS_THAN value (lock_word l) w)
      (fun w' => (l, w')) (fun rc w' => Done rc (l, w')));
  ds_try_bunny rc (mret (Ok tt)).

Definition signal_one : prog LW (BunnyResult unit) :=
  rc ← act (fun '(l, w) =>
    obind (svcArbitrateAddressNoTimeout (ADDRESS_ARBITER w) (arb_addr (arb l))
             ARBITRATION_SIGNAL 1 (lock_word l) w)
      (fun w' => (l, w')) (fun rc w' => Done rc (l, w')));
  ds_try_bunny rc (mret (Ok tt)).

Definition load_word : prog LW Z := gets (fun s => lock_word (fst s)).

Definition store_word (z : Z) : prog LW unit := modify (fun '(l, w) => (set_word z l, w)).

Definition push_waiter (t : TaskToken) : prog LW unit :=
  modify (fun '(l, w) => (set_waiters (waiters l ++ [t]) l, w)).

Definition try_lock_and_register (token : TaskToken) : prog LW bool :=
  state ← load_word;
  if state >? 0 then
    n ← arith as_i32 (- state);
    store_word n;;
    mret true
  else
    n ← arith as_i32 (state - 1);
    store_word n;;
    push_waiter token;;
    mret false.

Definition try_lock_release_waiter : prog LW bool :=
  lock_state ← load_word;
  if lock_state >? 0 then
    m ← arith as_i32 (lock_state - 1);
    n ← arith as_i32 (- m);
    store_word n;;
    mret true
  else mret false.

(** The critical section on [waiters]: [is_empty] or [remove(0)]. *)
Definition pop_waiter : prog LW (option TaskToken) :=
  act (fun '(l, w) =>
    match waiters l with
    | [] => Done None (l, w)
    | t :: ts => Done (Some t) (set_waiters ts l, w)
    end).

Definition unlock : prog LW unit :=
  lock_state ← load_word;
  if lock_state <? 0 then
    n ← arith as_i32 (- lock_state);
    store_word n;;
    task ← pop_waiter;
    match task with
    | None => mret tt
    | Some task =>
        if bool_decide (task = thread_token) then signal_one;; mret tt
        else on_snd (act (wake_add task))
    end
  else mret tt.

(** *** The mutex: [lock] for tasks, [lock_sync] for threads *)

(** The body of [lock_sync]'s loop; [true] is the return with the guard. *)
Definition lock_sync_round : prog LW bool :=
  wait_less_than 0;;
  try_lock_release_waiter.

(** [lock_sync]'s loop, [fuel] times round; [false] when the fuel runs out. *)
Fixpoint lock_sync_loop (fuel : nat) : prog LW bool :=
  match fuel with
  | O => mret false
  | S n =>
      b ← lock_sync_round;
      if (b : bool) then mret true else lock_sync_loop n
  end.

Definition lock_sync (fuel : nat) : prog LW bool :=
  b ← try_lock_and_register thread_token;
  if (b : bool) then mret true else lock_sync_loop fuel.

(** [LockFut::poll] on its [registered] flag; [Ready tt] is the guard. *)
Definition LockFut_poll (registered : bool) (waker : Waker) : prog LW (Poll unit * bool) :=
  if registered then
    b ← try_lock_release_waiter;
    mret (if (b : bool) then Ready tt else Pending, registered)
  else
    b ← try_lock_and_register (from_waker waker);
    if (b : bool) then mret (Ready tt, registered) else mret (Pending, true).

End lock.

Record DSMutex (T : Type) := mkDSMutex {
  mx_state : DsLock;
  mx_data : T;
}.

Arguments mkDSMutex {T} mx_state mx_data.
Arguments mx_state {T} d.
Arguments mx_data {T} d.

Definition DSMutex_new {T} (addr : Z) (value : T) : DSMutex T :=
  mkDSMutex (mkDsLock (mkArb addr 1) []) value.

(** Working on the lock of a mutex, and on its data through a guard. *)
Definition on_lock {T W A} (p : prog (DsLock * W) A) : prog (DSMutex T * W) A :=
  zoom (fun '(m, w) => (mx_state m, w)) (fun '(l, w) '(m, _) => (mkDSMutex l (mx_data m), w)) p.

Definition guard_deref {T W} : prog (DSMutex T * W) T := gets (fun '(m, _) => mx_data m).

Definition guard_deref_mut {T W} (f : T -> T) : prog (DSMutex T * W) unit :=
  modify (fun '(m, w) => (mkDSMutex (mx_state m) (f (mx_data m)), w)).

Definition guard_drop {T W} `{WakeSink W} `{Arbiter W} `{CtruSys} `{Profile} :
    prog (DSMutex T * W) unit := on_lock unlock.

(** ** Notifications *)

Definition NOTIFICATION_READY : Z := u32_MAX - 1.

Definition NOTIFICATION_UNINIT : Z := u32_MAX.

Definition notification : Z := NOTIFICATION_UNINIT.

Section notification.
Context {W : Type} `{WakeSink W}.

Abbreviation NW := (Z * W)%type.

Definition notify : prog NW unit :=
  state ← gets fst;
  if (state =? NOTIFICATION_UNINIT) || (state =? NOTIFICATION_READY) then mret tt
  else
    let task := mkToken state in
    modify (fun '(_, w) => (NOTIFICATION_READY, w));;
    on_snd (act (wake_add task)).

Definition NotificationWaiter_poll (waker : Waker) : prog NW (Poll unit) :=
  state ← gets fst;
  if state =? NOTIFICATION_READY then mret (Ready tt)
  else if state =? NOTIFICATION_UNINIT then
    modify (fun '(_, w) => (token (from_waker waker), w));;
    mret Pending
  else mret Pending.

End notification.
