(* ===== verification/Oneshot.v ===== *)
(** * Oneshot channels deliver (src/sync.rs)

    The sender's [send] (with the drop that follows) and one poll of the receiver
    interleaved action by action, and the sequential behaviour of both ends. *)

From Stdlib Require Import ZArith Lia.
From stdpp Require Import base tactics list gmap numbers.
From S2P Require Import Prelude Err Kernel CtruUtils Executor ExecutorSys Join Sync.

Section oneshot_props.
Context {T W : Type} `{WakeSinkLaws W}.

Abbreviation OW := (OneshotState T * W)%type.

(** ** Program points *)

(** The sender, before each of its actions: load, store of the value, store of
    the flag, read of [rx_task], wake-up; then the same from the flag on for the
    drop. *)
Inductive spc : Type := S0 | S1 | S2 | S3 | S4 | S5 | S6 | S7 | SD.

(** The receiver: registering, loading the flag, taking the value, returned. *)
Inductive rpc : Type := R0 | R1 | R2 | RD (r : Poll (option T)).

Definition srank (p : spc) : Z :=
  match p with
  | S0 => 0 | S1 => 1 | S2 => 2 | S3 => 3 | S4 => 4 | S5 => 5 | S6 => 6 | S7 => 7 | SD => 8
  end.

Definition then_drop (p : prog OW bool) : prog OW bool :=
  b ← p; OneshotSender_drop;; mret b.

Definition sprog (v : T) (tok : TaskToken) (p : spc) : prog OW bool :=
  match p with
  | S0 => OneshotSender_send v
  | S1 => then_drop (store_value (Some v);; store_state true;; wake_receiver;; mret true)
  | S2 => then_drop (store_state true;; wake_receiver;; mret true)
  | S3 => then_drop (wake_receiver;; mret true)
  | S4 => then_drop (on_snd (act (wake_add tok));; mret true)
  | S5 => OneshotSender_drop;; mret true
  | S6 => wake_receiver;; mret true
  | S7 => on_snd (act (wake_add tok));; mret true
  | SD => Ret true
  end.

Definition rprog (wk : Waker) (p : rpc) : prog OW (Poll (option T)) :=
  match p with
  | R0 => OneshotReceiver_poll wk
  | R1 => state ← load_state;
      if (state : bool)
      then act (fun '(o, w) => Done (Ready (os_value o))
                  (mkOneshot None (os_state o) (rx_task o), w))
      else mret Pending
  | R2 => act (fun '(o, w) => Done (Ready (os_value o))
                  (mkOneshot None (os_state o) (rx_task o), w))
  | RD r => Ret r
  end.

Definition taken (p : rpc) : bool := match p with RD (Ready _) => true | _ => false end.

(** What holds at each pair of program points: the flag is up from [S3] on, the
    receiver's token is registered from [R1] on, the value is present between its
    store and its take; and once the receiver has returned [Pending], a sender
    past its read of [rx_task] has woken or is about to wake it. *)
Record os_inv (v : T) (tok : TaskToken) (l : list TaskToken) (sp : spc) (rp : rpc)
    (o : OneshotState T) (w : W) : Prop := {
  inv_state : os_state o = (3 <=? srank sp);
  inv_rx : rx_task o = match rp with R0 => None | _ => Some tok end;
  inv_value : os_value o = if (2 <=? srank sp) && negb (taken rp) then Some v else None;
  inv_ok : wake_ok w;
  inv_wakes : exists l', wakes w = Some (l ++ l') /\
    (rp = RD Pending -> 4 < srank sp -> tok ∈ l');
  inv_take : rp = R2 -> 3 <= srank sp;
  inv_done : forall r, rp = RD r -> r = Pending \/ (r = Ready (Some v) /\ 3 <= srank sp);
  inv_waking : sp = S4 \/ sp = S7 -> rp <> R0;
}.

(** Closes a field of [os_inv] at known program points. *)
Ltac os_field :=
  cbn in *; intros;
  repeat match goal with
  | H : RD _ = RD _ |- _ => injection H as H; subst
  | H : _ \/ _ |- _ => destruct H
  | H : _ /\ _ |- _ => destruct H
  | H : forall r, RD ?x = RD r -> _ |- _ => specialize (H _ eq_refl)
  end;
  simplify_eq; try done; try lia; auto with lia.

(** The point of the sender after its next action. *)
Lemma sender_step v tok l sp rp o w p' o' w' :
  os_inv v tok l sp rp o w ->
  step_prog (sprog v tok sp) (o, w) = Some (p', (o', w')) ->
  exists sp', p' = sprog v tok sp' /\ os_inv v tok l sp' rp o' w'.
Proof.
  intros [Hst Hrx Hv Hok (l' & Hl & Hp) Ht Hd Hw].
  destruct (wake_add_ok tok w _ Hok Hl) as (w1 & E1 & L1 & K1). rewrite <- app_assoc in L1.
  destruct sp; cbn; rewrite ?Hst; cbn; rewrite ?E1; cbn; intros [= <- <- <-].
  - exists S1. split; [done|]. split; try exists l'; destruct rp as [| | |[x|]]; os_field.
  - exists S2. split; [done|]. split; try exists l'; destruct rp as [| | |[x|]]; os_field.
  - exists S3. split; [done|]. split; try exists l'; destruct rp as [| | |[x|]]; os_field.
  - exists (match rp with R0 => S5 | _ => S4 end).
    split; [by rewrite Hrx; destruct rp|]. split; try exists l'; destruct rp as [| | |[x|]]; os_field.
  - exists S5. split; [done|]. split; try exists (l' ++ [tok]); destruct rp as [| | |[x|]]; os_field.
    split; [done|]. intros. apply elem_of_app; right; by left.
  - exists S6. split; [done|]. split; try exists l'; destruct rp as [| | |[x|]]; os_field.
  - exists (match rp with R0 => SD | _ => S7 end).
    split; [by rewrite Hrx; destruct rp|]. split; try exists l'; destruct rp as [| | |[x|]]; os_field.
  - exists SD. split; [done|]. split; try exists (l' ++ [tok]); destruct rp as [| | |[x|]]; os_field.
    split; [done|]. intros. apply elem_of_app; right; by left.
Qed.

(** The point of the receiver after its next action. *)
Lemma receiver_step v wk l sp rp o w p' o' w' :
  os_inv v (from_waker wk) l sp rp o w ->
  step_prog (rprog wk rp) (o, w) = Some (p', (o', w')) ->
  exists rp', p' = rprog wk rp' /\ os_inv v (from_waker wk) l sp rp' o' w'.
Proof.
  intros [Hst Hrx Hv Hok (l' & Hl & Hp) Ht Hd Hw].
  destruct rp as [| | |r]; cbn; [intros [= <- <- <-]..|done].
  - exists R1. split; [done|]. split; try exists l'; try done; cbn; by rewrite ?Hrx.
  - rewrite Hst. destruct (Z.leb_spec 3 (srank sp)).
    + exists R2. split; [done|]. split; try exists l'; os_field. rewrite Hst. lia.
    + exists (RD Pending). split; [done|]. split; try exists l'; try done; os_field.
      rewrite Hst. lia.
  - specialize (Ht eq_refl). assert ((2 <=? srank sp) = true) as H2 by lia.
    rewrite Hv, H2. exists (RD (Ready (Some v))). split; [done|].
    split; try exists l'; try done; cbn; rewrite ?H2; os_field.
Qed.

Lemma os_reachable v wk l w p q o' w' :
  wake_ok w -> wakes w = Some l ->
  rtc duo_step (OneshotSender_send v, OneshotReceiver_poll wk, (oneshot, w)) (p, q, (o', w')) ->
  exists sp rp, p = sprog v (from_waker wk) sp /\ q = rprog wk rp /\
    os_inv v (from_waker wk) l sp rp o' w'.
Proof.
  intros Hok Hl Hr.
  assert (forall c c', rtc duo_step c c' -> forall sp rp o w,
    c = (sprog v (from_waker wk) sp, rprog wk rp, (o, w)) ->
    os_inv v (from_waker wk) l sp rp o w ->
    exists sp' rp' o' w', c' = (sprog v (from_waker wk) sp', rprog wk rp', (o', w')) /\
      os_inv v (from_waker wk) l sp' rp' o' w') as Hgen.
  { clear Hok Hl Hr o' w' w. induction 1 as [c|c1 c2 c3 Hst _ IH]; intros sp rp o w -> Hi.
    - by exists sp, rp, o, w.
    - inversion Hst as [? p' ? ? [o' w'] Hs|? ? q' ? [o' w'] Hs]; subst.
      + destruct (sender_step _ _ _ _ _ _ _ _ _ _ Hi Hs) as (sp' & -> & Hi'). by eapply IH.
      + destruct (receiver_step _ _ _ _ _ _ _ _ _ _ Hi Hs) as (rp' & -> & Hi'). by eapply IH. }
  assert (os_inv v (from_waker wk) l S0 R0 oneshot w) as Hi0.
  { split; try done. - exists []. by rewrite app_nil_r. - by intros [|]. }
  destruct (Hgen _ _ Hr S0 R0 oneshot w eq_refl Hi0) as (sp & rp & o & w1 & [= -> -> -> ->] & Hi).
  by eauto.
Qed.

Lemma run_OneshotReceiver_poll wk (o : OneshotState T) (w : W) :
  os_state o = true ->
  exists o', run (OneshotReceiver_poll wk) (o, w) = Done (Ready (os_value o)) (o', w).
Proof.
  intros Hs. unfold OneshotReceiver_poll, load_state. rewrite run_bind, run_modify. cbn [obind].
  rewrite run_bind, run_gets. cbn [obind fst os_state]. rewrite Hs, run_act. by eexists.
Qed.

(** C3: a oneshot channel loses neither the value nor the wake-up.  However the
    actions of [send] (and of the sender's drop) interleave with a poll of the
    receiver, neither panics, and when both are done the poll has yielded the
    value, or it was [Pending], the receiver's task has been woken since, and its
    next poll yields the value. *)
Theorem oneshot_no_lost_wakeup (v : T) wk wk' l (w : W) b (r : Poll (option T))
    (o' : OneshotState T) (w' : W) :
  wake_ok w -> wakes w = Some l ->
  rtc duo_step (OneshotSender_send v, OneshotReceiver_poll wk, (oneshot, w))
    (Ret b, Ret r, (o', w')) ->
  b = true /\
  (r = Ready (Some v) \/
   (r = Pending /\ (exists l', wakes w' = Some (l ++ l') /\ from_waker wk ∈ l') /\
    exists o'', run (OneshotReceiver_poll wk') (o', w') = Done (Ready (Some v)) (o'' : OneshotState T, w'))).
Proof.
  intros Hok Hl Hr. destruct (os_reachable _ _ _ _ _ _ _ _ Hok Hl Hr) as (sp & rp & Ep & Eq & Hi).
  destruct sp; try discriminate. destruct rp as [| | |r']; try discriminate.
  cbn in Ep, Eq. simplify_eq. split; [done|].
  destruct Hi as [Hst Hrx Hv _ (l' & Hw & Hp) _ Hd _]. cbn in *.
  destruct (Hd _ eq_refl) as [->|[-> _]]; [right|by left].
  split; [done|]. split; [exists l'; split; [done|by apply Hp]|].
  change (os_value o' = Some v) in Hv. rewrite <- Hv. by apply run_OneshotReceiver_poll.
Qed.

(** C28: dropping the sender without sending ends the channel: the receiver's
    next poll yields [None], and a task that was waiting is woken. *)
Theorem oneshot_drop_closes wk wk' l (w : W) :
  wake_ok w -> wakes w = Some l ->
  exists o' o'' w', run (OneshotReceiver_poll wk;; OneshotSender_drop) (@oneshot T, w) =
    Done tt (o', w') /\ wakes w' = Some (l ++ [from_waker wk]) /\
    run (OneshotReceiver_poll wk') (o', w') = Done (Ready None) (o'', w').
Proof.
  intros Hok Hl. destruct (wake_add_ok (from_waker wk) w l Hok Hl) as (w1 & E1 & L1 & K1).
  destruct (run_OneshotReceiver_poll wk' (mkOneshot None true (Some (from_waker wk))) w1 eq_refl)
    as [o'' Ho].
  eexists _, o'', w1. split_and!; [|done|exact Ho].
  unfold OneshotReceiver_poll, OneshotSender_drop, wake_receiver, load_state, store_state.
  run_simpl. cbn [oneshot os_state os_value rx_task]. run_simpl. cbn [rx_task]. run_simpl.
  by rewrite E1.
Qed.

End oneshot_props.

(** ** Concrete runs *)

Module OneshotDemo.

Definition w : Demo.world Demo.Idle := Demo.ws [] [] 0 0.

Definition w1 : Demo.world Demo.Idle := Demo.ws [] [mkToken 4; mkToken 4] 0 2.

(** The receiver registers and polls before the sender stores the flag. *)
Lemma oneshot_witness :
  true = true /\
  (Pending = Ready (Some 9) \/
   (@Pending (option Z) = Pending /\
    (exists l', wakes w1 = Some ([] ++ l') /\ from_waker (mkWaker 4) ∈ l') /\
    exists o'', run (OneshotReceiver_poll (mkWaker 4))
      (mkOneshot (Some 9) true (Some (mkToken 4)), w1) = Done (Ready (Some 9)) (o'', w1))).
Proof.
  apply (oneshot_no_lost_wakeup 9 (mkWaker 4) (mkWaker 4) [] w true Pending
    (mkOneshot (Some 9) true (Some (mkToken 4))) w1 Demo.quiet_world_ok eq_refl).
  apply (run_duo_rtc [true; true; false; false; true; true; true; true; true; true]).
  vm_compute. reflexivity.
Defined.

Lemma oneshot_drop_witness :
  exists o' o'' w', run (OneshotReceiver_poll (mkWaker 4);; OneshotSender_drop) (@oneshot Z, w) =
    Done tt (o', w') /\ wakes w' = Some ([] ++ [from_waker (mkWaker 4)]) /\
    run (OneshotReceiver_poll (mkWaker 5)) (o', w') = Done (Ready None) (o'', w').
Proof. apply (oneshot_drop_closes (mkWaker 4) (mkWaker 5) [] w Demo.quiet_world_ok eq_refl). Defined.

End OneshotDemo.
