(* ===== verification/Lock.v ===== *)
(** * The mutex of threads and tasks (src/sync.rs)

    A set of clients that lock, poll, wait and unlock one [DsLock].  The
    operations of different clients do not overlap in [lock_step] (tasks of one
    executor, threads of one core that hand over voluntarily), and a registered
    future is polled until it has the guard, never dropped before;
    [overlapping_callers_both_acquire] looks at operations that do overlap. *)

From Stdlib Require Import ZArith Lia.
From stdpp Require Import base tactics list gmap numbers.
From S2P Require Import Prelude Err Kernel CtruUtils Executor ExecutorSys Join Sync.

(** Where a client is: outside, registered and waiting (as a task or as a
    thread), or with a guard. *)
Inductive client : Type := Outside | TaskWaiting | ThreadWaiting | Holding.

Inductive lock_event : Type :=
| EvPoll (waker : Waker)
| EvSync
| EvUnlock.

Section lock_props.
Context {W : Type} `{WakeSinkLaws W} `{!Arbiter W} `{!ArbiterLaws W} `{CtruSys} `{Profile}.

Abbreviation LW := (DsLock * W)%type.

(** The code a client runs on an event, and where it is afterwards. *)
Definition client_prog (ev : lock_event) (c : client) : option (prog LW client) :=
  match ev, c with
  | EvPoll wk, Outside => Some (
      r ← LockFut_poll false wk;
      mret (match fst r with Ready _ => Holding | Pending => TaskWaiting end))
  | EvPoll wk, TaskWaiting => Some (
      r ← LockFut_poll true wk;
      mret (match fst r with Ready _ => Holding | Pending => TaskWaiting end))
  | EvSync, Outside => Some (
      b ← try_lock_and_register thread_token;
      mret (if (b : bool) then Holding else ThreadWaiting))
  | EvSync, ThreadWaiting => Some (
      b ← lock_sync_round;
      mret (if (b : bool) then Holding else ThreadWaiting))
  | EvUnlock, Holding => Some (unlock;; mret Outside)
  | _, _ => None
  end.

Inductive lock_step : list client * LW -> list client * LW -> Prop :=
| lock_do i ev c p c' cs s s' :
    cs !! i = Some c -> client_prog ev c = Some p -> run p s = Done c' s' ->
    lock_step (cs, s) (<[i := c']> cs, s').

(** ** The invariant *)

Definition is_waiting (c : client) : bool :=
  match c with TaskWaiting | ThreadWaiting => true | _ => false end.

Definition is_holding (c : client) : bool := match c with Holding => true | _ => false end.

Definition count (f : client -> bool) (cs : list client) : Z :=
  Z.of_nat (length (filter (fun c => f c = true) cs)).

(** The word counts the waiting clients, plus one, and its sign says whether a
    client has a guard. *)
Definition expected_word (cs : list client) : Z :=
  if count is_holding cs =? 0 then 1 + count is_waiting cs else - (1 + count is_waiting cs).

Record lock_inv (cs : list client) (l : DsLock) (w : W) : Prop := {
  lk_one : count is_holding cs <= 1;
  lk_word : lock_word l = expected_word cs;
  lk_wake : wake_ok w /\ is_Some (wakes w);
}.

Lemma count_cons f c cs : count f (c :: cs) = Z.b2z (f c) + count f cs.
Proof.
  unfold count. rewrite filter_cons. case_decide as Hc; destruct (f c); try done;
    cbn [length Z.b2z]; lia.
Qed.

Lemma count_nonneg f cs : 0 <= count f cs.
Proof. unfold count. lia. Qed.

Lemma count_insert f (cs : list client) i c c' :
  cs !! i = Some c ->
  count f (<[i := c']> cs) = count f cs + Z.b2z (f c') - Z.b2z (f c).
Proof.
  revert i. induction cs as [|x cs IH]; intros [|i] Hi; simplify_eq/=; rewrite !count_cons.
  - lia.
  - rewrite (IH _ Hi). lia.
Qed.

Lemma count_total cs : count is_holding cs + count is_waiting cs <= Z.of_nat (length cs).
Proof.
  induction cs as [|x cs IH]; [done|]. rewrite !count_cons. destruct x; cbn [length]; cbn; lia.
Qed.

Lemma count_lookup f (cs : list client) i c : cs !! i = Some c -> Z.b2z (f c) <= count f cs.
Proof.
  revert i. induction cs as [|x cs IH]; intros [|i] Hi; simplify_eq/=; rewrite count_cons.
  - pose proof (count_nonneg f cs). lia.
  - specialize (IH _ Hi). destruct (f x); cbn; lia.
Qed.

(** ** Runs of the operations *)

Lemma run_register t (l : DsLock) (w : W) :
  - 2 ^ 31 < lock_word l < 2 ^ 31 ->
  run (try_lock_and_register t) (l, w) =
  if lock_word l >? 0 then Done true (set_word (- lock_word l) l, w)
  else Done false (set_waiters (waiters l ++ [t]) (set_word (lock_word l - 1) l), w).
Proof.
  intros Hb. unfold try_lock_and_register, load_word, store_word, push_waiter. run_simpl.
  case_match; run_simpl; rewrite as_i32_id, Z.eqb_refl by (unfold is_i32; lia); by run_simpl.
Qed.

Lemma run_release (l : DsLock) (w : W) :
  - 2 ^ 31 < lock_word l < 2 ^ 31 ->
  run try_lock_release_waiter (l, w) =
  if lock_word l >? 0 then Done true (set_word (- (lock_word l - 1)) l, w)
  else Done false (l, w).
Proof.
  intros Hb. unfold try_lock_release_waiter, load_word, store_word. run_simpl.
  destruct (Z.gtb_spec (lock_word l) 0); [|by run_simpl]. run_simpl.
  rewrite as_i32_id, Z.eqb_refl by (unfold is_i32; lia). run_simpl.
  rewrite as_i32_id, Z.eqb_refl by (unfold is_i32; lia). by run_simpl.
Qed.

Lemma run_wait_less_than v (l : DsLock) (w : W) :
  (v <= lock_word l -> exists r, run (wait_less_than v) (l, w) = Done r (l, w)) /\
  (lock_word l < v -> run (wait_less_than v) (l, w) = Blocked).
Proof.
  unfold wait_less_than, ds_try_bunny. split; intros Hv; run_simpl.
  - rewrite arb_wait_pass by done. cbn [obind]. case_match; run_simpl; by eexists.
  - by rewrite arb_wait_blocks.
Qed.

Lemma run_signal_one (l : DsLock) (w : W) :
  exists r w', run signal_one (l, w) = Done r (l, w') /\ wakes w' = wakes w /\
    (wake_ok w -> wake_ok w').
Proof.
  unfold signal_one, ds_try_bunny. run_simpl.
  destruct (arb_signal (ADDRESS_ARBITER w) (arb_addr (arb l)) 1 (lock_word l) w)
    as (rc & w' & -> & Hw & Hok).
  cbn [obind]. case_match; run_simpl; by eexists _, w'.
Qed.

(** [unlock] of a held lock frees it and hands it to the longest waiter: its
    token leaves the list and its task is woken, or a thread is signalled. *)
Lemma run_unlock (l : DsLock) (w : W) ts :
  - 2 ^ 31 < lock_word l < 0 -> wake_ok w -> wakes w = Some ts ->
  exists w', run unlock (l, w) =
      Done tt (set_waiters (tail (waiters l)) (set_word (- lock_word l) l), w') /\
    wake_ok w' /\
    wakes w' = Some (ts ++ match waiters l with
      | t :: _ => if bool_decide (t = thread_token) then [] else [t]
      | [] => []
      end).
Proof.
  intros Hb Hok Hw. unfold unlock, load_word, store_word, pop_waiter. run_simpl.
  destruct (Z.ltb_spec (lock_word l) 0); [|lia]. run_simpl.
  rewrite as_i32_id, Z.eqb_refl by (unfold is_i32; lia). run_simpl.
  cbn [set_word waiters arb]. destruct (waiters l) as [|t ws] eqn:Ew; run_simpl.
  - exists w. rewrite app_nil_r. unfold set_waiters, set_word. cbn. by rewrite Ew.
  - case_bool_decide.
    + run_simpl. destruct (run_signal_one (set_waiters ws (set_word (- lock_word l) l)) w)
        as (r & w' & Hs & Hw' & Hk).
      exists w'. cbn [tail]. unfold set_word in *. rewrite Hs. rewrite app_nil_r, Hw'.
      split; [done|]. by auto.
    + run_simpl. destruct (wake_add_ok t w ts Hok Hw) as (w' & -> & ? & ?).
      by exists w'.
Qed.

(** ** The invariant is preserved *)

Lemma word_cases cs l w :
  lock_inv cs l w ->
  count is_holding cs = 0 /\ lock_word l = 1 + count is_waiting cs \/
  count is_holding cs = 1 /\ lock_word l = - (1 + count is_waiting cs).
Proof.
  intros [Hone Hw _]. unfold expected_word in Hw. pose proof (count_nonneg is_holding cs).
  destruct (Z.eqb_spec (count is_holding cs) 0); [by left|right; split; [lia|done]].
Qed.

Lemma inv_insert cs i c c' l w :
  cs !! i = Some c ->
  count is_holding cs + Z.b2z (is_holding c') - Z.b2z (is_holding c) <= 1 ->
  lock_word l = (if count is_holding cs + Z.b2z (is_holding c') - Z.b2z (is_holding c) =? 0
    then 1 + (count is_waiting cs + Z.b2z (is_waiting c') - Z.b2z (is_waiting c))
    else - (1 + (count is_waiting cs + Z.b2z (is_waiting c') - Z.b2z (is_waiting c)))) ->
  wake_ok w /\ is_Some (wakes w) ->
  lock_inv (<[i := c']> cs) l w.
Proof.
  intros Hi Hone Hw Hk. split; unfold expected_word; rewrite ?(count_insert _ _ _ _ _ Hi); done.
Qed.

(** Lock words at known counts. *)
Ltac lock_arith := unfold lock_word in *; cbn in *; case_match; lia.

(** Entering: free takes the lock, held registers. *)
Lemma register_inv t (mk : client) cs i l w :
  Z.of_nat (length cs) < 2 ^ 31 - 1 -> lock_inv cs l w -> cs !! i = Some Outside ->
  is_waiting mk = true -> is_holding mk = false ->
  exists b l', run (try_lock_and_register t) (l, w) = Done b (l', w) /\
    lock_inv (<[i := if (b : bool) then Holding else mk]> cs) l' w.
Proof.
  intros Hlen Hi Hc Hm1 Hm2. pose proof (count_total cs). pose proof (count_nonneg is_waiting cs).
  destruct (word_cases _ _ _ Hi) as [[Hh Hw]|[Hh Hw]]; rewrite run_register by lia.
  - destruct (Z.gtb_spec (lock_word l) 0); [|lia]. eexists true, _. split; [done|].
    apply (inv_insert _ _ _ _ _ _ Hc); cbn; [lia| |apply Hi].
    lock_arith.
  - destruct (Z.gtb_spec (lock_word l) 0); [lia|]. eexists false, _. split; [done|].
    apply (inv_insert _ _ _ _ _ _ Hc); rewrite ?Hm1, ?Hm2; cbn; [lia| |apply Hi].
    lock_arith.
Qed.

(** A registered client tries again. *)
Lemma release_inv c cs i l w :
  Z.of_nat (length cs) < 2 ^ 31 - 1 -> lock_inv cs l w -> cs !! i = Some c ->
  is_waiting c = true ->
  exists b l', run try_lock_release_waiter (l, w) = Done b (l', w) /\
    lock_inv (<[i := if (b : bool) then Holding else c]> cs) l' w.
Proof.
  intros Hlen Hi Hc Hwt. pose proof (count_total cs). pose proof (count_lookup is_waiting _ _ _ Hc).
  assert (is_holding c = false) as Hnh by (by destruct c). rewrite Hwt in *. cbn in *.
  destruct (word_cases _ _ _ Hi) as [[Hh Hw]|[Hh Hw]]; rewrite run_release by lia.
  - destruct (Z.gtb_spec (lock_word l) 0); [|lia]. eexists true, _. split; [done|].
    apply (inv_insert _ _ _ _ _ _ Hc); rewrite ?Hnh, ?Hwt; cbn; [lia| |apply Hi].
    lock_arith.
  - destruct (Z.gtb_spec (lock_word l) 0); [lia|]. eexists false, _. split; [done|].
    by rewrite list_insert_id.
Qed.

Lemma client_prog_inv ev c p cs i l w :
  Z.of_nat (length cs) < 2 ^ 31 - 1 -> lock_inv cs l w ->
  cs !! i = Some c -> client_prog ev c = Some p ->
  (exists c' l' w', run p (l, w) = Done c' (l', w') /\ lock_inv (<[i := c']> cs) l' w') \/
  (c = ThreadWaiting /\ count is_holding cs = 1 /\ run p (l, w) = Blocked).
Proof.
  intros Hlen Hi Hc Hp. pose proof (word_cases _ _ _ Hi) as Hcases.
  pose proof (count_nonneg is_waiting cs). pose proof (count_total cs).
  destruct ev, c; cbn [client_prog] in Hp; simplify_eq; unfold LockFut_poll.
  - left. destruct (register_inv (from_waker waker) TaskWaiting _ _ _ _ Hlen Hi Hc)
      as (b & l' & Hr & Hi'); [done..|].
    run_simpl. rewrite Hr. cbn [obind]. destruct b; run_simpl; by eexists _, l', w.
  - left. destruct (release_inv TaskWaiting _ _ _ _ Hlen Hi Hc) as (b & l' & Hr & Hi'); [done|].
    run_simpl. rewrite Hr. cbn [obind]. destruct b; run_simpl; by eexists _, l', w.
  - left. destruct (register_inv thread_token ThreadWaiting _ _ _ _ Hlen Hi Hc)
      as (b & l' & Hr & Hi'); [done..|].
    run_simpl. rewrite Hr. cbn [obind]. destruct b; run_simpl; by eexists _, l', w.
  - unfold lock_sync_round. destruct (run_wait_less_than 0 l w) as [Hpass Hblock].
    destruct Hcases as [[Hh Hw]|[Hh Hw]].
    + left. destruct Hpass as [r Hr]; [lia|].
      destruct (release_inv ThreadWaiting _ _ _ _ Hlen Hi Hc) as (b & l' & Hr' & Hi'); [done|].
      run_simpl. rewrite Hr. cbn [obind]. rewrite Hr'. cbn [obind].
      destruct b; run_simpl; by eexists _, l', w.
    + right. run_simpl. rewrite Hblock by lia. done.
  - left. pose proof (count_lookup is_holding _ _ _ Hc) as Hge. cbn in Hge.
    destruct Hcases as [[Hh Hw]|[Hh Hw]]; [lia|].
    destruct Hi as [Hone _ [Hok [ts Hts]]].
    destruct (run_unlock l w ts) as (w' & Hr & Hok' & Hw'); [lia|done..|].
    run_simpl. rewrite Hr. cbn [obind]. run_simpl. eexists _, _, w'. split; [done|].
    apply (inv_insert _ _ _ _ _ _ Hc); cbn; [lia| |split; [done|by eexists]].
    clear - Hw Hh. lock_arith.
Qed.

Lemma lock_new_inv {T} n addr (x : T) (w : W) ts :
  wake_ok w -> wakes w = Some ts ->
  lock_inv (replicate n Outside) (mx_state (DSMutex_new addr x)) w.
Proof.
  intros Hok Hw. assert (forall f, f Outside = false -> count f (replicate n Outside) = 0) as Hz.
  { intros f Hf. clear - Hf. induction n as [|n IH]; [done|]. cbn. by rewrite count_cons, IH, Hf. }
  split; unfold expected_word; rewrite ?Hz by done; [lia|done|]. split; [done|by eexists].
Qed.

Lemma lock_reachable_inv c c' :
  rtc lock_step c c' -> Z.of_nat (length (fst c)) < 2 ^ 31 - 1 ->
  lock_inv (fst c) (fst (snd c)) (snd (snd c)) ->
  Z.of_nat (length (fst c')) < 2 ^ 31 - 1 /\ lock_inv (fst c') (fst (snd c')) (snd (snd c')).
Proof.
  induction 1 as [c|c1 c2 c3 Hs _ IH]; [done|]. intros Hlen Hi. apply IH.
  - destruct Hs. cbn in *. by rewrite length_insert.
  - destruct Hs as [i ev c p c' cs [l w] [l' w'] Hc Hp Hr]. cbn in *.
    destruct (client_prog_inv _ _ _ _ _ _ _ Hlen Hi Hc Hp) as [(c1 & l1 & w1 & Hr' & Hi')|Hb].
    + rewrite Hr in Hr'. by simplify_eq.
    + destruct Hb as (_ & _ & Hb). by rewrite Hr in Hb.
Qed.

(** C2: the mutex excludes.  With fewer than 2^31 - 1 clients, at every
    reachable state at most one client has a guard, and the lock word is the
    number of waiting clients plus one, negative exactly while the lock is held.
    Whatever a client does next completes without a panic (in particular the
    word does not overflow), except that a thread waits while the lock is held. *)
Theorem mutex_excludes {T} n addr (x : T) (w : W) ts cs l w' :
  wake_ok w -> wakes w = Some ts -> Z.of_nat n < 2 ^ 31 - 1 ->
  rtc lock_step (replicate n Outside, (mx_state (DSMutex_new addr x), w)) (cs, (l, w')) ->
  count is_holding cs <= 1 /\ lock_word l = expected_word cs /\
  forall i ev c p, cs !! i = Some c -> client_prog ev c = Some p ->
    (exists c' s', run p (l, w') = Done c' s') \/
    (c = ThreadWaiting /\ count is_holding cs = 1 /\ run p (l, w') = Blocked).
Proof.
  intros Hok Hw Hn Hr. destruct (lock_reachable_inv _ _ Hr) as [Hlen Hi].
  { cbn. by rewrite length_replicate. }
  { by eapply lock_new_inv. }
  cbn in *. split; [apply Hi|]. split; [apply Hi|]. intros i ev c p Hc Hp.
  destruct (client_prog_inv _ _ _ _ _ _ _ Hlen Hi Hc Hp) as [(c' & l' & w1 & Hr' & _)|Hb];
    [left; by eauto|by right].
Qed.

(** ** Handing over *)

(** A first poll of the future, at a lock word in range. *)
Lemma run_first_poll wk (l : DsLock) (w : W) :
  - 2 ^ 31 < lock_word l < 2 ^ 31 ->
  run (LockFut_poll false wk) (l, w) =
  if lock_word l >? 0 then Done (Ready tt, false) (set_word (- lock_word l) l, w)
  else Done (Pending, true)
    (set_waiters (waiters l ++ [from_waker wk]) (set_word (lock_word l - 1) l), w).
Proof.
  intros Hb. unfold LockFut_poll. rewrite run_bind, run_register by done.
  by case_match; cbn [obind]; rewrite run_ret.
Qed.

Lemma run_next_poll wk (l : DsLock) (w : W) :
  - 2 ^ 31 < lock_word l < 2 ^ 31 ->
  run (LockFut_poll true wk) (l, w) =
  if lock_word l >? 0 then Done (Ready tt, true) (set_word (- (lock_word l - 1)) l, w)
  else Done (Pending, true) (l, w).
Proof.
  intros Hb. unfold LockFut_poll. rewrite run_bind, run_release by done.
  by case_match; cbn [obind]; rewrite run_ret.
Qed.

(** Tasks that ask for the lock one after the other. *)
Fixpoint first_polls (wks : list Waker) : prog LW (list (Poll unit)) :=
  match wks with
  | [] => mret []
  | wk :: wks =>
      r ← LockFut_poll false wk;
      rs ← first_polls wks;
      mret (fst r :: rs)
  end.

(** The holder unlocks and the next of these tasks polls its future again, which
    makes it the holder; and so on. *)
Fixpoint hand_overs (wks : list Waker) : prog LW (list (Poll unit)) :=
  match wks with
  | [] => mret []
  | wk :: wks =>
      unlock;;
      r ← LockFut_poll true wk;
      rs ← hand_overs wks;
      mret (fst r :: rs)
  end.

(** Waiting tasks queue up behind the holder. *)
Lemma run_first_polls wks addr n ws (w : W) :
  1 <= n -> n + Z.of_nat (length wks) < 2 ^ 31 ->
  run (first_polls wks) (mkDsLock (mkArb addr (- n)) ws, w) =
  Done (replicate (length wks) Pending)
    (mkDsLock (mkArb addr (- (n + Z.of_nat (length wks)))) (ws ++ (from_waker <$> wks)), w).
Proof.
  revert n ws. induction wks as [|wk wks IH]; intros n ws Hn Hb; cbn [first_polls].
  - rewrite run_ret. cbn. by rewrite app_nil_r, Z.add_0_r.
  - cbn [length] in Hb. rewrite run_bind, run_first_poll by (unfold lock_word; cbn; lia).
    unfold lock_word. cbn [arb arb_val]. destruct (Z.gtb_spec (- n) 0); [lia|]. cbn [obind].
    unfold set_waiters, set_word. cbn [arb arb_addr waiters].
    replace (- n - 1) with (- (n + 1)) by lia. rewrite run_bind, IH by lia. cbn [obind].
    rewrite run_ret, <- app_assoc. cbn [fst fmap list_fmap length app].
    by replace (n + Z.of_nat (S (length wks))) with (n + 1 + Z.of_nat (length wks)) by lia.
Qed.

(** One hand-over: the head of the list is woken and gets the guard. *)
Lemma run_hand_over wk t tl n addr (w : W) ts :
  wake_ok w -> wakes w = Some ts -> t <> thread_token -> 1 <= n < 2 ^ 31 - 1 ->
  exists w', run (unlock;; LockFut_poll true wk) (mkDsLock (mkArb addr (- (1 + n))) (t :: tl), w) =
      Done (Ready tt, true) (mkDsLock (mkArb addr (- n)) tl, w') /\
    wakes w' = Some (ts ++ [t]) /\ wake_ok w'.
Proof.
  intros Hok Hw Ht Hn.
  destruct (run_unlock (mkDsLock (mkArb addr (- (1 + n))) (t :: tl)) w ts)
    as (w' & Hr & Hok' & Hw'); [unfold lock_word; cbn; lia|done..|].
  cbn [waiters] in Hw'. rewrite bool_decide_false in Hw' by done. exists w'. split_and!; [|done..].
  rewrite run_bind, Hr. cbn [obind]. rewrite run_next_poll by (unfold lock_word; cbn; lia).
  unfold lock_word, set_waiters, set_word. cbn [arb arb_val arb_addr tail waiters].
  destruct (Z.gtb_spec (- - (1 + n)) 0); [|lia]. do 4 f_equal. lia.
Qed.

Lemma run_hand_overs wks addr n ws (w : W) ts :
  wake_ok w -> wakes w = Some ts -> Forall (fun wk => from_waker wk <> thread_token) wks ->
  1 <= n -> n + Z.of_nat (length wks) < 2 ^ 31 ->
  exists w', run (hand_overs wks)
      (mkDsLock (mkArb addr (- (n + Z.of_nat (length wks)))) ((from_waker <$> wks) ++ ws), w) =
      Done (replicate (length wks) (Ready tt)) (mkDsLock (mkArb addr (- n)) ws, w') /\
    wakes w' = Some (ts ++ (from_waker <$> wks)) /\ wake_ok w'.
Proof.
  intros Hok Hw Hall Hn. revert w ts Hok Hw.
  induction Hall as [|wk wks Hwk _ IH]; intros w ts Hok Hw Hb; cbn [hand_overs].
  - exists w. rewrite run_ret. cbn. by rewrite app_nil_r, Z.add_0_r.
  - cbn [length] in Hb |- *. cbn [fmap list_fmap app].
    replace (n + Z.of_nat (S (length wks))) with (1 + (n + Z.of_nat (length wks))) by lia.
    destruct (run_hand_over wk (from_waker wk) ((from_waker <$> wks) ++ ws)
      (n + Z.of_nat (length wks)) addr w ts Hok Hw Hwk) as (w1 & E1 & Hw1 & Hok1); [lia|].
    destruct (IH w1 _ Hok1 Hw1) as (w2 & E2 & Hw2 & Hok2); [lia|].
    exists w2. rewrite run_bind. rewrite run_bind in E1. destruct (run unlock _) as [[] s1| | |]; [|done..].
    cbn [obind] in E1 |- *. rewrite run_bind, E1. cbn [obind]. rewrite run_bind, E2. cbn [obind].
    rewrite run_ret. rewrite <- app_assoc in Hw2. done.
Qed.

(** C15: the lock is handed over in the order of arrival.  While one task holds
    the mutex, any number of tasks ask for it and wait.  Then every [unlock] wakes
    exactly the task that has waited longest, and if that task polls before the
    lock is touched again, it gets the guard; the tasks not yet served keep their
    places, and the word counts them. *)
Theorem unlock_hands_over_in_order {T} addr (x : T) (w : W) ts wkA served rest :
  wake_ok w -> wakes w = Some ts ->
  Forall (fun wk => from_waker wk <> thread_token) served ->
  Z.of_nat (length (served ++ rest)) < 2 ^ 31 - 1 ->
  exists w',
    run (a ← LockFut_poll false wkA;
         ps ← first_polls (served ++ rest);
         gs ← hand_overs served;
         mret (fst a, ps, gs)) (mx_state (DSMutex_new addr x), w) =
      Done (Ready tt, replicate (length (served ++ rest)) Pending, replicate (length served) (Ready tt))
        (mkDsLock (mkArb addr (- (1 + Z.of_nat (length rest)))) (from_waker <$> rest), w') /\
    wakes w' = Some (ts ++ (from_waker <$> served)).
Proof.
  intros Hok Hw Hall Hb.
  destruct (run_hand_overs served addr (1 + Z.of_nat (length rest)) (from_waker <$> rest) w ts)
    as (w' & E & Hw' & _); [done..|lia|rewrite length_app in Hb; lia|].
  exists w'. split; [|done].
  rewrite run_bind, run_first_poll by done. cbn [obind].
  change (lock_word _ >? 0) with true. cbn iota. cbn [obind].
  change (set_word _ _) with (mkDsLock (mkArb addr (- (1))) []).
  rewrite run_bind, run_first_polls by lia. cbn [obind app]. rewrite fmap_app, length_app.
  rewrite run_bind.
  replace (1 + Z.of_nat (length served + length rest))
    with (1 + Z.of_nat (length rest) + Z.of_nat (length served)) by lia.
  rewrite E. cbn [obind]. by rewrite run_ret.
Qed.

(** ** Barging *)

(** Evaluates a condition on known lock words. *)
Ltac eval_if :=
  match goal with
  | |- context [if ?b then _ else _] =>
      let v := eval cbv in b in change b with v
  end; cbn [obind snd].

(** A holds the lock and B registers; A unlocks and locks again before B's task
    has run; B polls, and A unlocks. *)
Definition barging (wkA wkB : Waker) : prog LW (list (Poll unit)) :=
  a1 ← LockFut_poll false wkA;
  b1 ← LockFut_poll false wkB;
  unlock;;
  a2 ← LockFut_poll false wkA;
  b2 ← LockFut_poll (snd b1) wkB;
  unlock;;
  mret [fst a1; fst b1; fst a2; fst b2].

(** A goes on locking and unlocking. *)
Fixpoint lock_cycles (k : nat) (wk : Waker) : prog LW unit :=
  match k with
  | O => mret tt
  | S k => LockFut_poll false wk;; unlock;; lock_cycles k wk
  end.

Lemma run_unlock_nobody (l : DsLock) (w : W) :
  - 2 ^ 31 < lock_word l < 0 -> waiters l = [] ->
  run unlock (l, w) = Done tt (set_word (- lock_word l) l, w).
Proof.
  intros Hb Hws. unfold unlock, load_word, store_word, pop_waiter. run_simpl.
  destruct (Z.ltb_spec (lock_word l) 0); [|lia]. run_simpl.
  rewrite as_i32_id, Z.eqb_refl by (unfold is_i32; lia). run_simpl.
  cbn [set_word waiters]. rewrite Hws. by run_simpl.
Qed.

Lemma run_lock_cycles k wk addr n (w : W) :
  0 < n < 2 ^ 31 ->
  run (lock_cycles k wk) (mkDsLock (mkArb addr n) [], w) =
  Done tt (mkDsLock (mkArb addr n) [], w).
Proof.
  intros Hn. induction k as [|k IH]; cbn [lock_cycles]; [done|].
  rewrite run_bind, run_first_poll by (unfold lock_word; cbn; lia).
  destruct (Z.gtb_spec (lock_word (mkDsLock (mkArb addr n) [])) 0) as [|Hz];
    [|unfold lock_word in Hz; cbn in Hz; lia].
  cbn [obind]. rewrite run_bind, run_unlock_nobody by (done || unfold lock_word; cbn; lia).
  cbn [obind]. unfold set_word, lock_word. cbn. by rewrite Z.opp_involutive.
Qed.

(** C32: a task that barges in costs the woken waiter its turn for good.  After
    [barging] the lock is free and B still waits, but B's token has left
    [waiters], and B has spent its only wake-up on a poll that was [Pending]: no
    number of later lock and unlock cycles wakes it again. *)
Theorem barging_strands_the_waiter {T} addr (x : T) (w : W) ts wkA wkB :
  wake_ok w -> wakes w = Some ts -> from_waker wkB <> thread_token ->
  exists l w',
    run (barging wkA wkB) (mx_state (DSMutex_new addr x), w) =
      Done [Ready tt; Pending; Ready tt; Pending] (l, w') /\
    lock_word l = 2 /\ waiters l = [] /\ wakes w' = Some (ts ++ [from_waker wkB]) /\
    forall k, run (lock_cycles k wkA) (l, w') = Done tt (l, w').
Proof.
  intros Hok Hw Ht.
  destruct (run_unlock (mkDsLock (mkArb addr (-2)) [from_waker wkB]) w ts)
    as (w' & Hr & Hok' & Hw'); [done..|].
  cbn [waiters] in Hw'. rewrite bool_decide_false in Hw' by done.
  exists (mkDsLock (mkArb addr 2) []), w'. split_and!; [|done..|by intros k; apply run_lock_cycles].
  unfold barging, DSMutex_new. cbn [mx_state].
  rewrite run_bind, run_first_poll by done. eval_if.
  rewrite run_bind, run_first_poll by done. eval_if.
  rewrite run_bind. change (run unlock _) with
    (run unlock (mkDsLock (mkArb addr (-2)) [from_waker wkB], w)).
  rewrite Hr. cbn [obind].
  rewrite run_bind, run_first_poll by done. eval_if.
  rewrite run_bind, run_next_poll by done. eval_if.
  rewrite run_bind, run_unlock_nobody by done. done.
Qed.

(** C33: the lock word is read and written in two steps, so two callers that
    overlap in [try_lock_and_register] on a free lock can both be told they have
    it. *)
Theorem overlapping_callers_both_acquire {T} addr (x : T) (w : W) t1 t2 :
  exists s : LW,
    rtc duo_step
      (try_lock_and_register t1, try_lock_and_register t2, (mx_state (DSMutex_new addr x), w))
      (Ret true, Ret true, s).
Proof.
  eexists. apply (run_duo_rtc [true; false; true; false]). reflexivity.
Qed.

(** ** The data *)

(** What one holder writes through its guard, the next holder reads. *)
Lemma run_on_lock {T A} (p : prog LW A) (m : DSMutex T) (w : W) :
  run (on_lock p) (m, w) =
  obind (run p (mx_state m, w)) (fun s => (mkDSMutex (fst s) (mx_data m), snd s))
    (fun a s => Done a (mkDSMutex (fst s) (mx_data m), snd s)).
Proof.
  unfold on_lock. rewrite run_zoom; [|by intros [] []|by intros [] [] []|by destruct m].
  by destruct (run p _) as [? []|[]| |].
Qed.

Lemma guarded_write_is_read {T} (f : T -> T) (m : DSMutex T) (w : W) ts :
  wake_ok w -> wakes w = Some ts -> 0 < lock_word (mx_state m) < 2 ^ 31 ->
  exists s', run (on_lock (lock_sync 0);; guard_deref_mut f;; guard_drop;;
                  on_lock (lock_sync 0);; guard_deref) (m, w) = Done (f (mx_data m)) s'.
Proof.
  intros Hok Hw Hl. unfold lock_sync, guard_deref_mut, guard_drop, guard_deref.
  rewrite run_bind, run_on_lock, run_bind, run_register by lia.
  destruct (Z.gtb_spec (lock_word (mx_state m)) 0); [|lia].
  cbn [obind]. rewrite run_ret. cbn [obind fst snd]. rewrite run_bind, run_modify.
  cbn [obind mx_state mx_data]. rewrite run_bind, run_on_lock. cbn [mx_state mx_data].
  destruct (run_unlock (set_word (- lock_word (mx_state m)) (mx_state m)) w ts)
    as (w' & -> & _ & _); [unfold lock_word in *; cbn; lia|done..|].
  cbn [obind fst snd]. rewrite run_bind, run_on_lock, run_bind. cbn [mx_state mx_data].
  rewrite run_register by (unfold lock_word in *; cbn; lia).
  destruct (Z.gtb_spec (lock_word (set_waiters (tail (waiters (set_word (- lock_word (mx_state m))
    (mx_state m)))) (set_word (- lock_word (set_word (- lock_word (mx_state m)) (mx_state m)))
    (set_word (- lock_word (mx_state m)) (mx_state m))))) 0) as [|Hz];
    [|unfold lock_word in *; cbn in Hz; lia].
  cbn [obind]. rewrite run_ret. cbn [obind fst snd]. rewrite run_gets. by eexists.
Qed.

End lock_props.

(** ** Concrete runs *)

Module LockDemo.

Definition w : Demo.world Demo.Idle := Demo.ws [] [] 0 0.

#[export] Instance arbiter : Arbiter (Demo.world Demo.Idle) := {|
  ADDRESS_ARBITER _ := 5;
  set_ADDRESS_ARBITER _ w := w;
  svcCreateAddressArbiter w := Done (0, 5) w;
  svcArbitrateAddressNoTimeout _ _ op v cur w :=
    match op with
    | ARBITRATION_SIGNAL => Done 0 w
    | ARBITRATION_WAIT_IF_LESS_THAN => if cur <? v then Blocked else Done 0 w
    end;
|}.

#[export] Instance arbiter_laws : ArbiterLaws (Demo.world Demo.Idle).
Proof.
  split; cbn; intros.
  - by destruct (Z.ltb_spec cur v); [lia|].
  - by destruct (Z.ltb_spec cur v); [|lia].
  - by eexists 0, w0.
Qed.

#[local] Instance checked : Profile := true.

(** A task locks, a thread registers, and its next round has to wait. *)
Lemma mutex_witness : run lock_sync_round (mkDsLock (mkArb 64 (-2)) [thread_token], w) = Blocked.
Proof.
  destruct (mutex_excludes (T:=Z) 2 64 0 w [] [Holding; ThreadWaiting]
    (mkDsLock (mkArb 64 (-2)) [thread_token]) w Demo.quiet_world_ok eq_refl ltac:(lia)) as (_ & _ & Hnext).
  - eapply rtc_l; [by eapply (lock_do 0 (EvPoll (mkWaker 3)) Outside _ Holding)|].
    eapply rtc_l; [by eapply (lock_do 1 EvSync Outside _ ThreadWaiting)|]. reflexivity.
  - specialize (Hnext 1%nat EvSync ThreadWaiting _ eq_refl eq_refl).
    destruct Hnext as [(c' & s' & Hr)|(_ & _ & Hb)]; [discriminate Hr|reflexivity].
Defined.

(** Tasks 7, 8 and 9 wait in this order; two of them are served. *)
Lemma hand_over_witness :
  exists w',
    run (a ← LockFut_poll false (mkWaker 6);
         ps ← first_polls ([mkWaker 7; mkWaker 8] ++ [mkWaker 9]);
         gs ← hand_overs [mkWaker 7; mkWaker 8];
         mret (fst a, ps, gs)) (mx_state (DSMutex_new 64 tt), w) =
      Done (Ready tt, [Pending; Pending; Pending], [Ready tt; Ready tt])
        (mkDsLock (mkArb 64 (-2)) [mkToken 9], w') /\
    wakes w' = Some [mkToken 7; mkToken 8].
Proof.
  refine (unlock_hands_over_in_order 64 tt w [] (mkWaker 6) [mkWaker 7; mkWaker 8] [mkWaker 9]
    Demo.quiet_world_ok eq_refl _ _); [|cbn; lia].
  repeat constructor; discriminate.
Defined.

Lemma barging_witness :
  exists l w',
    run (barging (mkWaker 1) (mkWaker 2)) (mx_state (DSMutex_new 64 tt), w) =
      Done [Ready tt; Pending; Ready tt; Pending] (l, w') /\
    lock_word l = 2 /\ waiters l = [] /\ wakes w' = Some ([] ++ [from_waker (mkWaker 2)]) /\
    forall k, run (lock_cycles k (mkWaker 1)) (l, w') = Done tt (l, w').
Proof.
  apply (barging_strands_the_waiter 64 tt w [] (mkWaker 1) (mkWaker 2) Demo.quiet_world_ok eq_refl).
  intros Hd. discriminate Hd.
Defined.

End LockDemo.
