(* ===== verification/Notify.v ===== *)
(** * Notifications (src/sync.rs)

    The life of a notification, from the waiter's side and from the sender's. *)

From Stdlib Require Import ZArith Lia.
From stdpp Require Import base tactics list gmap numbers.
From S2P Require Import Prelude Err Kernel CtruUtils Executor ExecutorSys Join Sync.

Section notify_props.
Context {W : Type} `{WakeSinkLaws W}.

Abbreviation NW := (Z * W)%type.

(** Tokens that are not one of the two reserved states. *)
Definition plain_token (t : TaskToken) : Prop :=
  token t <> NOTIFICATION_READY /\ token t <> NOTIFICATION_UNINIT.

(** The waiter polled again and again. *)
Fixpoint poll_again (k : nat) (wk : Waker) : prog NW (list (Poll unit)) :=
  match k with
  | O => mret []
  | S k => r ← NotificationWaiter_poll wk; rs ← poll_again k wk; mret (r :: rs)
  end.

Lemma run_poll_uninit wk (w : W) :
  run (NotificationWaiter_poll wk) (NOTIFICATION_UNINIT, w) =
  Done Pending (token (from_waker wk), w).
Proof. reflexivity. Qed.

Lemma run_poll_ready wk (w : W) :
  run (NotificationWaiter_poll wk) (NOTIFICATION_READY, w) = Done (Ready tt) (NOTIFICATION_READY, w).
Proof. reflexivity. Qed.

(** Once a token is registered, polling changes nothing. *)
Lemma run_poll_registered k wk t (w : W) :
  plain_token t ->
  run (poll_again k wk) (token t, w) = Done (replicate k Pending) (token t, w).
Proof.
  intros [Hr Hu]. induction k as [|k IH]; cbn [poll_again replicate]; [done|].
  unfold NotificationWaiter_poll. run_simpl.
  destruct (Z.eqb_spec (token t) NOTIFICATION_READY); [done|].
  destruct (Z.eqb_spec (token t) NOTIFICATION_UNINIT); [done|].
  run_simpl. rewrite IH. by run_simpl.
Qed.

Lemma run_notify_registered t (w : W) ts :
  plain_token t -> wake_ok w -> wakes w = Some ts ->
  exists w', run notify (token t, w) = Done tt (NOTIFICATION_READY, w') /\
    wakes w' = Some (ts ++ [t]) /\ wake_ok w'.
Proof.
  intros [Hr Hu] Hok Hw. destruct (wake_add_ok t w ts Hok Hw) as (w' & E & ? & ?). exists w'.
  split; [|done]. unfold notify. run_simpl.
  destruct (Z.eqb_spec (token t) NOTIFICATION_READY); [done|].
  destruct (Z.eqb_spec (token t) NOTIFICATION_UNINIT); [done|]. cbn [orb].
  run_simpl. destruct t as [t]. cbn [token]. by rewrite E.
Qed.

(** C26: a waiter that has been polled is notified.  Until [notify] every poll
    is [Pending]; [notify] wakes the task that polled first, and only that one;
    afterwards the poll is [Ready]. *)
Theorem notify_wakes_the_waiter k wk wk' (w : W) ts :
  plain_token (from_waker wk) -> wake_ok w -> wakes w = Some ts ->
  exists w',
    run (r ← NotificationWaiter_poll wk; rs ← poll_again k wk'; notify;;
         r' ← NotificationWaiter_poll wk'; mret (r, rs, r')) (notification, w) =
      Done (Pending, replicate k Pending, Ready tt) (NOTIFICATION_READY, w') /\
    wakes w' = Some (ts ++ [from_waker wk]).
Proof.
  intros Ht Hok Hw.
  destruct (run_notify_registered _ w ts Ht Hok Hw) as (w' & Hn & Hw' & _). exists w'.
  split; [|done]. unfold notification.
  rewrite run_bind, run_poll_uninit. cbn [obind].
  rewrite run_bind, run_poll_registered by done. cbn [obind].
  rewrite run_bind, Hn. cbn [obind]. rewrite run_bind, run_poll_ready. reflexivity.
Qed.

(** C34: a notification sent before the waiter is first polled is lost: [notify]
    consumes the sender and leaves no trace, so every poll that follows is
    [Pending] and nobody is woken. *)
Theorem early_notify_is_lost k wk (w : W) :
  plain_token (from_waker wk) ->
  run (notify;; poll_again (S k) wk) (notification, w) =
  Done (replicate (S k) Pending) (token (from_waker wk), w).
Proof.
  intros Ht. cbn [poll_again]. unfold notification.
  rewrite run_bind. change (run notify _) with (@Done NW unit tt (NOTIFICATION_UNINIT, w)).
  cbn [obind]. rewrite run_bind, run_poll_uninit. cbn [obind].
  rewrite run_bind, run_poll_registered by done. reflexivity.
Qed.

End notify_props.

Module NotifyDemo.

Definition w : Demo.world Demo.Idle := Demo.ws [] [] 0 0.

Lemma notify_witness :
  exists w', run (r ← NotificationWaiter_poll (mkWaker 3); rs ← poll_again 2 (mkWaker 3); notify;;
         r' ← NotificationWaiter_poll (mkWaker 3); mret (r, rs, r')) (notification, w) =
      Done (Pending, [Pending; Pending], Ready tt) (NOTIFICATION_READY, w') /\
    wakes w' = Some [mkToken 3].
Proof.
  apply (notify_wakes_the_waiter 2 (mkWaker 3) (mkWaker 3) w []); [by split|exact Demo.quiet_world_ok|done].
Defined.

Lemma early_notify_witness :
  run (notify;; poll_again 3 (mkWaker 3)) (notification, w) =
  Done [Pending; Pending; Pending] (3, w).
Proof. apply (early_notify_is_lost 2 (mkWaker 3) w). by split. Defined.

End NotifyDemo.
