(* ===== verification/Reactor.v ===== *)
(** * The reactor (src/reactor.rs)

    The handler of the reactor thread, which maps OS handles to the tasks that
    wait for them, and the [Sleep] future.  The IPC server and its sessions
    belong to [ds_ipc], timers and the clock to the system: they are parameters. *)

From Stdlib Require Import ZArith Lia.
From stdpp Require Import base tactics list gmap numbers.
From S2P Require Import Prelude Err Kernel CtruUtils Executor ExecutorSys.

Record ReactorHandler := mkReactorHandler {
  wait_tokens : gmap Z (list TaskToken);
}.

Inductive ReactorCmd : Type :=
| AddHandle (task : TaskToken) (handle : Z)
| PopHandle.

Inductive ReactorReply : Type := ReactorOk.

Definition add_handle_for_waker (waker : Waker) (handle : Z) : ReactorCmd :=
  AddHandle (mkToken (as_u32 (data waker))) handle.

(** The part of [ds_ipc]'s server the reactor calls: [IPCServer::new],
    [client] and [add_handle_to_list]. *)
Class IpcServer (Srv W : Type) := {
  IPCServer_new : W -> outcome W (Result Srv CtruError);
  ipc_client : Srv -> Z;
  add_handle_to_list : Z -> Srv -> Srv;
}.

(** What the server's loop hands to the handler: a request of a client, or a
    handle of its list that was signalled. *)
Inductive ReactorEvent : Type :=
| Request (cmd : ReactorCmd)
| Signalled (handle : Z).

Section reactor.
Context {Srv W : Type} `{IpcServer Srv W} `{WakeSink W}.

(** [Reactor::new], and [Reactor::run] up to the server's loop; [port] is the
    static [REACTOR_PORT], which is set once. *)
Definition Reactor_new : prog (option Z * W) Srv :=
  r ← on_snd (act IPCServer_new);
  unwrap (match r with Ok s => Some s | Err _ => None end).

Definition Reactor_run (server : Srv) : prog (option Z * W) (ReactorHandler * Srv) :=
  modify (fun '(port, w) =>
    (match port with Some p => Some p | None => Some (ipc_client server) end, w));;
  mret (mkReactorHandler ∅, server).

(** The loops of the reactor run on its server and the shared world. *)
Abbreviation SW := (Srv * W)%type.

Definition handle_request (h : ReactorHandler) (request : ReactorCmd) :
    prog SW (ReactorHandler * ReactorReply) :=
  match request with
  | AddHandle task handle =>
      let ts := default [] (wait_tokens h !! handle) in
      modify (fun '(server, w) => (add_handle_to_list handle server, w));;
      mret (mkReactorHandler (<[handle := ts ++ [task]]> (wait_tokens h)), ReactorOk)
  | PopHandle => panic
  end.

Fixpoint wake_all (ts : list TaskToken) : prog SW unit :=
  match ts with
  | [] => mret tt
  | t :: ts => on_snd (act (wake_add t));; wake_all ts
  end.

Definition handle_additional_oshandle (h : ReactorHandler) (handle : Z) :
    prog SW ReactorHandler :=
  ts ← unwrap (wait_tokens h !! handle);
  wake_all ts;;
  mret (mkReactorHandler (delete handle (wait_tokens h))).

Definition reactor_event (h : ReactorHandler) (ev : ReactorEvent) : prog SW ReactorHandler :=
  match ev with
  | Request cmd => r ← handle_request h cmd; mret (fst r)
  | Signalled handle => handle_additional_oshandle h handle
  end.

Fixpoint reactor_events (h : ReactorHandler) (evs : list ReactorEvent) :
    prog SW ReactorHandler :=
  match evs with
  | [] => mret h
  | ev :: evs => h' ← reactor_event h ev; reactor_events h' evs
  end.

End reactor.

(** ** Sleeping *)

(** Instants and durations in nanoseconds; an instant holds at most 2^63
    seconds. *)
Definition Instant_add (a d : Z) : option Z :=
  if a + d <? 2 ^ 63 * 10 ^ 9 then Some (a + d) else None.

Record Sleep := mkSleep {
  deadline : Z;
  timer : option Z;
}.

(** The clock, the timers of the kernel, and requests to the reactor through a
    session of its port. *)
Class SleepEnv (W : Type) := {
  Instant_now : W -> outcome W Z;
  svcCreateTimer : W -> outcome W (Z * Z);
  svcSetTimer : Z -> Z -> Z -> W -> outcome W Z;
  make_session : Z -> W -> outcome W (Result Z CtruError);
  session_request : Z -> ReactorCmd -> W -> outcome W (Result ReactorReply CtruError);
}.

Section sleep.
Context {W : Type} `{SleepEnv W}.

Abbreviation PW := (option Z * W)%type.

Definition sleep (time : Z) : prog PW Sleep :=
  now ← on_snd (act Instant_now);
  d ← unwrap (Instant_add now time);
  mret (mkSleep d None).

Definition unwrap_result {S A Er} (r : Result A Er) : prog S A :=
  unwrap (match r with Ok a => Some a | Err _ => None end).

Definition Sleep_poll (s : Sleep) (waker : Waker) : prog PW (Poll unit * Sleep) :=
  cur ← on_snd (act Instant_now);
  if cur >=? deadline s then mret (Ready tt, s)
  else match timer s with
  | None =>
      created ← on_snd (act svcCreateTimer);
      let timer := snd created in
      on_snd (act (svcSetTimer timer (as_i64 (deadline s - cur)) 0));;
      port ← gets fst;
      port ← unwrap port;
      session ← on_snd (act (make_session port));
      session ← unwrap_result session;
      reply ← on_snd (act (session_request session (add_handle_for_waker waker timer)));
      unwrap_result reply;;
      mret (Pending, mkSleep (deadline s) (Some timer))
  | Some _ => mret (Pending, s)
  end.

End sleep.

(** ** The handler wakes what was registered *)

(** The reference: the tasks registered for a handle since its last report, and
    the tasks a trace of events wakes.  [None] when a trace asks for something
    the handler cannot do: [PopHandle], or a report of a handle nobody waits for. *)
Definition pending_of := Z -> list TaskToken.

Definition spec_event (m : pending_of) (ev : ReactorEvent) :
    option (pending_of * list TaskToken) :=
  match ev with
  | Request (AddHandle t h) =>
      Some (fun h' => if h' =? h then m h ++ [t] else m h', [])
  | Request PopHandle => None
  | Signalled h =>
      match m h with
      | [] => None
      | ts => Some (fun h' => if h' =? h then [] else m h', ts)
      end
  end.

Fixpoint spec_events (m : pending_of) (evs : list ReactorEvent) :
    option (pending_of * list TaskToken) :=
  match evs with
  | [] => Some (m, [])
  | ev :: evs =>
      '(m1, ts1) ← spec_event m ev;
      '(m2, ts2) ← spec_events m1 evs;
      Some (m2, ts1 ++ ts2)
  end.

Section reactor_props.
Context {Srv W : Type} `{IpcServer Srv W} `{WakeSinkLaws W}.

Abbreviation SW := (Srv * W)%type.

(** The handler's map against the reference: no entry for a handle nobody waits
    for, the waiting tasks in order otherwise. *)
Definition represents (h : ReactorHandler) (m : pending_of) : Prop :=
  forall k, wait_tokens h !! k = match m k with [] => None | ts => Some ts end.

Lemma run_wake_all ts (s : Srv) (w : W) l :
  wake_ok w -> wakes w = Some l ->
  exists w', run (wake_all ts) (s, w) = Done tt (s, w') /\
    wakes w' = Some (l ++ ts) /\ wake_ok w'.
Proof.
  revert w l. induction ts as [|t ts IH]; intros w l Hok Hw; cbn [wake_all].
  - exists w. rewrite app_nil_r. done.
  - destruct (wake_add_ok t w l Hok Hw) as (w1 & E1 & Hw1 & Hok1).
    destruct (IH w1 _ Hok1 Hw1) as (w' & Hr & Hw' & Hok').
    exists w'. run_simpl. rewrite E1. cbn [obind]. rewrite Hr. by rewrite <- app_assoc in Hw'.
Qed.

Lemma add_represents h m k t :
  represents h m ->
  represents (mkReactorHandler (<[k := default [] (wait_tokens h !! k) ++ [t]]> (wait_tokens h)))
    (fun k' => if k' =? k then m k ++ [t] else m k').
Proof.
  intros Hm k'. cbn. destruct (Z.eqb_spec k' k) as [->|Hne].
  - rewrite lookup_insert_eq, (Hm k). by destruct (m k).
  - by rewrite lookup_insert_ne.
Qed.

Lemma delete_represents h m k :
  represents h m ->
  represents (mkReactorHandler (delete k (wait_tokens h))) (fun k' => if k' =? k then [] else m k').
Proof.
  intros Hm k'. cbn. destruct (Z.eqb_spec k' k) as [->|Hne].
  - by rewrite lookup_delete_eq.
  - by rewrite lookup_delete_ne.
Qed.

(** One event: done as the reference says, or a panic where it has no answer. *)
Lemma reactor_event_refines h m ev (s : Srv) (w : W) l :
  represents h m -> wake_ok w -> wakes w = Some l ->
  match spec_event m ev with
  | Some (m', ts) => exists h' s' w', run (reactor_event h ev) (s, w) = Done h' (s', w') /\
      represents h' m' /\ wakes w' = Some (l ++ ts) /\ wake_ok w'
  | None => run (reactor_event h ev) (s, w) = Panicked (s, w)
  end.
Proof.
  intros Hm Hok Hw. destruct ev as [[t k|]|k]; cbn [spec_event reactor_event handle_request].
  - run_simpl. eexists _, _, w. split; [done|]. rewrite app_nil_r.
    split; [by apply add_represents|done].
  - by run_simpl.
  - unfold handle_additional_oshandle. rewrite run_bind, run_unwrap, (Hm k).
    destruct (m k) as [|t ts] eqn:Ek; [done|]. cbn [obind]. rewrite run_bind.
    destruct (run_wake_all (t :: ts) s w l Hok Hw) as (w' & -> & Hw' & Hok').
    cbn [obind]. rewrite run_ret. eexists _, s, w'. split; [done|].
    split; [by apply delete_represents|done].
Qed.

(** C6: the reactor implements the reference on every trace of requests and
    reports: where the reference has an answer the handler does not panic, the
    tasks it has woken are exactly the reference's (each registered task once,
    in order of registration, at the first report of its handle after it
    registered), and its map holds exactly the tasks that still wait; where it
    has none ([PopHandle], or a report of a handle nobody waits for) it panics. *)
Theorem reactor_wakes_the_registered evs (s : Srv) (w : W) l :
  wake_ok w -> wakes w = Some l ->
  match spec_events (fun _ => []) evs with
  | Some (m', ts) => exists h' s' w',
      run (reactor_events (mkReactorHandler ∅) evs) (s, w) = Done h' (s', w') /\
      represents h' m' /\ wakes w' = Some (l ++ ts)
  | None => exists st, run (reactor_events (mkReactorHandler ∅) evs) (s, w) = Panicked st
  end.
Proof.
  assert (represents (mkReactorHandler ∅) (fun _ => [])) as Hm by (intros k; apply lookup_empty).
  revert Hm. generalize (mkReactorHandler ∅) as h, (fun _ : Z => @nil TaskToken) as m.
  revert s w l. induction evs as [|ev evs IH]; intros s w l h m Hm Hok Hw; cbn.
  - eexists h, s, w. by rewrite app_nil_r.
  - pose proof (reactor_event_refines h m ev s w l Hm Hok Hw) as He.
    destruct (spec_event m ev) as [[m1 ts1]|]; cbn.
    + destruct He as (h1 & s1 & w1 & Hr & Hm1 & Hw1 & Hok1).
      rewrite run_bind, Hr. cbn [obind]. specialize (IH s1 w1 _ h1 m1 Hm1 Hok1 Hw1).
      destruct (spec_events m1 evs) as [[m2 ts2]|]; cbn; [|done].
      by rewrite app_assoc.
    + rewrite run_bind, He. by eexists.
Qed.

End reactor_props.

(** ** A sleeping task arms one timer *)

(** What the system promises a sleeper: a clock, timers that are armed by
    [svcSetTimer], and a reactor that can be reached through its port.  [armed]
    are the timers armed so far, [sent] the requests the reactor got, [advance]
    is the passing of time. *)
Class SleepEnvLaws (W : Type) `{SleepEnv W} := {
  clock : W -> Z;
  armed : W -> gmap Z Z;
  sent : W -> list ReactorCmd;
  advance : Z -> W -> W;
  reachable_port : Z -> W -> Prop;
  can_create : W -> Prop;
  now_law : forall w, Instant_now w = Done (clock w) w;
  advance_law : forall c w, clock (advance c w) = c /\ armed (advance c w) = armed w /\
    sent (advance c w) = sent w /\ (can_create w -> can_create (advance c w)) /\
    (forall p, reachable_port p w -> reachable_port p (advance c w));
  create_law : forall w, can_create w -> exists h w', svcCreateTimer w = Done (0, h) w' /\
    armed w !! h = None /\ armed w' = armed w /\ sent w' = sent w /\
    (forall p, reachable_port p w -> reachable_port p w');
  set_law : forall h n w, exists w', svcSetTimer h n 0 w = Done 0 w' /\
    armed w' = <[h := n]> (armed w) /\ sent w' = sent w /\
    (forall p, reachable_port p w -> reachable_port p w');
  request_law : forall p cmd w, reachable_port p w -> exists s w1 w2,
    make_session p w = Done (Ok s) w1 /\ session_request s cmd w1 = Done (Ok ReactorOk) w2 /\
    armed w2 = armed w /\ sent w2 = sent w ++ [cmd];
}.

Section sleep_props.
Context {W : Type} `{SleepEnvLaws W}.

Abbreviation PW := (option Z * W)%type.

(** The future polled at the given instants. *)
Fixpoint sleep_polls (cs : list Z) (s : Sleep) (wk : Waker) : prog PW (list (Poll unit) * Sleep) :=
  match cs with
  | [] => mret ([], s)
  | c :: cs =>
      modify (fun '(p, w) => (p, advance c w));;
      r ← Sleep_poll s wk;
      rs ← sleep_polls cs (snd r) wk;
      mret (fst r :: fst rs, snd rs)
  end.

Definition answer_at (d c : Z) : Poll unit := if c >=? d then Ready tt else Pending.

Lemma as_i64_small z : 0 <= z < 2 ^ 63 -> as_i64 z = z.
Proof. intros. unfold as_i64. rewrite Z.mod_small; lia. Qed.

Lemma run_Sleep_poll_armed d h wk p (w : W) :
  run (Sleep_poll (mkSleep d (Some h)) wk) (p, w) =
  Done (answer_at d (clock w), mkSleep d (Some h)) (p, w).
Proof.
  unfold Sleep_poll, answer_at. cbn [deadline timer]. run_simpl. rewrite now_law. cbn [obind].
  by case_match; run_simpl.
Qed.

Lemma run_Sleep_poll_late d wk p (w : W) :
  d <= clock w ->
  run (Sleep_poll (mkSleep d None) wk) (p, w) = Done (Ready tt, mkSleep d None) (p, w).
Proof.
  intros Hd. unfold Sleep_poll. cbn [deadline timer]. run_simpl. rewrite now_law. cbn [obind].
  destruct (Z.geb_spec (clock w) d); [|lia]. by run_simpl.
Qed.

(** The first poll before the deadline. *)
Lemma run_Sleep_poll_first d wk p (w : W) :
  clock w < d -> d - clock w < 2 ^ 63 -> can_create w -> reachable_port p w ->
  exists h w', run (Sleep_poll (mkSleep d None) wk) (Some p, w) =
      Done (Pending, mkSleep d (Some h)) (Some p, w') /\
    armed w !! h = None /\ armed w' = <[h := d - clock w]> (armed w) /\
    sent w' = sent w ++ [AddHandle (from_waker wk) h].
Proof.
  intros Hd Hi Hc Hp.
  destruct (create_law w Hc) as (h & w1 & E1 & Hfresh & Ha1 & Hs1 & Hp1).
  destruct (set_law h (d - clock w) w1) as (w2 & E2 & Ha2 & Hs2 & Hp2).
  destruct (request_law p (add_handle_for_waker wk h) w2) as (s & w3 & w4 & E3 & E4 & Ha4 & Hs4);
    [by auto|].
  exists h, w4. split_and!; [|done|congruence|].
  - unfold Sleep_poll. cbn [deadline timer]. run_simpl. rewrite now_law. cbn [obind].
    destruct (Z.geb_spec (clock w) d); [lia|]. run_simpl. rewrite E1. cbn [obind snd].
    rewrite as_i64_small by lia. run_simpl. rewrite E2. cbn [obind]. run_simpl.
    rewrite E3. cbn [obind]. unfold unwrap_result. run_simpl. rewrite E4. cbn [obind]. by run_simpl.
  - by rewrite Hs4, Hs2, Hs1.
Qed.

Lemma sleep_polls_armed cs d h wk p (w : W) :
  exists w', run (sleep_polls cs (mkSleep d (Some h)) wk) (p, w) =
      Done (answer_at d <$> cs, mkSleep d (Some h)) (p, w') /\
    armed w' = armed w /\ sent w' = sent w.
Proof.
  revert w. induction cs as [|c cs IH]; intros w; cbn [sleep_polls]; [by exists w|].
  destruct (advance_law c w) as (Hc & Ha & Hs & _).
  destruct (IH (advance c w)) as (w' & Hr & Ha' & Hs').
  exists w'. split; [|split; congruence].
  run_simpl. rewrite run_Sleep_poll_armed, Hc. run_simpl. rewrite Hr. by run_simpl.
Qed.

(** C14: however often a [Sleep] is polled, and whenever, it arms at most one
    timer: none if every poll finds the deadline passed, otherwise one, set at
    the first poll before the deadline to the time that is left, together with
    one request that registers the polling task for that timer.  Each poll is
    [Ready] exactly when its instant has reached the deadline, and none panics. *)
Theorem sleep_arms_one_timer cs d wk p (w : W) :
  can_create w -> reachable_port p w -> Forall (fun c => d - c < 2 ^ 63) cs ->
  exists s' w',
    run (sleep_polls cs (mkSleep d None) wk) (Some p, w) =
      Done (answer_at d <$> cs, s') (Some p, w') /\
    match list_find (fun c => c < d) cs with
    | None => armed w' = armed w /\ sent w' = sent w
    | Some (_, c) => exists h, armed w !! h = None /\ armed w' = <[h := d - c]> (armed w) /\
        sent w' = sent w ++ [AddHandle (from_waker wk) h]
    end.
Proof.
  intros Hcc Hp Hcs. revert w Hcc Hp.
  induction Hcs as [|c cs Hc Hcs IH]; intros w Hcc Hp; cbn [sleep_polls list_find].
  { by eexists _, w. }
  destruct (advance_law c w) as (Hclk & Ha & Hs & Hcc' & Hp').
  case_decide as Hlt.
  - destruct (run_Sleep_poll_first d wk p (advance c w)) as (h & w1 & E1 & Hf & Ha1 & Hs1);
      [lia..|by auto|by auto|].
    destruct (sleep_polls_armed cs d h wk (Some p) w1) as (w' & Hr & Ha' & Hs').
    eexists _, w'. split.
    + run_simpl. rewrite E1. run_simpl. rewrite Hr. run_simpl.
      cbn [fmap list_fmap]. unfold answer_at at 2. by destruct (Z.geb_spec c d); [lia|].
    + exists h. rewrite Ha in Hf. by rewrite Ha', Hs', Ha1, Hs1, Hclk, Hs, Ha.
  - destruct (IH (advance c w)) as (s' & w' & Hr & Hres); [by auto..|].
    exists s', w'. split.
    + run_simpl. rewrite run_Sleep_poll_late by lia. run_simpl. rewrite Hr. run_simpl.
      cbn [fmap list_fmap]. unfold answer_at at 2. by destruct (Z.geb_spec c d); [|lia].
    + rewrite Ha, Hs in Hres. by destruct (list_find _ cs) as [[]|].
Qed.

(** C38: sleeping depends on the reactor thread having come up.  [REACTOR_PORT]
    is set by the reactor thread itself, so a [Sleep] whose first poll (before its
    deadline) comes earlier panics in the executor, after it has armed its timer;
    after the reactor thread has set the port, the same poll registers the task
    and is [Pending]. *)
Theorem sleep_needs_the_reactor {Srv} `{IpcServer Srv W} (server : Srv) d wk (w : W) :
  clock w < d -> d - clock w < 2 ^ 63 -> can_create w -> reachable_port (ipc_client server) w ->
  (exists w' h, run (Sleep_poll (mkSleep d None) wk) (None, w) = Panicked (None, w') /\
     armed w' = <[h := d - clock w]> (armed w) /\ sent w' = sent w) /\
  (exists w' h, run (Reactor_run server;; Sleep_poll (mkSleep d None) wk) (None, w) =
       Done (Pending, mkSleep d (Some h)) (Some (ipc_client server), w') /\
     sent w' = sent w ++ [AddHandle (from_waker wk) h]).
Proof.
  intros Hd Hi Hc Hp. split.
  - destruct (create_law w Hc) as (h & w1 & E1 & Hfresh & Ha1 & Hs1 & Hp1).
    destruct (set_law h (d - clock w) w1) as (w2 & E2 & Ha2 & Hs2 & Hp2).
    exists w2, h. split_and!; [|congruence..].
    unfold Sleep_poll. cbn [deadline timer]. run_simpl. rewrite now_law. cbn [obind].
    destruct (Z.geb_spec (clock w) d); [lia|]. run_simpl. rewrite E1. cbn [obind snd].
    rewrite as_i64_small by lia. run_simpl. rewrite E2. cbn [obind]. by run_simpl.
  - destruct (run_Sleep_poll_first d wk _ w Hd Hi Hc Hp) as (h & w' & E & _ & _ & Hs).
    exists w', h. split; [|done]. unfold Reactor_run. run_simpl. exact E.
Qed.

End sleep_props.

(** ** Concrete runs *)

Module ReactorDemo.

(** A server that is its list of handles. *)
#[export] Instance list_server : IpcServer (list Z) (Demo.world Demo.Idle) := {|
  IPCServer_new w := Done (Ok []) w;
  ipc_client _ := 40;
  add_handle_to_list h l := l ++ [h];
|}.

Definition w : Demo.world Demo.Idle := Demo.ws [] [] 0 0.

(** Two tasks wait for handle 8, one for handle 9; 8 is reported. *)
Definition trace : list ReactorEvent :=
  [Request (AddHandle (mkToken 1) 8); Request (AddHandle (mkToken 2) 9);
   Request (AddHandle (mkToken 3) 8); Signalled 8].

Lemma reactor_witness : exists h' s' w',
  run (reactor_events (mkReactorHandler ∅) trace) ([] : list Z, w) = Done h' (s', w') /\
  wakes w' = Some [mkToken 1; mkToken 3].
Proof.
  destruct (reactor_wakes_the_registered trace ([] : list Z) w [] Demo.quiet_world_ok eq_refl)
    as (h' & s' & w' & Hr & _ & Hw).
  by exists h', s', w'.
Defined.

Record SWorld := mkSWorld {
  sw_clock : Z;
  sw_armed : gmap Z Z;
  sw_sent : list ReactorCmd;
}.

#[export] Instance sleep_env : SleepEnv SWorld := {|
  Instant_now w := Done (sw_clock w) w;
  svcCreateTimer w := Done (0, fresh (dom (sw_armed w))) w;
  svcSetTimer h n _ w := Done 0 (mkSWorld (sw_clock w) (<[h := n]> (sw_armed w)) (sw_sent w));
  make_session p w := Done (Ok p) w;
  session_request _ cmd w := Done (Ok ReactorOk) (mkSWorld (sw_clock w) (sw_armed w) (sw_sent w ++ [cmd]));
|}.

#[export] Instance sleep_env_laws : SleepEnvLaws SWorld.
Proof.
  refine {| clock := sw_clock; armed := sw_armed; sent := sw_sent;
    advance c w := mkSWorld c (sw_armed w) (sw_sent w);
    reachable_port _ _ := True; can_create _ := True |}.
  - done.
  - done.
  - intros w0 _. eexists _, w0. split; [done|]. split; [|done].
    apply not_elem_of_dom, is_fresh.
  - intros. by eexists.
  - intros. by eexists _, _, _.
Defined.

Lemma sleep_witness : exists s' w',
  run (sleep_polls [10; 20; 30] (mkSleep 25 None) (mkWaker 6)) (Some 40, mkSWorld 0 ∅ []) =
    Done ([Pending; Pending; Ready tt], s') (Some 40, w') /\
  exists h, sw_armed w' = {[h := 15]} /\ sw_sent w' = [AddHandle (mkToken 6) h].
Proof.
  destruct (sleep_arms_one_timer [10; 20; 30] 25 (mkWaker 6) 40 (mkSWorld 0 ∅ []) ltac:(exact I) ltac:(exact I)
    ltac:(repeat constructor; lia)) as (s' & w' & Hr & h & _ & Ha & Hs).
  exists s', w'. split; [exact Hr|]. by exists h.
Defined.

#[export] Instance sworld_server : IpcServer (list Z) SWorld := {|
  IPCServer_new w := Done (Ok []) w;
  ipc_client _ := 40;
  add_handle_to_list h l := l ++ [h];
|}.

Lemma early_sleep_witness : exists w' h,
  run (Sleep_poll (mkSleep 25 None) (mkWaker 6)) (None, mkSWorld 10 ∅ []) = Panicked (None, w') /\
  sw_armed w' = <[h := 15]> ∅ /\ sw_sent w' = [].
Proof.
  refine (proj1 (sleep_needs_the_reactor ([] : list Z) 25 (mkWaker 6) (mkSWorld 10 ∅ []) _ _ _ _)).
  - reflexivity.
  - reflexivity.
  - exact I.
  - exact I.
Defined.

End ReactorDemo.
