(* ===== verification/CtruThread.v ===== *)
(** * Threads (src/ctru_thread.rs) and [spawn_blocking] (src/executor.rs)

    Threads with a join handle that returns their value or the panic that ended
    them, and blocking functions whose result arrives through a oneshot channel.
    [threadCreate], [threadJoin] and the other functions of libctru are
    parameters. *)

From Stdlib Require Import ZArith Lia.
From stdpp Require Import base tactics list gmap numbers.
From S2P Require Import Prelude Err Kernel CtruUtils Executor ExecutorSys Join Sync Oneshot.

(** [ThreadResult]: the payload of a panic is opaque. *)
Abbreviation ThreadResult A := (Result A unit).

(** The packet a thread and its join handle share. *)
Abbreviation Packet A := (option (ThreadResult A)).

(** Threads as libctru gives them: handle 0 is the null pointer, [thread_exit]
    is the end of a thread's entry function. *)
Class Threads (W : Type) := {
  svcGetThreadPriority : Z -> W -> Z;
  svcGetProcessorID : W -> Z;
  threadCreate : Z -> Z -> Z -> bool -> W -> outcome W Z;
  threadJoin : Z -> Z -> W -> outcome W Z;
  threadFree : Z -> W -> W;
  threadDetach : Z -> W -> W;
  thread_exit : Z -> W -> W;
}.

(** Joining waits for the end of the thread, however long the timeout of
    [u64::MAX] nanoseconds; freeing a thread and leaving its entry function do
    what they say. *)
Class ThreadsLaws (W : Type) `{Threads W} := {
  finished : Z -> W -> bool;
  exit_law : forall h w, finished h (thread_exit h w) = true;
  join_waits : forall h w, finished h w = false -> threadJoin h (2 ^ 64 - 1) w = Blocked;
  join_returns : forall h w, finished h w = true ->
    exists rc w', threadJoin h (2 ^ 64 - 1) w = Done rc w';
}.

Record CtruThreadBuilder := mkBuilder {
  stack_size : Z;
  priority : option Z;
  affinity : option Z;
}.

Record RawThread := mkRawThread { raw_handle : Z }.

Record RawJoin := mkRawJoin { native : option RawThread }.

Section threads.
Context {A W : Type} `{Threads W}.

Abbreviation TW := (Packet A * W)%type.

Definition RawThread_new (stack priority affinity : Z) : prog TW RawThread :=
  stack ← unwrap (if (0 <=? stack) && (stack <=? u32_MAX) then Some stack else None);
  handle ← on_snd (act (threadCreate stack priority affinity false));
  if handle =? 0 then panic else mret (mkRawThread handle).

Definition RawThread_join (t : RawThread) : prog TW unit :=
  on_snd (act (threadJoin (raw_handle t) (2 ^ 64 - 1)));;
  on_snd (modify (threadFree (raw_handle t))).

Definition RawThread_drop (t : RawThread) : prog TW unit :=
  on_snd (modify (threadDetach (raw_handle t))).

(** What the new thread runs: the closure [main] of [spawn_thread], entered by
    [_start_thread], and the end of the thread. *)
Definition thread_main (handle : Z) (f : prog W A) : prog TW unit :=
  try_result ← on_snd (catch_unwind f);
  modify (fun '(_, w) => (Some try_result, w));;
  on_snd (modify (thread_exit handle)).

(** [spawn_thread] up to its return; the thread it creates runs [thread_main]. *)
Definition spawn_thread (b : CtruThreadBuilder) : prog TW RawJoin :=
  priority ← (match priority b with
    | Some p => mret p
    | None => gets (fun s => svcGetThreadPriority 0xFFFF8000 (snd s))
    end);
  affinity ← (match affinity b with
    | Some a => mret a
    | None => gets (fun s => svcGetProcessorID (snd s))
    end);
  modify (fun '(_, w) => (None, w));;
  t ← RawThread_new (stack_size b) priority affinity;
  mret (mkRawJoin (Some t)).

Definition RawJoin_join (j : RawJoin) : prog TW (ThreadResult A) :=
  t ← unwrap (native j);
  RawThread_join t;;
  r ← act (fun '(p, w) => Done p (None, w));
  unwrap r.

(** Dropping a join handle detaches the thread. *)
Definition RawJoin_drop (j : RawJoin) : prog TW unit :=
  match native j with
  | Some t => RawThread_drop t
  | None => mret tt
  end.

End threads.

(** ** [spawn_blocking] *)

Section spawn_blocking.
Context {T W : Type} `{Threads W} `{WakeSink W}.

(** The closure of the thread: [func] and the send; a panic in [func] drops the
    sender on its way out. *)
Definition blocking_main (func : prog W T) : prog (OneshotState T * W) unit :=
  r ← on_snd (catch_unwind func);
  match r with
  | Ok res => OneshotSender_send res;; mret tt
  | Err _ => OneshotSender_drop;; panic
  end.

(** [spawn_blocking] up to its return: the channel of the receiver is fresh, the
    handle of the thread is dropped. *)
Definition spawn_blocking (priority affinity : option Z) :
    prog (Packet unit * W) (OneshotState T) :=
  thread ← spawn_thread (mkBuilder (1024 * 1024) priority affinity);
  RawJoin_drop thread;;
  mret oneshot.

End spawn_blocking.

(** ** Lemmas on threads *)

(** A step of a thread does not change how it ends. *)
Lemma run_step {S A} (p p' : prog S A) s s' :
  step_prog p s = Some (p', s') -> run p s = run p' s'.
Proof.
  destruct p as [|f]; [done|]. cbn. destruct (f s) eqn:E; [|done..].
  intros [= <- <-]. unfold run at 1. fold (@run S A). by rewrite E.
Qed.

(** Code that keeps a condition as long as it runs alone. *)
Fixpoint keeps {S A} (P : S -> Prop) (p : prog S A) : Prop :=
  match p with
  | Ret _ => True
  | Act f => forall s, P s ->
      match f s with
      | Done p' s' => P s' /\ keeps P p'
      | Panicked s' => P s'
      | Blocked | Undefined => True
      end
  end.

(** ** Joining *)

Section join_props.
Context {A W : Type} `{ThreadsLaws W}.

Abbreviation TW := (Packet A * W)%type.

(** Code that ends a thread with its very last action, and not before. *)
Fixpoint exits_last (h : Z) (p : prog TW unit) : Prop :=
  match p with
  | Ret _ => False
  | Act f => forall s, finished h (snd s) = false ->
      match f s with
      | Done p' s' => (p' = Ret tt /\ finished h (snd s') = true) \/
                      (exits_last h p' /\ finished h (snd s') = false)
      | Panicked _ | Blocked | Undefined => True
      end
  end.

Lemma exits_last_bind {B} h (p : prog W B) (k : B -> prog TW unit) :
  keeps (fun w => finished h w = false) p -> (forall b, exits_last h (k b)) ->
  exits_last h (on_snd p ≫= k).
Proof.
  intros Hp Hk. induction p as [b|f IH] using prog_all_ind; [apply Hk|].
  intros [c w] Hw. specialize (Hp w Hw). cbn.
  destruct (f w) as [p' w'| | |] eqn:E; [|done..]. destruct Hp as [Hw' Hp']. cbn.
  right. split; [|done]. by apply (IH _ _ _ E).
Qed.

Lemma keeps_catch {B} (P : W -> Prop) (p : prog W B) : keeps P p -> keeps P (catch_unwind p).
Proof.
  induction p as [b|f IH] using prog_all_ind; [done|]. intros Hp w Hw. specialize (Hp w Hw).
  destruct (f w) as [p' w'| | |] eqn:E; [|done..]. destruct Hp as [Hw' Hp'].
  split; [done|]. by apply (IH _ _ _ E).
Qed.

Lemma thread_main_exits_last h (f : prog W A) :
  keeps (fun w => finished h w = false) f -> exits_last h (thread_main h f).
Proof.
  intros Hf. apply exits_last_bind; [by apply keeps_catch|]. intros r [c w] Hw. right.
  split; [|done]. intros [c' w'] Hw'. left. split; [done|]. apply exit_law.
Qed.

(** What the thread leaves in the packet. *)
Definition thread_outcome (o : outcome W A) : option (ThreadResult A) :=
  match o with
  | Done v _ => Some (Ok v)
  | Panicked _ => Some (Err tt)
  | Blocked | Undefined => None
  end.

Lemma run_thread_main h (f : prog W A) c w r :
  thread_outcome (run f w) = Some r ->
  exists w', run (thread_main h f) (c, w) = Done tt (Some r, w').
Proof.
  intros Hr. unfold thread_main. rewrite run_bind, run_on_snd, run_catch_unwind.
  destruct (run f w) as [v w1|w1| |]; simplify_eq/=; run_simpl; by eexists.
Qed.

Lemma run_RawJoin_join_done h r w :
  finished h w = true ->
  exists w', run (RawJoin_join (mkRawJoin (Some (mkRawThread h)))) (Some r, w) =
    Done r (@None (ThreadResult A), w').
Proof.
  intros Hf. destruct (join_returns h w Hf) as (rc & w' & E).
  unfold RawJoin_join, RawThread_join. cbn [native]. run_simpl. cbn [raw_handle].
  rewrite E. cbn [obind]. run_simpl. by eexists.
Qed.

Lemma run_RawJoin_join_blocked h (c : Packet A) w :
  finished h w = false ->
  run (RawJoin_join (mkRawJoin (Some (mkRawThread h)))) (c, w) = Blocked /\
  step_prog (RawJoin_join (mkRawJoin (Some (mkRawThread h)))) (c, w) = None.
Proof. intros Hf. split; cbn; unfold run; cbn; by rewrite join_waits. Qed.

(** C13: joining a thread waits for its end and returns its result, however the
    two interleave: as long as the thread has an action left the joining thread
    has not moved and has to wait; from the moment the thread has ended, [join]
    runs through and returns the value of the closure, or the panic that ended
    it.  In particular the [unwrap] of the packet never panics. *)
Theorem join_returns_the_result h (f : prog W A) w r p q s :
  finished h w = false -> keeps (fun w => finished h w = false) f ->
  thread_outcome (run f w) = Some r ->
  rtc duo_step (thread_main h f, RawJoin_join (mkRawJoin (Some (mkRawThread h))), (None, w))
    (p, q, s) ->
  (p <> Ret tt /\ q = RawJoin_join (mkRawJoin (Some (mkRawThread h))) /\ run q s = Blocked) \/
  (p = Ret tt /\ exists s', run q s = Done r s').
Proof.
  set (join := RawJoin_join _). intros Hw Hk Hr.
  assert (forall c c', rtc duo_step c c' -> forall p q s, c = (p, q, s) -> forall p' q' s',
    c' = (p', q', s') ->
    (exits_last h p /\ finished h (snd s) = false /\ q = join /\
       exists w', run p s = Done tt (Some r, w')) \/
    (p = Ret tt /\ exists s1, run q s = Done r s1) ->
    (exits_last h p' /\ finished h (snd s') = false /\ q' = join /\
       exists w', run p' s' = Done tt (Some r, w')) \/
    (p' = Ret tt /\ exists s1, run q' s' = Done r s1)) as Hgen.
  { clear p q s. induction 1 as [c|c1 c2 c3 Hst _ IH]; intros p q s -> p' q' s' Hc Hi.
    { by simplify_eq. }
    inversion Hst as [? p1 ? ? s1 Hs|? ? q1 ? s1 Hs]; subst; eapply IH; try done; clear IH Hst.
    - destruct Hi as [(He & Hf & -> & w' & Hrun)|[-> _]]; [|done].
      rewrite (run_step _ _ _ _ Hs) in Hrun. destruct p as [|g]; [done|].
      specialize (He _ Hf). cbn in Hs. destruct (g s) as [p2 s2| | |]; [|done..]. simplify_eq.
      destruct He as [[-> Hf1]|[He Hf1]]; [|by left; eauto]. right. split; [done|].
      destruct s1 as [c1 w1]. unfold run in Hrun. simplify_eq.
      destruct (run_RawJoin_join_done h r w' Hf1) as [w2 Hj]. by eexists.
    - destruct Hi as [(He & Hf & -> & w' & Hrun)|[-> [s2 Hrun]]].
      + destruct s as [c w2]. destruct (run_RawJoin_join_blocked h c w2 Hf) as [_ Hb].
        unfold join in Hs. by rewrite Hb in Hs.
      + right. split; [done|]. exists s2. by rewrite <- (run_step _ _ _ _ Hs). }
  intros Hreach. destruct (Hgen _ _ Hreach _ _ _ eq_refl _ _ _ eq_refl) as [(He & Hf & -> & Hrun)|Hd].
  - left. split; [by apply thread_main_exits_last|]. split; [done|]. split; [done|].
    by apply run_thread_main.
  - left. split; [by intros ->|]. split; [done|]. destruct s as [c w'].
    by apply run_RawJoin_join_blocked.
  - by right.
Qed.

End join_props.

(** ** Blocking functions *)

Section blocking_props.
Context {T W : Type} `{WakeSinkLaws W}.

(** The value and the world a blocking function ends with. *)
Definition func_outcome (o : outcome W T) : option (option T * W) :=
  match o with
  | Done v w => Some (Some v, w)
  | Panicked w => Some (None, w)
  | Blocked | Undefined => None
  end.

(** Both ends of the sender, once a receiver's task is registered. *)
Lemma run_send_registered v tok (w : W) l :
  wake_ok w -> wakes w = Some l ->
  exists w', run (OneshotSender_send v) (mkOneshot (@None T) false (Some tok), w) =
      Done true (mkOneshot (Some v) true (Some tok), w') /\
    wakes w' = Some (l ++ [tok; tok]).
Proof.
  intros Hok Hw. destruct (wake_add_ok tok w l Hok Hw) as (w1 & E1 & L1 & K1).
  destruct (wake_add_ok tok w1 _ K1 L1) as (w2 & E2 & L2 & _). rewrite <- app_assoc in L2.
  exists w2. split; [|done].
  unfold OneshotSender_send, OneshotState_send, OneshotSender_drop, wake_receiver,
    load_state, store_value, store_state.
  run_simpl. cbn [os_state]. run_simpl. cbn [rx_task]. run_simpl. rewrite E1. run_simpl.
  cbn [rx_task]. run_simpl. rewrite E2. by run_simpl.
Qed.

Lemma run_drop_registered tok (w : W) l :
  wake_ok w -> wakes w = Some l ->
  exists w', run OneshotSender_drop (mkOneshot (@None T) false (Some tok), w) =
      Done tt (mkOneshot None true (Some tok), w') /\
    wakes w' = Some (l ++ [tok]).
Proof.
  intros Hok Hw. destruct (wake_add_ok tok w l Hok Hw) as (w1 & E1 & L1 & K1).
  exists w1. split; [|done]. unfold OneshotSender_drop, wake_receiver, store_state.
  run_simpl. cbn [rx_task]. run_simpl. rewrite E1. by run_simpl.
Qed.

(** C24: the future of [spawn_blocking] completes with the function's value, or
    with [None] if the function panics; either way the task that awaits it is
    woken after it was registered. *)
Theorem spawn_blocking_delivers (func : prog W T) wk wk' (w : W) r w1 l :
  func_outcome (run func w) = Some (r, w1) -> wake_ok w1 -> wakes w1 = Some l ->
  exists res o' o'' w' woken,
    run (p ← OneshotReceiver_poll wk; t ← catch_unwind (blocking_main func); mret (p, t))
      (oneshot, w) = Done (Pending, res) (o', w') /\
    wakes w' = Some (l ++ woken) /\ from_waker wk ∈ woken /\
    run (OneshotReceiver_poll wk') (o', w') = Done (Ready r) (o'', w').
Proof.
  intros Hf Hok Hl. rewrite run_bind.
  change (run (OneshotReceiver_poll wk) _) with
    (@Done (OneshotState T * W) (Poll (option T)) Pending
       (mkOneshot None false (Some (from_waker wk)), w)).
  cbn [obind]. rewrite run_bind, run_catch_unwind. unfold blocking_main.
  rewrite run_bind, run_on_snd, run_catch_unwind.
  destruct (run func w) as [v w2|w2| |]; cbn [func_outcome] in Hf; simplify_eq; cbn [obind].
  - destruct (run_send_registered v (from_waker wk) w1 l Hok Hl) as (w' & Hs & Hw').
    destruct (run_OneshotReceiver_poll wk' (mkOneshot (Some v) true (Some (from_waker wk))) w'
      eq_refl) as [o'' Ho].
    rewrite run_bind, Hs. cbn [obind]. rewrite run_ret. cbn [obind]. rewrite run_ret.
    eexists _, _, o'', w', _. split; [done|]. split; [done|]. split; [by left|exact Ho].
  - destruct (run_drop_registered (from_waker wk) w1 l Hok Hl) as (w' & Hs & Hw').
    destruct (run_OneshotReceiver_poll wk' (mkOneshot (@None T) true (Some (from_waker wk))) w'
      eq_refl) as [o'' Ho].
    rewrite run_bind, Hs. cbn [obind]. rewrite run_panic. cbn [obind]. rewrite run_ret.
    eexists _, _, o'', w', _. split; [done|]. split; [done|]. split; [by left|exact Ho].
Qed.

End blocking_props.

(** ** Concrete runs *)

Module ThreadDemo.

(** Threads by the set of handles that have ended. *)
#[export] Instance gset_threads : Threads (gset Z) := {|
  svcGetThreadPriority _ _ := 0x30;
  svcGetProcessorID _ := 0;
  threadCreate _ _ _ _ w := Done 9 w;
  threadJoin h _ w := if bool_decide (h ∈ w) then Done 0 w else Blocked;
  threadFree _ w := w;
  threadDetach _ w := w;
  thread_exit h w := {[h]} ∪ w;
|}.

#[export] Instance gset_threads_laws : ThreadsLaws (gset Z).
Proof.
  refine {| finished h w := bool_decide (h ∈ w) |}; cbn.
  - intros. rewrite bool_decide_true; set_solver.
  - intros h w E. by rewrite E.
  - intros h w E. rewrite E. by eexists 0, w.
Defined.

(** A thread that panics: the joining thread gets the panic once it has ended. *)
Lemma join_witness :
  exists s', run (RawJoin_join (mkRawJoin (Some (mkRawThread 9))))
    (Some (@Err Z unit tt), {[9]} : gset Z) = Done (Err tt) s'.
Proof.
  destruct (join_returns_the_result 9 (panic : prog (gset Z) Z) ∅ (Err tt) (Ret tt)
    (RawJoin_join (mkRawJoin (Some (mkRawThread 9)))) (Some (Err tt), {[9]}))
    as [[Hn _]|[_ Hd]].
  - reflexivity.
  - intros s Hs. exact Hs.
  - reflexivity.
  - apply (run_duo_rtc [true; true; true]). vm_compute. reflexivity.
  - by destruct Hn.
  - exact Hd.
Defined.

Definition w : Demo.world Demo.Idle := Demo.ws [] [] 0 0.

Lemma blocking_witness :
  exists res o' o'' w' woken,
    run (p ← OneshotReceiver_poll (mkWaker 5);
         t ← catch_unwind (blocking_main (mret 12)); mret (p, t)) (oneshot, w) =
      Done (Pending, res) (o', w') /\
    wakes w' = Some ([] ++ woken) /\ from_waker (mkWaker 5) ∈ woken /\
    run (OneshotReceiver_poll (mkWaker 5)) (o', w') = Done (Ready (Some 12)) (o'', w').
Proof.
  apply (spawn_blocking_delivers (mret 12) (mkWaker 5) (mkWaker 5) w (Some 12) w []).
  - reflexivity.
  - exact Demo.quiet_world_ok.
  - reflexivity.
Defined.

End ThreadDemo.
