(* ===== verification/FsTypes.v ===== *)
(** * Types of the filesystem service (src/fs/types.rs)

    Paths, their encoding as the service reads them, archive identifiers and the
    flag sets.  Strings are kept without their terminator: a [CStr] is a list of
    non-zero bytes, a [U16CStr] a list of non-zero 16-bit units. *)

From Stdlib Require Import ZArith Lia.
From stdpp Require Import base tactics list gmap numbers.
From S2P Require Import Prelude Err.

Inductive DSPathType : Type := TInvalid | TEmpty | TBinary | TAscii | TUtf16.

Inductive DSPath : Type :=
| Invalid
| Empty
| Binary (items : list Z)
| Ascii (items : list Z)
| Utf16 (items : list Z).

#[export] Instance DSPath_eq_dec : EqDecision DSPath.
Proof. solve_decision. Defined.

(** The discriminants of [#[repr(u32)]]. *)
Definition DSPathType_repr (t : DSPathType) : Z :=
  match t with
  | TInvalid => 0x0
  | TEmpty => 0x1
  | TBinary => 0x2
  | TAscii => 0x3
  | TUtf16 => 0x4
  end.

(** [CStr::to_bytes_with_nul] and [U16CStr::as_slice_with_nul]. *)
Definition with_nul (items : list Z) : list Z := items ++ [0].

(** [bytemuck::cast_slice] from [u16] to [u8] on a little-endian machine. *)
Fixpoint cast_slice (us : list Z) : list Z :=
  match us with
  | [] => []
  | u :: us => as_u8 u :: Z.shiftr u 8 :: cast_slice us
  end.

Definition DSPath_kind (p : DSPath) : DSPathType :=
  match p with
  | Invalid => TInvalid
  | Empty => TEmpty
  | Binary _ => TBinary
  | Ascii _ => TAscii
  | Utf16 _ => TUtf16
  end.

Definition DSPath_size (p : DSPath) : Z :=
  match p with
  | Invalid => 0
  | Empty => 0
  | Binary items => Z.of_nat (length items)
  | Ascii items => Z.of_nat (length (with_nul items))
  | Utf16 items => Z.of_nat (length (with_nul items)) * 2
  end.

Definition DSPath_as_bytes (p : DSPath) : list Z :=
  match p with
  | Invalid => []
  | Empty => []
  | Binary items => items
  | Ascii items => with_nul items
  | Utf16 items => cast_slice (with_nul items)
  end.

Definition DSPath_from_u16 (value : list Z) : DSPath := Utf16 value.

Record SerializableDSPath := mkSerPath {
  ser_ty : DSPathType;
  ser_size : Z;
  ser_data : list Z;
}.

Definition DSPath_as_ser (p : DSPath) : SerializableDSPath :=
  mkSerPath (DSPath_kind p) (as_u32 (DSPath_size p)) (DSPath_as_bytes p).

Inductive ArchiveId : Type :=
| SelfNCCH | SaveData | ExtSaveData | SharedExtSaveData | SystemSaveData | SDMC | SDMCWriteOnly.

Definition ArchiveId_repr (a : ArchiveId) : Z :=
  match a with
  | SelfNCCH => 0x3
  | SaveData => 0x4
  | ExtSaveData => 0x6
  | SharedExtSaveData => 0x7
  | SystemSaveData => 0x8
  | SDMC => 0x9
  | SDMCWriteOnly => 0xA
  end.

Record ArchiveHandle := mkArchiveHandle { archive_handle : Z }.

(** Flag sets are their bits. *)
Record FileAttributes := mkFileAttributes { attribute_bits : Z }.

Definition ATTR_DIR : FileAttributes := mkFileAttributes (Z.shiftl 1 0).

Definition ATTR_HIDDEN : FileAttributes := mkFileAttributes (Z.shiftl 1 8).

Definition ATTR_ARCHIVE : FileAttributes := mkFileAttributes (Z.shiftl 1 16).

Definition ATTR_READ_ONLY : FileAttributes := mkFileAttributes (Z.shiftl 1 24).

Definition FileAttributes_empty : FileAttributes := mkFileAttributes 0.

Record OpenFlags := mkOpenFlags { open_bits : Z }.

Definition OPEN_READ : OpenFlags := mkOpenFlags (Z.shiftl 1 0).

Definition OPEN_WRITE : OpenFlags := mkOpenFlags (Z.shiftl 1 1).

Definition OPEN_CREATE : OpenFlags := mkOpenFlags (Z.shiftl 1 2).

Record WriteOptions := mkWriteOptions { write_bits : Z }.

Definition WRITE_FLUSH : WriteOptions := mkWriteOptions (Z.shiftl 1 0).

Definition WRITE_UPDATE_TIMESTAMP : WriteOptions := mkWriteOptions (Z.shiftl 1 8).

Definition WriteOptions_empty : WriteOptions := mkWriteOptions 0.

(** ** Reading a path back

    The reference reader of a serialised path: [size] bytes of the buffer, with
    the string up to its terminator. *)

(** The part of a string before its first terminator. *)
Fixpoint until_nul (l : list Z) : option (list Z) :=
  match l with
  | [] => None
  | x :: l => if x =? 0 then Some [] else xs ← until_nul l; Some (x :: xs)
  end.

Fixpoint units_of (bs : list Z) : option (list Z) :=
  match bs with
  | [] => Some []
  | lo :: hi :: bs => us ← units_of bs; Some (lo + 256 * hi :: us)
  | [_] => None
  end.

Definition read_path (s : SerializableDSPath) : option DSPath :=
  let bytes := take (Z.to_nat (ser_size s)) (ser_data s) in
  match ser_ty s with
  | TInvalid => Some Invalid
  | TEmpty => Some Empty
  | TBinary => Some (Binary bytes)
  | TAscii => Ascii <$> until_nul bytes
  | TUtf16 => us ← units_of bytes; Utf16 <$> until_nul us
  end.

(** What the Rust types guarantee of a path. *)
Definition wf_path (p : DSPath) : Prop :=
  match p with
  | Invalid | Empty => True
  | Binary items => Forall is_u8 items
  | Ascii items => Forall (fun x => 0 < x < 2 ^ 8) items
  | Utf16 items => Forall (fun x => 0 < x < 2 ^ 16) items
  end.

Lemma length_cast_slice us : length (cast_slice us) = (length us * 2)%nat.
Proof. induction us as [|u us IH]; cbn; lia. Qed.

(** [size] is computed from the string, [as_bytes] from its bytes: they agree. *)
Lemma DSPath_size_bytes p : DSPath_size p = Z.of_nat (length (DSPath_as_bytes p)).
Proof. destruct p; cbn; rewrite ?length_cast_slice; lia. Qed.

Lemma until_nul_with_nul items : Forall (fun x => 0 < x) items -> until_nul (with_nul items) = Some items.
Proof.
  induction 1 as [|x items Hx _ IH]; [done|]. cbn.
  destruct (Z.eqb_spec x 0); [lia|]. unfold with_nul in IH. by rewrite IH.
Qed.

Lemma units_of_cast_slice us :
  Forall (fun x => 0 <= x < 2 ^ 16) us -> units_of (cast_slice us) = Some us.
Proof.
  induction 1 as [|u us Hu _ IH]; [done|]. cbn [cast_slice units_of]. rewrite IH. cbn.
  do 2 f_equal. rewrite Z.shiftr_div_pow2 by lia. unfold as_u8.
  pose proof (Z.div_mod u (2 ^ 8)). lia.
Qed.

(** Serialised bytes are bytes. *)
Lemma as_bytes_are_bytes p : wf_path p -> Forall is_u8 (DSPath_as_bytes p).
Proof.
  unfold is_u8. destruct p as [| |l|l|l]; cbn; [done..| |]; intros Hl.
  - apply Forall_app. split; [eapply Forall_impl; [|exact Hl]; cbn; lia|apply Forall_singleton; lia].
  - assert (Forall (fun x => 0 <= x < 2 ^ 16) (with_nul l)) as Hn.
    { apply Forall_app. split; [eapply Forall_impl; [|exact Hl]; cbn; lia|apply Forall_singleton; lia]. }
    clear Hl. induction Hn as [|u us Hu _ IH]; cbn; [done|].
    constructor; [apply Z.mod_pos_bound; lia|]. constructor; [|done].
    rewrite Z.shiftr_div_pow2 by lia. split; [apply Z.div_pos; lia|].
    apply Z.div_lt_upper_bound; lia.
Qed.

(** C20: a path the service gets is the path that was sent.  For every path
    whose encoding fits the 32-bit size field, the announced size is the length
    of the buffer, the buffer holds bytes, and reading it back by type gives the
    same path: strings keep their terminator and lose nothing. *)
Theorem path_round_trip p :
  wf_path p -> DSPath_size p < 2 ^ 32 ->
  ser_size (DSPath_as_ser p) = Z.of_nat (length (ser_data (DSPath_as_ser p))) /\
  Forall is_u8 (ser_data (DSPath_as_ser p)) /\
  read_path (DSPath_as_ser p) = Some p.
Proof.
  intros Hp Hs. pose proof (DSPath_size_bytes p) as Hlen.
  assert (ser_size (DSPath_as_ser p) = DSPath_size p) as Hsize.
  { cbn. apply as_u32_id. unfold is_u32. lia. }
  split; [by rewrite Hsize|]. split; [by apply as_bytes_are_bytes|].
  unfold read_path. rewrite Hsize, Hlen, Nat2Z.id. cbn [DSPath_as_ser ser_data ser_ty].
  rewrite take_ge by done. destruct p as [| |l|l|l]; cbn [DSPath_kind DSPath_as_bytes]; try done.
  - rewrite until_nul_with_nul; [done|]. eapply Forall_impl; [|exact Hp]; cbn; lia.
  - rewrite units_of_cast_slice.
    + cbn. rewrite until_nul_with_nul; [done|]. eapply Forall_impl; [|exact Hp]; cbn; lia.
    + apply Forall_app. split; [|apply Forall_singleton; lia].
      eapply Forall_impl; [|exact Hp]; cbn; lia.
Qed.

Module PathDemo.

(** "/a" in 16-bit units. *)
Lemma path_witness : read_path (DSPath_as_ser (Utf16 [47; 353])) = Some (Utf16 [47; 353]).
Proof.
  destruct (path_round_trip (Utf16 [47; 353])) as (_ & _ & H).
  - repeat constructor; lia.
  - cbn. lia.
  - exact H.
Defined.

End PathDemo.
