(* ===== verification/FsSync.v ===== *)
(** * The filesystem service (src/fs/sync_impl.rs)

    The blocking calls of [Filesystem] and [FileHandle].  The IPC transport of
    [ds_ipc] and the service behind it are parameters; [FileLaws] says what an
    open file of the service is. *)

From Stdlib Require Import ZArith Lia.
From stdpp Require Import base tactics list gmap numbers.
From S2P Require Import Prelude Err FsTypes.

Inductive FsUserMessage : Type :=
| MInitialize
| MOpenArchive (id : ArchiveId) (path : SerializableDSPath)
| MOpenFile (transaction : Z) (archive : ArchiveHandle) (path : SerializableDSPath)
    (flags : OpenFlags) (attributes : FileAttributes).

Inductive FsUserReply : Type :=
| RInitialize (res_code : Z)
| ROpenArchive (res_code : Z) (handle : ArchiveHandle)
| ROpenFile (res_code : Z) (handle : Z).

Inductive FileHandleMessage : Type :=
| MRead (offset size : Z) (data : list Z)
| MWrite (offset size : Z) (options : WriteOptions) (data : list Z)
| MGetSize
| MClose
| MFlush.

Inductive FileHandleReply : Type :=
| RRead (res_code bytes_read : Z)
| RWrite (res_code bytes_written : Z)
| RGetSize (res_code size : Z)
| RClose (res_code : Z)
| RFlush (res_code : Z).

(** The request of a session of either kind; a file request also yields what the
    mapped buffer holds afterwards. *)
Class FsService (W : Type) := {
  fs_user_request : Z -> FsUserMessage -> W -> outcome W (Result FsUserReply CtruError);
  file_request : Z -> FileHandleMessage -> W ->
    outcome W (Result FileHandleReply CtruError * list Z);
}.

Record Filesystem := mkFilesystem { fs_inner : Z }.

Record FileHandle := mkFileHandle { session : Z }.

Definition Filesystem_from_raw (handle : Z) : Filesystem := mkFilesystem handle.

Definition FileHandle_from_raw (handle : Z) : FileHandle := mkFileHandle handle.

Definition FileHandle_duplicate (f : FileHandle) : FileHandle := mkFileHandle (session f).

Section fs_sync.
Context {W : Type} `{FsService W} `{CtruSys}.

(** [self.inner.request(..)?]: a failed transport is the caller's error. *)
Definition user_call (fs : Filesystem) (m : FsUserMessage) : prog W (BunnyResult FsUserReply) :=
  r ← act (fs_user_request (fs_inner fs) m);
  mret (match r with Ok a => Ok a | Err e => Err (from_ctru e) end).

Definition file_call (f : FileHandle) (m : FileHandleMessage) :
    prog W (BunnyResult FileHandleReply * list Z) :=
  r ← act (file_request (session f) m);
  mret (match fst r with Ok a => Ok a | Err e => Err (from_ctru e) end, snd r).

(** A call whose buffer the source does not look at afterwards. *)
Definition file_call_ (f : FileHandle) (m : FileHandleMessage) : prog W (BunnyResult FileHandleReply) :=
  r ← file_call f m; mret (fst r).

Definition open_archive (fs : Filesystem) (archive : ArchiveId) (path : DSPath) :
    prog W (BunnyResult ArchiveHandle) :=
  reply ←? user_call fs (MOpenArchive archive (DSPath_as_ser path));
  match reply with
  | ROpenArchive res_code handle => ds_try_bunny res_code (mret (Ok handle))
  | _ => panic
  end.

Definition open_file (fs : Filesystem) (archive : ArchiveHandle) (path : DSPath)
    (flags : OpenFlags) : prog W (BunnyResult FileHandle) :=
  reply ←? user_call fs (MOpenFile 0 archive (DSPath_as_ser path) flags FileAttributes_empty);
  match reply with
  | ROpenFile res_code handle => ds_try_bunny res_code (mret (Ok (FileHandle_from_raw handle)))
  | _ => panic
  end.

Definition FileHandle_write (f : FileHandle) (offset : Z) (data : list Z)
    (options : WriteOptions) : prog W (BunnyResult Z) :=
  reply ←? file_call_ f (MWrite offset (as_u32 (Z.of_nat (length data))) options data);
  match reply with
  | RWrite res_code bytes_written => ds_try_bunny res_code (mret (Ok bytes_written))
  | _ => panic
  end.

(** [read] also leaves the caller's buffer as the service filled it. *)
Definition FileHandle_read (f : FileHandle) (offset : Z) (rd_buf : list Z) :
    prog W (BunnyResult Z * list Z) :=
  r ← file_call f (MRead offset (as_u32 (Z.of_nat (length rd_buf))) rd_buf);
  let '(reply, rd_buf) := r in
  match reply with
  | Err e => mret (Err e, rd_buf)
  | Ok (RRead res_code bytes_read) =>
      res ← ds_try_bunny res_code (mret (Ok bytes_read));
      mret (res, rd_buf)
  | Ok _ => panic
  end.

Definition FileHandle_flush (f : FileHandle) : prog W (BunnyResult unit) :=
  reply ←? file_call_ f MFlush;
  match reply with
  | RFlush res_code => ds_try_bunny res_code (mret (Ok tt))
  | _ => panic
  end.

Definition FileHandle_close (f : FileHandle) : prog W (BunnyResult unit) :=
  reply ←? file_call_ f MClose;
  match reply with
  | RClose res_code => ds_try_bunny res_code (mret (Ok tt))
  | _ => panic
  end.

Definition FileHandle_get_size (f : FileHandle) : prog W (BunnyResult Z) :=
  reply ←? file_call_ f MGetSize;
  match reply with
  | RGetSize res_code size => ds_try_bunny res_code (mret (Ok size))
  | _ => panic
  end.

End fs_sync.

(** ** What an open file is

    The bytes of a file; a read copies the bytes that exist to the front of the
    buffer, a write replaces or extends. *)
Definition read_bytes (bs : list Z) (offset n : Z) : list Z :=
  take (Z.to_nat n) (drop (Z.to_nat offset) bs).

Definition write_bytes (bs : list Z) (offset : Z) (data : list Z) : list Z :=
  take (Z.to_nat offset) bs ++ data ++ drop (Z.to_nat offset + length data) bs.

Class FileLaws (W : Type) `{FsService W} := {
  file_bytes : Z -> W -> option (list Z);
  read_law : forall s w bs offset size data,
    file_bytes s w = Some bs -> 0 <= offset -> size = Z.of_nat (length data) ->
    file_request s (MRead offset size data) w =
      Done (Ok (RRead 0 (Z.of_nat (length (read_bytes bs offset size)))),
            read_bytes bs offset size ++ drop (length (read_bytes bs offset size)) data) w;
  write_law : forall s w bs offset size options data,
    file_bytes s w = Some bs -> 0 <= offset <= Z.of_nat (length bs) ->
    size = Z.of_nat (length data) ->
    exists w' buf, file_request s (MWrite offset size options data) w =
        Done (Ok (RWrite 0 size), buf) w' /\
      file_bytes s w' = Some (write_bytes bs offset data);
  size_law : forall s w bs, file_bytes s w = Some bs ->
    exists buf, file_request s MGetSize w = Done (Ok (RGetSize 0 (Z.of_nat (length bs))), buf) w;
}.

Section fs_props.
Context {W : Type} `{FileLaws W} `{CtruSysLaws}.

Lemma run_ds_try_0 {S A} (k : prog S (BunnyResult A)) (s : S) :
  run (ds_try_bunny 0 k) s = run k s.
Proof. unfold ds_try_bunny. by rewrite ds_try_0. Qed.

(** [ds_try!] lets a value through only for a code that is not a failure. *)
Lemma run_ds_try_ok {S A} c (a b : A) (s s' : S) :
  run (ds_try_bunny c (mret (Ok a))) s = Done (Ok b) s' -> 0 <= c /\ a = b /\ s = s'.
Proof.
  unfold ds_try_bunny. destruct (ds_try c) eqn:E; run_simpl; intros; simplify_eq.
  split; [|done]. destruct (Z.le_gt_cases 0 c) as [|Hc]; [done|].
  destruct (ds_try_failed c Hc) as [e He]. congruence.
Qed.

Lemma length_read_bytes bs offset n : 0 <= n -> Z.of_nat (length (read_bytes bs offset n)) <= n.
Proof. intros. unfold read_bytes. rewrite length_take. lia. Qed.

Lemma read_write_bytes bs offset data :
  0 <= offset <= Z.of_nat (length bs) ->
  read_bytes (write_bytes bs offset data) offset (Z.of_nat (length data)) = data.
Proof.
  intros Ho. unfold read_bytes, write_bytes.
  rewrite drop_app_length' by (rewrite length_take; lia).
  rewrite Nat2Z.id. apply take_app_length.
Qed.

Lemma length_write_bytes bs offset data :
  0 <= offset <= Z.of_nat (length bs) ->
  Z.of_nat (length (write_bytes bs offset data)) =
    Z.max (Z.of_nat (length bs)) (offset + Z.of_nat (length data)).
Proof.
  intros Ho. unfold write_bytes. rewrite !length_app, length_take, length_drop. lia.
Qed.

Lemma run_file_read f offset buf (w : W) bs :
  file_bytes (session f) w = Some bs -> 0 <= offset -> Z.of_nat (length buf) < 2 ^ 32 ->
  run (FileHandle_read f offset buf) w =
  let got := read_bytes bs offset (Z.of_nat (length buf)) in
  Done (Ok (Z.of_nat (length got)), got ++ drop (length got) buf) w.
Proof.
  intros Hb Ho Hl. unfold FileHandle_read, file_call. run_simpl.
  rewrite (read_law _ w bs) by (done || apply as_u32_id; unfold is_u32; lia).
  cbn [obind]. run_simpl. cbn [fst snd]. rewrite as_u32_id by (unfold is_u32; lia).
  rewrite run_ds_try_0. by run_simpl.
Qed.

Lemma run_file_write f offset data options (w : W) bs :
  file_bytes (session f) w = Some bs -> 0 <= offset <= Z.of_nat (length bs) ->
  Z.of_nat (length data) < 2 ^ 32 ->
  exists w', run (FileHandle_write f offset data options) w =
      Done (Ok (Z.of_nat (length data))) w' /\
    file_bytes (session f) w' = Some (write_bytes bs offset data).
Proof.
  intros Hb Ho Hl.
  destruct (write_law (session f) w bs offset (as_u32 (Z.of_nat (length data))) options data)
    as (w' & buf & E & Hb'); [done..|apply as_u32_id; unfold is_u32; lia|].
  exists w'. split; [|done]. unfold FileHandle_write, file_call_, file_call. run_simpl.
  rewrite E. cbn [obind]. run_simpl. cbn [fst snd]. run_simpl.
  rewrite run_ds_try_0, run_ret. by rewrite as_u32_id by (unfold is_u32; lia).
Qed.

(** C21: what [write] puts into a file, [read] gets back: after a write inside
    or at the end of the file, a read of the same length at the same offset
    yields the written bytes and the full count, and [get_size] grows only past
    the old end. *)
Theorem file_write_then_read f offset data buf options (w : W) bs :
  file_bytes (session f) w = Some bs -> 0 <= offset <= Z.of_nat (length bs) ->
  Z.of_nat (length data) < 2 ^ 32 -> length buf = length data ->
  exists w',
    run (n ← FileHandle_write f offset data options;
         r ← FileHandle_read f offset buf;
         sz ← FileHandle_get_size f;
         mret (n, r, sz)) w =
    Done (Ok (Z.of_nat (length data)), (Ok (Z.of_nat (length data)), data),
          Ok (Z.max (Z.of_nat (length bs)) (offset + Z.of_nat (length data)))) w'.
Proof.
  intros Hb Ho Hl Hbuf.
  destruct (run_file_write f offset data options w bs Hb Ho Hl) as (w' & Hw & Hb').
  destruct (size_law _ _ _ Hb') as [sbuf Hs].
  exists w'. rewrite run_bind, Hw. cbn [obind].
  rewrite run_bind, (run_file_read f offset buf w' _ Hb') by lia. rewrite Hbuf. cbn zeta.
  rewrite read_write_bytes by done. cbn [obind].
  rewrite (drop_ge buf) by lia. rewrite app_nil_r.
  rewrite run_bind. unfold FileHandle_get_size, file_call_, file_call. run_simpl.
  rewrite Hs. cbn [obind]. run_simpl. cbn [fst]. run_simpl. rewrite run_ds_try_0. run_simpl.
  by rewrite length_write_bytes.
Qed.

(** C22: a call of the service reports success only if the service did: whenever
    one of the seven blocking calls returns [Ok], the request was answered by the matching
    reply with a result code that is not a failure, and the value is the one in
    that reply. *)
Theorem fs_ok_means_success (w w' : W) :
  (forall fs id p h, run (open_archive fs id p) w = Done (Ok h) w' ->
     exists rc, 0 <= rc /\ fs_user_request (fs_inner fs) (MOpenArchive id (DSPath_as_ser p)) w =
       Done (Ok (ROpenArchive rc h)) w') /\
  (forall fs a p fl f, run (open_file fs a p fl) w = Done (Ok f) w' ->
     exists rc, 0 <= rc /\ fs_user_request (fs_inner fs)
       (MOpenFile 0 a (DSPath_as_ser p) fl FileAttributes_empty) w =
       Done (Ok (ROpenFile rc (session f))) w') /\
  (forall f off data opts n, run (FileHandle_write f off data opts) w = Done (Ok n) w' ->
     exists rc buf, 0 <= rc /\ file_request (session f)
       (MWrite off (as_u32 (Z.of_nat (length data))) opts data) w = Done (Ok (RWrite rc n), buf) w') /\
  (forall f off buf n buf', run (FileHandle_read f off buf) w = Done (Ok n, buf') w' ->
     exists rc, 0 <= rc /\ file_request (session f)
       (MRead off (as_u32 (Z.of_nat (length buf))) buf) w = Done (Ok (RRead rc n), buf') w') /\
  (forall f, run (FileHandle_flush f) w = Done (Ok tt) w' ->
     exists rc buf, 0 <= rc /\ file_request (session f) MFlush w = Done (Ok (RFlush rc), buf) w') /\
  (forall f, run (FileHandle_close f) w = Done (Ok tt) w' ->
     exists rc buf, 0 <= rc /\ file_request (session f) MClose w = Done (Ok (RClose rc), buf) w') /\
  (forall f n, run (FileHandle_get_size f) w = Done (Ok n) w' ->
     exists rc buf, 0 <= rc /\ file_request (session f) MGetSize w = Done (Ok (RGetSize rc n), buf) w').
Proof.
  unfold open_archive, open_file, FileHandle_write, FileHandle_read, FileHandle_flush,
    FileHandle_close, FileHandle_get_size, file_call_, file_call, user_call.
  split_and!; intros *; run_simpl;
    (destruct (fs_user_request _ _ w) as [[reply|e] w1| | |] eqn:E ||
     destruct (file_request _ _ w) as [[[reply|e] buf1] w1| | |] eqn:E); run_simpl; try done;
    destruct reply; run_simpl; try done.
  - intros (Hc & -> & ->)%run_ds_try_ok. by eauto.
  - intros (Hc & <- & ->)%run_ds_try_ok. by eauto.
  - intros (Hc & -> & ->)%run_ds_try_ok. by eauto.
  - destruct (run (ds_try_bunny res_code (mret (Ok bytes_read))) w1) as [r w2| | |] eqn:Et;
      run_simpl; intros Hr; simplify_eq.
    apply run_ds_try_ok in Et as (Hc & -> & ->). by eauto.
  - intros (Hc & _ & ->)%run_ds_try_ok. by eauto.
  - intros (Hc & _ & ->)%run_ds_try_ok. by eauto.
  - intros (Hc & -> & ->)%run_ds_try_ok. by eauto.
Qed.

End fs_props.

(** ** Concrete runs *)

Module FsDemo.

(** Files in memory, by session. *)
Definition files : Type := gmap Z (list Z).

Definition file_answer (s : Z) (m : FileHandleMessage) (w : files) :
    outcome files (Result FileHandleReply CtruError * list Z) :=
  match w !! s, m with
  | Some bs, MRead offset size data =>
      let got := read_bytes bs offset size in
      Done (Ok (RRead 0 (Z.of_nat (length got))), got ++ drop (length got) data) w
  | Some bs, MWrite offset size _ data =>
      Done (Ok (RWrite 0 size), []) (<[s := write_bytes bs offset data]> w)
  | Some bs, MGetSize => Done (Ok (RGetSize 0 (Z.of_nat (length bs))), []) w
  | Some _, MClose => Done (Ok (RClose 0), []) (delete s w)
  | Some _, MFlush => Done (Ok (RFlush 0), []) w
  | None, _ => Done (Err (CtruOs (-1)), []) w
  end.

#[export] Instance files_service : FsService files := {|
  fs_user_request _ m w :=
    match m with
    | MInitialize => Done (Ok (RInitialize 0)) w
    | MOpenArchive _ _ => Done (Ok (ROpenArchive 0 (mkArchiveHandle 3))) w
    | MOpenFile _ _ _ _ _ => Done (Ok (ROpenFile 0 5)) (<[5 := []]> w)
    end;
  file_request := file_answer;
|}.

#[export] Instance files_laws : FileLaws files.
Proof.
  refine {| file_bytes s w := w !! s |}; cbn; unfold file_answer.
  - intros s w bs offset size data Hb _ Hs. by rewrite Hb.
  - intros s w bs offset size options data Hb _ Hs. rewrite Hb.
    eexists _, _. split; [done|]. apply lookup_insert_eq.
  - intros s w bs Hb. rewrite Hb. by eexists.
Defined.

Lemma write_read_witness : exists w',
  run (n ← FileHandle_write (mkFileHandle 5) 1 [7; 8; 9] WriteOptions_empty;
       r ← FileHandle_read (mkFileHandle 5) 1 [0; 0; 0];
       sz ← FileHandle_get_size (mkFileHandle 5);
       mret (n, r, sz)) ({[5 := [1; 2]]} : files) =
  Done (Ok 3, (Ok 3, [7; 8; 9]), Ok 4) w'.
Proof.
  apply (file_write_then_read (mkFileHandle 5) 1 [7; 8; 9] [0; 0; 0] WriteOptions_empty
    ({[5 := [1; 2]]} : files) [1; 2]); (reflexivity || cbn; lia).
Defined.

Lemma fs_ok_witness : exists rc, 0 <= rc /\
  fs_user_request 1 (MOpenArchive SDMC (DSPath_as_ser Empty)) (∅ : files) =
    Done (Ok (ROpenArchive rc (mkArchiveHandle 3))) ∅.
Proof.
  destruct (fs_ok_means_success (∅ : files) ∅) as [H _].
  by apply (H (mkFilesystem 1) SDMC Empty (mkArchiveHandle 3)).
Defined.

End FsDemo.
