(* ===== verification/FsAsync.v ===== *)
(** * Asynchronous files (src/fs/async_pool.rs, src/fs/mod.rs)

    The pool of I/O workers and the futures that talk to it through raw
    addresses: a future keeps its atomics and its buffer in memory, queues their
    addresses, and a worker writes the result there before it wakes the task. *)

From Stdlib Require Import ZArith Lia.
From stdpp Require Import base tactics list gmap numbers.
From S2P Require Import Prelude Err Kernel CtruUtils Executor FsTypes FsSync.

(** ** Memory

    The atomics ([AtomicI32], [AtomicU32], [AtomicBool] as 0 or 1) and the byte
    buffers whose addresses are passed around.  An access to an address that is
    not there is undefined behaviour. *)
Record Mem := mkMem {
  cells : gmap Z Z;
  bufs : gmap Z (list Z);
}.

Record FileIoOperation := mkIoOp {
  io_file : Z;
  io_task : TaskToken;
  io_state : Z;
  io_result : Z;
  io_offset : Z;
  io_len : Z;
  io_data_ptr : Z;
}.

Record FileControlOperation := mkCtlOp {
  ctl_file : Z;
  ctl_task : TaskToken;
  ctl_state : Z;
  ctl_done : Z;
}.

Inductive AsyncFsMsg : Type :=
| MsgWrite (op : FileIoOperation)
| MsgRead (op : FileIoOperation)
| MsgFlush (op : FileControlOperation)
| MsgClose (op : FileControlOperation).

Inductive AsyncFsReply : Type := AsyncFsOk.

Record FsWorld (K W : Type) := mkFsWorld {
  fw_mem : Mem;
  ASYNC_FS_POOL : option (SyncQueue AsyncFsMsg);
  fw_kern : K;
  fw_world : W;
}.

Arguments mkFsWorld {K W} fw_mem ASYNC_FS_POOL fw_kern fw_world.
Arguments fw_mem {K W} f.
Arguments ASYNC_FS_POOL {K W} f.
Arguments fw_kern {K W} f.
Arguments fw_world {K W} f.

(** The futures [Read] and [Write]: [iof_state] and [iof_bytes] are the addresses of
    their atomics. *)
Record IoFut := mkIoFut {
  iof_file : Z;
  iof_offset : Z;
  iof_data : Z;
  iof_len : Z;
  iof_state : Z;
  iof_bytes : Z;
  iof_registered : bool;
}.

Definition set_registered (f : IoFut) : IoFut :=
  mkIoFut (iof_file f) (iof_offset f) (iof_data f) (iof_len f) (iof_state f) (iof_bytes f) true.

(** The futures [Flush] and [Close]. *)
Record CtlFut := mkCtlFut {
  ctf_file : Z;
  ctf_res : Z;
  ctf_done : Z;
  ctf_registered : bool;
}.

Definition ctl_registered (f : CtlFut) : CtlFut :=
  mkCtlFut (ctf_file f) (ctf_res f) (ctf_done f) true.

Record AsyncFile := mkAsyncFile {
  af_handle : FileHandle;
  af_cursor : Z;
}.

Definition AsyncFile_wrap (file : FileHandle) : AsyncFile := mkAsyncFile file 0.

Section fs_async.
Context {K W : Type} `{Semaphores K} `{CtruSys} `{FsService W} `{WakeSink W}.

Abbreviation FW := (FsWorld K W).

Definition set_mem (m : Mem) (s : FW) : FW :=
  mkFsWorld m (ASYNC_FS_POOL s) (fw_kern s) (fw_world s).

Definition set_world (w : W) (s : FW) : FW :=
  mkFsWorld (fw_mem s) (ASYNC_FS_POOL s) (fw_kern s) w.

Definition put_pool (qk : SyncQueue AsyncFsMsg * K) (s : FW) : FW :=
  mkFsWorld (fw_mem s) (Some (fst qk)) (snd qk) (fw_world s).

Definition on_world {A} (p : prog W A) : prog FW A := zoom fw_world set_world p.

(** [ASYNC_FS_POOL.get().unwrap()] and a method call on it. *)
Definition on_pool {A} (p : prog (SyncQueue AsyncFsMsg * K) A) : prog FW A :=
  o ← gets ASYNC_FS_POOL;
  q ← unwrap o;
  zoom (fun s => (default q (ASYNC_FS_POOL s), fw_kern s)) put_pool p.

Definition load_cell (a : Z) : prog FW Z :=
  act (fun s => match cells (fw_mem s) !! a with
    | Some v => Done v s
    | None => Undefined
    end).

Definition store_cell (a v : Z) : prog FW unit :=
  act (fun s => match cells (fw_mem s) !! a with
    | Some _ => Done tt (set_mem (mkMem (<[a := v]> (cells (fw_mem s))) (bufs (fw_mem s))) s)
    | None => Undefined
    end).

(** [slice::from_raw_parts]: the buffer at [p], which has [len] bytes. *)
Definition load_buf (p len : Z) : prog FW (list Z) :=
  act (fun s => match bufs (fw_mem s) !! p with
    | Some l => if Z.of_nat (length l) =? len then Done l s else Undefined
    | None => Undefined
    end).

Definition store_buf (p : Z) (l : list Z) : prog FW unit :=
  modify (fun s => set_mem (mkMem (cells (fw_mem s)) (<[p := l]> (bufs (fw_mem s)))) s).

(** *** The worker *)

(** [resolve] of the views of an I/O operation. *)
Definition resolve (state result : Z) (res : BunnyResult Z) : prog FW unit :=
  match res with
  | Ok v => store_cell state 0;; store_cell result (as_u32 v)
  | Err (Ctru (CtruOs os_err)) => store_cell state os_err;; store_cell result 0
  | Err _ => panic
  end.

Definition resolve_ctl (state done : Z) (res : BunnyResult unit) : prog FW unit :=
  match res with
  | Ok _ => store_cell state 0;; store_cell done 1
  | Err (Ctru (CtruOs os_err)) => store_cell state os_err;; store_cell done 1
  | Err _ => panic
  end.

(** [self.executor.wake(task).unwrap()]. *)
Definition worker_wake (t : TaskToken) : prog FW unit := on_world (act (wake_add t)).

(** The [match] of the worker's loop. *)
Definition IoWorker_handle (task : AsyncFsMsg) : prog FW unit :=
  match task with
  | MsgWrite op =>
      data ← load_buf (io_data_ptr op) (io_len op);
      res ← on_world (FileHandle_write (FileHandle_from_raw (io_file op)) (io_offset op) data
                        WriteOptions_empty);
      resolve (io_state op) (io_result op) res;;
      worker_wake (io_task op)
  | MsgRead op =>
      data ← load_buf (io_data_ptr op) (io_len op);
      r ← on_world (FileHandle_read (FileHandle_from_raw (io_file op)) (io_offset op) data);
      store_buf (io_data_ptr op) (snd r);;
      resolve (io_state op) (io_result op) (fst r);;
      worker_wake (io_task op)
  | MsgFlush op =>
      res ← on_world (FileHandle_flush (FileHandle_from_raw (ctl_file op)));
      resolve_ctl (ctl_state op) (ctl_done op) res;;
      worker_wake (ctl_task op)
  | MsgClose op =>
      res ← on_world (FileHandle_close
                        (FileHandle_duplicate (FileHandle_from_raw (ctl_file op))));
      resolve_ctl (ctl_state op) (ctl_done op) res;;
      worker_wake (ctl_task op)
  end.

(** One round of [IoWorker::run]'s loop. *)
Definition IoWorker_round : prog FW unit :=
  r ← on_pool (SyncQueue_wait i64_MAX);
  unwrap (match r with Ok u => Some u | Err _ => None end);;
  o ← on_pool SyncQueue_remove;
  match o with
  | Some task => IoWorker_handle task
  | None => mret tt
  end.

(** *** The futures *)

Definition state_resolve {A} (state : Z) (res : A) : prog FW (Poll (BunnyResult A)) :=
  st ← load_cell state;
  if R_FAILED st || negb (R_SUMMARY st =? RS_SUCCESS)
  then mret (Ready (Err (from_ctru (CtruOs st))))
  else mret (Ready (Ok res)).

(** [Read::new] and [Write::new]: the atomics of a future at [state] and
    [bytes]. *)
Definition io_new (file : FileHandle) (offset buf len state bytes : Z) : prog FW IoFut :=
  modify (fun s => set_mem (mkMem (<[bytes := u32_MAX]> (<[state := 0]> (cells (fw_mem s))))
    (bufs (fw_mem s))) s);;
  mret (mkIoFut (session file) offset buf len state bytes false).

(** The poll of [Read] and of [Write], which differ in the message they queue. *)
Definition io_poll (msg : FileIoOperation -> AsyncFsMsg) (f : IoFut) (waker : Waker) :
    prog FW (Poll (BunnyResult Z) * IoFut) :=
  bytes ← load_cell (iof_bytes f);
  if (bytes =? u32_MAX) && negb (iof_registered f) then
    on_pool (SyncQueue_add (msg (mkIoOp (iof_file f) (from_waker waker) (iof_state f)
      (iof_bytes f) (iof_offset f) (as_u32 (iof_len f)) (iof_data f))));;
    mret (Pending, set_registered f)
  else if iof_registered f && negb (bytes =? u32_MAX) then
    r ← state_resolve (iof_state f) bytes;
    mret (r, f)
  else mret (Pending, f).

Definition Read_poll (f : IoFut) (waker : Waker) : prog FW (Poll (BunnyResult Z) * IoFut) :=
  io_poll MsgRead f waker.

Definition Write_poll (f : IoFut) (waker : Waker) : prog FW (Poll (BunnyResult Z) * IoFut) :=
  io_poll MsgWrite f waker.

Definition Flush_new (file : FileHandle) (res done : Z) : prog FW CtlFut :=
  modify (fun s => set_mem (mkMem (<[done := 0]> (<[res := 0]> (cells (fw_mem s))))
    (bufs (fw_mem s))) s);;
  mret (mkCtlFut (session file) res done false).

Definition Flush_poll (f : CtlFut) (waker : Waker) : prog FW (Poll (BunnyResult unit) * CtlFut) :=
  if negb (ctf_registered f) then
    on_pool (SyncQueue_add (MsgFlush (mkCtlOp (ctf_file f) (from_waker waker) (ctf_res f)
      (ctf_done f))));;
    mret (Pending, ctl_registered f)
  else
    done ← load_cell (ctf_done f);
    if done =? 1 then
      r ← state_resolve (ctf_res f) tt;
      mret (r, f)
    else mret (Pending, f).

(** [Close] sends its message through a session of its own. *)
Definition Close_poll (client_request : AsyncFsMsg -> W -> outcome W (Result AsyncFsReply CtruError))
    (f : CtlFut) (waker : Waker) : prog FW (Poll (BunnyResult unit) * CtlFut) :=
  if negb (ctf_registered f) then
    r ← on_world (act (client_request (MsgClose (mkCtlOp (ctf_file f) (from_waker waker)
      (ctf_res f) (ctf_done f)))));
    match r with
    | Err e => mret (Ready (Err (from_ctru e)), f)
    | Ok _ => mret (Pending, ctl_registered f)
    end
  else
    done ← load_cell (ctf_done f);
    if done =? 1 then
      r ← state_resolve (ctf_res f) tt;
      mret (r, f)
    else mret (Pending, f).

(** *** [AsyncFile] *)

Context `{Profile}.

Definition read_at (file : AsyncFile) (offset buf len state bytes : Z) : prog FW IoFut :=
  io_new (af_handle file) offset buf len state bytes.

Definition write_at (file : AsyncFile) (offset buf len state bytes : Z) : prog FW IoFut :=
  io_new (af_handle file) offset buf len state bytes.

Definition AsyncFile_get_size (file : AsyncFile) : prog FW (BunnyResult Z) :=
  on_world (FileHandle_get_size (af_handle file)).

(** A poll of the [async fn]s [read] and [write] of [AsyncFile], which await the
    future made from [read_at] or [write_at] at the cursor. *)
Definition advance_cursor (file : AsyncFile) (r : Poll (BunnyResult Z)) : prog FW AsyncFile :=
  match r with
  | Ready (Ok v) =>
      c ← arith as_u32 (af_cursor file + as_u32 v);
      mret (mkAsyncFile (af_handle file) c)
  | _ => mret file
  end.

Definition AsyncFile_read_poll (file : AsyncFile) (f : IoFut) (waker : Waker) :
    prog FW (Poll (BunnyResult Z) * IoFut * AsyncFile) :=
  r ← Read_poll f waker;
  file' ← advance_cursor file (fst r);
  mret (r, file').

Definition AsyncFile_write_poll (file : AsyncFile) (f : IoFut) (waker : Waker) :
    prog FW (Poll (BunnyResult Z) * IoFut * AsyncFile) :=
  r ← Write_poll f waker;
  file' ← advance_cursor file (fst r);
  mret (r, file').

End fs_async.
