(* ===== verification/FsPool.v ===== *)
(** * The I/O pool delivers (src/fs/async_pool.rs)

    A worker that serves an operation, interleaved action by action with the
    polls of the future that asked for it; and files read through the cursor. *)

From Stdlib Require Import ZArith Lia.
From stdpp Require Import base tactics list gmap numbers.
From S2P Require Import Prelude Err Kernel CtruUtils Executor FsTypes FsSync FsAsync.

(** ** Publication

    A thread publishes when the states it passes through are first all
    unpublished, then all published, and its last state satisfies a final
    condition. *)
Section publication.
Context {S : Type} (unpub pub final : S -> Prop).

Fixpoint publishes {A} (p : prog S A) (s : S) : Prop :=
  match p with
  | Ret _ => pub s /\ final s
  | Act f => (unpub s \/ pub s) /\
      match f s with
      | Done p' s' => (pub s -> pub s') /\ publishes p' s'
      | Panicked _ | Blocked | Undefined => False
      end
  end.

Lemma publishes_step {A} (p p' : prog S A) s s' :
  publishes p s -> step_prog p s = Some (p', s') -> publishes p' s' /\ (pub s -> pub s').
Proof.
  destruct p as [|f]; [done|]. cbn. intros [_ Hp]. destruct (f s); [|done..].
  intros [= <- <-]. by destruct Hp.
Qed.

Lemma publishes_now {A} (p : prog S A) s : publishes p s -> unpub s \/ pub s.
Proof. destruct p; cbn; tauto. Qed.

Lemma publishes_runs {A} (p : prog S A) s :
  publishes p s -> exists a s', run p s = Done a s' /\ pub s' /\ final s'.
Proof.
  revert s. induction p as [a|f IH] using prog_all_ind; intros s Hp.
  - by exists a, s.
  - destruct Hp as [_ Hp]. destruct (f s) as [p' s'| | |] eqn:E; [|done..].
    destruct (IH _ _ _ E s') as (a & s1 & Hr & Hf); [apply Hp|].
    exists a, s1. split; [|done]. unfold run. fold (@run S A). by rewrite E.
Qed.

Lemma publishes_act {A B} (f : S -> outcome S A) (k : A -> prog S B) s a s' :
  f s = Done a s' -> unpub s \/ pub s -> (pub s -> pub s') -> publishes (k a) s' ->
  publishes (act f ≫= k) s.
Proof. intros E Hs Hp Hk. cbn. by rewrite E. Qed.

(** Work on another part of the state, as long as it stays unpublished. *)
Lemma publishes_zoom {T A B} (get : S -> T) (put : T -> S -> S) (p : prog T A)
    (k : A -> prog S B) s a t' :
  (forall t s, get (put t s) = t) -> (forall t t' s, put t' (put t s) = put t' s) ->
  put (get s) s = s -> (forall t, unpub (put t s)) -> (forall t, ~ pub (put t s)) ->
  run p (get s) = Done a t' -> publishes (k a) (put t' s) ->
  publishes (zoom get put p ≫= k) s.
Proof.
  intros Hgp Hpp Hpg Hu Hnp. rewrite <- Hpg at 3. generalize (get s) as t.
  induction p as [b|f IH] using prog_all_ind; intros t Hr Hk.
  - unfold run in Hr. simplify_eq. exact Hk.
  - unfold run in Hr. fold (@run T A) in Hr. cbn. split; [by left|].
    rewrite Hgp. destruct (f t) as [p' t1| | |] eqn:E; [|done..]. rewrite Hpp.
    split; [by intros []%Hnp|]. by apply (IH _ _ _ E).
Qed.

(** A second thread that only reads, and whose knowledge survives publication,
    keeps it along every interleaving. *)
Lemma publishes_beside {A B} (Q : prog S B -> S -> Prop) (c c' : prog S A * prog S B * S) :
  (forall q s s', (pub s -> pub s') -> Q q s -> Q q s') ->
  (forall q q' s s', unpub s \/ pub s -> Q q s -> step_prog q s = Some (q', s') ->
     s' = s /\ Q q' s) ->
  rtc duo_step c c' ->
  publishes (fst (fst c)) (snd c) -> Q (snd (fst c)) (snd c) ->
  publishes (fst (fst c')) (snd c') /\ Q (snd (fst c')) (snd c').
Proof.
  intros Hmono Hstep. induction 1 as [c|c1 c2 c3 Hst _ IH]; intros Hp Hq; [done|].
  destruct Hst as [p1 p2 q1 s1 s2 E|p1 q1 q2 s1 s2 E]; cbn [fst snd] in *.
  - destruct (publishes_step _ _ _ _ Hp E) as [Hp2 Hm]. apply IH; [done|]. by eapply Hmono.
  - destruct (Hstep _ _ _ _ (publishes_now _ _ Hp) Hq E) as [-> Hq2]. by apply IH.
Qed.

End publication.

Section pool_props.
Context {K W : Type} `{Semaphores K} `{CtruSysLaws} `{!FsService W} `{WakeSinkLaws W}.

Abbreviation FW := (FsWorld K W).

Definition cell (s : FW) (a : Z) : option Z := cells (fw_mem s) !! a.

(** A result code the futures treat as a failure. *)
Definition flags_error (st : Z) : bool := R_FAILED st || negb (R_SUMMARY st =? RS_SUCCESS).

(** The value a future yields once the worker has resolved it; [None] where the
    worker has no answer ([todo!()]) or the value cannot be told from "not done". *)
Definition expected_io (res : BunnyResult Z) : option (BunnyResult Z) :=
  match res with
  | Ok v => if as_u32 v =? u32_MAX then None else Some (Ok (as_u32 v))
  | Err (Ctru (CtruOs e)) => if flags_error e then Some (Err (Ctru (CtruOs e))) else None
  | Err _ => None
  end.

(** The contents of the two atomics then. *)
Definition final_cells (res : BunnyResult Z) : Z * Z :=
  match res with
  | Ok v => (0, as_u32 v)
  | Err (Ctru (CtruOs e)) => (e, 0)
  | Err _ => (0, 0)
  end.

Lemma flags_error_0 : flags_error 0 = false.
Proof. unfold flags_error. by rewrite R_FAILED_neg, R_SUMMARY_0, Z.eqb_refl. Qed.

Definition io_unpub (st rs : Z) (s : FW) : Prop :=
  cell s rs = Some u32_MAX /\ is_Some (cell s st).

Definition io_pub (st rs ptr : Z) (res : BunnyResult Z) (buf : list Z) (s : FW) : Prop :=
  cell s st = Some (fst (final_cells res)) /\ cell s rs = Some (snd (final_cells res)) /\
  bufs (fw_mem s) !! ptr = Some buf.

Definition io_woken (l : list TaskToken) (s : FW) : Prop := wakes (fw_world s) = Some l.

Lemma expected_not_max res r :
  expected_io res = Some r -> snd (final_cells res) <> u32_MAX.
Proof.
  destruct res as [v|[[]| |]]; cbn; try done. by destruct (Z.eqb_spec (as_u32 v) u32_MAX).
Qed.

Lemma run_state_resolve st rs ptr res r buf (s : FW) :
  expected_io res = Some r -> io_pub st rs ptr res buf s ->
  run (state_resolve st (snd (final_cells res))) s = Done (Ready r) s.
Proof.
  intros He (Hst & Hrs & _). unfold state_resolve, load_cell. run_simpl.
  unfold cell in Hst. rewrite Hst. cbn [obind]. fold (flags_error (fst (final_cells res))).
  destruct res as [v|[[]| |]]; simplify_eq/=; case_match; simplify_eq; [|by run_simpl].
  rewrite flags_error_0. by run_simpl.
Qed.

(** A poll of a registered future only reads. *)
Lemma run_io_poll_pub msg f wk st rs ptr res r buf (s : FW) :
  iof_registered f = true -> iof_state f = st -> iof_bytes f = rs ->
  expected_io res = Some r -> io_pub st rs ptr res buf s ->
  run (io_poll msg f wk) s = Done (Ready r, f) s.
Proof.
  intros Hreg <- <- He Hp. pose proof (expected_not_max _ _ He) as Hn.
  unfold io_poll. rewrite run_bind. unfold load_cell at 1. rewrite run_act.
  destruct Hp as (Hst & Hrs & Hb). unfold cell in Hrs. rewrite Hrs. cbn [obind].
  rewrite Hreg, andb_false_r. cbn [andb negb].
  destruct (Z.eqb_spec (snd (final_cells res)) u32_MAX); [done|]. cbn [negb].
  rewrite run_bind, (run_state_resolve _ (iof_bytes f) ptr res r buf) by done.
  done.
Qed.

(** ** The worker publishes *)

(** Storing the result code, then the count, then waking. *)
Lemma resolve_publishes st rs ptr res r buf t l (s : FW) :
  st <> rs -> expected_io res = Some r ->
  io_unpub st rs s -> bufs (fw_mem s) !! ptr = Some buf ->
  wake_ok (fw_world s) -> wakes (fw_world s) = Some l ->
  publishes (io_unpub st rs) (io_pub st rs ptr res buf) (io_woken (l ++ [t]))
    (resolve st rs res;; worker_wake t) s.
Proof.
  intros Hne He [Hrs [v0 Hst]] Hb Hok Hw. pose proof (expected_not_max _ _ He) as Hn.
  assert (resolve st rs res = (store_cell st (fst (final_cells res));;
            store_cell rs (snd (final_cells res)) : prog FW unit)) as ->.
  { by destruct res as [v|[[]| |]]. }
  destruct (final_cells res) as [a b] eqn:Ef. cbn [fst snd] in *. unfold cell in *.
  destruct (wake_add_ok t _ _ Hok Hw) as (w' & Ew & Hw' & _).
  set (s1 := set_mem (mkMem (<[st := a]> (cells (fw_mem s))) (bufs (fw_mem s))) s).
  set (s2 := set_mem (mkMem (<[rs := b]> (cells (fw_mem s1))) (bufs (fw_mem s1))) s1).
  assert (cells (fw_mem s1) !! rs = Some u32_MAX) as Hrs1.
  { cbn. by rewrite lookup_insert_ne. }
  assert (io_pub st rs ptr res buf s2) as Hpub.
  { split; [|split]; unfold cell; rewrite ?Ef; cbn; [|by rewrite lookup_insert_eq|done].
    by rewrite lookup_insert_ne, lookup_insert_eq. }
  assert (~ io_pub st rs ptr res buf s) as Hnp.
  { intros (_ & Hp & _). unfold cell in Hp. rewrite Ef, Hrs in Hp. by injection Hp as [= <-]. }
  assert (~ io_pub st rs ptr res buf s1) as Hnp1.
  { intros (_ & Hp & _). unfold cell in Hp. rewrite Ef, Hrs1 in Hp. by injection Hp as [= <-]. }
  cbn. rewrite Hst. split; [left; split; [done|by eexists]|]. split; [done|].
  fold s1. cbn. fold (cells (fw_mem s1)). change (<[st:=a]> (cells (fw_mem s))) with (cells (fw_mem s1)).
  rewrite Hrs1. split.
  { left. split; [done|]. unfold cell. cbn. rewrite lookup_insert_eq. by eexists. }
  split; [done|]. fold s2. split; [by right|]. match goal with |- context [wake_add t ?x] => change x with (fw_world s) end.
  rewrite Ew. split; [exact (fun h => h)|]. split; [exact Hpub|exact Hw'].
Qed.

Lemma unpub_not_pub st rs ptr res r buf (s : FW) :
  expected_io res = Some r -> io_unpub st rs s -> ~ io_pub st rs ptr res buf s.
Proof.
  intros He [Hrs _] (_ & Hp & _). rewrite Hrs in Hp.
  apply (expected_not_max _ _ He). by injection Hp.
Qed.

(** What the worker does for a read or a write before it resolves it: the
    answer of the service, the new buffer and the new world. *)
Definition io_served (read : bool) (op : FileIoOperation) (data : list Z) (w : W)
    (res : BunnyResult Z) (buf : list Z) (w1 : W) : Prop :=
  if read
  then run (FileHandle_read (mkFileHandle (io_file op)) (io_offset op) data) w = Done (res, buf) w1
  else run (FileHandle_write (mkFileHandle (io_file op)) (io_offset op) data WriteOptions_empty) w =
         Done res w1 /\ buf = data.

Definition io_msg (read : bool) : FileIoOperation -> AsyncFsMsg := if read then MsgRead else MsgWrite.

Lemma worker_publishes read op data res r buf w1 l (s : FW) :
  io_state op <> io_result op -> expected_io res = Some r ->
  io_unpub (io_state op) (io_result op) s ->
  bufs (fw_mem s) !! io_data_ptr op = Some data -> Z.of_nat (length data) = io_len op ->
  io_served read op data (fw_world s) res buf w1 -> wake_ok w1 -> wakes w1 = Some l ->
  publishes (io_unpub (io_state op) (io_result op))
    (io_pub (io_state op) (io_result op) (io_data_ptr op) res buf) (io_woken (l ++ [io_task op]))
    (IoWorker_handle (io_msg read op)) s.
Proof.
  intros Hne He Hu Hb Hlen Hs Hok Hw.
  assert (forall w', ~ io_pub (io_state op) (io_result op) (io_data_ptr op) res buf (set_world w' s))
    as Hnp by (intros w'; by apply (unpub_not_pub _ _ _ _ r)).
  assert (load_buf_ok : forall A (k : list Z -> prog FW A),
    publishes (io_unpub (io_state op) (io_result op))
      (io_pub (io_state op) (io_result op) (io_data_ptr op) res buf)
      (io_woken (l ++ [io_task op])) (k data) s ->
    publishes (io_unpub (io_state op) (io_result op))
      (io_pub (io_state op) (io_result op) (io_data_ptr op) res buf)
      (io_woken (l ++ [io_task op])) (load_buf (io_data_ptr op) (io_len op) ≫= k) s).
  { intros A k. apply publishes_act; [|by left|done]. by rewrite Hb, Hlen, Z.eqb_refl. }
  destruct read; cbn [io_msg IoWorker_handle io_served] in *; apply load_buf_ok.
  - eapply (publishes_zoom _ _ _ fw_world set_world); try done; [by destruct s|].
    eapply publishes_act; [reflexivity|by left|by intros []%Hnp|].
    apply (resolve_publishes _ _ _ _ r); try done. cbn. by rewrite lookup_insert_eq.
  - destruct Hs as [Hs ->].
    eapply (publishes_zoom _ _ _ fw_world set_world); try done; [by destruct s|].
    by apply (resolve_publishes _ _ _ _ r).
Qed.

(** ** The reader *)

(** Where a poll of a registered future can be, and what holds there. *)
Inductive poll_point (read : bool) (f : IoFut) (wk : Waker) (res r : BunnyResult Z)
    (pub : FW -> Prop) : prog FW (Poll (BunnyResult Z) * IoFut) -> FW -> Prop :=
| at_start s : poll_point read f wk res r pub (io_poll (io_msg read) f wk) s
| at_state s : pub s -> poll_point read f wk res r pub
    (x ← state_resolve (iof_state f) (snd (final_cells res)); mret (x, f)) s
| at_pending s : poll_point read f wk res r pub (Ret (Pending, f)) s
| at_ready s : pub s -> poll_point read f wk res r pub (Ret (Ready r, f)) s.

Lemma poll_point_mono read f wk res r (pub : FW -> Prop) q s s' :
  (pub s -> pub s') -> poll_point read f wk res r pub q s -> poll_point read f wk res r pub q s'.
Proof. intros Hp Hq. destruct Hq; constructor; by apply Hp. Qed.

Lemma poll_point_step read f wk res r ptr buf q q' (s s' : FW) :
  iof_registered f = true -> expected_io res = Some r ->
  io_unpub (iof_state f) (iof_bytes f) s \/ io_pub (iof_state f) (iof_bytes f) ptr res buf s ->
  poll_point read f wk res r (io_pub (iof_state f) (iof_bytes f) ptr res buf) q s ->
  step_prog q s = Some (q', s') ->
  s' = s /\ poll_point read f wk res r (io_pub (iof_state f) (iof_bytes f) ptr res buf) q' s.
Proof.
  intros Hreg He Hup Hq. destruct Hq as [s|s Hp|s|s Hp]; cbn; try done.
  - destruct Hup as [[Hrs _]|(Hst & Hrs & Hb)]; unfold cell in *; rewrite Hrs; cbn;
      intros [= <- <-]; split; try done; rewrite Hreg, andb_false_r; cbn.
    + apply at_pending.
    + destruct (Z.eqb_spec (snd (final_cells res)) u32_MAX) as [Hm|_].
      { by apply (expected_not_max _ _ He) in Hm. }
      by apply at_state.
  - pose proof Hp as (Hst & _ & _). unfold cell in Hst. rewrite Hst. cbn.
    pose proof (run_state_resolve _ _ _ _ _ _ _ He Hp) as Hr.
    unfold state_resolve, load_cell in Hr. rewrite run_bind, run_act, Hst in Hr. cbn [obind] in Hr.
    intros [= <- <-]. split; [done|].
    destruct (_ || _); rewrite run_ret in Hr; simplify_eq; cbn; by apply at_ready.
Qed.

(** C4: a read or a write through the pool is completed exactly once the worker
    is done with it, however the worker's actions interleave with a poll.  The
    worker always runs through; a poll that yields a value yields the service's
    answer, and by then the buffer holds the data; once the worker is done, the
    task has been woken and the next poll yields the answer. *)
Theorem pool_completion_is_published read f wk wk' op data res r buf w1 l (s0 : FW) p q s :
  op = mkIoOp (iof_file f) (from_waker wk) (iof_state f) (iof_bytes f) (iof_offset f)
         (iof_len f) (iof_data f) ->
  iof_registered f = true -> iof_state f <> iof_bytes f -> expected_io res = Some r ->
  cell s0 (iof_bytes f) = Some u32_MAX -> is_Some (cell s0 (iof_state f)) ->
  bufs (fw_mem s0) !! iof_data f = Some data -> Z.of_nat (length data) = iof_len f ->
  io_served read op data (fw_world s0) res buf w1 -> wake_ok w1 -> wakes w1 = Some l ->
  rtc duo_step (IoWorker_handle (io_msg read op), io_poll (io_msg read) f wk', s0) (p, q, s) ->
  (exists s', run p s = Done tt s') /\
  (forall x f', q = Ret (Ready x, f') -> x = r /\ bufs (fw_mem s) !! iof_data f = Some buf) /\
  (p = Ret tt -> wakes (fw_world s) = Some (l ++ [from_waker wk]) /\
     run (io_poll (io_msg read) f wk') s = Done (Ready r, f) s).
Proof.
  intros Hop Hreg Hne He Hrs Hst Hb Hlen Hs Hok Hw Hr.
  set (up := io_unpub (iof_state f) (iof_bytes f)).
  set (pb := io_pub (iof_state f) (iof_bytes f) (iof_data f) res buf).
  set (fin := io_woken (l ++ [from_waker wk])).
  assert (publishes up pb fin p s /\ poll_point read f wk' res r pb q s) as [Hp Hq].
  { assert (publishes up pb fin (IoWorker_handle (io_msg read op)) s0) as Hp0.
    { pose proof (worker_publishes read op data res r buf w1 l s0) as Hp0. subst op.
      by apply Hp0. }
    apply (publishes_beside up pb fin (poll_point read f wk' res r pb) _ _
      (fun q s s' => poll_point_mono _ _ _ _ _ _ q s s')
      (fun q q' s s' => poll_point_step _ _ _ _ _ _ _ q q' s s' Hreg He) Hr Hp0). constructor. }
  split; [|split].
  - destruct (publishes_runs _ _ _ _ _ Hp) as ([] & s' & Hrun & _). by exists s'.
  - intros x f' ->. inversion Hq as [| | |? Hpub]; subst. split; [done|]. apply Hpub.
  - intros ->. destruct Hp as [Hpub Hfin]. split; [exact Hfin|].
    by eapply run_io_poll_pub.
Qed.

(** ** Flush and close *)

(** The value and the result code a control operation ends with. *)
Definition expected_ctl (res : BunnyResult unit) : option (BunnyResult unit) :=
  match res with
  | Ok _ => Some (Ok tt)
  | Err (Ctru (CtruOs e)) => if flags_error e then Some (Err (Ctru (CtruOs e))) else None
  | Err _ => None
  end.

Definition ctl_code (res : BunnyResult unit) : Z :=
  match res with Err (Ctru (CtruOs e)) => e | _ => 0 end.

Definition ctl_unpub (st dn : Z) (s : FW) : Prop := cell s dn = Some 0 /\ is_Some (cell s st).

Definition ctl_pub (st dn : Z) (res : BunnyResult unit) (s : FW) : Prop :=
  cell s st = Some (ctl_code res) /\ cell s dn = Some 1.

Lemma ctl_unpub_not_pub st dn res (s : FW) : ctl_unpub st dn s -> ~ ctl_pub st dn res s.
Proof. intros [Hd _] [_ Hp]. rewrite Hd in Hp. by injection Hp. Qed.

Lemma run_ctl_resolve st dn res r (s : FW) :
  expected_ctl res = Some r -> ctl_pub st dn res s ->
  run (state_resolve st tt) s = Done (Ready r) s.
Proof.
  intros He [Hst _]. unfold state_resolve, load_cell. run_simpl. unfold cell in Hst.
  rewrite Hst. cbn [obind]. fold (flags_error (ctl_code res)).
  destruct res as [[]|[[]| |]]; simplify_eq/=; [rewrite flags_error_0|case_match; simplify_eq];
    by run_simpl.
Qed.

(** Storing the result code, then the flag, then waking. *)
Lemma resolve_ctl_publishes st dn res r t l (s : FW) :
  st <> dn -> expected_ctl res = Some r -> ctl_unpub st dn s ->
  wake_ok (fw_world s) -> wakes (fw_world s) = Some l ->
  publishes (ctl_unpub st dn) (ctl_pub st dn res) (io_woken (l ++ [t]))
    (resolve_ctl st dn res;; worker_wake t) s.
Proof.
  intros Hne He Hu Hok Hw.
  assert (resolve_ctl st dn res =
    (store_cell st (ctl_code res);; store_cell dn 1 : prog FW unit)) as ->
    by (by destruct res as [v|[[]| |]]).
  destruct (wake_add_ok t _ _ Hok Hw) as (w' & Ew & Hw' & _).
  set (a := ctl_code res).
  set (s1 := set_mem (mkMem (<[st := a]> (cells (fw_mem s))) (bufs (fw_mem s))) s).
  assert (ctl_unpub st dn s1) as Hu1.
  { destruct Hu as [Hd _]. split; unfold cell; cbn; [by rewrite lookup_insert_ne|].
    rewrite lookup_insert_eq. by eexists. }
  set (s2 := set_mem (mkMem (<[dn := 1]> (cells (fw_mem s1))) (bufs (fw_mem s1))) s1).
  assert (ctl_pub st dn res s2) as Hpub.
  { split; unfold cell; cbn; [|by rewrite lookup_insert_eq].
    by rewrite lookup_insert_ne, lookup_insert_eq. }
  pose proof (ctl_unpub_not_pub _ _ res _ Hu) as Hnp.
  pose proof (ctl_unpub_not_pub _ _ res _ Hu1) as Hnp1.
  pose proof Hu as [_ [v0 Hst]]. pose proof Hu1 as [Hd1 _]. unfold cell in Hst, Hd1.
  cbn. rewrite Hst. split; [by left|]. split; [done|]. fold s1. cbn.
  change (<[st:=a]> (cells (fw_mem s))) with (cells (fw_mem s1)). rewrite Hd1. split; [by left|]. split; [done|]. fold s2. split; [by right|].
  match goal with |- context [wake_add t ?x] => change x with (fw_world s) end.
  rewrite Ew. split; [exact (fun h => h)|]. split; [exact Hpub|exact Hw'].
Qed.

Definition ctl_msg (close : bool) : FileControlOperation -> AsyncFsMsg :=
  if close then MsgClose else MsgFlush.

Definition ctl_request (close : bool) : FileHandle -> prog W (BunnyResult unit) :=
  if close then FileHandle_close else FileHandle_flush.

Lemma worker_publishes_ctl close op res r w1 l (s : FW) :
  ctl_state op <> ctl_done op -> expected_ctl res = Some r ->
  ctl_unpub (ctl_state op) (ctl_done op) s ->
  run (ctl_request close (mkFileHandle (ctl_file op))) (fw_world s) = Done res w1 ->
  wake_ok w1 -> wakes w1 = Some l ->
  publishes (ctl_unpub (ctl_state op) (ctl_done op)) (ctl_pub (ctl_state op) (ctl_done op) res)
    (io_woken (l ++ [ctl_task op])) (IoWorker_handle (ctl_msg close op)) s.
Proof.
  intros Hne He Hu Hs Hok Hw.
  assert (forall w', ~ ctl_pub (ctl_state op) (ctl_done op) res (set_world w' s))
    as Hnp by (intros w'; by apply ctl_unpub_not_pub).
  destruct close; cbn [ctl_msg ctl_request IoWorker_handle] in *;
    (eapply (publishes_zoom _ _ _ fw_world set_world); try done; [by destruct s|]);
    by apply (resolve_ctl_publishes _ _ _ r).
Qed.

(** The futures [Flush] and [Close]; [request] is the session [Close] was made
    with. *)
Definition ctl_poll (close : bool)
    (request : AsyncFsMsg -> W -> outcome W (Result AsyncFsReply CtruError)) :
    CtlFut -> Waker -> prog FW (Poll (BunnyResult unit) * CtlFut) :=
  if close then Close_poll request else Flush_poll.

(** Once registered, both look at the flag and then at the result code. *)
Lemma ctl_poll_registered close request f wk :
  ctf_registered f = true ->
  ctl_poll close request f wk =
  (done ← load_cell (ctf_done f);
   if done =? 1 then r ← state_resolve (ctf_res f) tt; mret (r, f) else mret (Pending, f)).
Proof. intros Hr. destruct close; cbn; unfold Close_poll, Flush_poll; by rewrite Hr. Qed.

Inductive ctl_point (close : bool)
    (request : AsyncFsMsg -> W -> outcome W (Result AsyncFsReply CtruError)) (f : CtlFut)
    (wk : Waker) (r : BunnyResult unit) (pub : FW -> Prop) :
    prog FW (Poll (BunnyResult unit) * CtlFut) -> FW -> Prop :=
| ctl_start s : ctl_point close request f wk r pub (ctl_poll close request f wk) s
| ctl_done_seen s : pub s -> ctl_point close request f wk r pub
    (x ← state_resolve (ctf_res f) tt; mret (x, f)) s
| ctl_pending s : ctl_point close request f wk r pub (Ret (Pending, f)) s
| ctl_ready s : pub s -> ctl_point close request f wk r pub (Ret (Ready r, f)) s.

Lemma ctl_point_step close request f wk res r q q' (s s' : FW) :
  ctf_registered f = true -> expected_ctl res = Some r ->
  ctl_unpub (ctf_res f) (ctf_done f) s \/ ctl_pub (ctf_res f) (ctf_done f) res s ->
  ctl_point close request f wk r (ctl_pub (ctf_res f) (ctf_done f) res) q s ->
  step_prog q s = Some (q', s') ->
  s' = s /\ ctl_point close request f wk r (ctl_pub (ctf_res f) (ctf_done f) res) q' s.
Proof.
  intros Hreg He Hup Hq. destruct Hq as [s|s Hp|s|s Hp]; try done.
  - rewrite ctl_poll_registered by done. cbn.
    destruct Hup as [[Hd _]|[Hst Hd]]; unfold cell in *; rewrite Hd; cbn;
      intros [= <- <-]; (split; [done|]); [apply ctl_pending|by apply ctl_done_seen].
  - cbn. pose proof Hp as [Hst _]. unfold cell in Hst. rewrite Hst. cbn.
    pose proof (run_ctl_resolve _ _ _ _ _ He Hp) as Hr.
    unfold state_resolve, load_cell in Hr. rewrite run_bind, run_act, Hst in Hr. cbn [obind] in Hr.
    intros [= <- <-]. split; [done|].
    destruct (_ || _); rewrite run_ret in Hr; simplify_eq; cbn; by apply ctl_ready.
Qed.

(** C40: a flush or a close through the pool is completed exactly once the worker
    is done with it, however the worker's actions interleave with a poll of the
    future.  The worker always runs through; a poll that yields a value yields the
    service's answer; once the worker is done, the task has been woken and the
    next poll yields the answer. *)
Theorem control_completion_is_published close request f wk wk' op res r w1 l (s0 : FW) p q s :
  op = mkCtlOp (ctf_file f) (from_waker wk) (ctf_res f) (ctf_done f) ->
  ctf_registered f = true -> ctf_res f <> ctf_done f -> expected_ctl res = Some r ->
  cell s0 (ctf_done f) = Some 0 -> is_Some (cell s0 (ctf_res f)) ->
  run (ctl_request close (mkFileHandle (ctf_file f))) (fw_world s0) = Done res w1 ->
  wake_ok w1 -> wakes w1 = Some l ->
  rtc duo_step (IoWorker_handle (ctl_msg close op), ctl_poll close request f wk', s0) (p, q, s) ->
  (exists s', run p s = Done tt s') /\
  (forall x f', q = Ret (Ready x, f') -> x = r) /\
  (p = Ret tt -> wakes (fw_world s) = Some (l ++ [from_waker wk]) /\
     run (ctl_poll close request f wk') s = Done (Ready r, f) s).
Proof.
  intros Hop Hreg Hne He Hd Hst Hs Hok Hw Hr.
  set (up := ctl_unpub (ctf_res f) (ctf_done f)).
  set (pb := ctl_pub (ctf_res f) (ctf_done f) res).
  set (fin := io_woken (l ++ [from_waker wk])).
  assert (publishes up pb fin p s /\ ctl_point close request f wk' r pb q s) as [Hp Hq].
  { assert (publishes up pb fin (IoWorker_handle (ctl_msg close op)) s0) as Hp0
      by (pose proof (worker_publishes_ctl close op res r w1 l s0) as Hp0; subst op; by apply Hp0).
    apply (publishes_beside up pb fin (ctl_point close request f wk' r pb) _ _) in Hr;
      [exact Hr|..|exact Hp0|constructor].
    - intros q1 s1 s2 Hm Hq1. destruct Hq1; constructor; by apply Hm.
    - intros q1 q2 s1 s2. by apply ctl_point_step. }
  split; [|split].
  - destruct (publishes_runs _ _ _ _ _ Hp) as ([] & s' & Hrun & _). by exists s'.
  - intros x f' ->. inversion Hq as [? E| | |]; subst; [|done].
    rewrite ctl_poll_registered in E by done. discriminate E.
  - intros ->. destruct Hp as [Hpub Hfin]. split; [exact Hfin|].
    rewrite ctl_poll_registered by done. rewrite run_bind. unfold load_cell.
    pose proof Hpub as [_ Hdn]. unfold cell in Hdn. rewrite run_act, Hdn. cbn [obind].
    change (1 =? 1) with true. cbn iota. by rewrite run_bind, (run_ctl_resolve _ _ _ _ _ He Hpub).
Qed.

End pool_props.

(** ** Reading through the cursor *)

Section cursor.
Context {K W : Type} `{SemaphoreLaws K} `{CtruSysLaws} `{FileLaws W} `{WakeSinkLaws W} `{Profile}.

(** Waking a task leaves files alone. *)
Hypothesis wake_keeps_files : forall t (w w' : W) s,
  wake_add t w = Done tt w' -> file_bytes s w' = file_bytes s w.

Abbreviation FW := (FsWorld K W).

(** One [file.read(&mut buf).await] with a single worker: the first poll queues
    the operation, the worker serves it, the second poll completes.  [n] is the
    length of the buffer at [ptr]; the result is the bytes at its front. *)
Definition await_read (file : AsyncFile) (n ptr st rs : Z) (wk : Waker) :
    prog FW (Poll (BunnyResult Z) * AsyncFile * list Z) :=
  modify (fun s => set_mem (mkMem (cells (fw_mem s))
    (<[ptr := replicate (Z.to_nat n) 0]> (bufs (fw_mem s)))) s);;
  f ← read_at file (af_cursor file) ptr n st rs;
  r1 ← AsyncFile_read_poll file f wk;
  IoWorker_round;;
  r2 ← AsyncFile_read_poll (snd r1) (snd (fst r1)) wk;
  data ← load_buf ptr n;
  mret (fst (fst r2), snd r2, data).

(** Several reads in a row; the bytes each one got. *)
Fixpoint await_reads (file : AsyncFile) (ns : list Z) (ptr st rs : Z) (wk : Waker) :
    prog FW (option (list (list Z) * AsyncFile)) :=
  match ns with
  | [] => mret (Some ([], file))
  | n :: ns =>
      r ← await_read file n ptr st rs wk;
      match r with
      | (Ready (Ok v), file', data) =>
          rest ← await_reads file' ns ptr st rs wk;
          mret ('(ds, file'') ← rest; Some (take (Z.to_nat v) data :: ds, file''))
      | _ => mret None
      end
  end.

Definition pool_idle (s : FW) : Prop :=
  exists q c, ASYNC_FS_POOL s = Some q /\ vals q = [] /\ queue_sem q (fw_kern s) c.

Lemma run_on_pool {A} (p : prog (SyncQueue AsyncFsMsg * K) A) (s : FW) q :
  ASYNC_FS_POOL s = Some q ->
  run (on_pool p) s =
  obind (run p (q, fw_kern s)) (fun qk => put_pool qk s) (fun a qk => Done a (put_pool qk s)).
Proof.
  intros Hq. unfold on_pool. rewrite run_bind, run_gets. cbn [obind].
  rewrite run_bind, run_unwrap, Hq. cbn [obind]. rewrite run_zoom.
  - by rewrite Hq.
  - by intros [].
  - by intros [] [].
  - rewrite Hq. destruct s; cbn in *; by simplify_eq.
Qed.

(** Queueing an operation on an idle pool and letting a worker take its turn
    serves exactly that operation. *)
Lemma run_queue_and_serve msg (s : FW) :
  pool_idle s ->
  exists s', run (on_pool (SyncQueue_add msg)) s = Done tt s' /\
    fw_mem s' = fw_mem s /\ fw_world s' = fw_world s /\
    exists s'', run IoWorker_round s' = run (IoWorker_handle msg) s'' /\
      fw_mem s'' = fw_mem s /\ fw_world s'' = fw_world s /\ pool_idle s''.
Proof.
  intros (q & c & Hq & Hv & Hs).
  destruct (run_SyncQueue_add msg q (fw_kern s) c Hs) as (k' & c' & E & Hs' & Hc' & _ & _).
  rewrite Hv in E, Hs'. cbn [app] in E, Hs'.
  exists (put_pool (set_vals [msg] q, k') s). rewrite (run_on_pool _ _ q Hq), E.
  split; [done|]. split; [done|]. split; [done|].
  pose proof (run_SyncQueue_wait (set_vals [msg] q) k' c' Hs') as Hwait.
  case_decide; [lia|]. destruct Hwait as (k2 & E2 & Hs2).
  exists (put_pool (set_vals [] q, k2) s). split; [|split; [done|split; [done|]]].
  - unfold IoWorker_round. rewrite run_bind, (run_on_pool _ _ (set_vals [msg] q)) by done.
    cbn [put_pool fw_kern fst snd]. rewrite E2. cbn [obind]. rewrite run_bind, run_unwrap.
    cbn [obind]. rewrite run_bind, (run_on_pool _ _ (set_vals [msg] q)) by done.
    rewrite run_SyncQueue_remove. reflexivity.
  - exists (set_vals [] q), (c' - 1). split; [done|]. split; [done|]. apply Hs2.
Qed.

Lemma run_on_world {A} (p : prog W A) (s : FW) :
  run (on_world p) s =
  obind (run p (fw_world s)) (fun w => set_world w s) (fun a w => Done a (set_world w s)).
Proof. unfold on_world. rewrite run_zoom; [done..|]. by destruct s. Qed.

(** Projections of states that are written out. *)
Ltac fw_simpl :=
  cbn [set_mem set_world fw_mem cells bufs fw_world ASYNC_FS_POOL fw_kern].

(** A read served in full: both atomics, the buffer and the wake-up. *)
Lemma run_IoWorker_read op data v buf (s : FW) l :
  is_Some (cell s (io_state op)) -> is_Some (cell s (io_result op)) ->
  bufs (fw_mem s) !! io_data_ptr op = Some data -> Z.of_nat (length data) = io_len op ->
  run (FileHandle_read (mkFileHandle (io_file op)) (io_offset op) data) (fw_world s) =
    Done (Ok v, buf) (fw_world s) ->
  wake_ok (fw_world s) -> wakes (fw_world s) = Some l ->
  exists w', run (IoWorker_handle (MsgRead op)) s =
    Done tt (mkFsWorld
      (mkMem (<[io_result op := as_u32 v]> (<[io_state op := 0]> (cells (fw_mem s))))
         (<[io_data_ptr op := buf]> (bufs (fw_mem s))))
      (ASYNC_FS_POOL s) (fw_kern s) w') /\
    wake_add (io_task op) (fw_world s) = Done tt w' /\
    wake_ok w' /\ wakes w' = Some (l ++ [io_task op]).
Proof.
  intros [v0 Hst] [v1 Hrs] Hb Hlen Hr Hok Hw.
  destruct (wake_add_ok (io_task op) _ _ Hok Hw) as (w' & Ew & Hw' & Hok').
  exists w'. split; [|done]. cbn [IoWorker_handle]. rewrite run_bind. unfold load_buf.
  rewrite run_act, Hb, Hlen, Z.eqb_refl. cbn [obind].
  rewrite run_bind, run_on_world. unfold FileHandle_from_raw. rewrite Hr. cbn [obind].
  rewrite run_bind. unfold store_buf. rewrite run_modify. cbn [obind fst snd resolve].
  unfold cell in *. destruct s as [[cs bs] pool k w]. cbn in Hst, Hrs, Ew.
  unfold store_cell. run_simpl. fw_simpl. rewrite Hst. cbn [obind]. run_simpl. fw_simpl.
  assert (is_Some (<[io_state op := 0]> cs !! io_result op)) as [v2 ->].
  { destruct (decide (io_state op = io_result op)) as [->|];
      [rewrite lookup_insert_eq|rewrite lookup_insert_ne by done]; by eexists. }
  cbn [obind]. unfold worker_wake. rewrite run_on_world, run_act. fw_simpl. by rewrite Ew.
Qed.

(** The state between two reads. *)
Record read_ready (fd : Z) (bs : list Z) (s : FW) : Prop := {
  rr_pool : pool_idle s;
  rr_file : file_bytes fd (fw_world s) = Some bs;
  rr_wake : wake_ok (fw_world s) /\ is_Some (wakes (fw_world s));
}.

Lemma run_io_first_poll msg f wk (s : FW) :
  iof_registered f = false -> cell s (iof_bytes f) = Some u32_MAX ->
  run (io_poll msg f wk) s =
  obind (run (on_pool (SyncQueue_add (msg (mkIoOp (iof_file f) (from_waker wk) (iof_state f)
      (iof_bytes f) (iof_offset f) (as_u32 (iof_len f)) (iof_data f))))) s) id
    (fun _ s' => Done (Pending, set_registered f) s').
Proof.
  intros Hreg Hc. unfold io_poll, load_cell. rewrite run_bind, run_act. unfold cell in Hc.
  rewrite Hc. cbn [obind]. rewrite Hreg, Z.eqb_refl. cbn [andb negb]. rewrite run_bind.
  by destruct (run (on_pool _) s).
Qed.

Lemma run_AsyncFile_read_poll file f wk (s : FW) :
  run (AsyncFile_read_poll file f wk) s =
  obind (run (io_poll MsgRead f wk) s) id (fun r s' =>
    obind (run (advance_cursor file (fst r)) s') id (fun file' s'' => Done (r, file') s'')).
Proof.
  unfold AsyncFile_read_poll, Read_poll. rewrite run_bind.
  destruct (run (io_poll MsgRead f wk) s) as [r s'| | |]; [|done..]. cbn [obind].
  rewrite run_bind. by destruct (run (advance_cursor _ _) s').
Qed.

(** What a read of [n] bytes at [offset] leaves in a zeroed buffer. *)
Definition filled (bs : list Z) (offset n : Z) : list Z :=
  let got := read_bytes bs offset n in got ++ drop (length got) (replicate (Z.to_nat n) 0).

Definition count_got (bs : list Z) (offset n : Z) : Z := Z.of_nat (length (read_bytes bs offset n)).

(** The first poll queues the read, and the worker's next round publishes it. *)
Lemma run_serve_read f wk bs (s : FW) :
  read_ready (iof_file f) bs s -> iof_registered f = false -> iof_state f <> iof_bytes f ->
  0 <= iof_len f < 2 ^ 32 -> 0 <= iof_offset f ->
  cell s (iof_bytes f) = Some u32_MAX -> is_Some (cell s (iof_state f)) ->
  bufs (fw_mem s) !! iof_data f = Some (replicate (Z.to_nat (iof_len f)) 0) ->
  exists s2 s4, run (io_poll MsgRead f wk) s = Done (Pending, set_registered f) s2 /\
    run IoWorker_round s2 = Done tt s4 /\
    io_pub (iof_state f) (iof_bytes f) (iof_data f) (Ok (count_got bs (iof_offset f) (iof_len f)))
      (filled bs (iof_offset f) (iof_len f)) s4 /\
    read_ready (iof_file f) bs s4.
Proof.
  intros [Hpool Hfile [Hok [l Hl]]] Hreg Hne Hn Ho Hrs Hst Hb.
  set (op := mkIoOp (iof_file f) (from_waker wk) (iof_state f) (iof_bytes f) (iof_offset f)
    (as_u32 (iof_len f)) (iof_data f)).
  destruct (run_queue_and_serve (MsgRead op) s Hpool)
    as (s2 & E2 & Hm2 & Hw2 & s3 & E3 & Hm3 & Hw3 & Hp3).
  destruct (run_IoWorker_read op (replicate (Z.to_nat (iof_len f)) 0)
      (count_got bs (iof_offset f) (iof_len f)) (filled bs (iof_offset f) (iof_len f)) s3 l)
    as (w' & E4 & Ew & Hok' & Hl'); unfold cell in *; rewrite ?Hm3, ?Hw3; try done.
  { cbn. rewrite length_replicate, as_u32_id by (unfold is_u32; lia). lia. }
  { rewrite (run_file_read _ _ _ _ bs) by (done || rewrite length_replicate; lia).
    cbn zeta. rewrite length_replicate, Z2Nat.id by lia. done. }
  rewrite Hw3 in Ew. eexists s2, _. split; [|split; [by rewrite E3|split]].
  - rewrite run_io_first_poll by done. fold op. by rewrite E2.
  - split; [|split]; unfold cell; cbn; [|by rewrite lookup_insert_eq..].
    by rewrite lookup_insert_ne, lookup_insert_eq.
  - split; [exact Hp3| |by split; [|eexists]]. cbn. by rewrite (wake_keeps_files _ _ _ _ Ew).
Qed.

(** One awaited read: the bytes at the cursor, and the cursor behind them. *)
Lemma run_await_read file n ptr st rs wk bs (s : FW) :
  read_ready (session (af_handle file)) bs s -> st <> rs -> 0 <= n < 2 ^ 32 - 1 ->
  0 <= af_cursor file -> af_cursor file + n < 2 ^ 32 ->
  exists s', run (await_read file n ptr st rs wk) s =
      Done (Ready (Ok (count_got bs (af_cursor file) n)),
            mkAsyncFile (af_handle file) (af_cursor file + count_got bs (af_cursor file) n),
            filled bs (af_cursor file) n) s' /\
    read_ready (session (af_handle file)) bs s'.
Proof.
  intros Hrr Hne Hn Hc0 Hc.
  assert (count_got bs (af_cursor file) n <= n) as Hle by (apply length_read_bytes; lia).
  assert (0 <= count_got bs (af_cursor file) n) as Hge by (unfold count_got; lia).
  assert (as_u32 (count_got bs (af_cursor file) n) = count_got bs (af_cursor file) n) as Hcast
    by (apply as_u32_id; unfold is_u32; lia).
  unfold await_read, read_at, io_new. rewrite run_bind, run_modify. cbn [obind].
  rewrite run_bind, run_bind, run_modify. cbn [obind]. rewrite run_ret. cbn [obind].
  match goal with |- context [run _ ?x] => set (s1 := x) end.
  set (f := mkIoFut _ _ _ _ _ _ _).
  destruct (run_serve_read f wk bs s1) as (s2 & s4 & E2 & E3 & Hpub & Hrr'); try done;
    try (by unfold cell; cbn; rewrite lookup_insert_eq);
    try (by unfold cell; cbn; rewrite lookup_insert_ne, lookup_insert_eq by done; eexists);
    [by destruct Hrr; split|cbn; lia|].
  rewrite run_bind, run_AsyncFile_read_poll, E2. cbn [obind fst snd advance_cursor].
  rewrite run_ret. cbn [obind fst snd]. rewrite run_bind, E3. cbn [obind].
  rewrite run_bind, run_AsyncFile_read_poll.
  erewrite (run_io_poll_pub MsgRead (set_registered f)); [|done..| |exact Hpub].
  2:{ cbn -[count_got]. rewrite Hcast. unfold u32_MAX.
      by destruct (Z.eqb_spec (count_got bs (af_cursor file) n) (2 ^ 32 - 1)); [lia|]. }
  cbn [obind fst snd advance_cursor]. rewrite run_bind, Hcast.
  rewrite run_arith_exact by (apply as_u32_id; unfold is_u32; lia).
  cbn [obind]. rewrite run_ret. cbn [obind fst snd]. rewrite run_bind. unfold load_buf.
  rewrite run_act. destruct Hpub as (_ & _ & Hb).
  cbn [iof_data iof_offset iof_len f] in Hb. rewrite Hb. unfold filled at 1.
  rewrite length_app, length_drop, length_replicate.
  unfold count_got in Hle.
  replace (Z.of_nat (_ + _)) with n by lia. rewrite Z.eqb_refl. by exists s4.
Qed.

(** Reading [n] and then [m] bytes is reading [n + m] bytes, also across the end
    of the file. *)
Lemma read_bytes_add bs c n m :
  0 <= c -> 0 <= n -> 0 <= m ->
  read_bytes bs c (n + m) = read_bytes bs c n ++ read_bytes bs (c + count_got bs c n) m.
Proof.
  intros Hc Hn Hm. unfold count_got, read_bytes.
  rewrite (Z2Nat.inj_add c), Nat2Z.id, Z2Nat.inj_add, <- drop_drop by lia.
  set (l := drop (Z.to_nat c) bs). rewrite length_take.
  destruct (Nat.le_ge_cases (Z.to_nat n) (length l)) as [Hle|Hge].
  - rewrite Nat.min_l by done. by rewrite take_take_drop.
  - rewrite Nat.min_r by done. rewrite (drop_ge l (length l)) by done.
    rewrite take_nil, app_nil_r, !take_ge by lia. done.
Qed.

Definition total (ns : list Z) : Z := foldr Z.add 0 ns.

Lemma total_nonneg ns : Forall (fun n => 0 <= n < 2 ^ 32 - 1) ns -> 0 <= total ns.
Proof. induction 1; cbn; [done|]. fold (total l) in *. lia. Qed.

(** C11: reads through [AsyncFile] are contiguous.  Awaiting reads with buffers
    of any sizes, one after the other, yields the bytes of the file from the
    cursor on, in order and without gaps, up to the end of the file; each read
    completes with [Ok], and the cursor ends behind the last byte read. *)
Theorem async_reads_are_contiguous h c ns ptr st rs wk bs (s : FW) :
  read_ready (session h) bs s -> st <> rs ->
  Forall (fun n => 0 <= n < 2 ^ 32 - 1) ns -> 0 <= c -> c + total ns < 2 ^ 32 ->
  exists ds s',
    run (await_reads (mkAsyncFile h c) ns ptr st rs wk) s =
      Done (Some (ds, mkAsyncFile h (c + Z.of_nat (length (concat ds))))) s' /\
    concat ds = read_bytes bs c (total ns).
Proof.
  intros Hrr Hne Hns. revert c s Hrr.
  induction Hns as [|n ns Hn Hns IH]; intros c s Hrr Hc Hb; cbn [await_reads total foldr].
  - exists [], s. rewrite run_ret. cbn. by rewrite Z.add_0_r.
  - fold (total ns) in *. cbn [total foldr] in Hb. fold (total ns) in Hb.
    pose proof (total_nonneg ns Hns) as Ht.
    destruct (run_await_read (mkAsyncFile h c) n ptr st rs wk bs s) as (s1 & E1 & Hrr1);
      [done|done|done|done|cbn; lia|].
    cbn [af_handle af_cursor] in *.
    assert (count_got bs c n <= n) as Hle by (apply length_read_bytes; lia).
    assert (0 <= count_got bs c n) as Hge by (unfold count_got; lia).
    destruct (IH (c + count_got bs c n) s1 Hrr1) as (ds & s' & E & Hds); [lia..|].
    rewrite run_bind, E1. cbn [obind]. rewrite run_bind, E. cbn [obind]. rewrite run_ret.
    assert (take (Z.to_nat (count_got bs c n)) (filled bs c n) = read_bytes bs c n) as ->.
    { unfold count_got, filled. rewrite Nat2Z.id. apply take_app_length. }
    eexists (_ :: ds), s'. cbn. split.
    + do 4 f_equal. rewrite length_app. unfold count_got. lia.
    + by rewrite Hds, read_bytes_add by lia.
Qed.

End cursor.

(** ** Concrete runs *)

Module PoolDemo.

Import FsDemo.

(** Files and a wake queue. *)
Record FWorld := mkFWorld {
  fwd_files : FsDemo.files;
  fwd_wakes : list TaskToken;
}.

Definition lift_files {A} (o : outcome FsDemo.files A) (w : FWorld) : outcome FWorld A :=
  match o with
  | Done a fs => Done a (mkFWorld fs (fwd_wakes w))
  | Panicked fs => Panicked (mkFWorld fs (fwd_wakes w))
  | Blocked => Blocked
  | Undefined => Undefined
  end.

#[export] Instance fworld_service : FsService FWorld := {|
  fs_user_request s m w := lift_files (fs_user_request s m (fwd_files w)) w;
  file_request s m w := lift_files (file_request s m (fwd_files w)) w;
|}.

#[export] Instance fworld_laws : FileLaws FWorld.
Proof.
  refine {| file_bytes s w := fwd_files w !! s |}; cbn; unfold FsDemo.file_answer.
  - intros s w bs offset size data Hb _ Hs. rewrite Hb. cbn. by destruct w.
  - intros s w bs offset size options data Hb _ Hs. rewrite Hb.
    eexists _, _. split; [done|]. apply lookup_insert_eq.
  - intros s w bs Hb. rewrite Hb. cbn. destruct w. by eexists.
Defined.

#[export] Instance fworld_wake : WakeSink FWorld := {|
  wake_add t w := Done tt (mkFWorld (fwd_files w) (fwd_wakes w ++ [t]));
  wakes w := Some (fwd_wakes w);
  wake_ok _ := True;
|}.

#[export] Instance fworld_wake_laws : WakeSinkLaws FWorld.
Proof. split; [|done]. intros t w l _ [= <-]. by eexists. Qed.

(** File 5 holds four bytes; the future's atomics are at 100 and 104, its buffer
    of three bytes at 200. *)
Definition w : FWorld := mkFWorld {[5 := [10; 11; 12; 13]]} [].

Definition pool : SyncQueue AsyncFsMsg := mkSyncQueue 1 [].

Definition kern : RefKernel := mkRefKernel {[1 := (0, 255)]} 2.

Definition fut : IoFut := mkIoFut 5 2 200 3 100 104 true.

Definition op : FileIoOperation := mkIoOp 5 (mkToken 6) 100 104 2 3 200.

Definition s0 : FsWorld RefKernel FWorld :=
  mkFsWorld (mkMem {[100 := 0; 104 := u32_MAX]} {[200 := [0; 0; 0]]}) (Some pool) kern w.

(** The end of the worker's turn: two bytes were left in the file. *)
Definition s1 : FsWorld RefKernel FWorld :=
  mkFsWorld (mkMem {[100 := 0; 104 := 2]} {[200 := [12; 13; 0]]}) (Some pool) kern
    (mkFWorld {[5 := [10; 11; 12; 13]]} [mkToken 6]).

Lemma completion_witness : run (io_poll MsgRead fut (mkWaker 6)) s1 = Done (Ready (Ok 2), fut) s1.
Proof.
  apply (pool_completion_is_published true fut (mkWaker 6) (mkWaker 6) op [0; 0; 0] (Ok 2) (Ok 2)
    [12; 13; 0] w [] s0 (Ret tt) (Ret (Pending, fut)) s1); try reflexivity.
  - discriminate.
  - by exists 0.
  - apply (run_duo_rtc [false; true; true; true; true; true; true]). vm_compute. reflexivity.
Defined.

(** A flush of the same file whose flag was polled before the worker set it. *)
Definition flush_fut : CtlFut := mkCtlFut 5 100 104 true.

Definition flush_s (done : Z) (l : list TaskToken) : FsWorld RefKernel FWorld :=
  mkFsWorld (mkMem {[100 := 0; 104 := done]} ∅) (Some pool) kern
    (mkFWorld {[5 := [10; 11; 12; 13]]} l).

Lemma control_witness :
  run (Flush_poll flush_fut (mkWaker 6)) (flush_s 1 [mkToken 6]) =
  Done (Ready (Ok tt), flush_fut) (flush_s 1 [mkToken 6]).
Proof.
  apply (control_completion_is_published false (fun _ w => Done (Ok AsyncFsOk) w) flush_fut
    (mkWaker 6) (mkWaker 6) (mkCtlOp 5 (mkToken 6) 100 104) (Ok tt) (Ok tt) w [] (flush_s 0 [])
    (Ret tt) (Ret (Pending, flush_fut)) (flush_s 1 [mkToken 6])); try reflexivity.
  - discriminate.
  - by exists 0.
  - apply (run_duo_rtc [false; true; true; true; true]). vm_compute. reflexivity.
Defined.

#[local] Instance checked : Profile := true.

Lemma keeps_files t (w1 w2 : FWorld) s :
  wake_add t w1 = Done tt w2 -> file_bytes s w2 = file_bytes s w1.
Proof. by intros [= <-]. Qed.

Lemma contiguous_witness :
  exists ds s', run (await_reads (mkAsyncFile (mkFileHandle 5) 1) [1; 5] 200 100 104 (mkWaker 6)) s0 =
    Done (Some (ds, mkAsyncFile (mkFileHandle 5) (1 + Z.of_nat (length (concat ds))))) s' /\
  concat ds = [11; 12; 13].
Proof.
  apply (async_reads_are_contiguous (K:=RefKernel) (W:=FWorld)
    keeps_files (mkFileHandle 5) 1 [1; 5] 200 100 104
    (mkWaker 6) [10; 11; 12; 13] s0); try lia.
  - split; [exists pool, 0; by repeat split|reflexivity|]. by repeat split; eexists.
  - repeat constructor; lia.
  - cbn; lia.
Defined.

End PoolDemo.
