(* ===== verification/NetSync.v ===== *)
(** * The socket service (src/net_sync/mod.rs)

    Socket addresses as the service encodes them, the calls of [SocketService],
    and the blocking TCP sockets on top of them.  The service behind [soc:U], the
    address types of [socket2] and the constants of [libc] are parameters. *)

From Stdlib Require Import ZArith Lia.
From stdpp Require Import base tactics list gmap numbers strings.
From S2P Require Import Prelude Err.

(** ** Addresses *)

Record SocketAddrV4 := mkAddrV4 {
  ip : list Z;
  port : Z;
}.

Inductive SocketAddr : Type :=
| V4 (addr : SocketAddrV4)
| V6 (ip : list Z) (port : Z).

(** [socket2::SockAddr]: the family and the bytes of the storage behind it, with
    the length given to [SockAddr::new]. *)
Record SockAddr := mkSockAddr {
  family : Z;
  sa_data : list Z;
  sa_len : Z;
}.

Class NetLib := {
  AF_INET : Z;
  SOCK_STREAM : Z;
  storage_len : nat;
  SockAddr_from : SocketAddrV4 -> SockAddr;
  as_socket_ipv4 : SockAddr -> option SocketAddrV4;
}.

Definition wf_addr (a : SocketAddrV4) : Prop :=
  length (ip a) = 4%nat /\ Forall is_u8 (ip a) /\ 0 <= port a < 2 ^ 16.

(** The layout of [sockaddr_in]: the port in network order and the address in
    front; [AF_INET] fits a byte. *)
Definition sin_bytes (a : SocketAddrV4) : list Z :=
  Z.shiftr (port a) 8 :: as_u8 (port a) :: ip a.

Class NetLibLaws `{NetLib} : Prop := {
  AF_INET_byte : 0 < AF_INET < 2 ^ 8;
  storage_fits : (26 <= storage_len)%nat;
  from_family : forall a, family (SockAddr_from a) = AF_INET;
  from_data : forall a, wf_addr a -> take 6 (sa_data (SockAddr_from a)) = sin_bytes a;
  from_len : forall a, length (sa_data (SockAddr_from a)) = storage_len;
  as_ipv4_law : forall s a, wf_addr a -> family s = AF_INET -> take 6 (sa_data s) = sin_bytes a ->
    as_socket_ipv4 s = Some a;
}.

(** [ptr::copy_nonoverlapping]: [n] bytes from the front of [src] over the front
    of [dst].  A copy past the end of either is undefined behaviour. *)
Definition copy_nonoverlapping {S} (src dst : list Z) (n : Z) : prog S (list Z) :=
  if (n <=? Z.of_nat (length src)) && (n <=? Z.of_nat (length dst))
  then mret (take (Z.to_nat n) src ++ drop (Z.to_nat n) dst)
  else undefined.

(** [usize] is 32 bits wide. *)
Definition as_usize (z : Z) : Z := as_u32 z.

Section addresses.
Context `{NetLib} {S : Type} `{Profile}.

Definition sockaddr_as_bytes (addr : SocketAddrV4) : prog S (list Z) :=
  let addr := SockAddr_from addr in
  if negb (family addr =? AF_INET) then panic
  else
    data ← copy_nonoverlapping (sa_data addr) (replicate 6 0) 6;
    mret (8 :: as_u8 (family addr) :: data).

(** Indexing [tmpaddr] panics past its end. *)
Definition read_sockaddr (tmpaddr : list Z) : prog S SockAddr :=
  fam ← unwrap (tmpaddr !! 1%nat);
  len ← unwrap (tmpaddr !! 0%nat);
  let sa_family := as_u16 fam in
  user_addrlen ← (if sa_family =? as_u16 AF_INET then arith as_usize (len + 8) else mret len);
  n ← arith as_usize (user_addrlen - 2);
  data ← copy_nonoverlapping (drop 2 tmpaddr) (replicate storage_len 0) n;
  mret (mkSockAddr sa_family data (as_u32 user_addrlen)).

End addresses.

(** ** Messages *)

Record PollFlags := mkPollFlags { flag_bits : Z }.

Definition POLLIN : PollFlags := mkPollFlags 0x01.

Definition POLLPRI : PollFlags := mkPollFlags 0x02.

Definition POLLWRNORM : PollFlags := mkPollFlags 0x08.

Definition POLLWRBAND : PollFlags := mkPollFlags 0x10.

Definition POLLNVAL : PollFlags := mkPollFlags 0x20.

Definition POLLOUT : PollFlags := mkPollFlags 0x08.

Definition PollFlags_empty : PollFlags := mkPollFlags 0.

Definition PollFlags_or (a b : PollFlags) : PollFlags :=
  mkPollFlags (Z.lor (flag_bits a) (flag_bits b)).

Definition contains (a b : PollFlags) : bool :=
  Z.land (flag_bits a) (flag_bits b) =? flag_bits b.

Record PollFd := mkPollFd {
  fd : Z;
  poll_in : PollFlags;
  poll_out : PollFlags;
}.

Definition PollFd_new (fd : Z) (poll_in : PollFlags) : PollFd :=
  mkPollFd fd poll_in PollFlags_empty.

Definition PollFd_default : PollFd := mkPollFd 0 PollFlags_empty PollFlags_empty.

Inductive SocketMessage : Type :=
| SmInitialize (mem_size process_handle memory_handle : Z)
| SmSocket (domain ty protocol process_handle : Z)
| SmListen (socket max_conns process_handle : Z)
| SmAccept (socket max_addrlen process_handle : Z) (output_addr : list Z)
| SmBind (socket socket_len process_handle : Z) (addr : list Z)
| SmConnect (socket socket_len process_handle : Z) (addr : list Z)
| SmRecvFrom (socket len flags addr_len process_handle : Z) (output src_addr : list Z)
| SmSendTo (socket len flags addr_len process_handle : Z) (data addr : list Z)
| SmClose (socket process_handle : Z)
| SmShutdown (socket how process_handle : Z)
| SmPoll (fds_len timeout process_handle : Z) (fds_in fds_out : list PollFd)
| SmFcntl (socket cmd arg process_handle : Z)
| SmShutdownSockets.

Inductive SocketReply : Type :=
| SrInit (res : Z)
| SrSocket (res desc : Z)
| SrListen (res posix : Z)
| SrAccept (res posix : Z)
| SrBind (res posix : Z)
| SrConnect (res posix : Z)
| SrRecvFrom (res posix rxed : Z)
| SrSendTo (res posix : Z)
| SrClose (res posix : Z)
| SrShutdown (res posix : Z)
| SrFcntl (res posix : Z)
| SrPoll (res posix : Z)
| SrShutdownSockets (res : Z).

(** The output buffers of a request, as the service leaves them. *)
Record SocOut := mkSocOut {
  out_data : list Z;
  out_addr : list Z;
  out_fds : list PollFd;
}.

Class SocService (W : Type) := {
  memalign : Z -> Z -> W -> outcome W Z;
  svcCreateMemoryBlock : Z -> Z -> Z -> Z -> W -> outcome W (Z * Z);
  srvGetServiceHandle : string -> W -> outcome W (Z * Z);
  socket_request : Z -> SocketMessage -> W -> outcome W (Result SocketReply CtruError * SocOut);
}.

Record SocketService := mkSocketService {
  memory_handle : Z;
  soc_inner : Z;
}.

Record SocketHandle := mkSocketHandle { sock_fd : Z }.

Record TcpSocket := mkTcpSocket {
  tcp_addr : SocketAddrV4;
  tcp_handle : SocketHandle;
}.

Record TcpListener := mkTcpListener { listener_inner : TcpSocket }.

(** ** The calls of the service

    The state is the static [SOCKET_SERVICES] and the world. *)
Section service.
Context {W : Type} `{SocService W} `{CtruSys} `{Libc} `{NetLib} `{Profile}.

Abbreviation NS := (option SocketService * W)%type.

(** [self.inner.request(..)?] *)
Definition request_out (session : Z) (m : SocketMessage) :
    prog NS (BunnyResult (SocketReply * SocOut)) :=
  r ← on_snd (act (socket_request session m));
  mret (match fst r with Ok a => Ok (a, snd r) | Err e => Err (from_ctru e) end).

Definition request (soc : SocketService) (m : SocketMessage) : prog NS (BunnyResult SocketReply) :=
  r ←? request_out (soc_inner soc) m;
  mret (Ok (fst r)).

(** [ds_try!(res_code); net_try(posix_code)?;] and what follows. *)
Definition both_try {A} (res_code posix_code : Z) (k : prog NS (BunnyResult A)) :
    prog NS (BunnyResult A) :=
  ds_try_bunny res_code (_ ←? net_try posix_code; k).

Definition SocketService_init : prog NS (BunnyResult unit) :=
  let num_bytes := 0x100000 in
  socket_memory ← on_snd (act (memalign 0x1000 num_bytes));
  block ← on_snd (act (svcCreateMemoryBlock (as_u32 socket_memory) (as_u32 num_bytes) 0 3));
  ds_try_bunny (fst block) (
    let shared_mem := snd block in
    service ← on_snd (act (srvGetServiceHandle "soc:U"));
    ds_try_bunny (fst service) (
      let handle := snd service in
      reply ←? request_out handle (SmInitialize (as_u32 num_bytes) 0 shared_mem);
      match fst reply with
      | SrInit res_code =>
          ds_try_bunny res_code (
            modify (fun '(s, w) =>
              (match s with Some x => Some x | None => Some (mkSocketService shared_mem handle) end, w));;
            mret (Ok tt))
      | _ => panic
      end)).

Definition net_init : prog NS (BunnyResult unit) :=
  s ← gets fst;
  match s with
  | Some _ => mret (Ok tt)
  | None => SocketService_init
  end.

Definition create_socket (soc : SocketService) : prog NS (BunnyResult SocketHandle) :=
  reply ←? request soc (SmSocket AF_INET SOCK_STREAM 0 0);
  match reply with
  | SrSocket res desc => ds_try_bunny res (mret (Ok (mkSocketHandle desc)))
  | _ => panic
  end.

Definition soc_connect (soc : SocketService) (socket : SocketHandle) (addr : SocketAddrV4) :
    prog NS (BunnyResult unit) :=
  addr ← sockaddr_as_bytes addr;
  reply ←? request soc (SmConnect (sock_fd socket) (as_u32 (Z.of_nat (length addr))) 0 addr);
  match reply with
  | SrConnect res_code posix_code => both_try res_code posix_code (mret (Ok tt))
  | _ => panic
  end.

Definition soc_bind (soc : SocketService) (socket : SocketHandle) (addr : SocketAddrV4) :
    prog NS (BunnyResult unit) :=
  addr ← sockaddr_as_bytes addr;
  reply ←? request soc (SmBind (sock_fd socket) (as_u32 (Z.of_nat (length addr))) 0 addr);
  match reply with
  | SrBind res_code posix_code => both_try res_code posix_code (mret (Ok tt))
  | _ => panic
  end.

Definition soc_listen (soc : SocketService) (socket : SocketHandle) : prog NS (BunnyResult unit) :=
  reply ←? request soc (SmListen (sock_fd socket) 8 0);
  match reply with
  | SrListen res_code posix_code => both_try res_code posix_code (mret (Ok tt))
  | _ => panic
  end.

Definition soc_close (soc : SocketService) (socket : SocketHandle) : prog NS (BunnyResult unit) :=
  reply ←? request soc (SmClose (sock_fd socket) 0);
  match reply with
  | SrClose res_code posix_code => both_try res_code posix_code (mret (Ok tt))
  | _ => panic
  end.

(** Dropping a socket handle closes the socket; the result is discarded. *)
Definition SocketHandle_drop (socket : SocketHandle) : prog NS unit :=
  s ← gets fst;
  soc ← unwrap s;
  soc_close soc socket;;
  mret tt.

(** Code that owns a socket handle it gives away only with its [Ok] result: an
    early return and a panic drop the handle. *)
Definition owning {A} (socket : SocketHandle) (body : prog NS (BunnyResult A)) :
    prog NS (BunnyResult A) :=
  r ← catch_unwind body;
  match r with
  | Ok (Ok a) => mret (Ok a)
  | Ok (Err e) => SocketHandle_drop socket;; mret (Err e)
  | Err _ => SocketHandle_drop socket;; panic
  end.

Definition soc_accept (soc : SocketService) (socket : SocketHandle) :
    prog NS (BunnyResult (SocketHandle * SocketAddrV4)) :=
  let tmpaddr := replicate 0x1C 0 in
  r ←? request_out (soc_inner soc)
         (SmAccept (sock_fd socket) (as_u32 (Z.of_nat (length tmpaddr))) 0 tmpaddr);
  let tmpaddr := out_addr (snd r) in
  match fst r with
  | SrAccept res_code posix_code =>
      _ ←? (if res_code =? 0 then net_try posix_code else mret (Ok tt));
      let fd := mkSocketHandle (as_u32 posix_code) in
      owning fd (
        a ← read_sockaddr tmpaddr;
        a ← unwrap (as_socket_ipv4 a);
        mret (Ok (fd, a)))
  | _ => panic
  end.

Definition send_to (soc : SocketService) (socket : SocketHandle) (addr : SocketAddrV4)
    (data : list Z) : prog NS (BunnyResult unit) :=
  if negb (Z.of_nat (length data) <? 0x2000) then panic
  else
    addr ← sockaddr_as_bytes addr;
    reply ←? request soc (SmSendTo (sock_fd socket) (as_u32 (Z.of_nat (length data))) 0
               (as_u32 (Z.of_nat (length addr))) 0 data addr);
    match reply with
    | SrSendTo res_code posix_code => both_try res_code posix_code (mret (Ok tt))
    | _ => panic
    end.

(** [recvfrom]: the number of bytes received, and the caller's buffer. *)
Definition recvfrom (soc : SocketService) (socket : SocketHandle) (data : list Z) :
    prog NS (BunnyResult (Z * list Z)) :=
  if negb (Z.of_nat (length data) <? 0x2000) then panic
  else
    r ←? request_out (soc_inner soc)
           (SmRecvFrom (sock_fd socket) (as_u32 (Z.of_nat (length data))) 0 0x1C 0 data
              (replicate 0x1C 0));
    match fst r with
    | SrRecvFrom res_code posix_code data_rxed =>
        both_try res_code posix_code (mret (Ok (data_rxed, out_data (snd r))))
    | _ => panic
    end.

Definition soc_poll (soc : SocketService) (poll_fds out : list PollFd) (timeout : Z) :
    prog NS (BunnyResult (list PollFd)) :=
  if negb (length poll_fds =? length out)%nat then panic
  else
    r ←? request_out (soc_inner soc)
           (SmPoll (as_u32 (Z.of_nat (length poll_fds))) timeout 0 poll_fds out);
    match fst r with
    | SrPoll res_code posix_code =>
        both_try res_code posix_code (mret (Ok (out_fds (snd r))))
    | _ => panic
    end.

Definition soc_set_nonblock (soc : SocketService) (socket : SocketHandle) :
    prog NS (BunnyResult unit) :=
  reply ←? request soc (SmFcntl (sock_fd socket) 0x4 0x4 0);
  match reply with
  | SrFcntl res_code posix_code => both_try res_code posix_code (mret (Ok tt))
  | _ => panic
  end.

Definition soc_shutdown (soc : SocketService) (socket : SocketHandle) (read write : bool) :
    prog NS (BunnyResult unit) :=
  let how := if read && write then 2 else if write && negb read then 1 else 0 in
  reply ←? request soc (SmShutdown (sock_fd socket) how 0);
  match reply with
  | SrShutdown res_code posix_code => both_try res_code posix_code (mret (Ok tt))
  | _ => panic
  end.

Definition shutdown_service_inner (soc : SocketService) : prog NS (BunnyResult unit) :=
  reply ←? request soc SmShutdownSockets;
  match reply with
  | SrShutdownSockets res_code => ds_try_bunny res_code (mret (Ok tt))
  | _ => panic
  end.

Definition SocketService_drop (soc : SocketService) : prog NS unit :=
  shutdown_service_inner soc;; mret tt.

(** [shutdown_service(self)]: the service is dropped when it returns. *)
Definition shutdown_service (soc : SocketService) : prog NS (BunnyResult unit) :=
  r ← shutdown_service_inner soc;
  SocketService_drop soc;;
  mret r.

(** *** TCP sockets *)

(** [SOCKET_SERVICES.get().unwrap()] *)
Definition services : prog NS SocketService :=
  s ← gets fst; unwrap s.

(** [addr.to_socket_addrs().unwrap().next().unwrap()], and the pattern that only
    takes IPv4; [addrs] is what the address resolves to. *)
Definition first_v4 (addrs : option (list SocketAddr)) : prog NS SocketAddrV4 :=
  l ← unwrap addrs;
  a ← unwrap (head l);
  match a with
  | V4 addr => mret addr
  | V6 _ _ => panic
  end.

Definition TcpSocket_connect (addrs : option (list SocketAddr)) : prog NS (BunnyResult TcpSocket) :=
  soc ← services;
  fd ←? create_socket soc;
  owning fd (
    addr ← first_v4 addrs;
    _ ←? soc_connect soc fd addr;
    mret (Ok (mkTcpSocket addr fd))).

Definition TcpSocket_bind (addrs : option (list SocketAddr)) : prog NS (BunnyResult TcpListener) :=
  soc ← services;
  fd ←? create_socket soc;
  owning fd (
    addr ← first_v4 addrs;
    _ ←? soc_bind soc fd addr;
    _ ←? soc_listen soc fd;
    mret (Ok (mkTcpListener (mkTcpSocket addr fd)))).

Definition TcpSocket_recv (s : TcpSocket) (rd_buf : list Z) : prog NS (BunnyResult (Z * list Z)) :=
  soc ← services;
  recvfrom soc (tcp_handle s) rd_buf.

Definition TcpSocket_send (s : TcpSocket) (data : list Z) : prog NS (BunnyResult unit) :=
  soc ← services;
  send_to soc (tcp_handle s) (tcp_addr s) data.

Definition TcpSocket_poll (s : TcpSocket) (events : PollFlags) (timeout : Z) :
    prog NS (BunnyResult PollFlags) :=
  let in_fds := [PollFd_new (sock_fd (tcp_handle s)) events] in
  soc ← services;
  out ←? soc_poll soc in_fds [PollFd_default] timeout;
  o ← unwrap (head out);
  mret (Ok (poll_out o)).

Definition TcpSocket_set_nonblock (s : TcpSocket) : prog NS (BunnyResult unit) :=
  soc ← services;
  _ ←? soc_set_nonblock soc (tcp_handle s);
  mret (Ok tt).

(** [io::Write]: the error is its text. *)
Definition TcpSocket_write (s : TcpSocket) (buf : list Z) : prog NS (Result Z string) :=
  let buf := if Z.of_nat (length buf) >=? 0x2000 then take (0x2000 - 1) buf else buf in
  r ← TcpSocket_send s buf;
  match r with
  | Err e => mret (Err (fmt e))
  | Ok _ => mret (Ok (Z.of_nat (length buf)))
  end.

Definition TcpListener_accept (l : TcpListener) : prog NS (BunnyResult TcpSocket) :=
  soc ← services;
  r ←? soc_accept soc (tcp_handle (listener_inner l));
  mret (Ok (mkTcpSocket (snd r) (fst r))).

End service.
