(* ===== verification/NetProps.v ===== *)
(** * Sockets behave (src/net_sync/mod.rs)

    The encoding of addresses, the life of a socket descriptor, and what writes
    and accepts report. *)

From Stdlib Require Import ZArith Lia.
From stdpp Require Import base tactics list gmap numbers strings.
From S2P Require Import Prelude Err NetSync.

Section address_props.
Context `{NetLibLaws} {S : Type} `{Profile}.

Lemma length_sin_bytes a : wf_addr a -> length (sin_bytes a) = 6%nat.
Proof. intros (Hl & _). cbn. by rewrite Hl. Qed.

(** The encoding: length, family, port in network order, address. *)
Lemma run_sockaddr_as_bytes a (s : S) :
  wf_addr a -> run (sockaddr_as_bytes a) s = Done (8 :: AF_INET :: sin_bytes a) s.
Proof.
  intros Ha. unfold sockaddr_as_bytes, copy_nonoverlapping.
  rewrite from_family, Z.eqb_refl. cbn [negb]. rewrite from_len, length_replicate.
  pose proof storage_fits. pose proof AF_INET_byte.
  destruct (Z.leb_spec 6 (Z.of_nat storage_len)); [|lia]. cbn [andb].
  rewrite run_bind. change (6 <=? Z.of_nat 6) with true. cbn iota. rewrite run_ret. cbn [obind].
  rewrite run_ret. change (Z.to_nat 6) with 6%nat. rewrite from_data by done.
  rewrite app_nil_r. by rewrite as_u8_id by (unfold is_u8; lia).
Qed.

Lemma as_u16_small z : 0 <= z < 2 ^ 16 -> as_u16 z = z.
Proof. apply Z.mod_small. Qed.

(** Reading the buffer of an accept in which the service wrote an address. *)
Lemma run_read_sockaddr a (s : S) :
  wf_addr a ->
  exists r, run (read_sockaddr (8 :: AF_INET :: sin_bytes a ++ replicate 20 0)) s = Done r s /\
    family r = AF_INET /\ take 6 (sa_data r) = sin_bytes a /\ sa_len r = 16.
Proof.
  intros Ha. pose proof AF_INET_byte. pose proof storage_fits.
  pose proof (length_sin_bytes a Ha) as Hl.
  unfold read_sockaddr. cbn [lookup list_lookup unwrap].
  rewrite run_bind, run_ret. cbn [obind]. rewrite run_bind, run_ret. cbn [obind].
  rewrite Z.eqb_refl. rewrite run_bind, run_arith_exact by done. cbn [obind].
  rewrite run_bind, run_arith_exact by done. cbn [obind].
  rewrite run_bind. change (drop 2 _) with (sin_bytes a ++ replicate 20 0).
  unfold copy_nonoverlapping.
  rewrite length_app, Hl, !length_replicate.
  change (8 + 8 - 2) with 14. change (14 <=? Z.of_nat (6 + 20)) with true.
  destruct (Z.leb_spec 14 (Z.of_nat storage_len)); [|lia]. cbn [andb].
  rewrite run_ret. cbn [obind]. rewrite run_ret. eexists. split; [done|]. cbn [family sa_data sa_len].
  split; [by rewrite as_u16_small by lia|]. split; [|done].
  change (Z.to_nat 14) with (6 + 8)%nat.
  rewrite take_app_le by (rewrite length_take, length_app, Hl, length_replicate; lia).
  rewrite take_take. change (6 `min` (6 + 8))%nat with 6%nat.
  by rewrite <- Hl, take_app_length.
Qed.

(** C19: an IPv4 address survives the service's encoding.  The eight bytes sent
    for an address are the length, the family, the port in network order and the
    four address bytes; read back from the 28-byte buffer of an [accept], they
    give the same address, and neither direction panics. *)
Theorem sockaddr_round_trip a (s : S) :
  wf_addr a ->
  run (bytes ← sockaddr_as_bytes a;
       r ← read_sockaddr (bytes ++ replicate 20 0);
       mret (bytes, as_socket_ipv4 r)) s =
  Done (8 :: AF_INET :: Z.shiftr (port a) 8 :: as_u8 (port a) :: ip a, Some a) s.
Proof.
  intros Ha. rewrite run_bind, run_sockaddr_as_bytes by done. cbn [obind app].
  destruct (run_read_sockaddr a s Ha) as (r & Hr & Hf & Hd & _).
  rewrite run_bind, Hr. cbn [obind].
  rewrite run_ret. by rewrite (as_ipv4_law r a).
Qed.

End address_props.

Section socket_props.
Context {W : Type} `{SocService W} `{CtruSysLaws} `{Libc} `{NetLibLaws} `{Profile}.

Abbreviation NS := (option SocketService * W)%type.

Lemma run_request_out session m (c : option SocketService) (w w' : W) reply out :
  socket_request session m w = Done (Ok reply, out) w' ->
  run (request_out session m) (c, w) = Done (Ok (reply, out)) (c, w').
Proof. intros E. unfold request_out. run_simpl. rewrite E. by run_simpl. Qed.

Lemma run_request soc m (c : option SocketService) (w w' : W) reply out :
  socket_request (soc_inner soc) m w = Done (Ok reply, out) w' ->
  run (request soc m) (c, w) = Done (Ok reply) (c, w').
Proof.
  intros E. unfold request. rewrite run_try_bind, (run_request_out _ _ _ _ _ _ _ E). by run_simpl.
Qed.

Lemma run_both_try {A} posix (k : prog NS (BunnyResult A)) (s : NS) :
  run (both_try 0 posix k) s = obind (run (net_try posix) s) id (fun r s' =>
    match r with Ok _ => run k s' | Err e => Done (Err e) s' end).
Proof. unfold both_try, ds_try_bunny. rewrite ds_try_0. apply run_try_bind. Qed.

(** The service answers a close of [desc] with success. *)
Definition closes (soc : SocketService) (desc : Z) (w w' : W) : Prop :=
  exists posix out, 0 <= posix /\
    socket_request (soc_inner soc) (SmClose desc 0) w = Done (Ok (SrClose 0 posix), out) w'.

Lemma run_net_try_ok posix (s : NS) : 0 <= posix -> run (net_try posix) s = Done (Ok tt) s.
Proof. intros Hp. unfold net_try. by destruct (Z.geb_spec posix 0); [|lia]. Qed.

Lemma run_SocketHandle_drop soc desc (w w' : W) :
  closes soc desc w w' ->
  run (SocketHandle_drop (mkSocketHandle desc)) (Some soc, w) = Done tt (Some soc, w').
Proof.
  intros (posix & out & Hp & E). unfold SocketHandle_drop. run_simpl. unfold soc_close.
  rewrite run_try_bind, (run_request _ _ _ _ _ _ _ E). cbn [obind].
  rewrite run_both_try, run_net_try_ok by done. by run_simpl.
Qed.

(** [owning] hands an [Ok] through, and closes the descriptor otherwise. *)
Lemma run_owning_ok {A} fd (body : prog NS (BunnyResult A)) s a s' :
  run body s = Done (Ok a) s' -> run (owning fd body) s = Done (Ok a) s'.
Proof. intros E. unfold owning. rewrite run_bind, run_catch_unwind, E. by run_simpl. Qed.

Lemma run_owning_err {A} soc desc (body : prog NS (BunnyResult A)) s e (w w' : W) :
  run body s = Done (Err e) (Some soc, w) -> closes soc desc w w' ->
  run (owning (mkSocketHandle desc) body) s = Done (Err e) (Some soc, w').
Proof.
  intros E Hc. unfold owning. rewrite run_bind, run_catch_unwind, E. cbn [obind].
  rewrite run_bind, (run_SocketHandle_drop _ _ _ _ Hc). by run_simpl.
Qed.

Lemma run_owning_panic {A} soc desc (body : prog NS (BunnyResult A)) s (w w' : W) :
  run body s = Panicked (Some soc, w) -> closes soc desc w w' ->
  run (owning (mkSocketHandle desc) body) s = Panicked (Some soc, w').
Proof.
  intros E Hc. unfold owning. rewrite run_bind, run_catch_unwind, E. cbn [obind].
  rewrite run_bind, (run_SocketHandle_drop _ _ _ _ Hc). by run_simpl.
Qed.

(** The part of [connect] and [bind] before the socket is used. *)
Lemma run_create_socket soc desc out (w w1 : W) :
  socket_request (soc_inner soc) (SmSocket AF_INET SOCK_STREAM 0 0) w =
    Done (Ok (SrSocket 0 desc), out) w1 ->
  run (create_socket soc) (Some soc, w) = Done (Ok (mkSocketHandle desc)) (Some soc, w1).
Proof.
  intros E. unfold create_socket. rewrite run_try_bind, (run_request _ _ _ _ _ _ _ E).
  cbn [obind]. unfold ds_try_bunny. by rewrite ds_try_0.
Qed.

Lemma run_soc_connect soc fd a posix out (w w2 : W) :
  wf_addr a ->
  socket_request (soc_inner soc) (SmConnect (sock_fd fd) 8 0 (8 :: AF_INET :: sin_bytes a)) w =
    Done (Ok (SrConnect 0 posix), out) w2 ->
  run (soc_connect soc fd a) (Some soc, w) =
  obind (run (net_try posix) (Some soc, w2)) id (fun r s' =>
    match r with Ok _ => Done (Ok tt) s' | Err e => Done (Err e) s' end).
Proof.
  intros Ha E. unfold soc_connect. rewrite run_bind, run_sockaddr_as_bytes by done. cbn [obind].
  cbn [length]. rewrite length_sin_bytes by done. change (as_u32 (Z.of_nat 8)) with 8.
  rewrite run_try_bind, (run_request _ _ _ _ _ _ _ E). cbn [obind]. by rewrite run_both_try.
Qed.

(** C12: [TcpSocket::connect] gives the socket to the caller or closes it.  If
    the service connects, the socket is returned open and nothing else is
    requested; if it reports one of the known errors, the descriptor is closed
    and the caller gets that errno; if it reports an unknown code, the call
    panics, and the descriptor is closed on the way out. *)
Theorem connect_closes_on_failure soc desc a rest posix out1 out2 (w w1 w2 w3 : W) :
  wf_addr a -> is_i32 posix ->
  socket_request (soc_inner soc) (SmSocket AF_INET SOCK_STREAM 0 0) w =
    Done (Ok (SrSocket 0 desc), out1) w1 ->
  socket_request (soc_inner soc) (SmConnect desc 8 0 (8 :: AF_INET :: sin_bytes a)) w1 =
    Done (Ok (SrConnect 0 posix), out2) w2 ->
  closes soc desc w2 w3 ->
  run (TcpSocket_connect (Some (V4 a :: rest))) (Some soc, w) =
    if 0 <=? posix then Done (Ok (mkTcpSocket a (mkSocketHandle desc))) (Some soc, w2)
    else match ERROR_MAP !! Z.to_nat (- posix) with
         | Some no => Done (Err (LibcErr no)) (Some soc, w3)
         | None => Panicked (Some soc, w3)
         end.
Proof.
  intros Ha Hp E1 E2 Hc. unfold TcpSocket_connect, services.
  rewrite run_bind, run_bind, run_gets. cbn [obind fst unwrap]. rewrite run_ret. cbn [obind].
  rewrite run_try_bind, (run_create_socket _ _ _ _ _ E1). cbn [obind].
  set (body := (_ ≫= _) : prog NS (BunnyResult TcpSocket)).
  assert (run body (Some soc, w1) =
    obind (run (net_try posix) (Some soc, w2)) id (fun r s' =>
      match r with
      | Ok _ => Done (Ok (mkTcpSocket a (mkSocketHandle desc))) s'
      | Err e => Done (Err e) s'
      end)) as Hbody.
  { unfold body, first_v4. run_simpl. cbn [head]. run_simpl.
    rewrite (run_soc_connect soc (mkSocketHandle desc) a posix out2 w1 w2) by done.
    destruct (run (net_try posix) (Some soc, w2)) as [[]| | |]; by run_simpl. }
  destruct (Z.leb_spec 0 posix) as [Hge|Hlt].
  - apply run_owning_ok. by rewrite Hbody, run_net_try_ok by done.
  - rewrite run_net_try_neg in Hbody by (done || lia).
    destruct (ERROR_MAP !! Z.to_nat (- posix)) as [no|]; cbn [obind id] in Hbody;
      [by apply (run_owning_err _ _ _ _ _ w2)|by apply (run_owning_panic _ _ _ _ w2)].
Qed.

(** C27: [write] on a socket sends at most 0x1fff bytes and never trips the
    assertion of [send_to]: whatever the buffer, it sends the longest prefix
    below 0x2000 bytes and, when the service accepts the request, reports that
    many bytes as written, whatever count the service returned. *)
Theorem write_sends_a_bounded_prefix soc sock buf posix out (w w1 : W) :
  let n := Z.min (Z.of_nat (length buf)) 0x1fff in
  wf_addr (tcp_addr sock) -> 0 <= posix ->
  socket_request (soc_inner soc)
    (SmSendTo (sock_fd (tcp_handle sock)) n 0 8 0 (take (Z.to_nat n) buf)
       (8 :: AF_INET :: sin_bytes (tcp_addr sock))) w =
    Done (Ok (SrSendTo 0 posix), out) w1 ->
  run (TcpSocket_write sock buf) (Some soc, w) = Done (Ok n) (Some soc, w1).
Proof.
  intros n Ha Hp E.
  set (buf' := if Z.of_nat (length buf) >=? 0x2000 then take (0x2000 - 1) buf else buf).
  assert (buf' = take (Z.to_nat n) buf) as Hbuf.
  { unfold buf', n. destruct (Z.geb_spec (Z.of_nat (length buf)) 0x2000).
    - rewrite Z.min_r by lia. f_equal; lia.
    - rewrite take_ge by lia. done. }
  assert (Z.of_nat (length buf') = n) as Hlen by (rewrite Hbuf, length_take; lia).
  unfold TcpSocket_write, TcpSocket_send, services. fold buf'.
  rewrite run_bind, run_bind, run_bind, run_gets. cbn [obind fst unwrap]. rewrite run_ret.
  cbn [obind]. unfold send_to. rewrite Hlen.
  destruct (Z.ltb_spec n 0x2000); [|lia]. cbn [negb].
  rewrite run_bind, run_sockaddr_as_bytes by done. cbn [obind length].
  rewrite length_sin_bytes by done. change (as_u32 (Z.of_nat 8)) with 8.
  rewrite as_u32_id by (unfold is_u32; lia). rewrite <- Hbuf in E.
  rewrite run_try_bind, (run_request _ _ _ _ _ _ _ E). cbn [obind].
  rewrite run_both_try, run_net_try_ok by done. cbn [obind]. rewrite run_ret. cbn [obind].
  by rewrite run_ret.
Qed.

Lemma run_owning_undefined {A} fd (body : prog NS (BunnyResult A)) s :
  run body s = Undefined -> run (owning fd body) s = Undefined.
Proof. intros E. unfold owning. by rewrite run_bind, run_catch_unwind, E. Qed.

(** Reading an address buffer the service left untouched: it announces length 0,
    from which 2 is subtracted for the copy. *)
Lemma run_read_untouched (s : NS) :
  run (read_sockaddr (replicate 0x1C 0)) s = if overflow_checks then Panicked s else Undefined.
Proof.
  unfold read_sockaddr. cbn [replicate lookup list_lookup unwrap].
  rewrite run_bind, run_ret. cbn [obind]. rewrite run_bind, run_ret. cbn [obind].
  pose proof AF_INET_byte. rewrite (as_u16_small AF_INET) by lia. change (as_u16 0) with 0.
  destruct (Z.eqb_spec 0 AF_INET); [lia|]. rewrite run_bind, run_ret. cbn [obind].
  rewrite run_bind, run_arith. change (as_usize (0 - 2) =? 0 - 2) with false. cbn iota.
  destruct overflow_checks; [done|]. cbn [obind]. rewrite run_bind.
  unfold copy_nonoverlapping. change (as_usize (0 - 2) <=? _) with false at 1.
  cbn [andb]. by rewrite run_undefined.
Qed.

(** C37: an [accept] that the service refuses is never reported to the caller.
    The result code is not propagated; the untouched address buffer announces
    length 0, and reading it subtracts 2 from that.  With overflow checks the
    subtraction panics, and the descriptor made up from the return value is closed
    on the way out; without them the copy of 2^32 - 2 bytes past both buffers is
    undefined behaviour. *)
Theorem refused_accept_is_not_reported soc sock res_code posix out (w w1 w2 : W) :
  res_code <> 0 -> out_addr out = replicate 0x1C 0 ->
  socket_request (soc_inner soc) (SmAccept (sock_fd sock) 0x1C 0 (replicate 0x1C 0)) w =
    Done (Ok (SrAccept res_code posix), out) w1 ->
  closes soc (as_u32 posix) w1 w2 ->
  run (soc_accept soc sock) (Some soc, w) =
    if overflow_checks then Panicked (Some soc, w2) else Undefined.
Proof.
  intros Hrc Hout E Hc. unfold soc_accept. rewrite length_replicate.
  change (as_u32 (Z.of_nat 0x1C)) with 0x1C.
  rewrite run_try_bind, (run_request_out _ _ _ _ _ _ _ E). cbn [obind fst snd].
  destruct (Z.eqb_spec res_code 0); [done|]. rewrite run_try_bind, run_ret. cbn [obind].
  rewrite Hout. pose proof (run_read_untouched (Some soc, w1)) as Hr.
  destruct overflow_checks;
    [apply (run_owning_panic soc (as_u32 posix) _ _ w1 w2); [|done]|apply run_owning_undefined];
    by rewrite run_bind, Hr.
Qed.

End socket_props.

(** ** Concrete runs *)

Module NetDemo.

#[export] Instance net_lib : NetLib := {|
  AF_INET := 2;
  SOCK_STREAM := 1;
  storage_len := 26;
  SockAddr_from a := mkSockAddr 2 (take 26 (sin_bytes a ++ replicate 26 0)) 16;
  as_socket_ipv4 s :=
    match sa_data s with
    | hi :: lo :: a :: b :: c :: d :: _ =>
        if family s =? 2 then Some (mkAddrV4 [a; b; c; d] (256 * hi + lo)) else None
    | _ => None
    end;
|}.

#[export] Instance net_lib_laws : NetLibLaws.
Proof.
  split; try done; try (cbn; lia).
  - intros a Ha. pose proof (length_sin_bytes a Ha) as Hl.
    change (take 6 (take 26 (sin_bytes a ++ replicate 26 0)) = sin_bytes a).
    rewrite take_take. change (6 `min` 26)%nat with 6%nat. by rewrite <- Hl, take_app_length.
  - intros a. change (length (take 26 (sin_bytes a ++ replicate 26 0)) = 26%nat).
    rewrite length_take, length_app, length_replicate. lia.
  - intros s a (Hl & _ & Hp) Hf Hd. destruct a as [[|a [|b [|c [|d []]]]] p]; try done.
    unfold sin_bytes in Hd. cbn in Hd, Hp, Hf |- *.
    destruct (sa_data s) as [|hi [|lo [|a' [|b' [|c' [|d' l]]]]]]; try done.
    injection Hd as -> -> -> -> -> ->. rewrite Hf. cbn. do 2 f_equal.
    rewrite Z.shiftr_div_pow2 by lia. unfold as_u8. pose proof (Z.div_mod p (2 ^ 8)). lia.
Qed.

(** A service that logs its requests, refuses connections and accepts, and
    sends one byte at a time. *)
Definition answer (m : SocketMessage) : SocketReply :=
  match m with
  | SmInitialize _ _ _ => SrInit 0
  | SmSocket _ _ _ _ => SrSocket 0 3
  | SmListen _ _ _ => SrListen 0 0
  | SmAccept _ _ _ _ => SrAccept (-5) 0
  | SmBind _ _ _ _ => SrBind 0 0
  | SmConnect _ _ _ _ => SrConnect 0 (-14)
  | SmRecvFrom _ _ _ _ _ _ _ => SrRecvFrom 0 0 0
  | SmSendTo _ _ _ _ _ _ _ => SrSendTo 0 1
  | SmClose _ _ => SrClose 0 0
  | SmShutdown _ _ _ => SrShutdown 0 0
  | SmPoll _ _ _ _ _ => SrPoll 0 1
  | SmFcntl _ _ _ _ => SrFcntl 0 0
  | SmShutdownSockets => SrShutdownSockets 0
  end.

#[export] Instance log_service : SocService (list SocketMessage) := {|
  memalign _ _ w := Done 0x8000000 w;
  svcCreateMemoryBlock _ _ _ _ w := Done (0, 21) w;
  srvGetServiceHandle _ w := Done (0, 22) w;
  socket_request _ m w := Done (Ok (answer m), mkSocOut [] (replicate 0x1C 0) []) (w ++ [m]);
|}.

#[local] Instance checked : Profile := true.

Definition soc : SocketService := mkSocketService 21 22.

Definition home : SocketAddrV4 := mkAddrV4 [192; 168; 0; 7] 8080.

Lemma home_wf : wf_addr home.
Proof. split; [done|]. split; [repeat constructor; lia|cbn; lia]. Qed.

Lemma close_ok desc (w : list SocketMessage) : closes soc desc w (w ++ [SmClose desc 0]).
Proof. exists 0, (mkSocOut [] (replicate 0x1C 0) []). by split. Qed.

Lemma round_trip_witness :
  run (bytes ← sockaddr_as_bytes home;
       r ← read_sockaddr (bytes ++ replicate 20 0);
       mret (bytes, as_socket_ipv4 r)) tt =
  Done ([8; 2; 31; 144; 192; 168; 0; 7], Some home) tt.
Proof. exact (sockaddr_round_trip home tt home_wf). Defined.

(** A refused connection: socket, connect, close. *)
Lemma connect_witness :
  run (TcpSocket_connect (Some [V4 home])) (Some soc, []) =
  Done (Err (LibcErr 111)) (Some soc,
    [SmSocket 2 1 0 0; SmConnect 3 8 0 [8; 2; 31; 144; 192; 168; 0; 7]; SmClose 3 0]).
Proof.
  refine (connect_closes_on_failure soc 3 home [] (-14) (mkSocOut [] (replicate 0x1C 0) [])
    (mkSocOut [] (replicate 0x1C 0) []) [] [SmSocket 2 1 0 0]
    [SmSocket 2 1 0 0; SmConnect 3 8 0 [8; 2; 31; 144; 192; 168; 0; 7]]
    [SmSocket 2 1 0 0; SmConnect 3 8 0 [8; 2; 31; 144; 192; 168; 0; 7]; SmClose 3 0]
    home_wf _ _ _ (close_ok 3 _));
    [unfold is_i32; lia|reflexivity|reflexivity].
Defined.

(** The service took one byte of three; three are reported. *)
Lemma write_witness :
  run (TcpSocket_write (mkTcpSocket home (mkSocketHandle 3)) [1; 2; 3]) (Some soc, []) =
  Done (Ok 3) (Some soc, [SmSendTo 3 3 0 8 0 [1; 2; 3] [8; 2; 31; 144; 192; 168; 0; 7]]).
Proof.
  apply (write_sends_a_bounded_prefix soc (mkTcpSocket home (mkSocketHandle 3)) [1; 2; 3] 1
    (mkSocOut [] (replicate 0x1C 0) []) []); [exact home_wf|lia|reflexivity].
Defined.

Lemma accept_witness :
  run (soc_accept soc (mkSocketHandle 3)) (Some soc, []) =
  Panicked (Some soc, [SmAccept 3 0x1C 0 (replicate 0x1C 0); SmClose 0 0]).
Proof.
  refine (refused_accept_is_not_reported soc (mkSocketHandle 3) (-5) 0
    (mkSocOut [] (replicate 0x1C 0) []) [] [SmAccept 3 0x1C 0 (replicate 0x1C 0)]
    [SmAccept 3 0x1C 0 (replicate 0x1C 0); SmClose 0 0] _ _ _ (close_ok 0 _));
    [lia|reflexivity|reflexivity].
Defined.

End NetDemo.
