(* ===== verification/Net.v ===== *)
(** * Asynchronous sockets (src/net.rs)

    A socket has a worker thread that polls it on behalf of the tasks that found
    it not ready, and wakes them.  The state is the queue of interests with the
    kernel, the socket service, and the world of the tasks. *)

From Stdlib Require Import ZArith Lia.
From stdpp Require Import base tactics list gmap numbers strings.
From S2P Require Import Prelude Err Kernel CtruUtils Executor ExecutorSys Join Sync Oneshot CtruThread NetSync NetProps.

Inductive PollInterest : Type := IRead | IWrite.

Abbreviation Interest := (TaskToken * PollInterest)%type.

(** [tunables::net] *)
Definition SOCKET_WORKER_STACK_SIZE : Z := 1024 * 1024.

Definition SOCKET_POLL_TIMEOUT : Z := 100.

(** The two vectors of the worker. *)
Record Interests := mkInterests {
  read_interests : list TaskToken;
  write_interests : list TaskToken;
}.

Definition no_interests : Interests := mkInterests [] [].

Definition is_empty (i : Interests) : bool :=
  match read_interests i, write_interests i with [], [] => true | _, _ => false end.

Definition push_interest (i : Interests) (x : Interest) : Interests :=
  match x with
  | (task, IRead) => mkInterests (read_interests i ++ [task]) (write_interests i)
  | (task, IWrite) => mkInterests (read_interests i) (write_interests i ++ [task])
  end.

Record AsyncTcpSocket := mkAsyncTcpSocket {
  interests_queue : SyncQueue Interest;
  async_inner : TcpSocket;
}.

Record AsyncTcpListener := mkAsyncTcpListener { async_listener : TcpListener }.

Definition AsyncTcpListener_wrap (socket : TcpListener) : AsyncTcpListener :=
  mkAsyncTcpListener socket.

Section net.
Context {K W : Type} `{Semaphores K} `{SocService W} `{CtruSys} `{Libc} `{NetLib} `{Profile}
  `{WakeSink W}.

Abbreviation NS := (option SocketService * W)%type.

Abbreviation QK := (SyncQueue Interest * K)%type.

Abbreviation NW := (QK * NS)%type.

(** *** The worker thread *)

(** The wait at the top of the loop. *)
Definition socket_wait (i : Interests) : prog NW unit :=
  if is_empty i then
    r ← on_fst (SyncQueue_wait i64_MAX);
    unwrap (match r with Ok u => Some u | Err _ => None end)
  else mret tt.

(** [for .. in interests_queue.vals.lock().drain(..)] *)
Definition socket_drain (i : Interests) : prog NW Interests :=
  l ← on_fst (act (fun '(q, k) => Done (vals q) (set_vals [] q, k)));
  mret (fold_left push_interest l i).

Fixpoint wake_tasks (ts : list TaskToken) : prog NW unit :=
  match ts with
  | [] => mret tt
  | t :: ts => on_snd (on_snd (act (wake_add t)));; wake_tasks ts
  end.

(** The rest of the loop: the poll and the wake-ups. *)
Definition socket_poll_and_wake (socket : TcpSocket) (i : Interests) : prog NW Interests :=
  let has_write := match write_interests i with [] => false | _ => true end in
  let timeout := if has_write then -1 else SOCKET_POLL_TIMEOUT in
  let flags := if has_write then PollFlags_or POLLIN POLLOUT else POLLIN in
  r ← on_snd (TcpSocket_poll socket flags timeout);
  poll_out ← unwrap (match r with Ok p => Some p | Err _ => None end);
  i ← (if contains poll_out POLLOUT
       then wake_tasks (write_interests i);; mret (mkInterests (read_interests i) [])
       else mret i);
  if contains poll_out POLLIN
  then wake_tasks (read_interests i);; mret (mkInterests [] (write_interests i))
  else mret i.

Definition socket_worker_round (socket : TcpSocket) (i : Interests) : prog NW Interests :=
  socket_wait i;;
  i ← socket_drain i;
  socket_poll_and_wake socket i.

(** *** The futures *)

(** [Recv::poll]: what it yields, and the buffer. *)
Definition Recv_poll (socket : TcpSocket) (data : list Z) (waker : Waker) :
    prog NW (Poll (BunnyResult Z) * list Z) :=
  r ← on_snd (TcpSocket_recv socket data);
  match r with
  | Ok (res, data') => mret (Ready (Ok res), data')
  | Err (LibcErr no) =>
      if no =? errno_val EAGAIN then
        on_fst (SyncQueue_add (from_waker waker, IRead));;
        mret (Pending, data)
      else mret (Ready (Err (LibcErr no)), data)
  | Err e => mret (Ready (Err e), data)
  end.

Definition SendFuture_poll (socket : TcpSocket) (data : list Z) (waker : Waker) :
    prog NW (Poll (BunnyResult unit)) :=
  r ← on_snd (TcpSocket_send socket data);
  match r with
  | Ok _ => mret (Ready (Ok tt))
  | Err (LibcErr no) =>
      if no =? errno_val EAGAIN then
        on_fst (SyncQueue_add (from_waker waker, IWrite));;
        mret Pending
      else mret (Ready (Err (LibcErr no)))
  | Err e => mret (Ready (Err e))
  end.

(** *** Making sockets *)

(** The executor's port, and the creation of a thread with a given stack. *)
Variable executor_port : W -> option Z.
Variable executor_session : Z -> W -> outcome W (Result Z CtruError).
Variable thread_spawn : Z -> W -> outcome W (option Z).

Definition unwrap_ok {S A Er} (r : Result A Er) : prog S A :=
  unwrap (match r with Ok a => Some a | Err _ => None end).

Definition AsyncTcpSocket_wrap (socket : TcpSocket) : prog (K * NS) AsyncTcpSocket :=
  r ← on_snd (TcpSocket_set_nonblock socket);
  unwrap_ok r;;
  q ← on_fst SyncQueue_new;
  mret (mkAsyncTcpSocket q socket).

(** [run], up to the start of the worker. *)
Definition AsyncTcpSocket_run (port : Z) : prog (K * NS) Z :=
  s ← on_snd (on_snd (act (executor_session port)));
  unwrap_ok s;;
  t ← on_snd (on_snd (act (thread_spawn SOCKET_WORKER_STACK_SIZE)));
  unwrap t.

(** The closure [connect] and [accept] map over the oneshot receiver. *)
Definition socket_ready (v : option (BunnyResult TcpSocket)) :
    prog (K * NS) (BunnyResult AsyncTcpSocket) :=
  v ← unwrap v;
  match v with
  | Err e => mret (Err e)
  | Ok socket =>
      s ← AsyncTcpSocket_wrap socket;
      p ← gets (fun st => executor_port (snd (snd st)));
      p ← unwrap p;
      AsyncTcpSocket_run p;;
      mret (Ok s)
  end.

(** A poll of the future of [connect] or [accept]. *)
Definition socket_future_poll `{WakeSink (K * NS)} (waker : Waker) :
    prog (OneshotState (BunnyResult TcpSocket) * (K * NS)) (Poll (BunnyResult AsyncTcpSocket)) :=
  r ← OneshotReceiver_poll waker;
  match r with
  | Pending => mret Pending
  | Ready v => s ← on_snd (socket_ready v); mret (Ready s)
  end.

(** The threads behind them. *)
Definition connect_thread `{WakeSink NS} (addr : SocketAddr) :
    prog (OneshotState (BunnyResult TcpSocket) * NS) unit :=
  blocking_main (TcpSocket_connect (Some [addr])).

Definition accept_thread `{WakeSink NS} (l : AsyncTcpListener) :
    prog (OneshotState (BunnyResult TcpSocket) * NS) unit :=
  blocking_main (TcpListener_accept (async_listener l)).

Definition AsyncTcpSocket_bind (addrs : option (list SocketAddr)) :
    prog NS (BunnyResult AsyncTcpListener) :=
  l ←? TcpSocket_bind addrs;
  mret (Ok (AsyncTcpListener_wrap l)).

End net.
