(* ===== verification/NetWorker.v ===== *)
(** * The socket worker serves its tasks (src/net.rs)

    What a round of the worker wakes, that it sleeps only when nobody waits, and
    the path of a task that found its socket empty. *)

From Stdlib Require Import ZArith Lia.
From stdpp Require Import base tactics list gmap numbers strings.
From S2P Require Import Prelude Err Kernel CtruUtils Executor ExecutorSys Join Sync Oneshot CtruThread NetSync NetProps Net.

(** The tasks of a list of interests that wait for one kind of event. *)
Definition readers (l : list Interest) : list TaskToken :=
  omap (fun x => match x with (t, IRead) => Some t | _ => None end) l.

Definition writers (l : list Interest) : list TaskToken :=
  omap (fun x => match x with (t, IWrite) => Some t | _ => None end) l.

Lemma fold_push_interest l i :
  fold_left push_interest l i =
  mkInterests (read_interests i ++ readers l) (write_interests i ++ writers l).
Proof.
  revert i. induction l as [|[t []] l IH]; intros i; cbn.
  - rewrite !app_nil_r. by destruct i.
  - rewrite IH. cbn. by rewrite <- app_assoc.
  - rewrite IH. cbn. by rewrite <- app_assoc.
Qed.

(** What the worker asks the socket for. *)
Definition asked_flags (ws : list TaskToken) : PollFlags :=
  match ws with [] => POLLIN | _ => PollFlags_or POLLIN POLLOUT end.

Definition asked_timeout (ws : list TaskToken) : Z :=
  match ws with [] => SOCKET_POLL_TIMEOUT | _ => -1 end.

Section worker_props.
Context {K W : Type} `{SemaphoreLaws K} `{SocService W} `{CtruSysLaws} `{Libc} `{NetLib} `{Profile}
  `{WakeSinkLaws W}.

Abbreviation NS := (option SocketService * W)%type.

Abbreviation QK := (SyncQueue Interest * K)%type.

Abbreviation NW := (QK * NS)%type.

Lemma run_wake_tasks ts (qk : QK) c (w : W) l :
  wake_ok w -> wakes w = Some l ->
  exists w', run (wake_tasks ts) (qk, (c, w)) = Done tt (qk, (c, w')) /\
    wakes w' = Some (l ++ ts) /\ wake_ok w'.
Proof.
  revert w l. induction ts as [|t ts IH]; intros w l Hok Hw; cbn [wake_tasks].
  - exists w. by rewrite app_nil_r.
  - destruct (wake_add_ok t w l Hok Hw) as (w1 & E1 & Hw1 & Hok1).
    destruct (IH w1 _ Hok1 Hw1) as (w' & Hr & Hw' & Hok').
    exists w'. rewrite run_bind, run_on_snd, run_on_snd, run_act, E1. cbn [obind].
    rewrite Hr. by rewrite <- app_assoc in Hw'.
Qed.

(** The poll of the worker and its wake-ups. *)
Lemma run_poll_and_wake socket rs ws (qk : QK) (ns : NS) p c (w : W) l :
  run (TcpSocket_poll socket (asked_flags ws) (asked_timeout ws)) ns = Done (Ok p) (c, w) ->
  wake_ok w -> wakes w = Some l ->
  exists w', run (socket_poll_and_wake socket (mkInterests rs ws)) (qk, ns) =
      Done (mkInterests (if contains p POLLIN then [] else rs) (if contains p POLLOUT then [] else ws))
        (qk, (c, w')) /\
    wakes w' = Some (l ++ (if contains p POLLOUT then ws else []) ++
                          (if contains p POLLIN then rs else [])) /\
    wake_ok w'.
Proof.
  intros E Hok Hw. unfold socket_poll_and_wake. cbn [read_interests write_interests].
  rewrite run_bind, run_on_snd.
  replace (TcpSocket_poll socket _ _) with
    (TcpSocket_poll socket (asked_flags ws) (asked_timeout ws)) by (by destruct ws).
  rewrite E. cbn [obind]. rewrite run_bind, run_unwrap. cbn [obind]. rewrite run_bind.
  destruct (run_wake_tasks ws qk c w l Hok Hw) as (w1 & E1 & Hw1 & Hok1).
  destruct (contains p POLLOUT).
  - destruct (run_wake_tasks rs qk c w1 _ Hok1 Hw1) as (w2 & E2 & Hw2 & Hok2).
    rewrite run_bind, E1. cbn [obind]. rewrite run_ret. cbn [obind read_interests write_interests].
    rewrite <- app_assoc in Hw2. destruct (contains p POLLIN).
    + rewrite run_bind, E2. by exists w2.
    + exists w1. by rewrite app_nil_r.
  - destruct (run_wake_tasks rs qk c w l Hok Hw) as (w2 & E2 & Hw2 & Hok2).
    rewrite run_ret. cbn [obind read_interests write_interests app]. destruct (contains p POLLIN).
    + rewrite run_bind, E2. by exists w2.
    + exists w. by rewrite app_nil_r.
Qed.

(** C7: a round of the socket worker loses no interest and wakes no one twice.
    After the interests queued so far are taken in, the socket is polled for what
    is wanted (writability only if somebody wants to write, and then without a
    timeout); if it is readable exactly the readers are woken and forgotten, if
    it is writable exactly the writers; everybody else is kept for the next
    round, in order. *)
Theorem socket_round_serves socket rs ws (q : SyncQueue Interest) (k : K) (ns : NS) p c (w : W) l :
  let rs' := rs ++ readers (vals q) in
  let ws' := ws ++ writers (vals q) in
  run (TcpSocket_poll socket (asked_flags ws') (asked_timeout ws')) ns = Done (Ok p) (c, w) ->
  wake_ok w -> wakes w = Some l ->
  exists w',
    run (i ← socket_drain (mkInterests rs ws); socket_poll_and_wake socket i) (q, k, ns) =
      Done (mkInterests (if contains p POLLIN then [] else rs')
              (if contains p POLLOUT then [] else ws'))
        (set_vals [] q, k, (c, w')) /\
    wakes w' = Some (l ++ (if contains p POLLOUT then ws' else []) ++
                          (if contains p POLLIN then rs' else [])).
Proof.
  intros rs' ws' E Hok Hw.
  destruct (run_poll_and_wake socket rs' ws' (set_vals [] q, k) ns p c w l E Hok Hw)
    as (w' & Hr & Hw' & _).
  exists w'. split; [|done]. rewrite run_bind. unfold socket_drain.
  rewrite run_bind, run_on_fst, run_act. cbn [obind]. rewrite run_ret. cbn [obind].
  rewrite fold_push_interest. exact Hr.
Qed.

(** ** Sleeping *)

Inductive worker_pc : Type := AtWait | AtDrain | AtPoll.

(** A worker and the tasks that queue interests: [announced] counts interests
    that have been pushed but whose semaphore has not been released yet. *)
Record SockSys := mkSockSys {
  ss_state : NW;
  ss_interests : Interests;
  ss_pc : worker_pc;
  ss_announced : Z;
}.

Inductive sock_step (socket : TcpSocket) : SockSys -> SockSys -> Prop :=
| ss_push x q k ns i pc n qk' :
    run (add_push x) (q, k) = Done tt qk' ->
    sock_step socket (mkSockSys (q, k, ns) i pc n) (mkSockSys (qk', ns) i pc (n + 1))
| ss_release q k ns i pc n qk' :
    0 < n -> run add_release (q, k) = Done tt qk' ->
    sock_step socket (mkSockSys (q, k, ns) i pc n) (mkSockSys (qk', ns) i pc (n - 1))
| ss_elsewhere qk ns ns' i pc n :
    sock_step socket (mkSockSys (qk, ns) i pc n) (mkSockSys (qk, ns') i pc n)
| ss_wait st st' i n :
    run (socket_wait i) st = Done tt st' ->
    sock_step socket (mkSockSys st i AtWait n) (mkSockSys st' i AtDrain n)
| ss_drain st st' i i' n :
    run (socket_drain i) st = Done i' st' ->
    sock_step socket (mkSockSys st i AtDrain n) (mkSockSys st' i' AtPoll n)
| ss_poll st st' i i' n :
    run (socket_poll_and_wake socket i) st = Done i' st' ->
    sock_step socket (mkSockSys st i AtPoll n) (mkSockSys st' i' AtWait n).

(** Outside the drain, a non-empty queue has a unit to be taken, or one on its
    way. *)
Definition sock_inv (s : SockSys) : Prop :=
  let '(q, k) := fst (ss_state s) in
  exists c, queue_sem q k c /\ 0 <= ss_announced s /\
    (ss_pc s <> AtDrain -> vals q <> [] -> 0 < ss_announced s \/ 0 < c).

(** The poll leaves the queue alone. *)
Lemma wake_tasks_keeps_queue ts (qk : QK) (ns : NS) s' :
  run (wake_tasks ts) (qk, ns) = Done tt s' -> fst s' = qk.
Proof.
  revert ns. induction ts as [|t ts IH]; intros ns; cbn [wake_tasks].
  - rewrite run_ret. by intros [= <-].
  - rewrite run_bind, run_on_snd. destruct (run (on_snd _) ns); cbn [obind]; [|done..]. apply IH.
Qed.

Lemma poll_and_wake_keeps_queue socket i i' (qk : QK) (ns : NS) s' :
  run (socket_poll_and_wake socket i) (qk, ns) = Done i' s' -> fst s' = qk.
Proof.
  unfold socket_poll_and_wake. rewrite run_bind, run_on_snd.
  destruct (run (TcpSocket_poll _ _ _) ns) as [r ns1| | |]; cbn [obind]; [|done..].
  rewrite run_bind, run_unwrap. destruct r as [p|]; cbn [obind]; [|done].
  assert (forall ts j (ns : NS), match run (wake_tasks ts;; mret j : prog NW Interests) (qk, ns) with
    | Done _ s => fst s = qk | _ => True end) as Hw.
  { intros ts j ns2. rewrite run_bind. destruct (run (wake_tasks ts) (qk, ns2)) as [[] s2| | |] eqn:E;
      cbn [obind]; [|done..]. rewrite run_ret. by apply wake_tasks_keeps_queue in E. }
  rewrite run_bind. destruct (contains p POLLOUT).
  - specialize (Hw (write_interests i) (mkInterests (read_interests i) []) ns1).
    destruct (run (wake_tasks _;; _) _) as [j [qk2 ns2]| | |]; cbn [obind]; [|done..].
    cbn in Hw. subst qk2. destruct (contains p POLLIN); [|rewrite run_ret; by intros [= _ <-]].
    rewrite run_bind. destruct (run (wake_tasks _) _) as [[] s2| | |] eqn:E; cbn [obind]; [|done..].
    rewrite run_ret. intros [= _ <-]. by apply wake_tasks_keeps_queue in E.
  - rewrite run_ret. cbn [obind]. destruct (contains p POLLIN); [|rewrite run_ret; by intros [= _ <-]].
    rewrite run_bind. destruct (run (wake_tasks _) _) as [[] s2| | |] eqn:E; cbn [obind]; [|done..].
    rewrite run_ret. intros [= _ <-]. by apply wake_tasks_keeps_queue in E.
Qed.

(** The wait blocks only for want of a unit, and when there are no interests. *)
Lemma run_socket_wait i q (k : K) (ns : NS) c :
  queue_sem q k c ->
  (run (socket_wait i) (q, k, ns) = Blocked /\ is_empty i = true /\ c = 0) \/
  (exists k' c', run (socket_wait i) (q, k, ns) = Done tt (q, k', ns) /\ queue_sem q k' c').
Proof.
  intros Hq. unfold socket_wait. destruct (is_empty i).
  - rewrite run_bind, run_on_fst. pose proof (run_SyncQueue_wait q k c Hq) as Hw.
    case_decide.
    + left. by rewrite Hw.
    + destruct Hw as (k' & -> & Hq' & _). right. exists k', (c - 1). by rewrite obind_Done, obind_Done.
  - right. by exists k, c.
Qed.

Lemma sock_step_inv socket s s' : sock_step socket s s' -> sock_inv s -> sock_inv s'.
Proof.
  intros Hs. destruct Hs as [x q k ns i pc n qk' Hr|q k ns i pc n qk' Hn Hr|[q k]|[[q k] ns] st' i n Hr
    |[[q k] ns] st' i i' n Hr|[[q k] ns] st' i i' n Hr]; intros (c & Hq & Ha & Hi);
    cbn [ss_state ss_announced ss_pc ss_interests fst snd] in *.
  - rewrite run_add_push in Hr. simplify_eq. exists c. split; [done|]. cbn. split; [lia|]. intros _ _. left; lia.
  - destruct (run_add_release q k c Hq) as (rc & out & k' & _ & E & _ & Hc). rewrite E in Hr.
    simplify_eq. destruct Hc as [(_ & _ & Hq')|(_ & -> & ->)].
    + exists (c + 1). split; [done|]. cbn. split; [lia|]. intros _ _. destruct Hq. right; lia.
    + exists 255. split; [done|]. cbn. split; [lia|]. intros _ _. right; lia.
  - by exists c.
  - destruct (run_socket_wait i q k ns c Hq) as [(Hb & _)|(k' & c' & E & Hq')]; [congruence|].
    rewrite E in Hr. simplify_eq. by exists c'.
  - unfold socket_drain in Hr. rewrite run_bind, run_on_fst, run_act in Hr. cbn [obind] in Hr.
    rewrite run_ret in Hr. simplify_eq. by exists c.
  - apply poll_and_wake_keeps_queue in Hr. destruct st' as [[q' k'] ns']. cbn in *.
    injection Hr as -> ->. exists c. split; [done|]. split; [done|]. intros _. by apply Hi.
Qed.

(** C8: the worker of a socket goes to sleep only when nobody waits.  However
    pushes, releases and the worker's own steps interleave from a fresh queue on,
    if the worker has no interests and its wait blocks while no add is half done,
    the queue of interests is empty. *)
Theorem socket_worker_sleeps_only_when_idle socket k0 q (k : K) (ns : NS) s :
  created k0 q k ->
  rtc (sock_step socket) (mkSockSys (q, k, ns) no_interests AtWait 0) s ->
  ss_pc s = AtWait -> ss_announced s = 0 ->
  run (socket_wait (ss_interests s)) (ss_state s) = Blocked ->
  is_empty (ss_interests s) = true /\ vals (fst (fst (ss_state s))) = [].
Proof.
  intros Hc Hr Hpc Hn Hb.
  assert (sock_inv s) as Hi.
  { destruct (created_sem _ _ _ Hc) as [Hv Hq].
    assert (sock_inv (mkSockSys (q, k, ns) no_interests AtWait 0)) as H0i.
    { exists 0. split; [done|]. by split. }
    clear Hpc Hn Hb. revert H0i. induction Hr as [|s1 s2 s3 Hs _ IH]; [done|].
    intros Hs1. apply IH. by eapply sock_step_inv. }
  destruct s as [[[q' k'] ns'] i pc n]. cbn in *. subst. destruct Hi as (c & Hq & _ & Hi).
  destruct (run_socket_wait i q' k' ns' c Hq) as [(_ & He & ->)|(k1 & c1 & E & _)]; [|congruence].
  split; [done|]. destruct (vals q') as [|x l]; [done|]. exfalso.
  destruct Hi; [done|done|lia|lia].
Qed.

(** ** A task that would block *)

(** C25: a receive that would block is picked up.  If the socket has no data
    ([EAGAIN]) the poll of [Recv] is [Pending]; the idle worker then wakes up,
    polls the socket for input, and once the socket is readable wakes exactly
    the task that polled, and forgets it. *)
Theorem blocked_recv_is_woken socket data wk q (k : K) (ns ns1 : NS) u p c (w : W) l :
  queue_sem q k u -> vals q = [] ->
  run (TcpSocket_recv socket data) ns = Done (Err (LibcErr (errno_val EAGAIN))) ns1 ->
  run (TcpSocket_poll socket POLLIN SOCKET_POLL_TIMEOUT) ns1 = Done (Ok p) (c, w) ->
  contains p POLLIN = true -> wake_ok w -> wakes w = Some l ->
  exists qk' w',
    run (r ← Recv_poll socket data wk;
         i ← socket_worker_round socket no_interests;
         mret (fst r, i)) (q, k, ns) = Done (Pending, no_interests) (qk', (c, w')) /\
    wakes w' = Some (l ++ [from_waker wk]).
Proof.
  intros Hq Hv Hrecv Hpoll Hin Hok Hw.
  destruct (run_SyncQueue_add (from_waker wk, IRead) q k u Hq) as (k1 & u1 & E1 & Hq1 & Hu1 & _).
  rewrite Hv in E1, Hq1. cbn [app] in E1, Hq1.
  pose proof (run_SyncQueue_wait _ k1 u1 Hq1) as Hwait. case_decide; [lia|].
  destruct Hwait as (k2 & E2 & _).
  destruct (run_poll_and_wake socket [from_waker wk] [] (set_vals [] q, k2) ns1 p c w l
    Hpoll Hok Hw) as (w' & E3 & Hw' & _).
  rewrite Hin in E3, Hw'. exists (set_vals [] q, k2), w'.
  split; [|by destruct (contains p POLLOUT)].
  unfold Recv_poll. rewrite run_bind, run_bind, run_on_snd, Hrecv. cbn [obind].
  rewrite Z.eqb_refl, run_bind, run_on_fst, E1. cbn [obind]. rewrite run_ret. cbn [obind fst].
  unfold socket_worker_round. rewrite run_bind, run_bind. unfold socket_wait. cbn [is_empty no_interests read_interests write_interests].
  rewrite run_bind, run_on_fst, E2. cbn [obind]. rewrite run_unwrap. cbn [obind].
  rewrite run_bind. unfold socket_drain. rewrite run_bind, run_on_fst, run_act. cbn [obind].
  rewrite run_ret. cbn [obind]. rewrite fold_push_interest. cbn [vals set_vals].
  change (run (socket_poll_and_wake socket _) _) with
    (run (socket_poll_and_wake socket (mkInterests [from_waker wk] [])) (set_vals [] q, k2, ns1)).
  rewrite E3. cbn [obind]. rewrite run_ret. by destruct (contains p POLLOUT).
Qed.

End worker_props.

(** ** Concrete runs *)

Module WorkerDemo.

Import NetDemo.

(** A world that is its wake queue, and a service whose only socket is empty
    until it is polled. *)
#[export] Instance list_wake : WakeSink (list TaskToken) := {|
  wake_add t w := Done tt (w ++ [t]);
  wakes w := Some w;
  wake_ok _ := True;
|}.

#[export] Instance list_wake_laws : WakeSinkLaws (list TaskToken).
Proof. split; [|done]. intros t w l _ [= <-]. by eexists. Qed.

#[export] Instance quiet_service : SocService (list TaskToken) := {|
  memalign _ _ w := Done 0x8000000 w;
  svcCreateMemoryBlock _ _ _ _ w := Done (0, 21) w;
  srvGetServiceHandle _ w := Done (0, 22) w;
  socket_request _ m w :=
    match m with
    | SmRecvFrom _ _ _ _ _ _ _ => Done (Ok (SrRecvFrom 0 (-6) 0), mkSocOut [] [] []) w
    | SmPoll _ _ _ fds _ => Done (Ok (SrPoll 0 1), mkSocOut [] []
        ((fun f => mkPollFd (fd f) (poll_in f) POLLIN) <$> fds)) w
    | _ => Done (Err (CtruOs (-1)), mkSocOut [] [] []) w
    end;
|}.

#[local] Instance checked : Profile := true.

Definition sock : TcpSocket := mkTcpSocket home (mkSocketHandle 3).

Definition queue (l : list Interest) : SyncQueue Interest := mkSyncQueue 1 l.

Definition kern (c : Z) : RefKernel := mkRefKernel {[1 := (c, 255)]} 2.

Definition ns (w : list TaskToken) : option SocketService * list TaskToken := (Some soc, w).

(** A reader was kept, a reader and a writer are queued; the socket is readable. *)
Lemma round_witness : exists w',
  run (i ← socket_drain (mkInterests [mkToken 1] []); socket_poll_and_wake sock i)
    (queue [(mkToken 2, IWrite); (mkToken 3, IRead)], kern 2, ns []) =
  Done (mkInterests [] [mkToken 2]) (queue [], kern 2, (Some soc, w')) /\
  wakes w' = Some [mkToken 1; mkToken 3].
Proof.
  apply (socket_round_serves sock [mkToken 1] [] (queue [(mkToken 2, IWrite); (mkToken 3, IRead)])
    (kern 2) (ns []) POLLIN (Some soc) [] []); reflexivity.
Defined.

Lemma created_queue : created k_empty (queue []) (kern 0).
Proof. split; [by exists 1|reflexivity]. Qed.

(** An interest is queued and served; then the worker sleeps. *)
Lemma sleeps_witness :
  is_empty no_interests = true /\ vals (queue []) = [].
Proof.
  apply (socket_worker_sleeps_only_when_idle sock k_empty (queue []) (kern 0) (ns [])
    (mkSockSys (queue [], kern 0, ns [mkToken 3]) no_interests AtWait 0)).
  - exact created_queue.
  - eapply rtc_l; [by apply (ss_push sock (mkToken 3, IRead))|].
    eapply rtc_l; [by apply ss_release|].
    eapply rtc_l; [by eapply (ss_wait sock _ (queue [(mkToken 3, IRead)], kern 0, ns []))|].
    eapply rtc_l; [by eapply (ss_drain sock _ (queue [], kern 0, ns []) _ (mkInterests [mkToken 3] []))|].
    eapply rtc_l; [by eapply (ss_poll sock _ (queue [], kern 0, ns [mkToken 3]) _ no_interests)|].
    reflexivity.
  - reflexivity.
  - reflexivity.
  - reflexivity.
Defined.

Lemma recv_witness : exists qk' w',
  run (r ← Recv_poll sock [0; 0] (mkWaker 5);
       i ← socket_worker_round sock no_interests;
       mret (fst r, i)) (queue [], kern 0, ns []) = Done (Pending, no_interests) (qk', (Some soc, w')) /\
  wakes w' = Some [mkToken 5].
Proof.
  apply (blocked_recv_is_woken sock [0; 0] (mkWaker 5) (queue []) (kern 0) (ns []) (ns []) 0 POLLIN
    (Some soc) [] []); try reflexivity.
  by split.
Defined.

End WorkerDemo.
