(* ===== verification/Runtime.v ===== *)
(** * Start-up (src/lib.rs, src/fs/mod.rs, src/fs/async_pool.rs)

    [RuntimeConfiguration::run] and the initialisers it calls, on the statics of
    all components together. *)

From Stdlib Require Import ZArith Lia.
From stdpp Require Import base tactics list gmap numbers strings.
From S2P Require Import Prelude Err Kernel CtruUtils Executor ExecutorSys Join Sync Oneshot Lock Reactor CtruThread FsTypes FsSync FsAsync NetSync NetProps.

(** [tunables] *)
Definition REACTOR_STACK_SIZE : Z := 1024 * 1024.

Definition EXECUTOR_STACK_SIZE : Z := 1024 * 1024.

Record RuntimeConfiguration := mkRuntimeConfiguration {
  fs_workers : nat;
  enable_soc : bool;
}.

(** The runtime is the handles of its two threads. *)
Record Runtime := mkRuntime {
  reactor_thread : Z;
  executor_thread : Z;
}.

(** The statics, the kernel and the rest of the system. *)
Record RtWorld (K Fut W : Type) := mkRt {
  rt_exec : World K Fut W;
  rt_reactor_port : option Z;
  rt_pool : option (SyncQueue AsyncFsMsg);
  FS_SESSION : option Filesystem;
  SDMC_ARCHIVE_HANDLE : option ArchiveHandle;
  rt_soc : option SocketService;
}.

Arguments mkRt {K Fut W} rt_exec rt_reactor_port rt_pool FS_SESSION SDMC_ARCHIVE_HANDLE rt_soc.
Arguments rt_exec {K Fut W} r.
Arguments rt_reactor_port {K Fut W} r.
Arguments rt_pool {K Fut W} r.
Arguments FS_SESSION {K Fut W} r.
Arguments SDMC_ARCHIVE_HANDLE {K Fut W} r.
Arguments rt_soc {K Fut W} r.

(** What start-up asks of the system besides the services: threads with a given
    stack ([None] when they cannot be created), sessions of the executor's port,
    and libctru's session of the file service. *)
Class RtSys (W : Type) := {
  spawn_std_thread : option Z -> W -> outcome W (option Z);
  port_make_session : Z -> W -> outcome W (Result Z CtruError);
  fsGetSessionHandle : W -> Z;
}.

Section runtime.
Context {K Fut W Srv : Type} `{Semaphores K} `{Arbiter W} `{FsService W} `{SocService W}
  `{IpcServer Srv W} `{RtSys W} `{CtruSys} `{Libc} `{NetLib} `{Profile}.

Abbreviation RW := (RtWorld K Fut W).

Definition set_exec (e : World K Fut W) (s : RW) : RW :=
  mkRt e (rt_reactor_port s) (rt_pool s) (FS_SESSION s) (SDMC_ARCHIVE_HANDLE s) (rt_soc s).

Definition set_env (w : W) (s : RW) : RW :=
  set_exec (mkWorld (TASK_QUEUE (rt_exec s)) (WAKE_QUEUE (rt_exec s)) (EXECUTOR_PORT (rt_exec s))
    (w_kern (rt_exec s)) w) s.

Definition set_soc (x : option SocketService) (s : RW) : RW :=
  mkRt (rt_exec s) (rt_reactor_port s) (rt_pool s) (FS_SESSION s) (SDMC_ARCHIVE_HANDLE s) x.

Definition set_pool (x : option (SyncQueue AsyncFsMsg)) (s : RW) : RW :=
  mkRt (rt_exec s) (rt_reactor_port s) x (FS_SESSION s) (SDMC_ARCHIVE_HANDLE s) (rt_soc s).

Definition set_fs (x : option Filesystem) (s : RW) : RW :=
  mkRt (rt_exec s) (rt_reactor_port s) (rt_pool s) x (SDMC_ARCHIVE_HANDLE s) (rt_soc s).

Definition set_sdmc (x : option ArchiveHandle) (s : RW) : RW :=
  mkRt (rt_exec s) (rt_reactor_port s) (rt_pool s) (FS_SESSION s) x (rt_soc s).

Definition on_exec {A} (p : prog (World K Fut W) A) : prog RW A := zoom rt_exec set_exec p.

Definition on_env {A} (p : prog W A) : prog RW A := zoom (fun s => w_env (rt_exec s)) set_env p.

Definition on_soc {A} (p : prog (option SocketService * W) A) : prog RW A :=
  zoom (fun s => (rt_soc s, w_env (rt_exec s))) (fun x s => set_soc (fst x) (set_env (snd x) s)) p.

Definition unwrap_res {S A Er} (r : Result A Er) : prog S A :=
  unwrap (match r with Ok a => Some a | Err _ => None end).

(** *** The file system *)

(** The loop that starts the workers: a session and a thread for each. *)
Fixpoint start_workers (n : nat) (port : Z) : prog RW unit :=
  match n with
  | O => mret tt
  | S n =>
      r ← on_env (act (port_make_session port));
      unwrap_res r;;
      t ← on_env (act (spawn_std_thread None));
      unwrap t;;
      start_workers n port
  end.

Definition init_pool (workers : nat) : prog RW unit :=
  q ← on_exec (zoom w_kern put_kern SyncQueue_new);
  set ← gets rt_pool;
  match set with
  | Some _ => panic
  | None =>
      modify (set_pool (Some q));;
      port ← gets (fun s => EXECUTOR_PORT (rt_exec s));
      port ← unwrap port;
      start_workers workers port
  end.

Definition init_sdmc (archive_fs_workers : nat) : prog RW ArchiveHandle :=
  fs ← gets (fun s => default (Filesystem_from_raw (fsGetSessionHandle (w_env (rt_exec s))))
                        (FS_SESSION s));
  modify (set_fs (Some fs));;
  init_pool archive_fs_workers;;
  h ← gets SDMC_ARCHIVE_HANDLE;
  match h with
  | Some h => mret h
  | None =>
      r ← on_env (open_archive fs SDMC Empty);
      h ← unwrap_res r;
      modify (set_sdmc (Some h));;
      mret h
  end.

(** [fs::open] *)
Definition fs_open (path : list Z) (flags : OpenFlags) : prog RW (BunnyResult AsyncFile) :=
  fs ← gets FS_SESSION;
  fs ← unwrap fs;
  archive ← gets SDMC_ARCHIVE_HANDLE;
  archive ← unwrap archive;
  file ←? on_env (open_file fs archive (DSPath_from_u16 path) flags);
  mret (Ok (AsyncFile_wrap file)).

(** *** The runtime *)

Variable ipc : K -> outcome K (Result Z CtruError).

(** [run_thread] of the executor and of the reactor: a thread with its stack. *)
Definition run_thread (stack : Z) : prog RW Z :=
  t ← on_env (act (spawn_std_thread (Some stack)));
  unwrap t.

Definition new_reactor : prog RW Srv :=
  zoom (fun s => (rt_reactor_port s, w_env (rt_exec s)))
    (fun x s => set_env (snd x) (mkRt (rt_exec s) (fst x) (rt_pool s) (FS_SESSION s)
       (SDMC_ARCHIVE_HANDLE s) (rt_soc s))) Reactor_new.

Definition RuntimeConfiguration_run (cfg : RuntimeConfiguration) : prog RW Runtime :=
  r ← on_env sync_init;
  unwrap_res r;;
  executor ← on_exec (Executor_new ipc);
  reactor ← new_reactor;
  executor_thread ← run_thread EXECUTOR_STACK_SIZE;
  reactor_thread ← run_thread REACTOR_STACK_SIZE;
  (if enable_soc cfg then r ← on_soc net_init; unwrap_res r else mret tt);;
  init_sdmc (fs_workers cfg);;
  mret (mkRuntime reactor_thread executor_thread).

End runtime.

(** ** Start-up succeeds on a system that grants what it is asked for *)

(** A system in a state [sys_good] grants a request and stays good. *)
Class RtGrants (K W Srv : Type) (ipc : K -> outcome K (Result Z CtruError))
    `{Semaphores K} `{Arbiter W} `{FsService W} `{SocService W} `{IpcServer Srv W} `{RtSys W} := {
  kern_good : K -> Prop;
  sys_good : W -> Prop;
  grant_semaphore : forall k, kern_good k ->
    exists h k', svcCreateSemaphore 0 255 k = Done (0, h) k' /\ kern_good k';
  grant_ipc : forall k, kern_good k -> exists p k', ipc k = Done (Ok p) k' /\ kern_good k';
  grant_arbiter : forall w, sys_good w ->
    exists h w', svcCreateAddressArbiter w = Done (0, h) w' /\ sys_good (set_ADDRESS_ARBITER h w');
  grant_server : forall w, sys_good w ->
    exists srv w', IPCServer_new w = Done (Ok (srv : Srv)) w' /\ sys_good w';
  grant_thread : forall st w, sys_good w ->
    exists t w', spawn_std_thread st w = Done (Some t) w' /\ sys_good w';
  grant_session : forall p w, sys_good w ->
    exists s w', port_make_session p w = Done (Ok s) w' /\ sys_good w';
  grant_soc : forall w, sys_good w -> exists a b h o w1 w2 w3 w4,
    memalign 0x1000 0x100000 w = Done a w1 /\
    svcCreateMemoryBlock (as_u32 a) 0x100000 0 3 w1 = Done (0, b) w2 /\
    srvGetServiceHandle "soc:U" w2 = Done (0, h) w3 /\
    socket_request h (SmInitialize 0x100000 0 b) w3 = Done (Ok (SrInit 0), o) w4 /\ sys_good w4;
  grant_archive : forall s w, sys_good w -> exists a w',
    fs_user_request s (MOpenArchive SDMC (DSPath_as_ser Empty)) w = Done (Ok (ROpenArchive 0 a)) w' /\
    sys_good w';
}.

Section runtime_props.
Context {K Fut W Srv : Type} (ipc : K -> outcome K (Result Z CtruError)).
Context `{SemaphoreLaws K} `{Arbiter W} `{FsService W} `{SocService W} `{IpcServer Srv W} `{RtSys W}.
Context `{CtruSysLaws} `{Libc} `{NetLib} `{Profile} `{!RtGrants K W Srv ipc}.

Abbreviation RW := (RtWorld K Fut W).

Lemma run_on_exec {A} (p : prog (World K Fut W) A) (s : RW) :
  run (on_exec p) s =
  obind (run p (rt_exec s)) (fun e => set_exec e s) (fun a e => Done a (set_exec e s)).
Proof. unfold on_exec. rewrite run_zoom; [done..|]. by destruct s. Qed.

Lemma run_on_env {A} (p : prog W A) (s : RW) :
  run (on_env p) s =
  obind (run p (w_env (rt_exec s))) (fun w => set_env w s) (fun a w => Done a (set_env w s)).
Proof. unfold on_env. rewrite run_zoom; [done..|]. by destruct s as [[]]. Qed.

Lemma run_on_soc {A} (p : prog (option SocketService * W) A) (s : RW) :
  run (on_soc p) s =
  obind (run p (rt_soc s, w_env (rt_exec s)))
    (fun x => set_soc (fst x) (set_env (snd x) s)) (fun a x => Done a (set_soc (fst x) (set_env (snd x) s))).
Proof. unfold on_soc. rewrite run_zoom; [done| | |]; [by intros []|by intros [] []|by destruct s as [[]]]. Qed.

(** States of a good system. *)
Definition good (s : RW) : Prop := kern_good (w_kern (rt_exec s)) /\ sys_good (w_env (rt_exec s)).

Lemma set_env_twice w w' (s : RW) : set_env w' (set_env w s) = set_env w' s.
Proof. done. Qed.

Lemma run_grant {A} (f : W -> outcome W A) (s : RW) a w' :
  f (w_env (rt_exec s)) = Done a w' ->
  run (on_env (act f)) s = Done a (set_env w' s).
Proof. intros E. by rewrite run_on_env, run_act, E. Qed.

Lemma run_unwrap_res {S A Er} (a : A) (s : S) : run (unwrap_res (@Ok A Er a)) s = Done a s.
Proof. done. Qed.

Lemma run_run_thread st (s : RW) :
  good s -> exists t w', run (run_thread st) s = Done t (set_env w' s) /\ sys_good w'.
Proof.
  intros [_ Hw]. destruct (grant_thread (Some st) _ Hw) as (t & w' & E & Hw').
  exists t, w'. split; [|done]. unfold run_thread. rewrite run_bind, (run_grant _ _ _ _ E).
  cbn [obind]. by rewrite run_unwrap.
Qed.

Lemma run_start_workers n port (s : RW) :
  good s -> exists w', run (start_workers n port) s = Done tt (set_env w' s) /\ sys_good w'.
Proof.
  revert s. induction n as [|n IH]; intros s [Hk Hw]; cbn [start_workers].
  - exists (w_env (rt_exec s)). rewrite run_ret. split; [|done]. by destruct s as [[]].
  - destruct (grant_session port _ Hw) as (x & w1 & E1 & Hw1).
    destruct (grant_thread None _ Hw1) as (t & w2 & E2 & Hw2).
    destruct (IH (set_env w2 (set_env w1 s))) as (w3 & E3 & Hw3); [done|].
    exists w3. split; [|done]. rewrite run_bind, (run_grant _ _ _ _ E1). cbn [obind].
    rewrite run_bind, run_unwrap_res. cbn [obind].
    rewrite run_bind, (run_grant _ (set_env w1 s) _ _ E2). cbn [obind].
    rewrite run_bind, run_unwrap. cbn [obind]. by rewrite E3.
Qed.

(** The pool starts empty, on a semaphore of its own, with its workers. *)
Lemma run_init_pool n (s : RW) port :
  good s -> rt_pool s = None -> EXECUTOR_PORT (rt_exec s) = Some port ->
  exists q k' w', run (init_pool n) s =
      Done tt (set_env w' (set_pool (Some q) (set_exec (put_kern k' (rt_exec s)) s))) /\
    created (w_kern (rt_exec s)) q k' /\ kern_good k' /\ sys_good w'.
Proof.
  intros [Hk Hw] Hp Hport. destruct (grant_semaphore _ Hk) as (h & k' & E & Hk').
  assert (run SyncQueue_new (w_kern (rt_exec s)) = Done (mkSyncQueue (T:=AsyncFsMsg) h []) k') as Eq.
  { unfold SyncQueue_new. rewrite run_bind, run_act, E. cbn [obind]. by rewrite run_ret. }
  destruct (run_start_workers n port
    (set_pool (Some (mkSyncQueue h [])) (set_exec (put_kern k' (rt_exec s)) s)))
    as (w' & Ew & Hw'); [by split|].
  exists (mkSyncQueue h []), k', w'. split_and!; [|by split; [exists h|]|done|done].
  unfold init_pool. rewrite run_bind, run_on_exec, run_on_kern, Eq. cbn [obind].
  rewrite run_bind, run_gets. cbn [obind set_exec rt_pool]. rewrite Hp.
  rewrite run_bind, run_modify. cbn [obind]. rewrite run_bind, run_gets. cbn [obind].
  cbn [set_pool set_exec rt_exec put_kern EXECUTOR_PORT]. rewrite Hport.
  rewrite run_bind, run_unwrap. cbn [obind]. exact Ew.
Qed.

Lemma run_open_sdmc fs (w : W) :
  sys_good w -> exists a w', run (open_archive fs SDMC Empty) w = Done (Ok a) w' /\ sys_good w'.
Proof.
  intros Hw. destruct (grant_archive (fs_inner fs) w Hw) as (a & w' & E & Hw').
  exists a, w'. split; [|done]. unfold open_archive, user_call. run_simpl. rewrite E.
  cbn [obind]. run_simpl. unfold ds_try_bunny. rewrite ds_try_0. by run_simpl.
Qed.

Lemma run_init_sdmc n (s : RW) port :
  good s -> rt_pool s = None -> SDMC_ARCHIVE_HANDLE s = None ->
  EXECUTOR_PORT (rt_exec s) = Some port ->
  exists fs a q k' w', run (init_sdmc n) s =
      Done a (mkRt (mkWorld (TASK_QUEUE (rt_exec s)) (WAKE_QUEUE (rt_exec s))
                (EXECUTOR_PORT (rt_exec s)) k' w')
                (rt_reactor_port s) (Some q) (Some fs) (Some a) (rt_soc s)) /\
    created (w_kern (rt_exec s)) q k' /\ sys_good w'.
Proof.
  intros Hg Hp Ha Hport.
  set (fs := default (Filesystem_from_raw (fsGetSessionHandle (w_env (rt_exec s)))) (FS_SESSION s)).
  destruct (run_init_pool n (set_fs (Some fs) s) port) as (q & k' & w1 & E1 & Hc & _ & Hw1); [done..|].
  destruct (run_open_sdmc fs w1 Hw1) as (a & w' & E2 & Hw').
  exists fs, a, q, k', w'. split_and!; [|done|done].
  unfold init_sdmc. rewrite run_bind, run_gets. cbn [obind]. fold fs.
  rewrite run_bind, run_modify. cbn [obind]. rewrite run_bind, E1. cbn [obind].
  rewrite run_bind, run_gets. cbn [obind].
  cbn [set_env set_exec set_pool set_fs SDMC_ARCHIVE_HANDLE]. rewrite Ha.
  rewrite run_bind, run_on_env.
  match goal with |- context [run (open_archive _ _ _) ?x] => change x with w1 end.
  rewrite E2. cbn [obind].
  rewrite run_bind, run_unwrap_res. cbn [obind].
  rewrite run_bind, run_modify. cbn [obind]. by rewrite run_ret.
Qed.

Lemma run_sync_init (w : W) :
  sys_good w -> exists w', run sync_init w = Done (Ok tt) w' /\ sys_good w'.
Proof.
  intros Hw. destruct (grant_arbiter w Hw) as (h & w' & E & Hw').
  exists (set_ADDRESS_ARBITER h w'). split; [|done]. unfold sync_init. run_simpl. rewrite E.
  cbn [obind]. run_simpl. unfold ds_try_bunny. rewrite ds_try_0. by run_simpl.
Qed.

Lemma run_net_init (w : W) :
  sys_good w -> exists svc w', run net_init (None, w) = Done (Ok tt) (Some svc, w') /\ sys_good w'.
Proof.
  intros Hw. destruct (grant_soc w Hw) as (a & b & h & o & w1 & w2 & w3 & w4 & E1 & E2 & E3 & E4 & Hw4).
  exists (mkSocketService b h), w4. split; [|done].
  unfold net_init, SocketService_init, ds_try_bunny. change (as_u32 0x100000) with 0x100000.
  run_simpl. rewrite E1. cbn [obind]. run_simpl. rewrite E2. run_simpl. rewrite ds_try_0. run_simpl.
  rewrite E3. run_simpl. rewrite ds_try_0. rewrite run_try_bind, (run_request_out _ _ _ _ _ _ _ E4).
  run_simpl. rewrite ds_try_0. by run_simpl.
Qed.

Lemma run_new_reactor (s : RW) :
  good s -> exists srv w', run new_reactor s = Done (srv : Srv) (set_env w' s) /\ sys_good w'.
Proof.
  intros [_ Hw]. destruct (grant_server _ Hw) as (srv & w' & E & Hw'). exists srv, w'.
  split; [|done]. unfold new_reactor, Reactor_new.
  rewrite run_zoom; [|by intros []|by intros [] []|by destruct s as [[]]].
  rewrite run_bind, run_on_snd, run_act, E. cbn [obind]. rewrite run_unwrap. cbn [obind].
  by destruct s as [[]].
Qed.

(** What start-up sets besides the executor's statics. *)
Lemma run_soc_part (b : bool) (s : RW) :
  good s -> rt_soc s = None ->
  exists svc w',
    run (if b then r ← on_soc net_init; unwrap_res r else mret tt) s =
      Done tt (set_soc svc (set_env w' s)) /\
    (is_Some svc <-> b = true) /\ sys_good w'.
Proof.
  intros [Hk Hw] Hs. destruct b.
  - destruct (run_net_init _ Hw) as (svc & w' & E & Hw'). exists (Some svc), w'.
    split; [|split; [by split; [|eexists]|done]].
    rewrite run_bind, run_on_soc, Hs, E. cbn [obind fst snd].
    by rewrite run_unwrap_res.
  - exists None, (w_env (rt_exec s)). split; [|split; [split; [by intros []|done]|done]].
    rewrite run_ret. destruct s as [[] ? ? ? ? ?]. cbn in *. by subst.
Qed.

Lemma run_executor_part (s : RW) :
  good s -> TASK_QUEUE (rt_exec s) = None -> WAKE_QUEUE (rt_exec s) = None ->
  EXECUTOR_PORT (rt_exec s) = None ->
  exists ex e tq wq port, run (on_exec (Executor_new ipc)) s = Done ex (set_exec e s) /\
    world_at e tq wq 0 0 /\ vals tq = [] /\ vals wq = [] /\ EXECUTOR_PORT e = Some port /\
    good (set_exec e s).
Proof.
  intros [Hk Hw] Ht Hwq Hp. destruct (grant_ipc _ Hk) as (port & k1 & Ei & Hk1).
  destruct (grant_semaphore _ Hk1) as (h1 & k2 & E1 & Hk2).
  destruct (grant_semaphore _ Hk2) as (h2 & k3 & E2 & Hk3).
  assert (forall T k h k', svcCreateSemaphore 0 255 k = Done (0, h) k' ->
    created k (mkSyncQueue (T:=T) h []) k') as Hcr.
  { intros T k h k' E. split; [by exists h|]. unfold SyncQueue_new.
    by rewrite run_bind, run_act, E. }
  destruct (run_Executor_new ipc (rt_exec s) port k1 (mkSyncQueue h1 []) k2 (mkSyncQueue h2 []) k3)
    as (e & E & Hat & Vt & Vw & He & Hk' & Hport); [done..|by apply Hcr|by apply Hcr|].
  eexists _, e, _, _, port. split_and!; [by rewrite run_on_exec, E|done|done|done|by apply Hport|].
  split; cbn; [by rewrite Hk'|by rewrite He].
Qed.

(** C10: start-up on a fresh process succeeds if the system grants what it asks
    for, and leaves everything the rest of the library unwraps in place: both
    executor queues, empty, on distinct semaphores without units; the executor's
    port; the pool's queue, empty, with no unit; the file service and the SD card
    archive; and the socket service exactly if it was enabled.  The port of the
    reactor is still unset: it is the reactor thread that sets it. *)
Theorem runtime_starts cfg (k : K) (w : W) :
  kern_good k -> sys_good w ->
  exists rt (s : RW) tq wq q kp,
    run (RuntimeConfiguration_run ipc cfg)
      (mkRt (mkWorld None None None k w) None None None None None) = Done rt s /\
    TASK_QUEUE (rt_exec s) = Some tq /\ WAKE_QUEUE (rt_exec s) = Some wq /\
    semaphore_handle tq <> semaphore_handle wq /\ vals tq = [] /\ vals wq = [] /\
    is_Some (EXECUTOR_PORT (rt_exec s)) /\
    rt_pool s = Some q /\ created kp q (w_kern (rt_exec s)) /\
    is_Some (FS_SESSION s) /\ is_Some (SDMC_ARCHIVE_HANDLE s) /\
    (is_Some (rt_soc s) <-> enable_soc cfg = true) /\ rt_reactor_port s = None.
Proof.
  intros Hk Hw. set (s0 := mkRt _ _ _ _ _ _).
  destruct (run_sync_init w Hw) as (w1 & E1 & Hw1).
  destruct (run_executor_part (set_env w1 s0)) as (ex & e & tq & wq & port & E2 & Hat & Vt & Vw & Hp & Hg2);
    [done..|].
  destruct (run_new_reactor (set_exec e (set_env w1 s0)) Hg2) as (srv & w3 & E3 & Hw3).
  destruct (run_run_thread EXECUTOR_STACK_SIZE (set_env w3 (set_exec e (set_env w1 s0))))
    as (t1 & w4 & E4 & Hw4); [by destruct Hg2|].
  destruct (run_run_thread REACTOR_STACK_SIZE (set_env w4 (set_exec e (set_env w1 s0))))
    as (t2 & w5 & E5 & Hw5); [by destruct Hg2|].
  destruct (run_soc_part (enable_soc cfg) (set_env w5 (set_exec e (set_env w1 s0))))
    as (svc & w6 & E6 & Hsvc & Hw6); [by destruct Hg2|done|].
  destruct (run_init_sdmc (fs_workers cfg) (set_soc svc (set_env w6 (set_exec e (set_env w1 s0)))) port)
    as (fs & a & q & k' & w7 & E7 & Hc & Hw7); [by destruct Hg2|done..|].
  eexists _, _, tq, wq, q, _. split.
  - unfold RuntimeConfiguration_run. rewrite run_bind, run_on_env.
    change (w_env (rt_exec s0)) with w. rewrite E1. cbn [obind].
    rewrite run_bind, run_unwrap_res. cbn [obind]. rewrite run_bind, E2. cbn [obind].
    rewrite run_bind, E3. cbn [obind]. rewrite run_bind, E4. cbn [obind].
    rewrite run_bind, set_env_twice, E5. cbn [obind].
    rewrite run_bind, set_env_twice, E6. cbn [obind].
    rewrite run_bind, set_env_twice, E7. cbn [obind]. by rewrite run_ret.
  - destruct Hat as [Ht Hwq _ _ Hne].
    split_and!; [exact Ht|exact Hwq|exact Hne|exact Vt|exact Vw|by exists port|done|exact Hc|
      by eexists|by eexists|exact Hsvc|done].
Qed.

End runtime_props.

(** ** A concrete start *)

Module RuntimeDemo.

(** A system with one state that grants everything. *)
Inductive Sys : Type := sys.

#[export] Instance sys_arbiter : Arbiter Sys := {|
  ADDRESS_ARBITER _ := 5;
  set_ADDRESS_ARBITER _ w := w;
  svcCreateAddressArbiter w := Done (0, 5) w;
  svcArbitrateAddressNoTimeout _ _ _ _ _ w := Done 0 w;
|}.

#[export] Instance sys_fs : FsService Sys := {|
  fs_user_request _ _ w := Done (Ok (ROpenArchive 0 (mkArchiveHandle 9))) w;
  file_request _ _ w := Done (Ok (RFlush 0), []) w;
|}.

#[export] Instance sys_soc : SocService Sys := {|
  memalign _ _ w := Done 0x8000000 w;
  svcCreateMemoryBlock _ _ _ _ w := Done (0, 21) w;
  srvGetServiceHandle _ w := Done (0, 22) w;
  socket_request _ _ w := Done (Ok (SrInit 0), mkSocOut [] [] []) w;
|}.

#[export] Instance sys_ipc : IpcServer unit Sys := {|
  IPCServer_new w := Done (Ok tt) w;
  ipc_client _ := 40;
  add_handle_to_list _ s := s;
|}.

#[export] Instance sys_rt : RtSys Sys := {|
  spawn_std_thread _ w := Done (Some 7) w;
  port_make_session _ w := Done (Ok 8) w;
  fsGetSessionHandle _ := 6;
|}.

#[export] Instance sys_grants : RtGrants RefKernel Sys unit Demo.ipc.
Proof.
  refine {| kern_good k := forall h, rk_next k <= h -> rk_sems k !! h = None;
            sys_good _ := True |}; try (intros; by repeat eexists).
  - intros k Hk. cbn. rewrite (Hk (rk_next k)) by lia. eexists _, _. split; [done|].
    cbn. intros h Hh. rewrite lookup_insert_ne by lia. apply Hk. lia.
Defined.

Import NetDemo.

#[local] Instance checked : Profile := true.

Lemma start_witness : exists rt (s : RtWorld RefKernel Demo.Idle Sys),
  run (RuntimeConfiguration_run Demo.ipc (mkRuntimeConfiguration 2 true))
    (mkRt (mkWorld None None None k_empty sys) None None None None None) = Done rt s /\
  is_Some (rt_soc s) /\ rt_reactor_port s = None.
Proof.
  destruct (runtime_starts (Fut:=Demo.Idle) Demo.ipc (mkRuntimeConfiguration 2 true) k_empty sys)
    as (rt & s & tq & wq & q & kp & Hr & _ & _ & _ & _ & _ & _ & _ & _ & _ & _ & Hs & Hp).
  - intros h _. reflexivity.
  - exact I.
  - exists rt, s. split; [exact Hr|]. split; [by apply Hs|exact Hp].
Defined.

End RuntimeDemo.
